(** * The bcachefs superblock subsystem (libbcachefs/super-io.c)

    A shallow embedding of the superblock code: the layout validator, the
    buffer manager, the field directory, the superblock validator, the read
    and write paths and the replica index, followed by the properties the
    specification states about them.

    Conventions.  C integers are [Z] with the wrap-around written out
    ([u8], [u16], [u32], [u64]).  A [const char *] error result is an
    [option string], [None] standing for [NULL].  The variable-length tail
    of a superblock ([__le64 _data[0]]) is a function from word index to
    64-bit word.  Constants, macros and struct layouts of headers that are
    not part of the sources at hand are collected in the class [Format]. *)

From stdpp Require Import base list gmap strings.
From Stdlib Require Import ZArith Lia Bool Permutation Sorting.Sorted.

Local Open Scope string_scope.
Local Open Scope Z_scope.

(** ** Machine integers *)

Definition u8 (x : Z) : Z := x mod 2 ^ 8.
Definition u16 (x : Z) : Z := x mod 2 ^ 16.
Definition u32 (x : Z) : Z := x mod 2 ^ 32.
Definition u64 (x : Z) : Z := x mod 2 ^ 64.

(** [int]: 32 bits, two's complement. *)
Definition s32 (x : Z) : Z :=
  let y := x mod 2 ^ 32 in if y <? 2 ^ 31 then y else y - 2 ^ 32.

Definition UINT_MAX : Z := 2 ^ 32 - 1.
Definition LONG_MAX : Z := 2 ^ 63 - 1.

(** Little-endian fields are kept decoded; the conversions only truncate. *)
Definition le16_to_cpu (x : Z) : Z := u16 x.
Definition le32_to_cpu (x : Z) : Z := u32 x.
Definition le64_to_cpu (x : Z) : Z := u64 x.
Definition cpu_to_le32 (x : Z) : Z := u32 x.

(** [a << b] on [int] operands.  C defines the shift only while the count
    is below 32 and the result fits in [int]; beyond, the model does what
    the x86 shift instruction of the compiled code does: the count is taken
    modulo 32 and the result truncated to 32 bits. *)
Definition shl_int (a b : Z) : Z := s32 (Z.shiftl a (Z.land b 31)).

(** [is_power_of_2] of linux/log2.h: [n != 0 && (n & (n - 1)) == 0]. *)
Definition is_power_of_2 (n : Z) : bool :=
  negb (n =? 0) && (Z.land n (n - 1) =? 0).

Definition DIV_ROUND_UP (n d : Z) : Z := (n + d - 1) / d.

(** errno values (asm-generic/errno-base.h). *)
Definition ENOMEM : Z := 12.
Definition ENOSPC : Z := 28.

(** A [uuid_le] is its 128-bit value; [uuid_le_cmp] is [memcmp], used only
    as a truth value (non-zero when the two differ). *)
Definition uuid_le : Type := Z.
Definition uuid_le_cmp (a b : uuid_le) : bool := negb (a =? b).
Definition bch2_is_zero (u : uuid_le) : bool := u =? 0.

(** ** On-disk records *)

(** [struct bch_sb_layout]: the 512-byte directory of superblock copies.
    [sb_offset] is the whole array; reading it at an index is [sb_offset_at]. *)
Record bch_sb_layout := {
  l_magic : uuid_le;
  layout_type : Z;
  sb_max_size_bits : Z;
  nr_superblocks : Z;
  sb_offset : list Z
}.

Definition sb_offset_at (layout : bch_sb_layout) (i : Z) : Z :=
  nth (Z.to_nat i) (sb_offset layout) 0.

(** [struct bch_csum]. *)
Record bch_csum := { csum_lo : Z; csum_hi : Z }.

Definition bch2_crc_cmp (l r : bch_csum) : bool :=
  negb ((csum_lo l =? csum_lo r) && (csum_hi l =? csum_hi r)).

(** [struct bch_sb]: the fixed header and the field area [_data], an array of
    64-bit words of which the first [u64s] belong to the image. *)
Record bch_sb := {
  csum : bch_csum;
  version : Z;
  magic : uuid_le;
  uuid : uuid_le;
  user_uuid : uuid_le;
  label : list Z;
  offset : Z;
  seq : Z;
  block_size : Z;
  dev_idx : Z;
  nr_devices : Z;
  u64s : Z;
  time_base_lo : Z;
  time_base_hi : Z;
  time_precision : Z;
  flags : list Z;
  features : list Z;
  compat : list Z;
  layout : bch_sb_layout;
  _data : Z -> Z
}.

(** [struct bch_member_cpu], the decoded member entry. *)
Record bch_member_cpu := {
  nbuckets : Z;
  first_bucket : Z;
  bucket_size : Z;
  mi_valid : bool
}.

(** [struct bch_replicas_cpu_entry]: one byte of data type and a bitmap of
    [entry_size - 1] bytes; [struct bch_replicas_cpu] is the array of them. *)
Record bch_replicas_cpu_entry := {
  e_data_type : Z;
  e_devs : list Z
}.

Record bch_replicas_cpu := {
  r_nr : Z;
  r_entry_size : Z;
  r_entries : list bch_replicas_cpu_entry
}.

(** ** Constants and layouts of the format headers

    bcachefs_format.h, super-io.h, checksum.h and the kernel headers are
    not among the sources; what the code uses of them is a parameter. *)
Class Format := {
  BCACHE_MAGIC : uuid_le;
  BCACHE_SB_VERSION_CDEV_V4 : Z;
  BCH_SB_SECTOR : Z;
  BCH_SB_LAYOUT_SECTOR : Z;
  (** [ARRAY_SIZE(layout->sb_offset)] *)
  SB_OFFSET_ARRAY_SIZE : Z;
  BCH_SB_MEMBERS_MAX : Z;
  BCH_REPLICAS_MAX : Z;
  BCH_SB_FIELD_journal : Z;
  BCH_SB_FIELD_members : Z;
  BCH_SB_FIELD_replicas : Z;
  BCH_SB_FIELD_NR : Z;
  BCH_DATA_JOURNAL : Z;
  BCH_DATA_BTREE : Z;
  BCH_DATA_USER : Z;
  BCH_DATA_NR : Z;
  BCH_CSUM_NR : Z;
  BTREE_NODE_SIZE_MAX : Z;
  NSEC_PER_SEC : Z;
  PAGE_SIZE : Z;
  PAGE_SECTORS : Z;
  (** [offsetof(struct bch_sb, _data)] *)
  SB_HEADER_BYTES : Z;
  (** the bit fields of [flags] read by the validator *)
  BCH_SB_INITIALIZED : bch_sb -> Z;
  BCH_SB_CSUM_TYPE : bch_sb -> Z;
  SET_BCH_SB_CSUM_TYPE : bch_sb -> Z -> bch_sb;
  BCH_SB_BTREE_NODE_SIZE : bch_sb -> Z;
  BCH_SB_GC_RESERVE : bch_sb -> Z;
  BCH_SB_META_REPLICAS_WANT : bch_sb -> Z;
  BCH_SB_META_REPLICAS_REQ : bch_sb -> Z;
  BCH_SB_DATA_REPLICAS_WANT : bch_sb -> Z;
  BCH_SB_DATA_REPLICAS_REQ : bch_sb -> Z;
  BCH_SB_CLEAN : bch_sb -> Z;
  BCH_SB_STR_HASH_TYPE : bch_sb -> Z;
  BCH_SB_ENCRYPTION_TYPE : bch_sb -> Z;
  (** [sizeof(struct bch_member) / sizeof(u64)] and the decoding of one
      member entry from its words *)
  MEMBER_U64S : Z;
  member_uuid : list Z -> uuid_le;
  member_nbuckets : list Z -> Z;
  member_first_bucket : list Z -> Z;
  member_bucket_size : list Z -> Z;
  (** [csum_vstruct(c, type, nonce, sb)] with the all-zero nonce *)
  csum_vstruct : Z -> bch_sb -> bch_csum;
  (** [eytzinger0_sort(base, n, size, memcmp, NULL)] of eytzinger.h: it
      rearranges the array in place *)
  eytzinger0_sort : list bch_replicas_cpu_entry -> list bch_replicas_cpu_entry;
  eytzinger0_sort_perm : forall l, Permutation (eytzinger0_sort l) l;
  (** [offsetof] is a small unsigned value *)
  SB_HEADER_BYTES_range : 0 <= SB_HEADER_BYTES < 2 ^ 32;
  (** the data-type indices are distinct slots of [replicas_status] *)
  BCH_DATA_JOURNAL_lt : 0 <= BCH_DATA_JOURNAL < BCH_DATA_NR;
  BCH_DATA_BTREE_lt : 0 <= BCH_DATA_BTREE < BCH_DATA_NR;
  BCH_DATA_USER_lt : 0 <= BCH_DATA_USER < BCH_DATA_NR
}.

Section SuperIO.
Context `{Format}.

(** ** Layout validator *)

(** The loop of [validate_sb_layout]: [n] iterations remain, [i] is the
    index examined next. *)
Fixpoint validate_sb_layout_loop (layout : bch_sb_layout) (max_sectors : Z)
    (n : nat) (i prev_offset : Z) : option string :=
  match n with
  | O => None
  | S n' =>
      let offset := le64_to_cpu (sb_offset_at layout i) in
      if offset <? u64 (prev_offset + max_sectors)
      then Some "Invalid superblock layout: superblocks overlap"
      else validate_sb_layout_loop layout max_sectors n' (i + 1) offset
  end.

Definition validate_sb_layout (layout : bch_sb_layout) : option string :=
  if uuid_le_cmp (l_magic layout) BCACHE_MAGIC
  then Some "Not a bcachefs superblock layout"
  else if negb (layout_type layout =? 0)
  then Some "Invalid superblock layout type"
  else if nr_superblocks layout =? 0
  then Some "Invalid superblock layout: no superblocks"
  else if nr_superblocks layout >? SB_OFFSET_ARRAY_SIZE
  then Some "Invalid superblock layout: too many superblocks"
  else
    let max_sectors := u64 (shl_int 1 (sb_max_size_bits layout)) in
    let prev_offset := le64_to_cpu (sb_offset_at layout 0) in
    validate_sb_layout_loop layout max_sectors
      (Z.to_nat (nr_superblocks layout - 1)) 1 prev_offset.

(** ** Words of the field area *)

(** [struct bch_sb_field] is one 64-bit word: [__le32 u64s] in the low half,
    [__le32 type] in the high half.  Its [_data] starts at the field itself,
    so [u64s] counts the header word. *)
Definition field_u64s (w : Z) : Z := le32_to_cpu w.
Definition field_type (w : Z) : Z := le32_to_cpu (Z.shiftr w 32).
Definition set_field_u64s (w v : Z) : Z := Z.shiftl (field_type w) 32 + u32 v.
Definition set_field_type (w v : Z) : Z := Z.shiftl (u32 v) 32 + field_u64s w.

(** Stores into an array of words; all sizes are in words, every access of
    the field code is a multiple of [sizeof(u64)]. *)
Definition store (m : Z -> Z) (p v : Z) : Z -> Z :=
  fun i => if i =? p then v else m i.
Definition memset (m : Z -> Z) (p c n : Z) : Z -> Z :=
  fun i => if (p <=? i) && (i <? p + n) then c else m i.
Definition memmove (m : Z -> Z) (dst src n : Z) : Z -> Z :=
  fun i => if (dst <=? i) && (i <? dst + n) then m (src + (i - dst)) else m i.
(** [memcpy] from another array. *)
Definition memcpy (m : Z -> Z) (dst : Z) (from : Z -> Z) (src n : Z) : Z -> Z :=
  fun i => if (dst <=? i) && (i <? dst + n) then from (src + (i - dst)) else m i.

Definition set_data (sb : bch_sb) (d : Z -> Z) : bch_sb :=
  {| csum := csum sb; version := version sb; magic := magic sb;
     uuid := uuid sb; user_uuid := user_uuid sb; label := label sb;
     offset := offset sb; seq := seq sb; block_size := block_size sb;
     dev_idx := dev_idx sb; nr_devices := nr_devices sb; u64s := u64s sb;
     time_base_lo := time_base_lo sb; time_base_hi := time_base_hi sb;
     time_precision := time_precision sb; flags := flags sb;
     features := features sb; compat := compat sb; layout := layout sb;
     _data := d |}.

Definition set_u64s (sb : bch_sb) (n : Z) : bch_sb :=
  {| csum := csum sb; version := version sb; magic := magic sb;
     uuid := uuid sb; user_uuid := user_uuid sb; label := label sb;
     offset := offset sb; seq := seq sb; block_size := block_size sb;
     dev_idx := dev_idx sb; nr_devices := nr_devices sb; u64s := n;
     time_base_lo := time_base_lo sb; time_base_hi := time_base_hi sb;
     time_precision := time_precision sb; flags := flags sb;
     features := features sb; compat := compat sb; layout := layout sb;
     _data := _data sb |}.

(** vstructs.h on a superblock and on a field at word [f]. *)
Definition vstruct_last (sb : bch_sb) : Z := le32_to_cpu (u64s sb).
Definition vstruct_next (sb : bch_sb) (f : Z) : Z := f + field_u64s (_data sb f).
Definition vstruct_end (sb : bch_sb) (f : Z) : Z := f + field_u64s (_data sb f).
Definition __vstruct_bytes (n : Z) : Z := SB_HEADER_BYTES + n * 8.
Definition vstruct_bytes (sb : bch_sb) : Z := __vstruct_bytes (le32_to_cpu (u64s sb)).

(** ** Field directory: lookup *)

(** [vstruct_for_each(sb, f) if (f->type == type) return f;].  The walk
    advances by the length each field declares; a field declaring zero
    words keeps it in place for ever, which shows as running out of
    [fuel].  [None] is "no result", [Some None] is [NULL]. *)
Fixpoint bch2_sb_field_get_from (fuel : nat) (sb : bch_sb) (type f : Z)
    : option (option Z) :=
  match fuel with
  | O => None
  | S fuel' =>
      if f <? vstruct_last sb then
        if field_type (_data sb f) =? type then Some (Some f)
        else bch2_sb_field_get_from fuel' sb type (vstruct_next sb f)
      else Some None
  end.

Definition bch2_sb_field_get (sb : bch_sb) (type : Z) : option (option Z) :=
  bch2_sb_field_get_from (S (Z.to_nat (vstruct_last sb))) sb type 0.

Definition bch2_sb_get_journal (sb : bch_sb) := bch2_sb_field_get sb BCH_SB_FIELD_journal.
Definition bch2_sb_get_members (sb : bch_sb) := bch2_sb_field_get sb BCH_SB_FIELD_members.
Definition bch2_sb_get_replicas (sb : bch_sb) := bch2_sb_field_get sb BCH_SB_FIELD_replicas.

(** ** Superblock buffer manager *)

(** The kernel allocators, as an oracle.  [fault_super_realloc] is the
    fault-injection point ["bcachefs:add:super_realloc"]; [bio_kmalloc n]
    tells whether a bio of [n] vectors can be allocated; [get_free_pages
    order] is [None] when the page allocation fails, and otherwise the
    content of the fresh pages; [kmalloc] tells whether a small allocation
    succeeds. *)
Record allocator := {
  fault_super_realloc : bool;
  bio_kmalloc : Z -> bool;
  get_free_pages : Z -> option bch_sb;
  kmalloc : bool
}.

(** [struct block_device] as the superblock code observes it: the capacity,
    the logical block size, and what a synchronous read at a sector leaves
    in the buffer, seen as a [struct bch_sb] or as a [struct bch_sb_layout]
    ([None]: the read fails). *)
Record block_device := {
  bd_capacity : Z;
  bd_logical_block_size : Z;
  bd_read_sb : Z -> option bch_sb;
  bd_read_layout : Z -> option bch_sb_layout
}.

(** [struct bcache_superblock]: [sb] is [None] while the pointer is [NULL];
    [sb_bio] is the member [bio], [None] while it is [NULL], and otherwise
    the number of vectors the bio was allocated with. *)
Record bcache_superblock := {
  sb : option bch_sb;
  sb_bio : option Z;
  bdev : option block_device;
  page_order : Z;
  mode : Z
}.

Definition set_sb (h : bcache_superblock) (s : option bch_sb) (order : Z)
    : bcache_superblock :=
  {| sb := s; sb_bio := sb_bio h; bdev := bdev h; page_order := order;
     mode := mode h |}.

Definition set_sb_bio (h : bcache_superblock) (b : option Z) : bcache_superblock :=
  {| sb := sb h; sb_bio := b; bdev := bdev h; page_order := page_order h;
     mode := mode h |}.

(** [get_order]: the least [order] with [PAGE_SIZE << order >= bytes]. *)
Definition get_order (bytes : Z) : Z := Z.log2_up (DIV_ROUND_UP bytes PAGE_SIZE).

(** Words of field area held by a buffer of [PAGE_SIZE << order] bytes. *)
Definition buffer_u64s (order : Z) : Z :=
  (Z.shiftl PAGE_SIZE order - SB_HEADER_BYTES) / 8.

(** [memcpy(new, old, PAGE_SIZE << old_order)] keeps the header and the
    words the old buffer held. *)
Definition copy_pages (fresh old : bch_sb) (old_order : Z) : bch_sb :=
  set_data old (fun i => if i <? buffer_u64s old_order then _data old i
                         else _data fresh i).

(** [__bch2_super_realloc(sb, order)].  The new bio takes the place of
    the old one, which is put, before the pages are asked for: when the
    page allocation fails the handle keeps its buffer and has the new
    bio. *)
Definition __bch2_super_realloc (mm : allocator)
    (h : bcache_superblock) (order : Z) : Z * bcache_superblock :=
  if (page_order h >=? order) && bool_decide (is_Some (sb h)) then (0, h)
  else if fault_super_realloc mm then (- ENOMEM, h)
  else if negb (bio_kmalloc mm (shl_int 1 order)) then (- ENOMEM, h)
  else
    let h1 := set_sb_bio h (Some (shl_int 1 order)) in
    match get_free_pages mm order with
    | None => (- ENOMEM, h1)
    | Some fresh =>
        let new_sb := match sb h1 with
                      | Some old => copy_pages fresh old (page_order h1)
                      | None => fresh
                      end in
        (0, set_sb h1 (Some new_sb) order)
    end.

(** [bch2_sb_realloc] reads [sb->sb->layout]: no result on a [NULL] buffer. *)
Definition bch2_sb_realloc (mm : allocator)
    (h : bcache_superblock) (n : Z) : option (Z * bcache_superblock) :=
  s ← sb h;
  let new_bytes := u64 (__vstruct_bytes (u32 n)) in
  let max_bytes := u64 (shl_int 512 (sb_max_size_bits (layout s))) in
  if new_bytes >? max_bytes then Some (- ENOSPC, h)
  else Some (__bch2_super_realloc mm h (get_order new_bytes)).

(** A pointer into the buffer taken before a reallocation dangles once the
    pages have been replaced; the order changes exactly when they are. *)
Definition buffer_replaced (old_order new_order : Z) : bool :=
  negb (new_order =? old_order).

(** ** Field directory: resize *)

(** [__bch2_sb_field_resize(sb, f, u64s)], [f] being [None] for [NULL].
    Returns the image and the field's word index.  [memmove] with a
    negative count (a field running past the image) copies nothing here; in
    C the count is a huge [size_t]. *)
Definition __bch2_sb_field_resize (sb : bch_sb) (f : option Z) (n : Z)
    : bch_sb * Z :=
  let n := u32 n in
  let old_u64s := match f with
                  | Some p => le32_to_cpu (field_u64s (_data sb p))
                  | None => 0
                  end in
  let '(d, f') :=
    match f with
    | None =>
        let p := vstruct_last sb in
        let d1 := memset (_data sb) p 0 n in
        let d2 := store d1 p (set_field_u64s (d1 p) (cpu_to_le32 n)) in
        let d3 := store d2 p (set_field_type (d2 p) 0) in
        (d3, p)
    | Some p =>
        let src := vstruct_end sb p in
        let d1 := store (_data sb) p (set_field_u64s (_data sb p) (cpu_to_le32 n)) in
        let dst := p + field_u64s (d1 p) in
        let d2 := memmove d1 dst src (vstruct_last sb - src) in
        let d3 := if dst >? src then memset d2 src 0 (dst - src) else d2 in
        (d3, p)
    end in
  (set_u64s (set_data sb d) (u32 (le32_to_cpu (u64s sb) + u32 (n - old_u64s))), f').

Definition set_type (sb : bch_sb) (f type : Z) : bch_sb :=
  set_data sb (store (_data sb) f (set_field_type (_data sb f) type)).

(** [bch2_sb_field_resize(sb, type, u64s)].  The result is [None] where the
    code has no defined behaviour: [f] is looked up before
    [bch2_sb_realloc], so when the field exists and the pages are replaced
    the resize runs on a dangling pointer.  [Some (None, _)] is the [NULL]
    return. *)
Definition bch2_sb_field_resize (mm : allocator)
    (h : bcache_superblock) (type n : Z)
    : option (option Z * bcache_superblock) :=
  s ← sb h;
  f ← bch2_sb_field_get s type;
  let old_u64s := match f with
                  | Some p => le32_to_cpu (field_u64s (_data s p))
                  | None => 0
                  end in
  let d := - old_u64s + u32 n in
  '(ret, h1) ← bch2_sb_realloc mm h (le32_to_cpu (u64s s) + d);
  if negb (ret =? 0) then Some (None, h1)
  else if bool_decide (is_Some f) && buffer_replaced (page_order h) (page_order h1)
  then None
  else
    s1 ← sb h1;
    let '(s2, f') := __bch2_sb_field_resize s1 f n in
    Some (Some f', set_sb h1 (Some (set_type s2 f' type)) (page_order h1)).

(** ** Devices and the filesystem *)

(** [struct bch_dev]: [ca_online] is the liveness of [io_ref], which both
    [for_each_online_member] and [bch2_dev_is_online] test. *)
Record bch_dev := {
  ca_dev_idx : Z;
  ca_disk_sb : bcache_superblock;
  ca_online : bool;
  ca_mi : bch_member_cpu
}.

Definition set_ca_disk_sb (ca : bch_dev) (h : bcache_superblock) : bch_dev :=
  {| ca_dev_idx := ca_dev_idx ca; ca_disk_sb := h;
     ca_online := ca_online ca; ca_mi := ca_mi ca |}.

Definition set_ca_mi (ca : bch_dev) (m : bch_member_cpu) : bch_dev :=
  {| ca_dev_idx := ca_dev_idx ca; ca_disk_sb := ca_disk_sb ca;
     ca_online := ca_online ca; ca_mi := m |}.

(** The summary [c->sb] refreshed by [bch2_sb_update]. *)
Record bch_sb_cpu := {
  cpu_uuid : uuid_le;
  cpu_user_uuid : uuid_le;
  cpu_block_size : Z;
  cpu_btree_node_size : Z;
  cpu_nr_devices : Z;
  cpu_clean : Z;
  cpu_str_hash_type : Z;
  cpu_encryption_type : Z;
  cpu_time_base_lo : Z;
  cpu_time_base_hi : Z;
  cpu_time_precision : Z
}.

(** [struct bch_fs], the part the superblock code touches.  [c_devs] is the
    array [c->devs], [None] for an empty slot. *)
Record bch_fs := {
  c_disk_sb : option bch_sb;
  c_disk_sb_order : Z;
  c_devs : list (option bch_dev);
  c_sb : bch_sb_cpu;
  c_replicas : bch_replicas_cpu;
  c_replicas_gc : option bch_replicas_cpu;
  c_opts_nochanges : bool;
  c_opts_metadata_checksum : Z;
  (** [test_bit(BCH_FS_ERROR, &c->flags)] *)
  c_error : bool
}.

Definition set_c_disk_sb (c : bch_fs) (s : option bch_sb) (order : Z) : bch_fs :=
  {| c_disk_sb := s; c_disk_sb_order := order; c_devs := c_devs c;
     c_sb := c_sb c; c_replicas := c_replicas c;
     c_replicas_gc := c_replicas_gc c;
     c_opts_nochanges := c_opts_nochanges c;
     c_opts_metadata_checksum := c_opts_metadata_checksum c;
     c_error := c_error c |}.

Definition set_c_devs (c : bch_fs) (ds : list (option bch_dev)) : bch_fs :=
  {| c_disk_sb := c_disk_sb c; c_disk_sb_order := c_disk_sb_order c;
     c_devs := ds; c_sb := c_sb c; c_replicas := c_replicas c;
     c_replicas_gc := c_replicas_gc c;
     c_opts_nochanges := c_opts_nochanges c;
     c_opts_metadata_checksum := c_opts_metadata_checksum c;
     c_error := c_error c |}.

Definition set_c_sb (c : bch_fs) (s : bch_sb_cpu) : bch_fs :=
  {| c_disk_sb := c_disk_sb c; c_disk_sb_order := c_disk_sb_order c;
     c_devs := c_devs c; c_sb := s; c_replicas := c_replicas c;
     c_replicas_gc := c_replicas_gc c;
     c_opts_nochanges := c_opts_nochanges c;
     c_opts_metadata_checksum := c_opts_metadata_checksum c;
     c_error := c_error c |}.

Definition set_c_error (c : bch_fs) (b : bool) : bch_fs :=
  {| c_disk_sb := c_disk_sb c; c_disk_sb_order := c_disk_sb_order c;
     c_devs := c_devs c; c_sb := c_sb c; c_replicas := c_replicas c;
     c_replicas_gc := c_replicas_gc c;
     c_opts_nochanges := c_opts_nochanges c;
     c_opts_metadata_checksum := c_opts_metadata_checksum c;
     c_error := b |}.

(** The indices [for_each_online_member] visits, in order. *)
Definition is_online (d : option bch_dev) : bool :=
  match d with Some ca => ca_online ca | None => false end.

Fixpoint online_from (i : nat) (ds : list (option bch_dev)) : list nat :=
  match ds with
  | [] => []
  | d :: ds' => if is_online d then i :: online_from (S i) ds'
                else online_from (S i) ds'
  end.

Definition online_members (c : bch_fs) : list nat := online_from 0 (c_devs c).

Definition dev_at (c : bch_fs) (i : nat) : option bch_dev :=
  mjoin (c_devs c !! i).

Definition set_dev (c : bch_fs) (i : nat) (ca : bch_dev) : bch_fs :=
  set_c_devs c (<[i := Some ca]> (c_devs c)).

(** A page of zeroes seen as a [struct bch_sb] ([__GFP_ZERO]). *)
Definition zero_layout : bch_sb_layout :=
  {| l_magic := 0; layout_type := 0; sb_max_size_bits := 0;
     nr_superblocks := 0; sb_offset := repeat 0 (Z.to_nat SB_OFFSET_ARRAY_SIZE) |}.

Definition zero_sb : bch_sb :=
  {| csum := {| csum_lo := 0; csum_hi := 0 |}; version := 0; magic := 0;
     uuid := 0; user_uuid := 0; label := []; offset := 0; seq := 0;
     block_size := 0; dev_idx := 0; nr_devices := 0; u64s := 0;
     time_base_lo := 0; time_base_hi := 0; time_precision := 0;
     flags := []; features := []; compat := []; layout := zero_layout;
     _data := fun _ => 0 |}.

(** [bch2_fs_sb_realloc(c, u64s)]: no size limit is consulted here. *)
Definition bch2_fs_sb_realloc (mm : allocator) (c : bch_fs) (n : Z)
    : Z * bch_fs :=
  let bytes := u64 (__vstruct_bytes (u32 n)) in
  let order := get_order bytes in
  if bool_decide (is_Some (c_disk_sb c)) && (order <=? c_disk_sb_order c)
  then (0, c)
  else
    match get_free_pages mm order with
    | None => (- ENOMEM, c)
    | Some _ =>
        let new_sb := match c_disk_sb c with
                      | Some old => copy_pages zero_sb old (c_disk_sb_order c)
                      | None => zero_sb
                      end in
        (0, set_c_disk_sb c (Some new_sb) order)
    end.

(** The loop of [bch2_fs_sb_field_resize] over the online members: every
    device buffer is grown by [d] words, the first failure ends it. *)
Fixpoint fs_resize_members (mm : allocator) (c : bch_fs) (d : Z)
    (members : list nat) : option (bool * bch_fs) :=
  match members with
  | [] => Some (true, c)
  | i :: rest =>
      ca ← dev_at c i;
      s ← sb (ca_disk_sb ca);
      '(ret, h1) ← bch2_sb_realloc mm (ca_disk_sb ca) (le32_to_cpu (u64s s) + d);
      let c1 := set_dev c i (set_ca_disk_sb ca h1) in
      if negb (ret =? 0) then Some (false, c1)
      else fs_resize_members mm c1 d rest
  end.

(** [bch2_fs_sb_field_resize(c, type, u64s)]; offline devices are not
    checked for space.  As in [bch2_sb_field_resize], [f] is looked up
    before the reallocation. *)
Definition bch2_fs_sb_field_resize (mm : allocator) (c : bch_fs)
    (type n : Z) : option (option Z * bch_fs) :=
  s ← c_disk_sb c;
  f ← bch2_sb_field_get s type;
  let old_u64s := match f with
                  | Some p => le32_to_cpu (field_u64s (_data s p))
                  | None => 0
                  end in
  let d := - old_u64s + u32 n in
  let '(ret, c1) := bch2_fs_sb_realloc mm c (le32_to_cpu (u64s s) + d) in
  if negb (ret =? 0) then Some (None, c1)
  else
    '(ok, c2) ← fs_resize_members mm c1 d (online_members c1);
    if negb ok then Some (None, c2)
    else if bool_decide (is_Some f)
            && buffer_replaced (c_disk_sb_order c) (c_disk_sb_order c2)
    then None
    else
      s1 ← c_disk_sb c2;
      let '(s2, f') := __bch2_sb_field_resize s1 f n in
      Some (Some f', set_c_disk_sb c2 (Some (set_type s2 f' type)) (c_disk_sb_order c2)).

(** ** Copying between images *)

(** The header assignments of [__copy_super]; magic, offset, device index,
    checksum, layout and the field area stay the destination's. *)
Definition copy_super_header (dst src : bch_sb) : bch_sb :=
  {| csum := csum dst; version := version src; magic := magic dst;
     uuid := uuid src; user_uuid := user_uuid src; label := label src;
     offset := offset dst; seq := seq src; block_size := block_size src;
     dev_idx := dev_idx dst; nr_devices := nr_devices src; u64s := u64s dst;
     time_base_lo := time_base_lo src; time_base_hi := time_base_hi src;
     time_precision := time_precision src; flags := flags src;
     features := features src; compat := compat src; layout := layout dst;
     _data := _data dst |}.

(** The [vstruct_for_each(src, src_f)] loop of [__copy_super], from the
    source field at word [src_f].  [cap] is the number of words of field
    area the buffer of [dst] holds.  Nothing in the loop looks at it:
    [__bch2_sb_field_resize] moves the fields that follow and writes the
    new one up to word [vstruct_last dst + u64s - old_u64s], and when that
    is past the buffer the stores land outside it; the result is then
    [None] (undefined). *)
Fixpoint __copy_super_fields (fuel : nat) (cap : Z) (dst src : bch_sb) (src_f : Z)
    : option bch_sb :=
  match fuel with
  | O => None
  | S fuel' =>
      if src_f <? vstruct_last src then
        let w := _data src src_f in
        if field_type w =? BCH_SB_FIELD_journal
        then __copy_super_fields fuel' cap dst src (vstruct_next src src_f)
        else
          dst_f ← bch2_sb_field_get dst (field_type w);
          let old_u64s := match dst_f with
                          | Some p => le32_to_cpu (field_u64s (_data dst p))
                          | None => 0
                          end in
          if vstruct_last dst + (le32_to_cpu (field_u64s w) - old_u64s) >? cap
          then None
          else
            let '(dst1, p) := __bch2_sb_field_resize dst dst_f (le32_to_cpu (field_u64s w)) in
            let dst2 := set_data dst1 (memcpy (_data dst1) p (_data src) src_f (field_u64s w)) in
            __copy_super_fields fuel' cap dst2 src (vstruct_next src src_f)
      else Some dst
  end.

(** [__copy_super(dst, src)], [dst] lying in a buffer of [cap] words. *)
Definition __copy_super (cap : Z) (dst src : bch_sb) : option bch_sb :=
  __copy_super_fields (S (Z.to_nat (vstruct_last src))) cap
    (copy_super_header dst src) src 0.

(** [bch2_sb_from_fs(c, ca)].  [dst] is loaded from [ca->disk_sb.sb] before
    [bch2_sb_realloc]; when that call replaces the pages, [__copy_super]
    is handed the freed buffer and the result is [None] (undefined).  The
    buffer was sized for [src->u64s + journal_u64s] words, and that is all
    the room [__copy_super] has: a device image with a field, other than
    the journal's, that the filesystem image lacks can outgrow it. *)
Definition bch2_sb_from_fs (mm : allocator) (c : bch_fs) (ca : bch_dev)
    : option (Z * bch_dev) :=
  src ← c_disk_sb c;
  dst ← sb (ca_disk_sb ca);
  journal_buckets ← bch2_sb_get_journal dst;
  let journal_u64s := match journal_buckets with
                      | Some p => le32_to_cpu (field_u64s (_data dst p))
                      | None => 0
                      end in
  let n := u32 (le32_to_cpu (u64s src) + journal_u64s) in
  '(ret, h1) ← bch2_sb_realloc mm (ca_disk_sb ca) n;
  if negb (ret =? 0) then Some (ret, set_ca_disk_sb ca h1)
  else if buffer_replaced (page_order (ca_disk_sb ca)) (page_order h1) then None
  else
    dst' ← __copy_super (buffer_u64s (page_order h1)) dst src;
    Some (0, set_ca_disk_sb ca (set_sb h1 (Some dst') (page_order h1))).

(** ** Superblock validator *)

Definition u64_cmp (l r : Z) : Z :=
  if l <? r then -1 else if l >? r then 1 else 0.

(** [sort(base, nr, size, cmp, NULL)] of linux/sort.h: the array in
    ascending order of [cmp]. *)
Fixpoint sort_insert {A} (cmp : A -> A -> Z) (x : A) (l : list A) : list A :=
  match l with
  | [] => [x]
  | y :: l' => if cmp x y >? 0 then y :: sort_insert cmp x l' else x :: l
  end.

Fixpoint sort {A} (cmp : A -> A -> Z) (l : list A) : list A :=
  match l with
  | [] => []
  | x :: l' => sort_insert cmp x (sort cmp l')
  end.

(** [bch2_nr_journal_buckets]: the words between [j->buckets] and the end
    of the field. *)
Definition bch2_nr_journal_buckets (sb : bch_sb) (j : option Z) : Z :=
  match j with
  | Some p => u32 (vstruct_end sb p - (p + 1))
  | None => 0
  end.

(** The buckets [journal->buckets[0 .. nr)] of the field at word [p]. *)
Definition journal_buckets_at (sb : bch_sb) (p nr : Z) : list Z :=
  map (fun i => le64_to_cpu (_data sb (p + 1 + Z.of_nat i))) (List.seq 0 (Z.to_nat nr)).

(** [for (i = 0; i + 1 < nr; i++) if (b[i] == b[i + 1]) goto err;] *)
Fixpoint has_adjacent_dup (b : list Z) : bool :=
  match b with
  | x :: (y :: _) as b' => (x =? y) || has_adjacent_dup b'
  | _ => false
  end.

Definition validate_journal_buckets (b : list Z) (mi : bch_member_cpu)
    : option string :=
  let b := sort u64_cmp b in
  if nth 0 b 0 =? 0 then Some "journal bucket at sector 0"
  else if nth 0 b 0 <? first_bucket mi then Some "journal bucket before first bucket"
  else if nth (length b - 1) b 0 >=? nbuckets mi then Some "journal bucket past end of device"
  else if has_adjacent_dup b then Some "duplicate journal buckets"
  else None.

Definition bch2_sb_validate_journal (mm : allocator) (sb : bch_sb)
    (mi : bch_member_cpu) : option (option string) :=
  journal ← bch2_sb_get_journal sb;
  match journal with
  | None => Some None
  | Some p =>
      let nr := bch2_nr_journal_buckets sb journal in
      if nr =? 0 then Some None
      else if negb (kmalloc mm) then Some (Some "cannot allocate memory")
      else Some (validate_journal_buckets (journal_buckets_at sb p nr) mi)
  end.

(** The member table of the field at word [p]: entry [i] occupies
    [MEMBER_U64S] words after the field header. *)
Definition member_at (sb : bch_sb) (p i : Z) : list Z :=
  map (fun k => _data sb (p + 1 + MEMBER_U64S * i + Z.of_nat k))
      (List.seq 0 (Z.to_nat MEMBER_U64S)).

(** [bch2_dev_exists(sb, mi, dev)]; [mi] is dereferenced only for a device
    index below [nr_devices], and must not be [NULL] then. *)
Definition bch2_dev_exists (sb : bch_sb) (mi : option Z) (dev : Z) : option bool :=
  if dev <? nr_devices sb
  then p ← mi; Some (negb (bch2_is_zero (member_uuid (member_at sb p dev))))
  else Some false.

Definition bch2_mi_to_cpu (m : list Z) : bch_member_cpu :=
  {| nbuckets := le64_to_cpu (member_nbuckets m);
     first_bucket := le16_to_cpu (member_first_bucket m);
     bucket_size := le16_to_cpu (member_bucket_size m);
     mi_valid := negb (bch2_is_zero (member_uuid m)) |}.

Fixpoint validate_members_loop (sb : bch_sb) (mi : Z) (n : nat) (i : Z)
    : option (option string) :=
  match n with
  | O => Some None
  | S n' =>
      exists_ ← bch2_dev_exists sb (Some mi) i;
      if negb exists_ then validate_members_loop sb mi n' (i + 1)
      else if le16_to_cpu (member_bucket_size (member_at sb mi i))
                <? BCH_SB_BTREE_NODE_SIZE sb
      then Some (Some "bucket size smaller than btree node size")
      else validate_members_loop sb mi n' (i + 1)
  end.

Definition bch2_sb_validate_members (sb : bch_sb) : option (option string) :=
  mi ← bch2_sb_get_members sb;
  match mi with
  | None => Some (Some "Invalid superblock: member info area missing")
  | Some p =>
      if p + 1 + MEMBER_U64S * nr_devices sb >? vstruct_end sb p
      then Some (Some "Invalid superblock: bad member info")
      else validate_members_loop sb p (Z.to_nat (nr_devices sb)) 0
  end.

(** ** Replica information *)

(** The on-disk replicas field is the byte array [r->entries] up to the
    end of the field; [struct bch_replicas_entry] is [u8 data_type],
    [u8 nr], [u8 devs[nr]].  A read past the array sees the byte 0 here; in
    C it sees whatever follows the field. *)
Definition byte_at (bs : list Z) (i : Z) : Z := u8 (nth (Z.to_nat i) bs 0).
Definition entry_data_type (bs : list Z) (i : Z) : Z := byte_at bs i.
Definition entry_nr (bs : list Z) (i : Z) : Z := byte_at bs (i + 1).
Definition entry_dev (bs : list Z) (i j : Z) : Z := byte_at bs (i + 2 + j).
Definition entry_devs (bs : list Z) (i : Z) : list Z :=
  map (fun j => entry_dev bs i (Z.of_nat j)) (List.seq 0 (Z.to_nat (entry_nr bs i))).

Definition replicas_entry_next (bs : list Z) (i : Z) : Z := i + 2 + entry_nr bs i.

(** [for_each_replicas_entry(r, i)]: the offsets visited.  Every step
    advances by at least two bytes, so [fuel] beyond the length of the
    array is never used up. *)
Fixpoint replicas_entries_from (fuel : nat) (bs : list Z) (i : Z) : list Z :=
  match fuel with
  | O => []
  | S fuel' =>
      if (i <? Z.of_nat (length bs)) && negb (entry_data_type bs i =? 0)
      then i :: replicas_entries_from fuel' bs (replicas_entry_next bs i)
      else []
  end.

Definition for_each_replicas_entry (bs : list Z) : list Z :=
  replicas_entries_from (S (length bs)) bs 0.

(** Byte [k] of a little-endian word, and the bytes of the field at word
    [p] that follow its header. *)
Definition word_byte (w k : Z) : Z := Z.land (Z.shiftr w (8 * k)) 255.

Definition field_bytes (sb : bch_sb) (p : Z) : list Z :=
  flat_map (fun i => map (fun k => word_byte (_data sb (p + 1 + Z.of_nat i)) (Z.of_nat k))
                         (List.seq 0 8))
           (List.seq 0 (Z.to_nat (field_u64s (_data sb p) - 1))).

(** Bitmap helpers of super-io.h: device [dev] is bit [dev & 7] of byte
    [dev >> 3].  A store past the bitmap is dropped here. *)
Definition replicas_test_dev (e : bch_replicas_cpu_entry) (dev : Z) : bool :=
  negb (Z.land (nth (Z.to_nat (Z.shiftr dev 3)) (e_devs e) 0)
               (Z.shiftl 1 (Z.land dev 7)) =? 0).

Definition replicas_set_dev (e : bch_replicas_cpu_entry) (dev : Z)
    : bch_replicas_cpu_entry :=
  {| e_data_type := e_data_type e;
     e_devs := alter (fun b => Z.lor b (Z.shiftl 1 (Z.land dev 7)))
                     (Z.to_nat (Z.shiftr dev 3)) (e_devs e) |}.

Definition replicas_dev_slots (r : bch_replicas_cpu) : Z := (r_entry_size r - 1) * 8.

(** [cpu_replicas_entry(r, i)] for [i < r->nr]; the array holds [r->nr]
    entries. *)
Definition cpu_replicas_entries (r : bch_replicas_cpu) : list bch_replicas_cpu_entry :=
  firstn (Z.to_nat (r_nr r)) (r_entries r).

(** [bch2_sb_replicas_nr_entries]: [(nr, bytes, max_dev)]. *)
Fixpoint nr_entries_from (fuel : nat) (bs : list Z) (i nr max_dev : Z) : Z * Z * Z :=
  match fuel with
  | O => (nr, i, max_dev)
  | S fuel' =>
      if (i <? Z.of_nat (length bs)) && negb (entry_data_type bs i =? 0)
      then nr_entries_from fuel' bs (replicas_entry_next bs i) (u32 (nr + 1))
             (fold_left Z.max (entry_devs bs i) max_dev)
      else (nr, i, max_dev)
  end.

Definition bch2_sb_replicas_nr_entries (r : option (list Z)) : Z * Z * Z :=
  match r with
  | None => (0, 8, 0)
  | Some bs =>
      let '(nr, i, max_dev) := nr_entries_from (S (length bs)) bs 0 0 0 in
      (nr, 8 + i, max_dev)
  end.

(** The copy loop of [__bch2_sb_replicas_to_cpu_replicas]: [n] entries from
    the on-disk entry at offset [src]. *)
Fixpoint to_cpu_entries (n : nat) (bs : list Z) (src entry_size : Z)
    : list bch_replicas_cpu_entry :=
  match n with
  | O => []
  | S n' =>
      let dst := {| e_data_type := entry_data_type bs src;
                    e_devs := repeat 0 (Z.to_nat (entry_size - 1)) |} in
      fold_left replicas_set_dev (entry_devs bs src) dst
        :: to_cpu_entries n' bs (replicas_entry_next bs src) entry_size
  end.

(** [None] is the [NULL] return of a failed [kzalloc]. *)
Definition __bch2_sb_replicas_to_cpu_replicas (mm : allocator)
    (sb_r : option (list Z)) : option bch_replicas_cpu :=
  let '(nr, bytes, max_dev) := bch2_sb_replicas_nr_entries sb_r in
  let entry_size := 1 + DIV_ROUND_UP (max_dev + 1) 8 in
  if negb (kmalloc mm) then None
  else
    let entries := match sb_r with
                   | Some bs => to_cpu_entries (Z.to_nat nr) bs 0 entry_size
                   | None => []
                   end in
    Some {| r_nr := nr; r_entry_size := entry_size;
            r_entries := eytzinger0_sort entries |}.

(** [memcmp] over two entries of the same size. *)
Fixpoint memcmp (l r : list Z) : Z :=
  match l, r with
  | x :: l', y :: r' =>
      if x <? y then -1 else if x >? y then 1 else memcmp l' r'
  | _, _ => 0
  end.

Definition entry_bytes (e : bch_replicas_cpu_entry) : list Z :=
  e_data_type e :: e_devs e.

Definition memcmp_entry (l r : bch_replicas_cpu_entry) : Z :=
  memcmp (entry_bytes l) (entry_bytes r).

(** The per-entry checks of [bch2_sb_validate_replicas]. *)
Fixpoint validate_replicas_devs (sb : bch_sb) (mi : option Z) (devs : list Z)
    : option bool :=
  match devs with
  | [] => Some true
  | d :: devs' =>
      exists_ ← bch2_dev_exists sb mi d;
      if negb exists_ then Some false else validate_replicas_devs sb mi devs'
  end.

Fixpoint validate_replicas_entries (sb : bch_sb) (mi : option Z) (bs : list Z)
    (es : list Z) : option (option string) :=
  match es with
  | [] => Some None
  | e :: es' =>
      if entry_data_type bs e >=? BCH_DATA_NR
      then Some (Some "invalid replicas entry: invalid data type")
      else if entry_nr bs e >=? BCH_REPLICAS_MAX
      then Some (Some "invalid replicas entry: too many devices")
      else
        ok ← validate_replicas_devs sb mi (entry_devs bs e);
        if negb ok then Some (Some "invalid replicas entry: invalid device")
        else validate_replicas_entries sb mi bs es'
  end.

(** The duplicate scan over the sorted array; [BUG_ON] an inversion. *)
Fixpoint validate_replicas_dups (es : list bch_replicas_cpu_entry)
    : option (option string) :=
  match es with
  | l :: (r :: _) as es' =>
      if memcmp_entry l r >? 0 then None
      else if memcmp_entry l r =? 0 then Some (Some "duplicate replicas entry")
      else validate_replicas_dups es'
  | _ => Some None
  end.

Definition bch2_sb_validate_replicas (mm : allocator) (sb : bch_sb)
    : option (option string) :=
  mi ← bch2_sb_get_members sb;
  sb_r ← bch2_sb_get_replicas sb;
  match sb_r with
  | None => Some None
  | Some p =>
      let bs := field_bytes sb p in
      err ← validate_replicas_entries sb mi bs (for_each_replicas_entry bs);
      match err with
      | Some msg => Some (Some msg)
      | None =>
          match __bch2_sb_replicas_to_cpu_replicas mm (Some bs) with
          | None => Some (Some "cannot allocate memory")
          | Some cpu_r =>
              validate_replicas_dups (sort memcmp_entry (cpu_replicas_entries cpu_r))
          end
      end
  end.

(** ** The superblock validator proper *)

(** The field loop of [bch2_sb_validate]. *)
Fixpoint validate_fields_from (fuel : nat) (sb : bch_sb) (f : Z)
    : option (option string) :=
  match fuel with
  | O => None
  | S fuel' =>
      if f <? vstruct_last sb then
        if field_u64s (_data sb f) =? 0
        then Some (Some "Invalid superblock: invalid optional field")
        else if vstruct_next sb f >? vstruct_last sb
        then Some (Some "Invalid superblock: invalid optional field")
        else if field_type (_data sb f) >=? BCH_SB_FIELD_NR
        then Some (Some "Invalid superblock: unknown optional field type")
        else validate_fields_from fuel' sb (vstruct_next sb f)
      else Some None
  end.

(** The checks that follow the member table, on the local member [mi]. *)
Definition validate_local_member (mm : allocator) (sb : bch_sb)
    (capacity : Z) (mi : bch_member_cpu) : option (option string) :=
  let block_size := le16_to_cpu (block_size sb) in
  if nbuckets mi >? LONG_MAX then Some (Some "Too many buckets")
  else if u64 (nbuckets mi - first_bucket mi) <? Z.shiftl 1 10
  then Some (Some "Not enough buckets")
  else if negb (is_power_of_2 (bucket_size mi))
          || (bucket_size mi <? PAGE_SECTORS)
          || (bucket_size mi <? block_size)
  then Some (Some "Bad bucket size")
  else if capacity <? u64 (bucket_size mi * nbuckets mi)
  then Some (Some "Invalid superblock: device too small")
  else
    err ← bch2_sb_validate_journal mm sb mi;
    match err with
    | Some msg => Some (Some msg)
    | None => bch2_sb_validate_replicas mm sb
    end.

(** [bch2_sb_validate(disk_sb)]; no result when [disk_sb->sb] or
    [disk_sb->bdev] is [NULL]. *)
Definition bch2_sb_validate (mm : allocator) (disk_sb : bcache_superblock)
    : option (option string) :=
  sb ← sb disk_sb;
  bd ← bdev disk_sb;
  if negb (le64_to_cpu (version sb) =? BCACHE_SB_VERSION_CDEV_V4)
  then Some (Some "Unsupported superblock version")
  else if negb (BCH_SB_INITIALIZED sb =? 0)
          && negb (le64_to_cpu (version sb) =? BCACHE_SB_VERSION_CDEV_V4)
  then Some (Some "Unsupported superblock version")
  else
  let block_size := le16_to_cpu (block_size sb) in
  if negb (is_power_of_2 block_size) || (block_size >? PAGE_SECTORS)
  then Some (Some "Bad block size")
  else if bch2_is_zero (user_uuid sb) then Some (Some "Bad user UUID")
  else if bch2_is_zero (uuid sb) then Some (Some "Bad internal UUID")
  else if (nr_devices sb =? 0) || (nr_devices sb <=? dev_idx sb)
          || (nr_devices sb >? BCH_SB_MEMBERS_MAX)
  then Some (Some "Bad cache device number in set")
  else if (BCH_SB_META_REPLICAS_WANT sb =? 0)
          || (BCH_SB_META_REPLICAS_WANT sb >=? BCH_REPLICAS_MAX)
  then Some (Some "Invalid number of metadata replicas")
  else if (BCH_SB_META_REPLICAS_REQ sb =? 0)
          || (BCH_SB_META_REPLICAS_REQ sb >=? BCH_REPLICAS_MAX)
  then Some (Some "Invalid number of metadata replicas")
  else if (BCH_SB_DATA_REPLICAS_WANT sb =? 0)
          || (BCH_SB_DATA_REPLICAS_WANT sb >=? BCH_REPLICAS_MAX)
  then Some (Some "Invalid number of data replicas")
  else if (BCH_SB_DATA_REPLICAS_REQ sb =? 0)
          || (BCH_SB_DATA_REPLICAS_REQ sb >=? BCH_REPLICAS_MAX)
  then Some (Some "Invalid number of metadata replicas")
  else if BCH_SB_BTREE_NODE_SIZE sb =? 0 then Some (Some "Btree node size not set")
  else if negb (is_power_of_2 (BCH_SB_BTREE_NODE_SIZE sb))
  then Some (Some "Btree node size not a power of two")
  else if BCH_SB_BTREE_NODE_SIZE sb >? BTREE_NODE_SIZE_MAX
  then Some (Some "Btree node size too large")
  else if BCH_SB_GC_RESERVE sb <? 5 then Some (Some "gc reserve percentage too small")
  else if (time_precision sb =? 0) || (le32_to_cpu (time_precision sb) >? NSEC_PER_SEC)
  then Some (Some "invalid time precision")
  else
  match validate_sb_layout (layout sb) with
  | Some msg => Some (Some msg)
  | None =>
      err ← validate_fields_from (S (Z.to_nat (vstruct_last sb))) sb 0;
      match err with
      | Some msg => Some (Some msg)
      | None =>
          err ← bch2_sb_validate_members sb;
          match err with
          | Some msg => Some (Some msg)
          | None =>
              sb_mi ← bch2_sb_get_members sb;
              p ← sb_mi;
              let mi := bch2_mi_to_cpu (member_at sb p (dev_idx sb)) in
              validate_local_member mm sb (bd_capacity bd) mi
          end
      end
  end.

(** ** Write path *)

(** One submitted superblock write: the device slot, the sector, the
    length in bytes and the image handed to the block layer. *)
Record sb_write := {
  w_dev : nat;
  w_sector : Z;
  w_size : Z;
  w_image : bch_sb
}.

Definition set_seq (sb : bch_sb) (v : Z) : bch_sb :=
  {| csum := csum sb; version := version sb; magic := magic sb;
     uuid := uuid sb; user_uuid := user_uuid sb; label := label sb;
     offset := offset sb; seq := v; block_size := block_size sb;
     dev_idx := dev_idx sb; nr_devices := nr_devices sb; u64s := u64s sb;
     time_base_lo := time_base_lo sb; time_base_hi := time_base_hi sb;
     time_precision := time_precision sb; flags := flags sb;
     features := features sb; compat := compat sb; layout := layout sb;
     _data := _data sb |}.

Definition set_offset (sb : bch_sb) (v : Z) : bch_sb :=
  {| csum := csum sb; version := version sb; magic := magic sb;
     uuid := uuid sb; user_uuid := user_uuid sb; label := label sb;
     offset := v; seq := seq sb; block_size := block_size sb;
     dev_idx := dev_idx sb; nr_devices := nr_devices sb; u64s := u64s sb;
     time_base_lo := time_base_lo sb; time_base_hi := time_base_hi sb;
     time_precision := time_precision sb; flags := flags sb;
     features := features sb; compat := compat sb; layout := layout sb;
     _data := _data sb |}.

Definition set_csum (sb : bch_sb) (v : bch_csum) : bch_sb :=
  {| csum := v; version := version sb; magic := magic sb;
     uuid := uuid sb; user_uuid := user_uuid sb; label := label sb;
     offset := offset sb; seq := seq sb; block_size := block_size sb;
     dev_idx := dev_idx sb; nr_devices := nr_devices sb; u64s := u64s sb;
     time_base_lo := time_base_lo sb; time_base_hi := time_base_hi sb;
     time_precision := time_precision sb; flags := flags sb;
     features := features sb; compat := compat sb; layout := layout sb;
     _data := _data sb |}.

Definition roundup (x y : Z) : Z := ((x + y - 1) / y) * y.

(** [write_one_super(c, ca, idx)]: whether a write was submitted, the
    device afterwards, and the write. *)
Definition write_one_super (c : bch_fs) (i : nat) (ca : bch_dev) (idx : Z)
    : option (bool * bch_dev * list sb_write) :=
  s ← sb (ca_disk_sb ca);
  if idx >=? nr_superblocks (layout s) then Some (false, ca, [])
  else if negb (ca_online ca) then Some (false, ca, [])
  else
    _ ← sb_bio (ca_disk_sb ca);
    bd ← bdev (ca_disk_sb ca);
    let s1 := set_offset s (sb_offset_at (layout s) idx) in
    let s2 := SET_BCH_SB_CSUM_TYPE s1 (c_opts_metadata_checksum c) in
    let s3 := set_csum s2 (csum_vstruct (BCH_SB_CSUM_TYPE s2) s2) in
    let w := {| w_dev := i; w_sector := le64_to_cpu (offset s3);
                w_size := roundup (vstruct_bytes s3) (bd_logical_block_size bd);
                w_image := s3 |} in
    Some (true, set_ca_disk_sb ca (set_sb (ca_disk_sb ca) (Some s3)
                                          (page_order (ca_disk_sb ca))), [w]).

(** [bch2_sb_update(c)]: [mi] is dereferenced for every member device. *)
Fixpoint sb_update_members (src : bch_sb) (mi : option Z) (i : Z)
    (ds : list (option bch_dev)) : option (list (option bch_dev)) :=
  match ds with
  | [] => Some []
  | None :: ds' => rest ← sb_update_members src mi (i + 1) ds'; Some (None :: rest)
  | Some ca :: ds' =>
      p ← mi;
      rest ← sb_update_members src mi (i + 1) ds';
      Some (Some (set_ca_mi ca (bch2_mi_to_cpu (member_at src p i))) :: rest)
  end.

Definition bch2_sb_update (c : bch_fs) : option bch_fs :=
  src ← c_disk_sb c;
  mi ← bch2_sb_get_members src;
  let cpu := {| cpu_uuid := uuid src;
                cpu_user_uuid := user_uuid src;
                cpu_block_size := le16_to_cpu (block_size src);
                cpu_btree_node_size := BCH_SB_BTREE_NODE_SIZE src;
                cpu_nr_devices := nr_devices src;
                cpu_clean := BCH_SB_CLEAN src;
                cpu_str_hash_type := BCH_SB_STR_HASH_TYPE src;
                cpu_encryption_type := BCH_SB_ENCRYPTION_TYPE src;
                cpu_time_base_lo := le64_to_cpu (time_base_lo src);
                cpu_time_base_hi := le32_to_cpu (time_base_hi src);
                cpu_time_precision := le32_to_cpu (time_precision src) |} in
  ds ← sb_update_members src mi 0 (c_devs c);
  Some (set_c_devs (set_c_sb c cpu) ds).

(** Modelled from the spec: [bch2_fs_inconsistent] (error.h, not among the
    sources) "marks the whole filesystem inconsistent"; here it sets the
    error bit that [bch2_write_super] tests. *)
Definition bch2_fs_inconsistent (c : bch_fs) : bch_fs := set_c_error c true.

(** First loop of [bch2_write_super]: [bch2_sb_from_fs] on every online
    member, its return value dropped. *)
Fixpoint write_super_propagate (mm : allocator) (c : bch_fs) (members : list nat)
    : option bch_fs :=
  match members with
  | [] => Some c
  | i :: rest =>
      ca ← dev_at c i;
      '(_, ca') ← bch2_sb_from_fs mm c ca;
      write_super_propagate mm (set_dev c i ca') rest
  end.

(** Second loop: the first image that fails validation. *)
Fixpoint write_super_validate (mm : allocator) (c : bch_fs) (members : list nat)
    : option (option string) :=
  match members with
  | [] => Some None
  | i :: rest =>
      ca ← dev_at c i;
      err ← bch2_sb_validate mm (ca_disk_sb ca);
      match err with
      | Some msg => Some (Some msg)
      | None => write_super_validate mm c rest
      end
  end.

(** One wave: [write_one_super] on every online member at [super_idx]. *)
Fixpoint write_super_wave (c : bch_fs) (members : list nat) (super_idx : Z)
    : option (bool * bch_fs * list sb_write) :=
  match members with
  | [] => Some (false, c, [])
  | i :: rest =>
      ca ← dev_at c i;
      '(wrote1, ca', ws1) ← write_one_super c i ca super_idx;
      '(wrote2, c', ws2) ← write_super_wave (set_dev c i ca') rest super_idx;
      Some (wrote1 || wrote2, c', (ws1 ++ ws2)%list)
  end.

(** The [do ... while (wrote)] loop. *)
Fixpoint write_super_waves (fuel : nat) (c : bch_fs) (super_idx : Z)
    : option (bch_fs * list sb_write) :=
  match fuel with
  | O => None
  | S fuel' =>
      '(wrote, c', ws) ← write_super_wave c (online_members c) super_idx;
      if (wrote : bool) then
        '(c'', ws') ← write_super_waves fuel' c' (u32 (super_idx + 1));
        Some (c'', (ws ++ ws')%list)
      else Some (c', ws)
  end.

(** Waves needed: one more than the largest [nr_superblocks] among the
    online members. *)
Definition max_nr_superblocks (c : bch_fs) : Z :=
  fold_right Z.max 0
    (map (fun i => match dev_at c i ≫= (fun ca => sb (ca_disk_sb ca)) with
                   | Some s => nr_superblocks (layout s)
                   | None => 0
                   end) (online_members c)).

(** [le64_add_cpu(&c->disk_sb->seq, 1)] *)
Definition write_super_seq (c : bch_fs) (src : bch_sb) : bch_fs :=
  set_c_disk_sb c (Some (set_seq src (u64 (le64_to_cpu (seq src) + 1))))
                (c_disk_sb_order c).

(** [bch2_write_super(c)]: the filesystem afterwards and the writes
    submitted, in order. *)
Definition bch2_write_super (mm : allocator) (c : bch_fs)
    : option (bch_fs * list sb_write) :=
  src ← c_disk_sb c;
  let c0 := write_super_seq c src in
  c1 ← write_super_propagate mm c0 (online_members c0);
  err ← write_super_validate mm c1 (online_members c1);
  match err with
  | Some msg =>
      c2 ← bch2_sb_update (bch2_fs_inconsistent c1);
      Some (c2, [])
  | None =>
      if c_opts_nochanges c1 || c_error c1 then
        c2 ← bch2_sb_update c1;
        Some (c2, [])
      else
        '(c2, ws) ← write_super_waves (S (Z.to_nat (max_nr_superblocks c1))) c1 0;
        c3 ← bch2_sb_update c2;
        Some (c3, ws)
  end.

(** ** Read path *)

(** linux/fs.h *)
Definition FMODE_READ : Z := 1.
Definition FMODE_WRITE : Z := 2.
Definition FMODE_EXCL : Z := 128.

(** [struct bch_opts], the options the read path consults; [None] is an
    option that is not defined. *)
Record bch_opts := {
  opt_sb : option Z;
  opt_noexcl : option bool;
  opt_nochanges : option bool
}.

(** What [blkdev_get_by_path] answers for the path. *)
Inductive blkdev_result :=
  | BlkBusy
  | BlkError
  | BlkOpened (bd : block_device).

Definition bch2_blkdev_open (get_by_path : Z -> blkdev_result) (mode : Z)
    : option string * option block_device :=
  match get_by_path mode with
  | BlkBusy => (Some "device busy", None)
  | BlkError => (Some "failed to open device", None)
  | BlkOpened bd => (None, Some bd)
  end.

(** [bch2_free_super]: the handle is zeroed. *)
Definition bch2_free_super (h : bcache_superblock) : bcache_superblock :=
  {| sb := None; sb_bio := None; bdev := None; page_order := 0; mode := 0 |}.

(** [read_one_super(sb, offset)]: the error, the handle, and the sectors
    read, in order.  [fuel] bounds the passes through [reread]. *)
Fixpoint read_one_super_from (fuel : nat) (mm : allocator)
    (h : bcache_superblock) (offset : Z)
    : option (option string * bcache_superblock * list Z) :=
  match fuel with
  | O => None
  | S fuel' =>
      _ ← sb_bio h;
      bd ← bdev h;
      _ ← sb h;
      match bd_read_sb bd offset with
      | None => Some (Some "IO error", h, [offset])
      | Some s =>
          let h1 := set_sb h (Some s) (page_order h) in
          if uuid_le_cmp (magic s) BCACHE_MAGIC
          then Some (Some "Not a bcachefs superblock", h1, [offset])
          else if negb (le64_to_cpu (version s) =? BCACHE_SB_VERSION_CDEV_V4)
          then Some (Some "Unsupported superblock version", h1, [offset])
          else
            let bytes := vstruct_bytes s in
            if bytes >? u64 (shl_int 512 (sb_max_size_bits (layout s)))
            then Some (Some "Bad superblock: too big", h1, [offset])
            else
              let order := get_order bytes in
              if order >? page_order h1 then
                let '(ret, h2) := __bch2_super_realloc mm h1 order in
                if negb (ret =? 0)
                then Some (Some "cannot allocate memory", h2, [offset])
                else
                  '(err, h3, log) ← read_one_super_from fuel' mm h2 offset;
                  Some (err, h3, offset :: log)
              else if BCH_SB_CSUM_TYPE s >=? BCH_CSUM_NR
              then Some (Some "unknown csum type", h1, [offset])
              else if bch2_crc_cmp (csum_vstruct (BCH_SB_CSUM_TYPE s) s) (csum s)
              then Some (Some "bad checksum reading superblock", h1, [offset])
              else Some (None, h1, [offset])
      end
  end.

(** The second pass reads the same sectors into a buffer that now holds
    them, so two passes are all [reread] can take. *)
Definition read_one_super (mm : allocator) (h : bcache_superblock) (offset : Z) :=
  read_one_super_from 2 mm h offset.

(** The loop of [bch2_read_super] over the backup offsets: whether a
    superblock was got, the last error, the handle and the sectors read. *)
Fixpoint read_super_backups (mm : allocator) (layout : bch_sb_layout)
    (n : nat) (i : Z) (err : option string) (h : bcache_superblock)
    : option (bool * option string * bcache_superblock * list Z) :=
  match n with
  | O => Some (false, err, h, [])
  | S n' =>
      let offset := le64_to_cpu (sb_offset_at layout i) in
      if offset =? BCH_SB_SECTOR
      then read_super_backups mm layout n' (i + 1) err h
      else
        '(err', h', log) ← read_one_super mm h offset;
        match err' with
        | None => Some (true, None, h', log)
        | Some _ =>
            '(got, e, h'', log') ← read_super_backups mm layout n' (i + 1) err' h';
            Some (got, e, h'', (log ++ log')%list)
        end
  end.

(** The tail of [bch2_read_super] from the label [got_super]. *)
Definition read_super_got (h : bcache_superblock) (log : list Z)
    : option (option string * bcache_superblock * list Z) :=
  s ← sb h;
  bd ← bdev h;
  if Z.shiftl (le16_to_cpu (block_size s)) 9 <? bd_logical_block_size bd
  then Some (Some "Superblock block size smaller than device block size",
             bch2_free_super h, log)
  else Some (None, h, log).

(** [bch2_read_super(sb, opts, path)]; [get_by_path] stands for the path
    and [fault] for the fault-injection point ["read_super"]. *)
Definition bch2_read_super (mm : allocator) (get_by_path : Z -> blkdev_result)
    (fault : bool) (opts : bch_opts)
    : option (option string * bcache_superblock * list Z) :=
  let offset := match opt_sb opts with Some o => o | None => BCH_SB_SECTOR end in
  let mode := FMODE_READ in
  let mode := if negb (bool_decide (opt_noexcl opts = Some true))
              then Z.lor mode FMODE_EXCL else mode in
  let mode := if negb (bool_decide (opt_nochanges opts = Some true))
              then Z.lor mode FMODE_WRITE else mode in
  let h := {| sb := None; sb_bio := None; bdev := None; page_order := 0;
              mode := mode |} in
  match bch2_blkdev_open get_by_path mode with
  | (Some err, _) => Some (Some err, h, [])
  | (None, bd) =>
      let h := {| sb := None; sb_bio := None; bdev := bd; page_order := 0;
                  mode := mode |} in
      let '(ret, h) := __bch2_super_realloc mm h 0 in
      if negb (ret =? 0)
      then Some (Some "cannot allocate memory", bch2_free_super h, [])
      else if fault then Some (Some "dynamic fault", bch2_free_super h, [])
      else
        '(err, h, log) ← read_one_super mm h offset;
        match err with
        | None => read_super_got h log
        | Some msg =>
            if negb (offset =? BCH_SB_SECTOR)
            then Some (Some msg, bch2_free_super h, log)
            else
              _ ← sb_bio h;
              bd ← bdev h;
              match bd_read_layout bd BCH_SB_LAYOUT_SECTOR with
              | None => Some (Some "IO error", bch2_free_super h,
                              (log ++ [BCH_SB_LAYOUT_SECTOR])%list)
              | Some layout =>
                  let log := (log ++ [BCH_SB_LAYOUT_SECTOR])%list in
                  match validate_sb_layout layout with
                  | Some msg => Some (Some msg, bch2_free_super h, log)
                  | None =>
                      '(got, err, h, log') ← read_super_backups mm layout
                          (Z.to_nat (nr_superblocks layout)) 0 None h;
                      if (got : bool) then read_super_got h (log ++ log')%list
                      else Some (err, bch2_free_super h, (log ++ log')%list)
                  end
              end
        end
  end.

(** ** Replica status *)

(** [struct replicas_status] is the array [replicas[BCH_DATA_NR]] of these,
    a [list replicas_nr]. *)
Record replicas_nr := {
  nr_online : Z;
  nr_offline : Z
}.


(** The device loop of [__bch2_replicas_status] for one entry;
    [dev_to_offline] is the slot of the device being considered, [None]
    for [NULL].  An empty slot [c->devs[dev]] is dereferenced: no result. *)
Fixpoint replicas_status_devs (c : bch_fs) (dev_to_offline : option Z)
    (e : bch_replicas_cpu_entry) (n : nat) (dev nr_on nr_off : Z)
    : option (Z * Z) :=
  match n with
  | O => Some (nr_on, nr_off)
  | S n' =>
      if negb (replicas_test_dev e dev)
      then replicas_status_devs c dev_to_offline e n' (dev + 1) nr_on nr_off
      else
        ca ← dev_at c (Z.to_nat dev);
        if ca_online ca && negb (bool_decide (dev_to_offline = Some dev))
        then replicas_status_devs c dev_to_offline e n' (dev + 1) (u32 (nr_on + 1)) nr_off
        else replicas_status_devs c dev_to_offline e n' (dev + 1) nr_on (u32 (nr_off + 1))
  end.

Fixpoint replicas_status_entries (c : bch_fs) (dev_to_offline : option Z)
    (dev_slots : Z) (es : list bch_replicas_cpu_entry) (ret : list replicas_nr)
    : option (list replicas_nr) :=
  match es with
  | [] => Some ret
  | e :: es' =>
      (* BUG_ON(e->data_type >= ARRAY_SIZE(ret.replicas)) *)
      old ← ret !! Z.to_nat (e_data_type e);
      '(nr_on, nr_off) ← replicas_status_devs c dev_to_offline e
                           (Z.to_nat dev_slots) 0 0 0;
      let new := {| nr_online := Z.min (nr_online old) nr_on;
                    nr_offline := Z.max (nr_offline old) nr_off |} in
      replicas_status_entries c dev_to_offline dev_slots es'
        (<[Z.to_nat (e_data_type e) := new]> ret)
  end.

Definition __bch2_replicas_status (c : bch_fs) (dev_to_offline : option Z)
    : option (list replicas_nr) :=
  let ret := repeat {| nr_online := UINT_MAX; nr_offline := 0 |}
                    (Z.to_nat BCH_DATA_NR) in
  let r := c_replicas c in
  let dev_slots := Z.min (u32 (replicas_dev_slots r)) (cpu_nr_devices (c_sb c)) in
  replicas_status_entries c dev_to_offline dev_slots (cpu_replicas_entries r) ret.

Definition bch2_replicas_status (c : bch_fs) : option (list replicas_nr) :=
  __bch2_replicas_status c None.

Definition status_at (s : list replicas_nr) (t : Z) : replicas_nr :=
  nth (Z.to_nat t) s {| nr_online := 0; nr_offline := 0 |}.

Definition bch2_replicas_online (c : bch_fs) (meta : bool) : option Z :=
  s ← bch2_replicas_status c;
  Some (if meta
        then Z.min (nr_online (status_at s BCH_DATA_JOURNAL))
                   (nr_online (status_at s BCH_DATA_BTREE))
        else nr_online (status_at s BCH_DATA_USER)).

(** ** Re-encoding the index ([bch2_replicas_gc_end]) *)

Definition hweight8 (b : Z) : Z :=
  fold_right Z.add 0 (map (fun k => Z.b2z (Z.testbit b (Z.of_nat k))) (List.seq 0 8)).

(** The size computation: [bytes] after the first loop. *)
Definition gc_end_bytes (r : bch_replicas_cpu) : Z :=
  fold_left (fun bytes e =>
               fold_left (fun bytes j => bytes + hweight8 (nth j (e_devs e) 0))
                         (List.seq 0 (Z.to_nat (u32 (r_entry_size r - 1)))) (bytes + 2))
            (cpu_replicas_entries r) 8.

(** Words asked of [bch2_fs_sb_resize_replicas]. *)
Definition gc_end_u64s (r : bch_replicas_cpu) : Z :=
  DIV_ROUND_UP (8 + gc_end_bytes r) 8.

(** A store of one byte; past the array it is dropped here. *)
Definition store_byte (buf : list Z) (i v : Z) : list Z :=
  <[Z.to_nat i := u8 v]> buf.

(** [for (j = 0; j < dev_slots; j++) if (replicas_test_dev(src_e, j))
    dst_e->devs[dst_e->nr++] = j;] *)
Fixpoint gc_end_devs (n : nat) (src_e : bch_replicas_cpu_entry) (buf : list Z)
    (dst_e j : Z) : list Z :=
  match n with
  | O => buf
  | S n' =>
      if replicas_test_dev src_e j then
        let nr := entry_nr buf dst_e in
        let buf1 := store_byte buf (dst_e + 2 + nr) j in
        let buf2 := store_byte buf1 (dst_e + 1) (nr + 1) in
        gc_end_devs n' src_e buf2 dst_e (j + 1)
      else gc_end_devs n' src_e buf dst_e (j + 1)
  end.

Fixpoint gc_end_entries (es : list bch_replicas_cpu_entry) (dev_slots : Z)
    (buf : list Z) (dst_e : Z) : list Z :=
  match es with
  | [] => buf
  | src_e :: es' =>
      let buf1 := store_byte buf dst_e (e_data_type src_e) in
      let buf2 := gc_end_devs (Z.to_nat dev_slots) src_e buf1 dst_e 0 in
      gc_end_entries es' dev_slots buf2 (replicas_entry_next buf2 dst_e)
  end.

(** The entries area of the replicas field that [bch2_replicas_gc_end]
    leaves: the field is resized to [gc_end_u64s] words, its entries are
    zeroed, and the index is written out entry by entry. *)
Definition gc_end_replicas (r : bch_replicas_cpu) : list Z :=
  let area := repeat 0 (Z.to_nat ((gc_end_u64s r - 1) * 8)) in
  gc_end_entries (cpu_replicas_entries r) (replicas_dev_slots r) area 0.

End SuperIO.

(** ** An instance of the format

    The values of bcachefs_format.h as of the superblock version the code
    checks for, with a toy checksum; the examples below are run on it. *)

Definition bitmask (w lo hi : Z) : Z :=
  Z.land (Z.shiftr w lo) (Z.ones (hi - lo)).

Definition set_bitmask (w lo hi v : Z) : Z :=
  Z.lor (Z.land w (Z.lnot (Z.shiftl (Z.ones (hi - lo)) lo)))
        (Z.shiftl (Z.land v (Z.ones (hi - lo))) lo).

Definition flag_word (s : bch_sb) (i : nat) : Z := nth i (flags s) 0.

Definition set_flags (s : bch_sb) (fl : list Z) : bch_sb :=
  {| csum := csum s; version := version s; magic := magic s;
     uuid := uuid s; user_uuid := user_uuid s; label := label s;
     offset := offset s; seq := seq s; block_size := block_size s;
     dev_idx := dev_idx s; nr_devices := nr_devices s; u64s := u64s s;
     time_base_lo := time_base_lo s; time_base_hi := time_base_hi s;
     time_precision := time_precision s; flags := fl;
     features := features s; compat := compat s; layout := layout s;
     _data := _data s |}.

(** A stand-in for the crc: type 0 (none) is all zero, any other type sums
    the sequence number and the field words. *)
Definition toy_csum (type : Z) (s : bch_sb) : bch_csum :=
  if type =? 0 then {| csum_lo := 0; csum_hi := 0 |}
  else {| csum_lo := u64 (fold_right Z.add (seq s)
                            (map (fun i => _data s (Z.of_nat i))
                                 (List.seq 0 (Z.to_nat (u64s s)))));
          csum_hi := 0 |}.

(** The eytzinger layout of a sorted array: node [i] has children
    [2i + 1] and [2i + 2], and the in-order walk of the nodes below [n]
    meets the elements in ascending order. *)
Fixpoint eytzinger_inorder (fuel : nat) (n i : nat) : list nat :=
  match fuel with
  | O => []
  | S fuel' =>
      if (i <? n)%nat
      then (eytzinger_inorder fuel' n (2 * i + 1) ++ i
              :: eytzinger_inorder fuel' n (2 * i + 2))%list
      else []
  end.

Definition cmp_node (x y : nat * bch_replicas_cpu_entry) : Z :=
  Z.of_nat (fst x) - Z.of_nat (fst y).

Definition eytzinger_layout (l : list bch_replicas_cpu_entry)
    : list bch_replicas_cpu_entry :=
  let sorted := sort memcmp_entry l in
  let nodes := eytzinger_inorder (length l) (length l) 0 in
  (map snd (sort cmp_node (combine nodes sorted))
     ++ skipn (length nodes) sorted)%list.

Lemma sort_insert_perm {A} (cmp : A -> A -> Z) x l :
  Permutation (sort_insert cmp x l) (x :: l).
Proof.
  induction l as [|y l IH]; simpl; [reflexivity|].
  destruct (cmp x y >? 0); [|reflexivity].
  rewrite IH. apply perm_swap.
Qed.

Lemma sort_perm {A} (cmp : A -> A -> Z) l : Permutation (sort cmp l) l.
Proof.
  induction l as [|x l IH]; simpl; [reflexivity|].
  rewrite sort_insert_perm. now constructor.
Qed.

Lemma map_snd_combine {A B} (l : list A) (l' : list B) :
  map snd (combine l l') = firstn (length l) l'.
Proof.
  revert l'; induction l as [|a l IH]; intros [|b l']; simpl; try reflexivity.
  now rewrite IH.
Qed.

Lemma eytzinger_layout_perm l : Permutation (eytzinger_layout l) l.
Proof.
  unfold eytzinger_layout.
  rewrite (Permutation_map snd (sort_perm cmp_node _)).
  rewrite map_snd_combine, firstn_skipn. apply sort_perm.
Qed.

#[export] Instance bcachefs_format : Format := {|
  BCACHE_MAGIC := 0x816dba487ff56582ca451a4ef67385c6;
  BCACHE_SB_VERSION_CDEV_V4 := 7;
  BCH_SB_SECTOR := 8;
  BCH_SB_LAYOUT_SECTOR := 7;
  SB_OFFSET_ARRAY_SIZE := 61;
  BCH_SB_MEMBERS_MAX := 64;
  BCH_REPLICAS_MAX := 4;
  BCH_SB_FIELD_journal := 0;
  BCH_SB_FIELD_members := 1;
  BCH_SB_FIELD_replicas := 3;
  BCH_SB_FIELD_NR := 4;
  BCH_DATA_JOURNAL := 2;
  BCH_DATA_BTREE := 3;
  BCH_DATA_USER := 4;
  BCH_DATA_NR := 5;
  BCH_CSUM_NR := 5;
  BTREE_NODE_SIZE_MAX := 512;
  NSEC_PER_SEC := 1000000000;
  PAGE_SIZE := 4096;
  PAGE_SECTORS := 8;
  SB_HEADER_BYTES := 752;
  BCH_SB_INITIALIZED s := bitmask (flag_word s 0) 0 1;
  BCH_SB_CLEAN s := bitmask (flag_word s 0) 1 2;
  BCH_SB_CSUM_TYPE s := bitmask (flag_word s 0) 2 8;
  SET_BCH_SB_CSUM_TYPE s v :=
    set_flags s (<[0%nat := set_bitmask (flag_word s 0) 2 8 v]> (flags s));
  BCH_SB_BTREE_NODE_SIZE s := bitmask (flag_word s 0) 12 28;
  BCH_SB_GC_RESERVE s := bitmask (flag_word s 0) 28 33;
  BCH_SB_META_REPLICAS_WANT s := bitmask (flag_word s 0) 48 52;
  BCH_SB_DATA_REPLICAS_WANT s := bitmask (flag_word s 0) 52 56;
  BCH_SB_STR_HASH_TYPE s := bitmask (flag_word s 1) 0 4;
  BCH_SB_ENCRYPTION_TYPE s := bitmask (flag_word s 1) 10 14;
  BCH_SB_META_REPLICAS_REQ s := bitmask (flag_word s 1) 20 24;
  BCH_SB_DATA_REPLICAS_REQ s := bitmask (flag_word s 1) 24 28;
  MEMBER_U64S := 7;
  member_uuid m := nth 0 m 0 + Z.shiftl (nth 1 m 0) 64;
  member_nbuckets m := nth 2 m 0;
  member_first_bucket m := bitmask (nth 3 m 0) 0 16;
  member_bucket_size m := bitmask (nth 3 m 0) 16 32;
  csum_vstruct := toy_csum;
  eytzinger0_sort := eytzinger_layout;
  eytzinger0_sort_perm := eytzinger_layout_perm;
  SB_HEADER_BYTES_range := ltac:(lia);
  BCH_DATA_JOURNAL_lt := ltac:(lia);
  BCH_DATA_BTREE_lt := ltac:(lia);
  BCH_DATA_USER_lt := ltac:(lia)
|}.

(** ** Layout validator: properties *)

Section LayoutFacts.
Context `{Format}.

Lemma validate_sb_layout_loop_None layout ms n : forall i prev,
  validate_sb_layout_loop layout ms n i prev = None <->
  forall k, (k < n)%nat ->
    u64 ((if k is O then prev else le64_to_cpu (sb_offset_at layout (i + Z.of_nat k - 1))) + ms)
      <= le64_to_cpu (sb_offset_at layout (i + Z.of_nat k)).
Proof.
  induction n as [|n IH]; intros i prev; simpl.
  - split; [intros _ k Hk; lia | reflexivity].
  - destruct (Z.ltb_spec (le64_to_cpu (sb_offset_at layout i)) (u64 (prev + ms))) as [Hlt|Hge].
    + split; [discriminate|]. intros Hall. specialize (Hall O ltac:(lia)).
      simpl in Hall. rewrite Z.add_0_r in Hall. lia.
    + rewrite IH. split.
      * intros Hall [|k] Hk; simpl.
        { rewrite Z.add_0_r. exact Hge. }
        specialize (Hall k ltac:(lia)).
        replace (i + Z.of_nat (S k)) with (i + 1 + Z.of_nat k) by lia.
        replace (i + 1 + Z.of_nat k - 1) with (i + Z.of_nat k) by lia.
        destruct k; simpl in *; [rewrite Z.add_0_r|]; try exact Hall.
        replace (i + 1 + Z.of_nat (S k) - 1) with (i + Z.of_nat (S k)) in Hall by lia.
        exact Hall.
      * intros Hall k Hk. specialize (Hall (S k) ltac:(lia)). simpl in Hall.
        replace (i + Z.of_nat (S k)) with (i + 1 + Z.of_nat k) in Hall by lia.
        replace (i + 1 + Z.of_nat k - 1) with (i + Z.of_nat k) in Hall by lia.
        destruct k; simpl; [rewrite Z.add_0_r in Hall|]; try exact Hall.
        replace (i + 1 + Z.of_nat (S k) - 1) with (i + Z.of_nat (S k)) by lia.
        exact Hall.
Qed.

End LayoutFacts.

Lemma u64_small x : 0 <= x < 2 ^ 64 -> u64 x = x.
Proof. intros. unfold u64. now apply Z.mod_small. Qed.

Lemma u32_small x : 0 <= x < 2 ^ 32 -> u32 x = x.
Proof. intros. unfold u32. now apply Z.mod_small. Qed.

Lemma shl_count_small b : 0 <= b <= 31 -> Z.land b 31 = b.
Proof.
  intros Hb. change 31 with (Z.ones 5). rewrite Z.land_ones by lia.
  apply Z.mod_small. change (2 ^ 5) with 32. lia.
Qed.

Lemma shl_int_small a b :
  0 <= b <= 31 -> 0 <= a * 2 ^ b < 2 ^ 31 -> shl_int a b = a * 2 ^ b.
Proof.
  intros Hb Hr. unfold shl_int, s32. rewrite shl_count_small by exact Hb.
  rewrite Z.shiftl_mul_pow2 by lia.
  rewrite Z.mod_small by lia.
  destruct (Z.ltb_spec (a * 2 ^ b) (2 ^ 31)); lia.
Qed.

Lemma pow2_le_30 b : 0 <= b <= 30 -> 0 < 2 ^ b <= 2 ^ 30.
Proof.
  intros. split; [apply Z.pow_pos_nonneg; lia|].
  apply Z.pow_le_mono_r; lia.
Qed.

(** Inside the range where neither the [int] shift nor the 64-bit sum
    overflows, [validate_sb_layout] accepts exactly the layouts with the
    right magic, type 0, between 1 and [ARRAY_SIZE(sb_offset)] superblocks
    and offsets at least [1 << sb_max_size_bits] sectors apart. *)
Theorem validate_sb_layout_sound `{Format} (layout : bch_sb_layout) :
  0 <= sb_max_size_bits layout <= 30 ->
  0 <= nr_superblocks layout ->
  (forall i, 0 <= i < nr_superblocks layout ->
     0 <= sb_offset_at layout i /\
     sb_offset_at layout i + 2 ^ sb_max_size_bits layout < 2 ^ 64) ->
  validate_sb_layout layout = None <->
  l_magic layout = BCACHE_MAGIC /\
  layout_type layout = 0 /\
  1 <= nr_superblocks layout <= SB_OFFSET_ARRAY_SIZE /\
  forall i, 1 <= i < nr_superblocks layout ->
    sb_offset_at layout (i - 1) + 2 ^ sb_max_size_bits layout
      <= sb_offset_at layout i.
Proof.
  intros Hbits Hnr Hoff. unfold validate_sb_layout, uuid_le_cmp.
  pose proof (pow2_le_30 _ Hbits) as Hp.
  assert (Hle : forall i, 0 <= i < nr_superblocks layout ->
            le64_to_cpu (sb_offset_at layout i) = sb_offset_at layout i).
  { intros i Hi. destruct (Hoff i Hi). apply u64_small. lia. }
  destruct (Z.eqb_spec (l_magic layout) BCACHE_MAGIC) as [Hm|Hm]; simpl;
    [|split; [discriminate | tauto]].
  destruct (Z.eqb_spec (layout_type layout) 0) as [Ht|Ht]; simpl;
    [|split; [discriminate | tauto]].
  destruct (Z.eqb_spec (nr_superblocks layout) 0) as [Hz|Hz];
    [split; [discriminate | lia]|].
  destruct (Z.gtb_spec (nr_superblocks layout) SB_OFFSET_ARRAY_SIZE) as [Hg|Hg];
    [split; [discriminate | lia]|].
  rewrite shl_int_small by lia. rewrite Z.mul_1_l.
  rewrite (u64_small (2 ^ _)) by lia.
  rewrite validate_sb_layout_loop_None. split.
  - intros Hall. repeat split; try lia. intros i Hi.
    specialize (Hall (Z.to_nat (i - 1)) ltac:(lia)).
    replace (1 + Z.of_nat (Z.to_nat (i - 1))) with i in Hall by lia.
    rewrite (Hle i) in Hall by lia.
    destruct (Hoff (i - 1) ltac:(lia)) as [? ?].
    destruct (Z.to_nat (i - 1)) eqn:E.
    + replace (i - 1) with 0 in * by lia.
      rewrite (Hle 0) in Hall by lia. rewrite u64_small in Hall by lia. exact Hall.
    + rewrite (Hle (i - 1)) in Hall by lia. rewrite u64_small in Hall by lia. exact Hall.
  - intros (_ & _ & _ & Hall) k Hk.
    specialize (Hall (1 + Z.of_nat k) ltac:(lia)).
    replace (1 + Z.of_nat k - 1) with (Z.of_nat k) in * by lia.
    rewrite (Hle (1 + Z.of_nat k)) by lia.
    destruct (Hoff (Z.of_nat k) ltac:(lia)) as [? ?].
    destruct k; [change (Z.of_nat 0) with 0 in *|].
    + rewrite (Hle 0) by lia. rewrite u64_small by lia. exact Hall.
    + rewrite (Hle (Z.of_nat (S k))) by lia. rewrite u64_small by lia. exact Hall.
Qed.

(** A layout whose first offset is the largest 64-bit value: the sum
    [prev_offset + max_sectors] wraps to 0. *)
Definition layout_wrapping : bch_sb_layout :=
  {| l_magic := BCACHE_MAGIC; layout_type := 0; sb_max_size_bits := 0;
     nr_superblocks := 2; sb_offset := (2 ^ 64 - 1) :: repeat 0 60 |}.

(** C8 (failing input): [validate_sb_layout] accepts a layout whose second
    offset, 0, lies below the first offset plus [1 << sb_max_size_bits]. *)
Theorem validate_sb_layout_accepts_wrapped :
  validate_sb_layout layout_wrapping = None /\
  sb_offset_at layout_wrapping 1
    < sb_offset_at layout_wrapping 0 + 2 ^ sb_max_size_bits layout_wrapping.
Proof. split; [vm_compute; reflexivity | vm_compute; reflexivity]. Qed.

(** The same validator at a layout inside the range: two copies 2048 sectors
    apart pass, two copies 8 sectors apart with room for 2048 do not. *)
Definition layout_good (second : Z) : bch_sb_layout :=
  {| l_magic := BCACHE_MAGIC; layout_type := 0; sb_max_size_bits := 11;
     nr_superblocks := 2; sb_offset := 8 :: second :: repeat 0 59 |}.

Lemma validate_sb_layout_sound_witness :
  validate_sb_layout (layout_good 2056) = None <->
  l_magic (layout_good 2056) = BCACHE_MAGIC /\
  layout_type (layout_good 2056) = 0 /\
  1 <= nr_superblocks (layout_good 2056) <= SB_OFFSET_ARRAY_SIZE /\
  forall i, 1 <= i < nr_superblocks (layout_good 2056) ->
    sb_offset_at (layout_good 2056) (i - 1) + 2 ^ sb_max_size_bits (layout_good 2056)
      <= sb_offset_at (layout_good 2056) i.
Proof.
  apply (validate_sb_layout_sound (layout_good 2056)).
  - simpl; lia.
  - simpl; lia.
  - intros i Hi. simpl in Hi.
    assert (i = 0 \/ i = 1) as [-> | ->] by lia; vm_compute; split; congruence.
Defined.

(** ** Buffer manager: properties *)

Lemma u32_range x : 0 <= u32 x < 2 ^ 32.
Proof. unfold u32. apply Z.mod_pos_bound. lia. Qed.

Lemma u64_range x : 0 <= u64 x < 2 ^ 64.
Proof. unfold u64. apply Z.mod_pos_bound. lia. Qed.

Lemma vstruct_bytes_u64 `{Format} n :
  u64 (__vstruct_bytes (u32 n)) = __vstruct_bytes (u32 n).
Proof.
  unfold __vstruct_bytes. pose proof SB_HEADER_BYTES_range.
  pose proof (u32_range n). apply u64_small. lia.
Qed.

Lemma max_bytes_small (bits : Z) :
  0 <= bits <= 21 -> u64 (shl_int 512 bits) = 512 * 2 ^ bits.
Proof.
  intros Hb.
  assert (0 < 2 ^ bits <= 2 ^ 21).
  { split; [apply Z.pow_pos_nonneg; lia | apply Z.pow_le_mono_r; lia]. }
  rewrite shl_int_small by lia. apply u64_small. lia.
Qed.

(** An allocator that never fails and hands out zeroed pages. *)
Definition mm_ok : allocator :=
  {| fault_super_realloc := false; bio_kmalloc := fun _ => true;
     get_free_pages := fun _ => Some zero_sb; kmalloc := true |}.

(** A filesystem handle around the image [s], with no devices. *)
Definition fs_of (s : bch_sb) : bch_fs :=
  {| c_disk_sb := Some s; c_disk_sb_order := 0; c_devs := [];
     c_sb := {| cpu_uuid := 0; cpu_user_uuid := 0; cpu_block_size := 0;
                cpu_btree_node_size := 0; cpu_nr_devices := 0;
                cpu_clean := 0; cpu_str_hash_type := 0;
                cpu_encryption_type := 0; cpu_time_base_lo := 0;
                cpu_time_base_hi := 0; cpu_time_precision := 0 |};
     c_replicas := {| r_nr := 0; r_entry_size := 1; r_entries := [] |};
     c_replicas_gc := None; c_opts_nochanges := false;
     c_opts_metadata_checksum := 0; c_error := false |}.

(** An empty image whose layout allows [512 << 11] bytes per copy. *)
Definition sb_empty : bch_sb :=
  {| csum := {| csum_lo := 0; csum_hi := 0 |}; version := 7;
     magic := BCACHE_MAGIC; uuid := 1; user_uuid := 2; label := [];
     offset := 8; seq := 1; block_size := 8; dev_idx := 0; nr_devices := 1;
     u64s := 0; time_base_lo := 0; time_base_hi := 0; time_precision := 1;
     flags := [0; 0]; features := []; compat := [];
     layout := layout_good 2056; _data := fun _ => 0 |}.

Definition handle_of (s : bch_sb) (order : Z) : bcache_superblock :=
  {| sb := Some s; sb_bio := Some (shl_int 1 order); bdev := None;
     page_order := order; mode := 0 |}.

(** C3 (counterexample): asked for 200000 words, far beyond the
    [512 << 11] bytes of the layout, [bch2_fs_sb_realloc] returns 0 and
    installs the larger buffer, while [bch2_sb_realloc] refuses the same
    request with [-ENOSPC]. *)
Lemma bch2_fs_sb_realloc_no_limit :
  __vstruct_bytes (u32 200000) > 512 * 2 ^ sb_max_size_bits (layout sb_empty) /\
  fst (bch2_fs_sb_realloc mm_ok (fs_of sb_empty) 200000) = 0 /\
  c_disk_sb_order (snd (bch2_fs_sb_realloc mm_ok (fs_of sb_empty) 200000)) = 9 /\
  bch2_sb_realloc mm_ok (handle_of sb_empty 0) 200000
    = Some (- ENOSPC, handle_of sb_empty 0).
Proof. repeat split; vm_compute; reflexivity. Qed.

(** C3 (amended): [bch2_sb_realloc] fails with [-ENOSPC], leaving the
    handle as it was, whenever the bytes wanted exceed
    [512 << layout.sb_max_size_bits] (for [sb_max_size_bits <= 21], where
    the [int] shift is defined); [bch2_fs_sb_realloc] consults no limit: it
    returns 0, or [-ENOMEM] when the page allocation fails, and never
    [-ENOSPC]. *)
Theorem bch2_sb_realloc_limit `{Format} (mm : allocator)
    (h : bcache_superblock) (s : bch_sb) (c : bch_fs) (n : Z) :
  sb h = Some s ->
  0 <= sb_max_size_bits (layout s) <= 21 ->
  __vstruct_bytes (u32 n) > 512 * 2 ^ sb_max_size_bits (layout s) ->
  bch2_sb_realloc mm h n = Some (- ENOSPC, h) /\
  (fst (bch2_fs_sb_realloc mm c n) = 0 \/
   fst (bch2_fs_sb_realloc mm c n) = - ENOMEM /\
   get_free_pages mm (get_order (__vstruct_bytes (u32 n))) = None).
Proof.
  intros Hs Hbits Hbig. split.
  - unfold bch2_sb_realloc. rewrite Hs. simpl.
    rewrite vstruct_bytes_u64, max_bytes_small by lia.
    destruct (Z.gtb_spec (__vstruct_bytes (u32 n))
                (512 * 2 ^ sb_max_size_bits (layout s))); [reflexivity | lia].
  - unfold bch2_fs_sb_realloc. rewrite vstruct_bytes_u64.
    destruct (_ && _); [left; reflexivity|].
    destruct (get_free_pages mm _) eqn:E; [left; reflexivity | right; split; reflexivity].
Qed.

Lemma bch2_sb_realloc_limit_witness :
  bch2_sb_realloc mm_ok (handle_of sb_empty 0) 200000
    = Some (- ENOSPC, handle_of sb_empty 0) /\
  (fst (bch2_fs_sb_realloc mm_ok (fs_of sb_empty) 200000) = 0 \/
   fst (bch2_fs_sb_realloc mm_ok (fs_of sb_empty) 200000) = - ENOMEM /\
   get_free_pages mm_ok (get_order (__vstruct_bytes (u32 200000))) = None).
Proof.
  apply (bch2_sb_realloc_limit mm_ok (handle_of sb_empty 0) sb_empty
           (fs_of sb_empty) 200000).
  - reflexivity.
  - vm_compute; split; congruence.
  - vm_compute; reflexivity.
Defined.

(** ** Replica status: properties *)

(** The specification's reading of the status: for one entry, the devices
    of its bitmap that are online and not the excluded one, and those that
    are not; per data type, the least of the former and the greatest of the
    latter. *)
Fixpoint count_range (f : Z -> bool) (n : nat) (dev : Z) : Z :=
  match n with
  | O => 0
  | S n' => Z.b2z (f dev) + count_range f n' (dev + 1)
  end.

Definition online_not_excluded (c : bch_fs) (x : option Z) (dev : Z) : bool :=
  match dev_at c (Z.to_nat dev) with
  | Some ca => ca_online ca && negb (bool_decide (x = Some dev))
  | None => false
  end.

Definition entry_nr_online (c : bch_fs) (x : option Z) (e : bch_replicas_cpu_entry) : Z :=
  count_range (fun d => replicas_test_dev e d && online_not_excluded c x d)
    (Z.to_nat (replicas_dev_slots (c_replicas c))) 0.

Definition entry_nr_offline (c : bch_fs) (x : option Z) (e : bch_replicas_cpu_entry) : Z :=
  count_range (fun d => replicas_test_dev e d && negb (online_not_excluded c x d))
    (Z.to_nat (replicas_dev_slots (c_replicas c))) 0.

Definition entries_of_type (c : bch_fs) (t : Z) : list bch_replicas_cpu_entry :=
  filter (fun e => e_data_type e = t) (cpu_replicas_entries (c_replicas c)).

Definition min_over (l : list Z) : Z := fold_right Z.min UINT_MAX l.
Definition max_over (l : list Z) : Z := fold_right Z.max 0 l.

(** The index is well formed for [c]: data types index the status array,
    the bitmap width is that of at most [2^28] bytes, and every device of a
    bitmap is a member below [c->sb.nr_devices] whose slot is filled. *)
Definition replicas_wf `{Format} (c : bch_fs) : Prop :=
  1 <= r_entry_size (c_replicas c) < 2 ^ 28 /\
  forall e, In e (cpu_replicas_entries (c_replicas c)) ->
    0 <= e_data_type e < BCH_DATA_NR /\
    forall d, 0 <= d < replicas_dev_slots (c_replicas c) ->
      replicas_test_dev e d = true ->
      d < cpu_nr_devices (c_sb c) /\ is_Some (dev_at c (Z.to_nat d)).

Section StatusFacts.
Context `{Format}.

Lemma count_range_bounds f n dev : 0 <= count_range f n dev <= Z.of_nat n.
Proof.
  revert dev; induction n as [|n IH]; intros dev; simpl count_range; [lia|].
  specialize (IH (dev + 1)). destruct (f dev); simpl Z.b2z; lia.
Qed.

Lemma count_range_ext f g n dev :
  (forall d, dev <= d < dev + Z.of_nat n -> f d = g d) ->
  count_range f n dev = count_range g n dev.
Proof.
  revert dev; induction n as [|n IH]; intros dev Hfg; simpl; [reflexivity|].
  rewrite Hfg by lia. rewrite IH; [reflexivity|]. intros d Hd. apply Hfg. lia.
Qed.

Lemma count_range_app f n m dev :
  count_range f (n + m) dev
  = count_range f n dev + count_range f m (dev + Z.of_nat n).
Proof.
  revert dev; induction n as [|n IH]; intros dev.
  - simpl. now rewrite Z.add_0_r.
  - cbn [count_range Nat.add]. rewrite IH.
    replace (dev + 1 + Z.of_nat n) with (dev + Z.of_nat (S n)) by lia. lia.
Qed.

Lemma count_range_false f n dev :
  (forall d, dev <= d < dev + Z.of_nat n -> f d = false) ->
  count_range f n dev = 0.
Proof.
  revert dev; induction n as [|n IH]; intros dev Hf; simpl; [reflexivity|].
  rewrite Hf by lia. rewrite IH; [reflexivity|]. intros d Hd. apply Hf. lia.
Qed.

Lemma replicas_status_devs_spec c x e n : forall dev nr_on nr_off,
  0 <= dev -> 0 <= nr_on -> 0 <= nr_off ->
  nr_on + nr_off + Z.of_nat n < 2 ^ 32 ->
  (forall d, dev <= d < dev + Z.of_nat n -> replicas_test_dev e d = true ->
     is_Some (dev_at c (Z.to_nat d))) ->
  replicas_status_devs c x e n dev nr_on nr_off
  = Some (nr_on + count_range (fun d => replicas_test_dev e d
                                        && online_not_excluded c x d) n dev,
          nr_off + count_range (fun d => replicas_test_dev e d
                                         && negb (online_not_excluded c x d)) n dev).
Proof.
  induction n as [|n IH]; intros dev nr_on nr_off Hdev Hon Hoff Hsum Hex.
  - simpl. now rewrite !Z.add_0_r.
  - cbn [replicas_status_devs count_range].
    destruct (replicas_test_dev e dev) eqn:Ht; cbn [negb andb].
    + destruct (Hex dev ltac:(lia) Ht) as [ca Hca].
      unfold online_not_excluded at 1 3. rewrite Hca. cbn [mbind option_bind].
      destruct (ca_online ca && negb (bool_decide (x = Some dev))); cbn [negb Z.b2z].
      * rewrite u32_small by lia. rewrite IH; try lia.
        { f_equal. f_equal; lia. }
        intros d Hd. apply Hex. lia.
      * rewrite u32_small by lia. rewrite IH; try lia.
        { f_equal. f_equal; lia. }
        intros d Hd. apply Hex. lia.
    + rewrite IH; try lia.
      { simpl Z.b2z. f_equal. }
      intros d Hd. apply Hex. lia.
Qed.

Lemma status_at_insert_eq (ret : list replicas_nr) t v :
  0 <= t < Z.of_nat (length ret) ->
  status_at (<[Z.to_nat t := v]> ret) t = v.
Proof.
  intros Ht. unfold status_at.
  apply nth_lookup_Some with (d := {| nr_online := 0; nr_offline := 0 |}).
  apply list_lookup_insert_eq. lia.
Qed.

Lemma status_at_insert_ne (ret : list replicas_nr) t t' v :
  0 <= t -> 0 <= t' -> t <> t' ->
  status_at (<[Z.to_nat t := v]> ret) t' = status_at ret t'.
Proof.
  intros Ht Ht' Hne. unfold status_at.
  rewrite !nth_lookup. rewrite list_lookup_insert_ne by lia. reflexivity.
Qed.

End StatusFacts.

Section StatusLoop.
Context `{Format}.

Lemma replicas_status_entries_spec c x slots es : forall ret : list replicas_nr,
  0 <= slots < 2 ^ 32 ->
  (forall e, In e es ->
     0 <= e_data_type e < Z.of_nat (length ret) /\
     forall d, 0 <= d < slots -> replicas_test_dev e d = true ->
       is_Some (dev_at c (Z.to_nat d))) ->
  exists ret',
    replicas_status_entries c x slots es ret = Some ret' /\
    length ret' = length ret /\
    forall t, 0 <= t ->
      nr_online (status_at ret' t)
      = fold_left (fun a e => Z.min a
            (count_range (fun d => replicas_test_dev e d && online_not_excluded c x d)
               (Z.to_nat slots) 0))
          (filter (fun e => e_data_type e = t) es) (nr_online (status_at ret t)) /\
      nr_offline (status_at ret' t)
      = fold_left (fun a e => Z.max a
            (count_range (fun d => replicas_test_dev e d
                                   && negb (online_not_excluded c x d))
               (Z.to_nat slots) 0))
          (filter (fun e => e_data_type e = t) es) (nr_offline (status_at ret t)).
Proof.
  induction es as [|e es IH]; intros ret Hslots Hwf.
  - exists ret. simpl. repeat split; reflexivity.
  - destruct (Hwf e (or_introl eq_refl)) as [Ht Hdev].
    cbn [replicas_status_entries].
    destruct (ret !! Z.to_nat (e_data_type e)) as [old|] eqn:Hold.
    2:{ apply lookup_ge_None in Hold. lia. }
    cbn [mbind option_bind].
    rewrite replicas_status_devs_spec; try lia.
    2:{ intros d Hd. apply Hdev. lia. }
    cbn [mbind option_bind]. rewrite !Z.add_0_l.
    set (new := {| nr_online := _; nr_offline := _ |}).
    destruct (IH (<[Z.to_nat (e_data_type e) := new]> ret) Hslots) as (ret' & Hrun & Hlen & Hspec).
    { intros e' He'. rewrite length_insert. apply Hwf. now right. }
    exists ret'. split; [exact Hrun|]. split; [now rewrite Hlen, length_insert|].
    intros t Ht0. destruct (Hspec t Ht0) as [Hon Hoff]. rewrite Hon, Hoff.
    assert (Hnth : status_at ret (e_data_type e) = old).
    { unfold status_at. now apply nth_lookup_Some. }
    destruct (decide (e_data_type e = t)) as [Heq|Hne].
    + rewrite filter_cons_True by exact Heq. cbn [fold_left]. subst t.
      rewrite status_at_insert_eq by lia. rewrite Hnth. subst new. simpl. split; reflexivity.
    + rewrite filter_cons_False by exact Hne.
      rewrite status_at_insert_ne by lia. split; reflexivity.
Qed.

Lemma fold_right_min_acc a b l :
  fold_right Z.min (Z.min a b) l = Z.min b (fold_right Z.min a l).
Proof. induction l as [|y l IH]; simpl; [lia | rewrite IH; lia]. Qed.

Lemma fold_right_max_acc a b l :
  fold_right Z.max (Z.max a b) l = Z.max b (fold_right Z.max a l).
Proof. induction l as [|y l IH]; simpl; [lia | rewrite IH; lia]. Qed.

Lemma fold_left_min_right {A} (f : A -> Z) l a :
  fold_left (fun acc e => Z.min acc (f e)) l a = fold_right Z.min a (map f l).
Proof.
  revert a; induction l as [|y l IH]; intros a; simpl; [reflexivity|].
  rewrite IH. apply fold_right_min_acc.
Qed.

Lemma fold_left_max_right {A} (f : A -> Z) l a :
  fold_left (fun acc e => Z.max acc (f e)) l a = fold_right Z.max a (map f l).
Proof.
  revert a; induction l as [|y l IH]; intros a; simpl; [reflexivity|].
  rewrite IH. apply fold_right_max_acc.
Qed.

Lemma status_at_repeat v n t :
  0 <= t < Z.of_nat n -> status_at (repeat v n) t = v.
Proof.
  intros Ht. unfold status_at. apply nth_repeat_lt. lia.
Qed.

(** The devices the code skips, those at or above [c->sb.nr_devices], are
    in no bitmap of a well-formed index. *)
Lemma count_clipped c (f : Z -> bool) e :
  replicas_wf c -> In e (cpu_replicas_entries (c_replicas c)) ->
  (forall d, replicas_test_dev e d = false -> f d = false) ->
  count_range f
    (Z.to_nat (Z.min (u32 (replicas_dev_slots (c_replicas c)))
                     (cpu_nr_devices (c_sb c)))) 0
  = count_range f (Z.to_nat (replicas_dev_slots (c_replicas c))) 0.
Proof.
  intros [Hsz Hwf] He Hf. destruct (Hwf e He) as [_ Hdev].
  assert (Hs : 0 <= replicas_dev_slots (c_replicas c) < 2 ^ 32).
  { unfold replicas_dev_slots. lia. }
  rewrite u32_small by exact Hs.
  destruct (Z.le_ge_cases (replicas_dev_slots (c_replicas c)) (cpu_nr_devices (c_sb c))) as [Hle|Hge].
  - now rewrite Z.min_l.
  - rewrite Z.min_r by exact Hge.
    destruct (Z.le_gt_cases 0 (cpu_nr_devices (c_sb c))) as [Hnn|Hneg].
    + replace (Z.to_nat (replicas_dev_slots (c_replicas c)))
        with (Z.to_nat (cpu_nr_devices (c_sb c))
              + Z.to_nat (replicas_dev_slots (c_replicas c) - cpu_nr_devices (c_sb c)))%nat by lia.
      rewrite count_range_app. rewrite (count_range_false f (Z.to_nat (_ - _))); [lia|].
      intros d Hd. apply Hf. destruct (replicas_test_dev e d) eqn:Ht; [|reflexivity].
      destruct (Hdev d ltac:(lia) Ht). lia.
    + replace (Z.to_nat (cpu_nr_devices (c_sb c))) with O by lia. simpl.
      symmetry. apply count_range_false. intros d Hd. apply Hf.
      destruct (replicas_test_dev e d) eqn:Ht; [|reflexivity].
      destruct (Hdev d ltac:(lia) Ht). lia.
Qed.

(** What [__bch2_replicas_status] returns on a well-formed index. *)
Lemma replicas_status_spec c x :
  replicas_wf c ->
  exists ret,
    __bch2_replicas_status c x = Some ret /\
    forall t, 0 <= t < BCH_DATA_NR ->
      nr_online (status_at ret t)
        = min_over (map (entry_nr_online c x) (entries_of_type c t)) /\
      nr_offline (status_at ret t)
        = max_over (map (entry_nr_offline c x) (entries_of_type c t)).
Proof.
  intros Hwf. pose proof Hwf as [Hsz Hent]. unfold __bch2_replicas_status.
  set (slots := Z.min _ _).
  assert (Hs : 0 <= replicas_dev_slots (c_replicas c) < 2 ^ 32).
  { unfold replicas_dev_slots. lia. }
  destruct (Z.le_gt_cases 0 slots) as [Hnn|Hneg].
  - destruct (replicas_status_entries_spec c x slots (cpu_replicas_entries (c_replicas c))
                (repeat {| nr_online := UINT_MAX; nr_offline := 0 |} (Z.to_nat BCH_DATA_NR)))
      as (ret & Hrun & _ & Hspec).
    { subst slots. pose proof (u32_range (replicas_dev_slots (c_replicas c))). lia. }
    { intros e He. destruct (Hent e He) as [Ht Hdev]. rewrite repeat_length. split; [lia|].
      intros d Hd Htest. apply Hdev; [|exact Htest].
      subst slots. rewrite u32_small in Hd by exact Hs. lia. }
    exists ret. split; [exact Hrun|]. intros t Ht.
    destruct (Hspec t ltac:(lia)) as [Hon Hoff]. rewrite Hon, Hoff.
    rewrite status_at_repeat by lia. simpl nr_online. simpl nr_offline.
    rewrite fold_left_min_right, fold_left_max_right.
    unfold min_over, max_over, entries_of_type. split; f_equal.
    + apply map_ext_in. intros e He. apply list_elem_of_In, list_elem_of_filter in He.
      destruct He as [_ He]. apply list_elem_of_In in He.
      unfold entry_nr_online. subst slots. apply (count_clipped c _ e Hwf He).
      intros d ->. reflexivity.
    + apply map_ext_in. intros e He. apply list_elem_of_In, list_elem_of_filter in He.
      destruct He as [_ He]. apply list_elem_of_In in He.
      unfold entry_nr_offline. subst slots. apply (count_clipped c _ e Hwf He).
      intros d ->. reflexivity.
  - destruct (replicas_status_entries_spec c x 0 (cpu_replicas_entries (c_replicas c))
                (repeat {| nr_online := UINT_MAX; nr_offline := 0 |} (Z.to_nat BCH_DATA_NR)))
      as (ret & Hrun & _ & Hspec); [lia| |].
    { intros e He. destruct (Hent e He) as [Ht Hdev]. rewrite repeat_length. split; [lia|].
      intros d Hd. lia. }
    assert (Hz : Z.to_nat slots = Z.to_nat 0) by lia.
    assert (Hrun' : replicas_status_entries c x slots (cpu_replicas_entries (c_replicas c))
              (repeat {| nr_online := UINT_MAX; nr_offline := 0 |} (Z.to_nat BCH_DATA_NR))
            = Some ret).
    { rewrite <- Hrun. clear -Hz.
      generalize (repeat {| nr_online := UINT_MAX; nr_offline := 0 |} (Z.to_nat BCH_DATA_NR)).
      induction (cpu_replicas_entries (c_replicas c)) as [|e es IH]; intros ret0; simpl; [reflexivity|].
      rewrite Hz. destruct (ret0 !! _); simpl; [apply IH | reflexivity]. }
    exists ret. split; [exact Hrun'|]. intros t Ht.
    destruct (Hspec t ltac:(lia)) as [Hon Hoff]. rewrite Hon, Hoff.
    rewrite status_at_repeat by lia. simpl nr_online. simpl nr_offline.
    rewrite fold_left_min_right, fold_left_max_right.
    unfold min_over, max_over, entries_of_type. split; f_equal.
    + apply map_ext_in. intros e He. apply list_elem_of_In, list_elem_of_filter in He.
      destruct He as [_ He]. apply list_elem_of_In in He.
      unfold entry_nr_online.
      rewrite <- (count_clipped c _ e Hwf He) by (intros d ->; reflexivity).
      fold slots. now rewrite Hz.
    + apply map_ext_in. intros e He. apply list_elem_of_In, list_elem_of_filter in He.
      destruct He as [_ He]. apply list_elem_of_In in He.
      unfold entry_nr_offline.
      rewrite <- (count_clipped c _ e Hwf He) by (intros d ->; reflexivity).
      fold slots. now rewrite Hz.
Qed.

End StatusLoop.

(** A three-device filesystem: devices 0 and 1 online, device 2 offline;
    user data replicated on {0,1} and on {1,2}, btree nodes on {0,2}. *)
Definition dev_of (idx : Z) (online : bool) (s : bch_sb) : bch_dev :=
  {| ca_dev_idx := idx; ca_disk_sb := handle_of s 0; ca_online := online;
     ca_mi := {| nbuckets := 0; first_bucket := 0; bucket_size := 0;
                 mi_valid := true |} |}.

Definition fs_three (entries : list bch_replicas_cpu_entry) : bch_fs :=
  {| c_disk_sb := Some sb_empty; c_disk_sb_order := 0;
     c_devs := [Some (dev_of 0 true sb_empty); Some (dev_of 1 true sb_empty);
                Some (dev_of 2 false sb_empty)];
     c_sb := {| cpu_uuid := 1; cpu_user_uuid := 2; cpu_block_size := 8;
                cpu_btree_node_size := 0; cpu_nr_devices := 3;
                cpu_clean := 0; cpu_str_hash_type := 0;
                cpu_encryption_type := 0; cpu_time_base_lo := 0;
                cpu_time_base_hi := 0; cpu_time_precision := 1 |};
     c_replicas := {| r_nr := Z.of_nat (length entries); r_entry_size := 2;
                      r_entries := entries |};
     c_replicas_gc := None; c_opts_nochanges := false;
     c_opts_metadata_checksum := 0; c_error := false |}.

Definition fs_three_user : bch_fs :=
  fs_three [ {| e_data_type := 3; e_devs := [5] |};
             {| e_data_type := 4; e_devs := [3] |};
             {| e_data_type := 4; e_devs := [6] |} ].

Definition fs_three_btree : bch_fs :=
  fs_three [ {| e_data_type := 3; e_devs := [5] |} ].

Example fs_three_user_status :
  __bch2_replicas_status fs_three_user None
  = Some [ {| nr_online := UINT_MAX; nr_offline := 0 |};
           {| nr_online := UINT_MAX; nr_offline := 0 |};
           {| nr_online := UINT_MAX; nr_offline := 0 |};
           {| nr_online := 1; nr_offline := 1 |};
           {| nr_online := 1; nr_offline := 1 |} ] /\
  __bch2_replicas_status fs_three_user (Some 1)
  = Some [ {| nr_online := UINT_MAX; nr_offline := 0 |};
           {| nr_online := UINT_MAX; nr_offline := 0 |};
           {| nr_online := UINT_MAX; nr_offline := 0 |};
           {| nr_online := 1; nr_offline := 1 |};
           {| nr_online := 0; nr_offline := 2 |} ].
Proof. split; vm_compute; reflexivity. Qed.

Lemma fs_three_wf entries :
  Forall (fun e => 0 <= e_data_type e < 5 /\ exists b, e_devs e = [b] /\ 0 <= b < 8) entries ->
  replicas_wf (fs_three entries).
Proof.
  intros Hall. split; [simpl; lia|]. intros e He.
  unfold cpu_replicas_entries in He. simpl in He.
  rewrite Nat2Z.id, firstn_all in He.
  rewrite List.Forall_forall in Hall. destruct (Hall e He) as (Ht & b & Hb & Hrange).
  split; [exact Ht|]. intros d Hd Htest.
  unfold replicas_dev_slots in Hd. simpl in Hd.
  unfold replicas_test_dev in Htest. rewrite Hb in Htest.
  assert (d = 0 \/ d = 1 \/ d = 2 \/ 3 <= d < 8) as [-> | [-> | [-> | Hbig]]] by lia;
    try (split; [simpl; lia | eexists; reflexivity]).
  exfalso.
  assert (b = 0 \/ b = 1 \/ b = 2 \/ b = 3 \/ b = 4 \/ b = 5 \/ b = 6 \/ b = 7)
    as Hcases by lia.
  assert (d = 3 \/ d = 4 \/ d = 5 \/ d = 6 \/ d = 7) as Hd' by lia.
  clear -Htest Hcases Hd'.
  destruct Hd' as [-> | [-> | [-> | [-> | ->]]]];
    destruct Hcases as [-> | [-> | [-> | [-> | [-> | [-> | [-> | ->]]]]]]];
    vm_compute in Htest; discriminate.
Qed.

(** C5: on a well-formed index, [__bch2_replicas_status] returns a status
    whose [nr_online] for a data type is the minimum, over the index entries
    of that type, of the devices in the entry's bitmap that are online and
    not the excluded device, and whose [nr_offline] is the maximum of the
    devices of the bitmap that are offline or excluded. *)
Theorem replicas_status_min_online_max_offline `{Format} (c : bch_fs) (x : option Z) :
  replicas_wf c ->
  exists ret,
    __bch2_replicas_status c x = Some ret /\
    forall t, 0 <= t < BCH_DATA_NR ->
      nr_online (status_at ret t)
        = min_over (map (entry_nr_online c x) (entries_of_type c t)) /\
      nr_offline (status_at ret t)
        = max_over (map (entry_nr_offline c x) (entries_of_type c t)).
Proof. apply replicas_status_spec. Qed.

Lemma replicas_status_min_online_max_offline_witness :
  exists ret,
    __bch2_replicas_status fs_three_user (Some 1) = Some ret /\
    forall t, 0 <= t < BCH_DATA_NR ->
      nr_online (status_at ret t)
        = min_over (map (entry_nr_online fs_three_user (Some 1))
                        (entries_of_type fs_three_user t)) /\
      nr_offline (status_at ret t)
        = max_over (map (entry_nr_offline fs_three_user (Some 1))
                        (entries_of_type fs_three_user t)).
Proof.
  apply (replicas_status_min_online_max_offline fs_three_user (Some 1)).
  apply fs_three_wf.
  repeat constructor; simpl; try lia; eexists; (split; [reflexivity | lia]).
Defined.

(** C10: for a data type with no entry in the index the status keeps
    [nr_online = UINT_MAX]; so [bch2_replicas_online] returns [UINT_MAX],
    not 0, when the index has no user entry (or, for metadata, neither a
    journal nor a btree entry). *)
Theorem replicas_status_no_entry_uint_max `{Format} (c : bch_fs) (x : option Z) :
  replicas_wf c ->
  (forall t, 0 <= t < BCH_DATA_NR -> entries_of_type c t = [] ->
     exists ret, __bch2_replicas_status c x = Some ret /\
                 nr_online (status_at ret t) = UINT_MAX) /\
  (entries_of_type c BCH_DATA_USER = [] ->
     bch2_replicas_online c false = Some UINT_MAX) /\
  (entries_of_type c BCH_DATA_JOURNAL = [] ->
   entries_of_type c BCH_DATA_BTREE = [] ->
     bch2_replicas_online c true = Some UINT_MAX).
Proof.
  intros Hwf. split; [|split].
  - intros t Ht Hnone.
    destruct (replicas_status_spec c x Hwf) as (ret & Hrun & Hspec).
    exists ret. split; [exact Hrun|].
    destruct (Hspec t Ht) as [-> _]. now rewrite Hnone.
  - intros Hnone. unfold bch2_replicas_online, bch2_replicas_status.
    destruct (replicas_status_spec c None Hwf) as (ret & -> & Hspec). simpl.
    destruct (Hspec BCH_DATA_USER BCH_DATA_USER_lt) as [-> _]. now rewrite Hnone.
  - intros Hj Hb. unfold bch2_replicas_online, bch2_replicas_status.
    destruct (replicas_status_spec c None Hwf) as (ret & -> & Hspec). simpl.
    destruct (Hspec BCH_DATA_JOURNAL BCH_DATA_JOURNAL_lt) as [-> _].
    destruct (Hspec BCH_DATA_BTREE BCH_DATA_BTREE_lt) as [-> _].
    now rewrite Hj, Hb.
Qed.

Lemma replicas_status_no_entry_uint_max_witness :
  (forall t, 0 <= t < BCH_DATA_NR -> entries_of_type fs_three_btree t = [] ->
     exists ret, __bch2_replicas_status fs_three_btree None = Some ret /\
                 nr_online (status_at ret t) = UINT_MAX) /\
  (entries_of_type fs_three_btree BCH_DATA_USER = [] ->
     bch2_replicas_online fs_three_btree false = Some UINT_MAX) /\
  (entries_of_type fs_three_btree BCH_DATA_JOURNAL = [] ->
   entries_of_type fs_three_btree BCH_DATA_BTREE = [] ->
     bch2_replicas_online fs_three_btree true = Some UINT_MAX).
Proof.
  apply (replicas_status_no_entry_uint_max fs_three_btree None).
  apply fs_three_wf.
  repeat constructor; simpl; try lia; eexists; (split; [reflexivity | lia]).
Defined.

Example fs_three_btree_online :
  entries_of_type fs_three_btree BCH_DATA_USER = [] /\
  bch2_replicas_online fs_three_btree false = Some UINT_MAX /\
  bch2_replicas_online fs_three_btree true = Some 1 /\
  bch2_replicas_online (fs_three []) true = Some UINT_MAX.
Proof. repeat split; vm_compute; reflexivity. Qed.

(** ** Journal bucket validation: properties *)

(** The verdict on a non-empty bucket list, in the order the code reports:
    a bucket at sector 0, a bucket before [first_bucket], a bucket at or
    past [nbuckets], a bucket listed twice. *)
Definition journal_verdict (bs : list Z) (mi : bch_member_cpu) : option string :=
  if existsb (fun b => b =? 0) bs then Some "journal bucket at sector 0"
  else if existsb (fun b => b <? first_bucket mi) bs
  then Some "journal bucket before first bucket"
  else if existsb (fun b => b >=? nbuckets mi) bs
  then Some "journal bucket past end of device"
  else if negb (bool_decide (NoDup bs)) then Some "duplicate journal buckets"
  else None.

Section JournalFacts.

Lemma u64_cmp_gt x y : (u64_cmp x y >? 0) = (y <? x).
Proof.
  unfold u64_cmp.
  destruct (Z.ltb_spec x y), (Z.gtb_spec x y), (Z.ltb_spec y x); try reflexivity; lia.
Qed.

Lemma sort_insert_sorted x l :
  StronglySorted Z.le l -> StronglySorted Z.le (sort_insert u64_cmp x l).
Proof.
  induction 1 as [|y l Hs IH Hall]; simpl.
  - repeat constructor.
  - rewrite u64_cmp_gt. destruct (Z.ltb_spec y x) as [Hlt|Hge].
    + constructor; [exact IH|].
      rewrite List.Forall_forall in *. intros z Hz.
      apply (Permutation_in _ (sort_insert_perm u64_cmp x l)) in Hz.
      destruct Hz as [<-|Hz]; [lia | now apply Hall].
    + constructor; [now constructor|]. constructor; [exact Hge|].
      rewrite List.Forall_forall in *. intros z Hz. specialize (Hall z Hz). lia.
Qed.

Lemma sort_sorted l : StronglySorted Z.le (sort u64_cmp l).
Proof.
  induction l as [|x l IH]; simpl; [constructor | now apply sort_insert_sorted].
Qed.

Lemma sorted_head_min b d :
  StronglySorted Z.le b -> forall x, In x b -> nth 0 b d <= x.
Proof.
  intros Hs x Hx. destruct Hs as [|y l Hs Hall]; [destruct Hx|].
  simpl. destruct Hx as [<-|Hx]; [lia|].
  rewrite List.Forall_forall in Hall. now apply Hall.
Qed.

Lemma sorted_last_max b d :
  StronglySorted Z.le b -> forall x, In x b -> x <= nth (length b - 1) b d.
Proof.
  induction 1 as [|y l Hs IH Hall]; intros x Hx; [destruct Hx|].
  destruct l as [|z l'].
  - destruct Hx as [<-|[]]. simpl. lia.
  - replace (length (y :: z :: l') - 1)%nat
      with (S (length (z :: l') - 1)) by (simpl; lia).
    cbn [nth].
    destruct Hx as [<-|Hx]; [|now apply IH].
    rewrite List.Forall_forall in Hall.
    transitivity z; [apply Hall; now left | apply IH; now left].
Qed.

Lemma nth_In_nonempty (b : list Z) i d : b <> [] -> (i < length b)%nat -> In (nth i b d) b.
Proof. intros _ Hi. now apply nth_In. Qed.

Lemma sorted_adjacent_dup b :
  StronglySorted Z.le b -> has_adjacent_dup b = negb (bool_decide (NoDup b)).
Proof.
  induction 1 as [|y l Hs IH Hall]; [reflexivity|].
  destruct l as [|z l']; [reflexivity|].
  change (has_adjacent_dup (y :: z :: l'))
    with ((y =? z) || has_adjacent_dup (z :: l')).
  rewrite IH. destruct (Z.eqb_spec y z) as [->|Hne]; simpl.
  - symmetry. apply negb_true_iff, bool_decide_eq_false.
    intros Hnd. apply NoDup_cons in Hnd. destruct Hnd as [Hnd _].
    apply Hnd. now left.
  - f_equal. apply bool_decide_ext. rewrite (NoDup_cons y). split; [|tauto].
    intros Hnd. split; [|exact Hnd].
    intros Hin. apply list_elem_of_In in Hin. destruct Hin as [Heq|Hin]; [congruence|].
    inversion Hs as [|? ? _ Hz]; subst. rewrite List.Forall_forall in Hall, Hz.
    pose proof (Hall z (or_introl eq_refl)). pose proof (Hz y Hin). lia.
Qed.

Lemma existsb_perm {A} (f : A -> bool) l l' :
  Permutation l l' -> existsb f l = existsb f l'.
Proof.
  intros Hp. apply eq_true_iff_eq. rewrite !existsb_exists.
  split; intros (x & Hx & Hf); exists x; split; try exact Hf.
  - now apply (Permutation_in _ Hp).
  - now apply (Permutation_in _ (Permutation_sym Hp)).
Qed.

Lemma journal_buckets_range `{Format} sb p nr b :
  In b (journal_buckets_at sb p nr) -> 0 <= b < 2 ^ 64.
Proof.
  unfold journal_buckets_at. rewrite in_map_iff. intros (i & <- & _).
  apply u64_range.
Qed.

(** On a non-empty list of 64-bit values the checks on the sorted copy
    decide the verdict. *)
Lemma validate_journal_buckets_verdict bs mi :
  bs <> [] -> (forall b, In b bs -> 0 <= b) ->
  validate_journal_buckets bs mi = journal_verdict bs mi.
Proof.
  intros Hne Hpos. unfold validate_journal_buckets, journal_verdict.
  pose proof (sort_sorted bs) as Hs. pose proof (sort_perm u64_cmp bs) as Hp.
  set (b := sort u64_cmp bs) in *.
  assert (Hlen : (0 < length b)%nat).
  { rewrite (Permutation_length Hp). destruct bs; [congruence | simpl; lia]. }
  assert (Hhd : In (nth 0 b 0) b) by (apply nth_In; lia).
  assert (Hlast : In (nth (length b - 1) b 0) b) by (apply nth_In; lia).
  assert (Hposb : forall x, In x b -> 0 <= x).
  { intros x Hx. apply Hpos. now apply (Permutation_in _ Hp). }
  rewrite <- (existsb_perm (fun b => b =? 0) _ _ Hp).
  rewrite <- (existsb_perm (fun b => b <? first_bucket mi) _ _ Hp).
  rewrite <- (existsb_perm (fun b => b >=? nbuckets mi) _ _ Hp).
  rewrite (bool_decide_ext (NoDup bs) (NoDup b)) by (now rewrite Hp).
  assert (E0 : (nth 0 b 0 =? 0) = existsb (fun b => b =? 0) b).
  { apply eq_true_iff_eq. rewrite existsb_exists, Z.eqb_eq. split.
    - intros E. exists (nth 0 b 0). split; [exact Hhd | now apply Z.eqb_eq].
    - intros (x & Hx & E). apply Z.eqb_eq in E. subst x.
      pose proof (sorted_head_min b 0 Hs 0 Hx). pose proof (Hposb _ Hhd). lia. }
  assert (E1 : (nth 0 b 0 <? first_bucket mi) = existsb (fun b => b <? first_bucket mi) b).
  { apply eq_true_iff_eq. rewrite existsb_exists, Z.ltb_lt. split.
    - intros E. exists (nth 0 b 0). split; [exact Hhd | now apply Z.ltb_lt].
    - intros (x & Hx & E). apply Z.ltb_lt in E.
      pose proof (sorted_head_min b 0 Hs x Hx). lia. }
  assert (E2 : (nth (length b - 1) b 0 >=? nbuckets mi)
               = existsb (fun b => b >=? nbuckets mi) b).
  { apply eq_true_iff_eq. rewrite existsb_exists, Z.geb_le. split.
    - intros E. exists (nth (length b - 1) b 0). split; [exact Hlast | now apply Z.geb_le].
    - intros (x & Hx & E). apply Z.geb_le in E.
      pose proof (sorted_last_max b 0 Hs x Hx). lia. }
  rewrite E0, E1, E2, (sorted_adjacent_dup b Hs). reflexivity.
Qed.

End JournalFacts.

(** Images for the examples: [sb_empty] with the field area [ws]; a field
    header of [n] words and type [t]. *)
Definition sb_with (ws : list Z) : bch_sb :=
  set_u64s (set_data sb_empty (fun i => nth (Z.to_nat i) ws 0))
           (Z.of_nat (length ws)).

Definition field_word (n t : Z) : Z := Z.shiftl t 32 + n.

Definition sb_journal (bs : list Z) : bch_sb :=
  sb_with (field_word (1 + Z.of_nat (length bs)) 0 :: bs).

Definition mi_4096 : bch_member_cpu :=
  {| nbuckets := 4096; first_bucket := 1; bucket_size := 256; mi_valid := true |}.

(** C4 (counterexample): a journal field with no bucket at all passes,
    and so does one whose buckets are listed out of order. *)
Lemma bch2_sb_validate_journal_empty_unsorted :
  bch2_sb_get_journal (sb_journal []) = Some (Some 0) /\
  bch2_nr_journal_buckets (sb_journal []) (Some 0) = 0 /\
  bch2_sb_validate_journal mm_ok (sb_journal []) mi_4096 = Some None /\
  journal_buckets_at (sb_journal [5; 3]) 0 2 = [5; 3] /\
  bch2_sb_validate_journal mm_ok (sb_journal [5; 3]) mi_4096 = Some None.
Proof. repeat split; vm_compute; reflexivity. Qed.

Lemma journal_verdict_None bs mi :
  journal_verdict bs mi = None <->
  (forall b, In b bs -> b <> 0 /\ first_bucket mi <= b < nbuckets mi) /\ NoDup bs.
Proof.
  unfold journal_verdict.
  destruct (existsb (fun b => b =? 0) bs) eqn:E0.
  { split; [discriminate|]. intros [Hall _]. apply existsb_exists in E0.
    destruct E0 as (b & Hb & E). apply Z.eqb_eq in E. destruct (Hall b Hb). lia. }
  destruct (existsb (fun b => b <? first_bucket mi) bs) eqn:E1.
  { split; [discriminate|]. intros [Hall _]. apply existsb_exists in E1.
    destruct E1 as (b & Hb & E). apply Z.ltb_lt in E. destruct (Hall b Hb). lia. }
  destruct (existsb (fun b => b >=? nbuckets mi) bs) eqn:E2.
  { split; [discriminate|]. intros [Hall _]. apply existsb_exists in E2.
    destruct E2 as (b & Hb & E). apply Z.geb_le in E. destruct (Hall b Hb). lia. }
  destruct (bool_decide (NoDup bs)) eqn:E3; simpl.
  - apply bool_decide_eq_true in E3. split; [intros _|reflexivity]. split; [|exact E3].
    intros b Hb. repeat split.
    + intros ->. assert (existsb (fun b => b =? 0) bs = true); [|congruence].
      apply existsb_exists. now exists 0.
    + destruct (Z.le_gt_cases (first_bucket mi) b); [assumption|].
      assert (existsb (fun b => b <? first_bucket mi) bs = true); [|congruence].
      apply existsb_exists. exists b. split; [exact Hb | now apply Z.ltb_lt].
    + destruct (Z.lt_ge_cases b (nbuckets mi)); [assumption|].
      assert (existsb (fun b => b >=? nbuckets mi) bs = true); [|congruence].
      apply existsb_exists. exists b. split; [exact Hb | now apply Z.geb_le].
  - apply bool_decide_eq_false in E3. split; [discriminate | tauto].
Qed.

(** C4 (amended): when the journal field is absent or lists no bucket the
    superblock passes; otherwise the buckets, in whatever order they are
    listed, are rejected with the error of the first of these that holds:
    a bucket at sector 0, a bucket before [first_bucket], a bucket at or
    past [nbuckets], a duplicate; and pass exactly when every bucket is
    non-zero and within [[first_bucket, nbuckets)] and none is listed
    twice. *)
Theorem bch2_sb_validate_journal_verdict `{Format} (mm : allocator) (sb : bch_sb)
    (mi : bch_member_cpu) (j : option Z) :
  kmalloc mm = true ->
  bch2_sb_get_journal sb = Some j ->
  bch2_sb_validate_journal mm sb mi
  = Some match j with
         | None => None
         | Some p =>
             if bch2_nr_journal_buckets sb j =? 0 then None
             else journal_verdict
                    (journal_buckets_at sb p (bch2_nr_journal_buckets sb j)) mi
         end /\
  forall bs, journal_verdict bs mi = None <->
    (forall b, In b bs -> b <> 0 /\ first_bucket mi <= b < nbuckets mi) /\ NoDup bs.
Proof.
  intros Hk Hj. split; [|intros bs; apply journal_verdict_None].
  unfold bch2_sb_validate_journal. rewrite Hj. cbn [mbind option_bind].
  destruct j as [p|]; [|reflexivity].
  destruct (Z.eqb_spec (bch2_nr_journal_buckets sb (Some p)) 0) as [Hz|Hnz]; [reflexivity|].
  rewrite Hk. cbn [negb]. f_equal. apply validate_journal_buckets_verdict.
  - unfold journal_buckets_at. unfold bch2_nr_journal_buckets in *.
    pose proof (u32_range (vstruct_end sb p - (p + 1))).
    destruct (Z.to_nat _) eqn:E; [lia | simpl; discriminate].
  - intros b Hb. apply journal_buckets_range in Hb. lia.
Qed.

Lemma bch2_sb_validate_journal_verdict_witness :
  bch2_sb_validate_journal mm_ok (sb_journal [5; 3; 5]) mi_4096
  = Some match Some 0 with
         | None => None
         | Some p =>
             if bch2_nr_journal_buckets (sb_journal [5; 3; 5]) (Some 0) =? 0 then None
             else journal_verdict
                    (journal_buckets_at (sb_journal [5; 3; 5]) p
                       (bch2_nr_journal_buckets (sb_journal [5; 3; 5]) (Some 0))) mi_4096
         end /\
  forall bs, journal_verdict bs mi_4096 = None <->
    (forall b, In b bs -> b <> 0 /\ first_bucket mi_4096 <= b < nbuckets mi_4096)
    /\ NoDup bs.
Proof.
  apply (bch2_sb_validate_journal_verdict mm_ok (sb_journal [5; 3; 5]) mi_4096 (Some 0)).
  - reflexivity.
  - vm_compute; reflexivity.
Defined.

Example bch2_sb_validate_journal_runs :
  bch2_sb_validate_journal mm_ok (sb_journal [5; 3; 5]) mi_4096
    = Some (Some "duplicate journal buckets") /\
  bch2_sb_validate_journal mm_ok (sb_journal [5; 0; 4096]) mi_4096
    = Some (Some "journal bucket at sector 0") /\
  bch2_sb_validate_journal mm_ok (sb_journal [5; 4096]) mi_4096
    = Some (Some "journal bucket past end of device") /\
  bch2_sb_validate_journal mm_ok (sb_journal [7; 3; 4095]) mi_4096 = Some None /\
  bch2_sb_validate_journal mm_ok (sb_with []) mi_4096 = Some None.
Proof. repeat split; vm_compute; reflexivity. Qed.

(** ** The validator always answers *)

Section ValidateTotal.
Context `{Format}.

Lemma field_u64s_range w : 0 <= field_u64s w < 2 ^ 32.
Proof. apply u32_range. Qed.

Lemma validate_fields_from_total sb : forall fuel f,
  (Z.to_nat (vstruct_last sb - f) < fuel)%nat ->
  is_Some (validate_fields_from fuel sb f).
Proof.
  induction fuel as [|fuel IH]; intros f Hf; [lia|].
  cbn [validate_fields_from].
  destruct (Z.ltb_spec f (vstruct_last sb)) as [Hlt|Hge]; [|eexists; reflexivity].
  destruct (Z.eqb_spec (field_u64s (_data sb f)) 0) as [Hz|Hnz]; [eexists; reflexivity|].
  destruct (Z.gtb_spec (vstruct_next sb f) (vstruct_last sb)) as [Hgt|Hle];
    [eexists; reflexivity|].
  destruct (_ >=? _); [eexists; reflexivity|].
  apply IH. unfold vstruct_next in *. pose proof (field_u64s_range (_data sb f)). lia.
Qed.

(** Once the field loop has passed, every lookup in the directory ends. *)
Lemma field_get_after_validate sb type : forall fuel f,
  validate_fields_from fuel sb f = Some None ->
  is_Some (bch2_sb_field_get_from fuel sb type f).
Proof.
  induction fuel as [|fuel IH]; intros f Hv; [discriminate|].
  cbn [validate_fields_from bch2_sb_field_get_from] in *.
  destruct (f <? vstruct_last sb); [|eexists; reflexivity].
  destruct (field_u64s (_data sb f) =? 0); [discriminate|].
  destruct (vstruct_next sb f >? vstruct_last sb); [discriminate|].
  destruct (field_type (_data sb f) >=? BCH_SB_FIELD_NR); [discriminate|].
  destruct (field_type (_data sb f) =? type); [eexists; reflexivity|].
  now apply IH.
Qed.

Lemma memcmp_antisym l : forall r, memcmp r l = - memcmp l r.
Proof.
  induction l as [|x l IH]; intros [|y r]; simpl; try reflexivity.
  destruct (Z.ltb_spec y x), (Z.gtb_spec y x), (Z.ltb_spec x y), (Z.gtb_spec x y);
    try lia; try reflexivity.
  apply IH.
Qed.

Definition memcmp_le (a b : bch_replicas_cpu_entry) : Prop := memcmp_entry a b <= 0.

Lemma sort_insert_locally_sorted x l :
  LocallySorted memcmp_le l -> LocallySorted memcmp_le (sort_insert memcmp_entry x l).
Proof.
  induction 1 as [|y|y z l Hs IH Hyz]; cbn [sort_insert].
  - constructor.
  - destruct (Z.gtb_spec (memcmp_entry x y) 0) as [Hgt|Hle].
    + repeat constructor. unfold memcmp_le, memcmp_entry in *.
      rewrite (memcmp_antisym (entry_bytes x)). lia.
    + repeat constructor. exact Hle.
  - cbn [sort_insert] in IH.
    destruct (Z.gtb_spec (memcmp_entry x y) 0) as [Hgt|Hle].
    + destruct (Z.gtb_spec (memcmp_entry x z) 0) as [Hgt'|Hle'].
      * constructor; assumption.
      * constructor; [exact IH|]. unfold memcmp_le, memcmp_entry in *.
        rewrite (memcmp_antisym (entry_bytes x)). lia.
    + constructor; [now constructor | exact Hle].
Qed.

Lemma sort_locally_sorted l : LocallySorted memcmp_le (sort memcmp_entry l).
Proof.
  induction l as [|x l IH]; cbn [sort]; [constructor|].
  now apply sort_insert_locally_sorted.
Qed.

Lemma validate_replicas_dups_total l :
  LocallySorted memcmp_le l -> is_Some (validate_replicas_dups l).
Proof.
  induction 1 as [|y|y z l Hs IH Hyz]; try (eexists; reflexivity).
  cbn [validate_replicas_dups].
  destruct (Z.gtb_spec (memcmp_entry y z) 0) as [Hgt|Hle]; [unfold memcmp_le in Hyz; lia|].
  destruct (memcmp_entry y z =? 0); [eexists; reflexivity | exact IH].
Qed.

Lemma bch2_dev_exists_total sb p d : is_Some (bch2_dev_exists sb (Some p) d).
Proof. unfold bch2_dev_exists. destruct (d <? nr_devices sb); eexists; reflexivity. Qed.

Lemma validate_members_loop_total sb p n : forall i,
  is_Some (validate_members_loop sb p n i).
Proof.
  induction n as [|n IH]; intros i; [eexists; reflexivity|].
  cbn [validate_members_loop].
  destruct (bch2_dev_exists_total sb p i) as [b ->]. cbn [mbind option_bind].
  destruct b; cbn [negb]; [|apply IH].
  destruct (_ <? _); [eexists; reflexivity | apply IH].
Qed.

Lemma validate_replicas_devs_total sb p devs :
  is_Some (validate_replicas_devs sb (Some p) devs).
Proof.
  induction devs as [|d devs IH]; [eexists; reflexivity|].
  cbn [validate_replicas_devs].
  destruct (bch2_dev_exists_total sb p d) as [b ->]. cbn [mbind option_bind].
  destruct b; cbn [negb]; [exact IH | eexists; reflexivity].
Qed.

Lemma validate_replicas_entries_total sb p bs es :
  is_Some (validate_replicas_entries sb (Some p) bs es).
Proof.
  induction es as [|e es IH]; [eexists; reflexivity|].
  cbn [validate_replicas_entries].
  destruct (_ >=? _); [eexists; reflexivity|].
  destruct (_ >=? _); [eexists; reflexivity|].
  destruct (validate_replicas_devs_total sb p (entry_devs bs e)) as [b ->].
  cbn [mbind option_bind]. destruct b; cbn [negb]; [exact IH | eexists; reflexivity].
Qed.

Lemma bch2_sb_validate_replicas_total mm sb p :
  bch2_sb_get_members sb = Some (Some p) ->
  is_Some (bch2_sb_get_replicas sb) ->
  is_Some (bch2_sb_validate_replicas mm sb).
Proof.
  intros Hmi [r Hr]. unfold bch2_sb_validate_replicas. rewrite Hmi, Hr.
  cbn [mbind option_bind]. destruct r as [q|]; [|eexists; reflexivity].
  destruct (validate_replicas_entries_total sb p (field_bytes sb q)
              (for_each_replicas_entry (field_bytes sb q))) as [err ->].
  cbn [mbind option_bind]. destruct err; [eexists; reflexivity|].
  destruct (__bch2_sb_replicas_to_cpu_replicas mm _); [|eexists; reflexivity].
  apply validate_replicas_dups_total, sort_locally_sorted.
Qed.

Lemma bch2_sb_validate_journal_total mm sb mi :
  is_Some (bch2_sb_get_journal sb) -> is_Some (bch2_sb_validate_journal mm sb mi).
Proof.
  intros [j Hj]. unfold bch2_sb_validate_journal. rewrite Hj. cbn [mbind option_bind].
  destruct j; [|eexists; reflexivity].
  destruct (_ =? 0); [eexists; reflexivity|].
  destruct (negb _); eexists; reflexivity.
Qed.

Lemma validate_local_member_total mm sb capacity mi p :
  bch2_sb_get_members sb = Some (Some p) ->
  is_Some (bch2_sb_get_journal sb) -> is_Some (bch2_sb_get_replicas sb) ->
  is_Some (validate_local_member mm sb capacity mi).
Proof.
  intros Hmi Hj Hr. unfold validate_local_member.
  destruct (_ >? _); [eexists; reflexivity|].
  destruct (_ <? _); [eexists; reflexivity|].
  destruct (_ || _); [eexists; reflexivity|].
  destruct (_ <? _); [eexists; reflexivity|].
  destruct (bch2_sb_validate_journal_total mm sb mi Hj) as [err ->].
  cbn [mbind option_bind]. destruct err; [eexists; reflexivity|].
  now apply (bch2_sb_validate_replicas_total mm sb p).
Qed.

(** [bch2_sb_validate] returns on every handle whose buffer and device are
    there: every loop of it ends and the [BUG_ON] cannot fire. *)
Lemma bch2_sb_validate_total mm h :
  is_Some (sb h) -> is_Some (bdev h) -> is_Some (bch2_sb_validate mm h).
Proof.
  intros [s Hs] [bd Hbd]. unfold bch2_sb_validate. rewrite Hs, Hbd.
  cbn [mbind option_bind].
  repeat (match goal with
          | |- is_Some (if ?b then Some _ else _) => destruct b; [eexists; reflexivity|]
          end).
  cbv zeta.
  repeat (match goal with
          | |- is_Some (if ?b then Some _ else _) => destruct b; [eexists; reflexivity|]
          end).
  destruct (validate_sb_layout (layout s)); [eexists; reflexivity|].
  destruct (validate_fields_from_total s (S (Z.to_nat (vstruct_last s))) 0) as [err Hv].
  { rewrite Z.sub_0_r. lia. }
  rewrite Hv. cbn [mbind option_bind]. destruct err; [eexists; reflexivity|].
  pose proof (field_get_after_validate s BCH_SB_FIELD_members _ _ Hv) as [mi Hmi].
  pose proof (field_get_after_validate s BCH_SB_FIELD_journal _ _ Hv) as Hj.
  pose proof (field_get_after_validate s BCH_SB_FIELD_replicas _ _ Hv) as Hr.
  fold (bch2_sb_field_get s BCH_SB_FIELD_members) in Hmi.
  fold (bch2_sb_get_members s) in Hmi.
  unfold bch2_sb_validate_members. rewrite Hmi. cbn [mbind option_bind].
  destruct mi as [p|]; [|eexists; reflexivity].
  destruct (_ >? _); [eexists; reflexivity|].
  destruct (validate_members_loop_total s p (Z.to_nat (nr_devices s)) 0) as [err ->].
  cbn [mbind option_bind]. destruct err; [eexists; reflexivity|].
  now apply (validate_local_member_total mm s _ _ p).
Qed.

End ValidateTotal.

(** ** Write path: properties *)

Section WriteFacts.
Context `{Format}.

Lemma sb_update_members_total src p : forall ds i,
  is_Some (sb_update_members src (Some p) i ds).
Proof.
  induction ds as [|[ca|] ds IH]; intros i; cbn [sb_update_members mbind option_bind].
  - eexists; reflexivity.
  - destruct (IH (i + 1)) as [rest ->]. eexists; reflexivity.
  - destruct (IH (i + 1)) as [rest ->]. eexists; reflexivity.
Qed.

Lemma bch2_sb_update_error c src p b :
  c_disk_sb c = Some src -> bch2_sb_get_members src = Some (Some p) ->
  exists c', bch2_sb_update (set_c_error c b) = Some c' /\ c_error c' = b.
Proof.
  intros Hsrc Hmi. unfold bch2_sb_update. cbn [set_c_error c_disk_sb c_devs].
  rewrite Hsrc. cbn [mbind option_bind]. rewrite Hmi. cbn [mbind option_bind].
  destruct (sb_update_members_total src p (c_devs c) 0) as [ds ->].
  cbn [mbind option_bind]. eexists. split; reflexivity.
Qed.

(** The validation loop stops at the first image that fails. *)
Lemma write_super_validate_fails mm c members :
  (forall j, In j members ->
     exists ca, dev_at c j = Some ca /\ is_Some (bch2_sb_validate mm (ca_disk_sb ca))) ->
  (exists i ca msg, In i members /\ dev_at c i = Some ca /\
     bch2_sb_validate mm (ca_disk_sb ca) = Some (Some msg)) ->
  exists msg, write_super_validate mm c members = Some (Some msg).
Proof.
  induction members as [|j members IH]; intros Hdef (i & ca & msg & Hin & Hdev & Hbad);
    [destruct Hin|].
  cbn [write_super_validate].
  destruct (Hdef j (or_introl eq_refl)) as (caj & Hcaj & [err Herr]).
  rewrite Hcaj. cbn [mbind option_bind]. rewrite Herr. cbn [mbind option_bind].
  destruct err as [m|]; [now exists m|].
  apply IH.
  - intros k Hk. apply Hdef. now right.
  - destruct Hin as [->|Hin].
    + rewrite Hdev in Hcaj. injection Hcaj as ->. congruence.
    + exists i, ca, msg. auto.
Qed.

Lemma online_from_dev ds : forall n j,
  In j (online_from n ds) ->
  (n <= j)%nat /\ exists ca, ds !! (j - n)%nat = Some (Some ca) /\ ca_online ca = true.
Proof.
  induction ds as [|d ds IH]; intros n j Hj; [destruct Hj|].
  cbn [online_from] in Hj.
  assert (Hrest : In j (online_from (S n) ds) ->
            (n <= j)%nat /\ exists ca, (d :: ds) !! (j - n)%nat = Some (Some ca)
                                       /\ ca_online ca = true).
  { intros Hin. destruct (IH _ _ Hin) as (Hle & ca & Hca & Hon).
    split; [lia|]. exists ca. split; [|exact Hon].
    replace (j - n)%nat with (S (j - S n)) by lia. exact Hca. }
  destruct (is_online d) eqn:Hd; [|now apply Hrest].
  destruct Hj as [<-|Hj]; [|now apply Hrest].
  split; [lia|]. rewrite Nat.sub_diag. destruct d as [ca|]; [|discriminate].
  exists ca. split; [reflexivity | exact Hd].
Qed.

Lemma online_members_dev c j :
  In j (online_members c) -> exists ca, dev_at c j = Some ca /\ ca_online ca = true.
Proof.
  intros Hj. destruct (online_from_dev _ _ _ Hj) as (_ & ca & Hca & Hon).
  exists ca. split; [|exact Hon]. unfold dev_at.
  rewrite Nat.sub_0_r in Hca. now rewrite Hca.
Qed.

End WriteFacts.

(** A device that can be opened but not read, and a member table for one
    device of 4096 buckets of 256 sectors. *)
Definition bd_blank : block_device :=
  {| bd_capacity := 2 ^ 21; bd_logical_block_size := 512;
     bd_read_sb := fun _ => None; bd_read_layout := fun _ => None |}.

Definition members_one : list Z :=
  [field_word 8 1; 1; 0; 4096; 1 + Z.shiftl 256 16; 0; 0; 0].

Definition set_block_size (s : bch_sb) (v : Z) : bch_sb :=
  {| csum := csum s; version := version s; magic := magic s;
     uuid := uuid s; user_uuid := user_uuid s; label := label s;
     offset := offset s; seq := seq s; block_size := v;
     dev_idx := dev_idx s; nr_devices := nr_devices s; u64s := u64s s;
     time_base_lo := time_base_lo s; time_base_hi := time_base_hi s;
     time_precision := time_precision s; flags := flags s;
     features := features s; compat := compat s; layout := layout s;
     _data := _data s |}.

Definition dev_open (idx : Z) (s : bch_sb) : bch_dev :=
  {| ca_dev_idx := idx;
     ca_disk_sb := {| sb := Some s; sb_bio := Some 1; bdev := Some bd_blank;
                      page_order := 0; mode := 0 |};
     ca_online := true;
     ca_mi := {| nbuckets := 0; first_bucket := 0; bucket_size := 0;
                 mi_valid := true |} |}.

(** One online device; the authoritative image has a block size of 3
    sectors, which no device image may carry. *)
Definition fs_bad_block_size : bch_fs :=
  set_c_devs (fs_of (set_block_size (sb_with members_one) 3))
             [Some (dev_open 0 (sb_with members_one))].

(** C1: when, after the authoritative image has been propagated, the image
    of some online device fails validation, [bch2_write_super] sets the
    error state of the filesystem and submits no write at all. *)
Theorem bch2_write_super_invalid_no_write `{Format} (mm : allocator)
    (c c1 : bch_fs) (src src1 : bch_sb) (p : Z)
    (i : nat) (ca : bch_dev) (msg : string) :
  c_disk_sb c = Some src ->
  write_super_propagate mm (write_super_seq c src)
    (online_members (write_super_seq c src)) = Some c1 ->
  (forall j ca', In j (online_members c1) -> dev_at c1 j = Some ca' ->
     is_Some (sb (ca_disk_sb ca')) /\ is_Some (bdev (ca_disk_sb ca'))) ->
  c_disk_sb c1 = Some src1 ->
  bch2_sb_get_members src1 = Some (Some p) ->
  In i (online_members c1) ->
  dev_at c1 i = Some ca ->
  bch2_sb_validate mm (ca_disk_sb ca) = Some (Some msg) ->
  exists c2, bch2_write_super mm c = Some (c2, []) /\ c_error c2 = true.
Proof.
  intros Hsrc Hprop Hopen Hsrc1 Hmi Hin Hdev Hbad.
  unfold bch2_write_super. rewrite Hsrc. cbn [mbind option_bind]. cbv zeta.
  rewrite Hprop. cbn [mbind option_bind].
  destruct (write_super_validate_fails mm c1 (online_members c1)) as [m ->].
  - intros j Hj. destruct (online_members_dev c1 j Hj) as (caj & Hcaj & _).
    exists caj. split; [exact Hcaj|].
    destruct (Hopen j caj Hj Hcaj). now apply bch2_sb_validate_total.
  - exists i, ca, msg. auto.
  - cbn [mbind option_bind].
    destruct (bch2_sb_update_error c1 src1 p true Hsrc1 Hmi) as (c2 & Hc2 & He).
    unfold bch2_fs_inconsistent. rewrite Hc2. cbn [mbind option_bind].
    exists c2. split; [reflexivity | exact He].
Qed.

Lemma bch2_write_super_invalid_no_write_witness :
  exists c2, bch2_write_super mm_ok fs_bad_block_size = Some (c2, [])
             /\ c_error c2 = true.
Proof.
  eapply (bch2_write_super_invalid_no_write mm_ok fs_bad_block_size _
            (set_block_size (sb_with members_one) 3) _ 0 0%nat _ "Bad block size").
  - reflexivity.
  - vm_compute. reflexivity.
  - intros j ca' [<-|[]] Hd. vm_compute in Hd. injection Hd as <-.
    split; eexists; reflexivity.
  - vm_compute. reflexivity.
  - vm_compute. reflexivity.
  - left. reflexivity.
  - vm_compute. reflexivity.
  - vm_compute. reflexivity.
Defined.


(** An image every check accepts: btree nodes of 256 sectors, a gc
    reserve of 8 percent, one replica wanted and required of each kind. *)
Definition flags_valid : list Z :=
  [Z.shiftl 256 12 + Z.shiftl 8 28 + Z.shiftl 1 48 + Z.shiftl 1 52;
   Z.shiftl 1 20 + Z.shiftl 1 24].

Definition sb_valid (ws : list Z) : bch_sb := set_flags (sb_with ws) flags_valid.

Definition fs_one_device : bch_fs :=
  set_c_devs (fs_of (sb_valid members_one)) [Some (dev_open 0 (sb_valid members_one))].

Example bch2_write_super_runs :
  bch2_sb_validate mm_ok (ca_disk_sb (dev_open 0 (sb_valid members_one))) = Some None /\
  (exists r, bch2_write_super mm_ok fs_one_device = Some r /\
     c_error (fst r) = false /\
     map (fun w => (w_dev w, w_sector w, w_size w, seq (w_image w))) (snd r)
     = [(0%nat, 8, 1024, 2); (0%nat, 2056, 1024, 2)]) /\
  bch2_sb_validate mm_ok
    (ca_disk_sb (dev_open 0 (set_block_size (sb_valid members_one) 3)))
    = Some (Some "Bad block size").
Proof.
  split; [vm_compute; reflexivity|]. split; [|vm_compute; reflexivity].
  destruct (bch2_write_super mm_ok fs_one_device) as [r|] eqn:E.
  - exists r. split; [reflexivity|]. revert E. vm_compute. intros [= <-]. split; reflexivity.
  - revert E. vm_compute. discriminate.
Qed.

(** ** Read path: properties *)

(** What [read_one_super] demands of the sector: it can be read and holds
    an image with the magic, the supported version, a size within
    [512 << sb_max_size_bits], a known checksum type and the checksum that
    [csum_vstruct] computes. *)
Definition super_ok `{Format} (bd : block_device) (offset : Z) : bool :=
  match bd_read_sb bd offset with
  | None => false
  | Some s =>
      negb (uuid_le_cmp (magic s) BCACHE_MAGIC)
      && (le64_to_cpu (version s) =? BCACHE_SB_VERSION_CDEV_V4)
      && negb (vstruct_bytes s >? u64 (shl_int 512 (sb_max_size_bits (layout s))))
      && negb (BCH_SB_CSUM_TYPE s >=? BCH_CSUM_NR)
      && negb (bch2_crc_cmp (csum_vstruct (BCH_SB_CSUM_TYPE s) s) (csum s))
  end.






Section ReadFacts.
Context `{Format}.









End ReadFacts.

Definition opts_default : bch_opts :=
  {| opt_sb := None; opt_noexcl := None; opt_nochanges := None |}.

Definition set_csum_lo (s : bch_sb) (v : Z) : bch_sb :=
  set_csum s {| csum_lo := v; csum_hi := csum_hi (csum s) |}.

(** A device whose primary superblock (sector 8) carries a wrong checksum,
    whose layout sector lists copies at 8 and 2056, and whose copy at 2056
    is the image [backup]. *)
Definition bd_corrupt_primary (backup : bch_sb) : block_device :=
  {| bd_capacity := 2 ^ 21; bd_logical_block_size := 512;
     bd_read_sb := fun sector =>
       if sector =? 8 then Some (set_csum_lo (sb_valid members_one) 1)
       else if sector =? 2056 then Some backup
       else None;
     bd_read_layout := fun sector =>
       if sector =? 7 then Some (layout_good 2056) else None |}.





(** ** Replica index round trip: properties *)

Local Open Scope list_scope.
Local Open Scope Z_scope.

(** The [(data_type, device_set)] pairs of an on-disk replicas field and
    of an index entry. *)
Definition sb_pair (bs : list Z) (i : Z) : Z * gset Z :=
  (entry_data_type bs i, list_to_set (entry_devs bs i)).

Definition sb_pairs (bs : list Z) : gset (Z * gset Z) :=
  list_to_set (map (sb_pair bs) (for_each_replicas_entry bs)).

(** The devices of a bitmap, in ascending order. *)
Fixpoint bitmap_devs (e : bch_replicas_cpu_entry) (n : nat) (j : Z) : list Z :=
  match n with
  | O => []
  | S n' => if replicas_test_dev e j then j :: bitmap_devs e n' (j + 1)
            else bitmap_devs e n' (j + 1)
  end.

(** The index entry the copy loop builds from the on-disk entry at [i]. *)
Definition cpu_of (bs : list Z) (entry_size i : Z) : bch_replicas_cpu_entry :=
  fold_left replicas_set_dev (entry_devs bs i)
    {| e_data_type := entry_data_type bs i;
       e_devs := repeat 0 (Z.to_nat (entry_size - 1)) |}.

Section ReplicasWalk.
Context `{Format}.

Lemma nr_entries_from_spec bs : forall fuel i nr max_dev,
  0 <= nr -> nr + Z.of_nat fuel < 2 ^ 32 ->
  exists iend,
    nr_entries_from fuel bs i nr max_dev
    = (nr + Z.of_nat (length (replicas_entries_from fuel bs i)), iend,
       fold_left Z.max
         (concat (map (entry_devs bs) (replicas_entries_from fuel bs i))) max_dev).
Proof.
  induction fuel as [|fuel IH]; intros i nr max_dev Hnr Hfuel.
  - exists i. simpl. now rewrite Z.add_0_r.
  - cbn [nr_entries_from replicas_entries_from].
    destruct (_ && _).
    + rewrite u32_small by lia.
      destruct (IH (replicas_entry_next bs i) (nr + 1)
                  (fold_left Z.max (entry_devs bs i) max_dev)) as [iend ->]; try lia.
      exists iend. cbn [length map concat]. rewrite fold_left_app.
      f_equal. f_equal. lia.
    + exists i. simpl. now rewrite Z.add_0_r.
Qed.

Lemma to_cpu_entries_spec bs entry_size : forall fuel i,
  to_cpu_entries (length (replicas_entries_from fuel bs i)) bs i entry_size
  = map (cpu_of bs entry_size) (replicas_entries_from fuel bs i).
Proof.
  induction fuel as [|fuel IH]; intros i; [reflexivity|].
  cbn [replicas_entries_from]. destruct (_ && _); [|reflexivity].
  cbn [length to_cpu_entries map]. now rewrite IH.
Qed.

(** What [__bch2_sb_replicas_to_cpu_replicas] builds from a field of fewer
    than [2^32] bytes. *)
Lemma to_cpu_replicas_spec mm bs :
  kmalloc mm = true -> Z.of_nat (length bs) + 1 < 2 ^ 32 ->
  let offs := for_each_replicas_entry bs in
  let max_dev := fold_left Z.max (concat (map (entry_devs bs) offs)) 0 in
  let entry_size := 1 + DIV_ROUND_UP (max_dev + 1) 8 in
  __bch2_sb_replicas_to_cpu_replicas mm (Some bs)
  = Some {| r_nr := Z.of_nat (length offs); r_entry_size := entry_size;
            r_entries := eytzinger0_sort (map (cpu_of bs entry_size) offs) |}.
Proof.
  intros Hk Hlen offs max_dev entry_size.
  unfold __bch2_sb_replicas_to_cpu_replicas, bch2_sb_replicas_nr_entries.
  destruct (nr_entries_from_spec bs (S (length bs)) 0 0 0) as [iend ->]; [lia | lia |].
  rewrite Hk. cbn [negb]. rewrite Z.add_0_l, Nat2Z.id.
  fold (for_each_replicas_entry bs). fold offs. fold max_dev. fold entry_size.
  unfold offs at 2, for_each_replicas_entry. rewrite to_cpu_entries_spec.
  reflexivity.
Qed.

Lemma byte_at_range bs i : 0 <= byte_at bs i < 256.
Proof. unfold byte_at, u8. apply Z.mod_pos_bound. lia. Qed.

Lemma entry_devs_range bs i d : In d (entry_devs bs i) -> 0 <= d < 256.
Proof.
  unfold entry_devs. rewrite in_map_iff. intros (j & <- & _). apply byte_at_range.
Qed.

Lemma entry_devs_length bs i : length (entry_devs bs i) = Z.to_nat (entry_nr bs i).
Proof. unfold entry_devs. now rewrite length_map, length_seq. Qed.

Lemma replicas_entries_from_type bs : forall fuel i j,
  In j (replicas_entries_from fuel bs i) -> entry_data_type bs j <> 0.
Proof.
  induction fuel as [|fuel IH]; intros i j Hj; [destruct Hj|].
  cbn [replicas_entries_from] in Hj.
  destruct (i <? _); cbn [andb] in Hj; [|destruct Hj].
  destruct (Z.eqb_spec (entry_data_type bs i) 0) as [|Hne]; cbn [negb] in Hj; [destruct Hj|].
  destruct Hj as [<-|Hj]; [exact Hne | now apply (IH _ _ Hj)].
Qed.

End ReplicasWalk.

Section Bitmap.

Lemma land_bit b k :
  0 <= k -> negb (Z.land b (Z.shiftl 1 k) =? 0) = Z.testbit b k.
Proof.
  intros Hk. rewrite Z.shiftl_1_l.
  destruct (Z.testbit b k) eqn:Hb.
  - apply negb_true_iff, Z.eqb_neq. intros Hz.
    assert (Hbit : Z.testbit (Z.land b (2 ^ k)) k = true).
    { rewrite Z.land_spec, Hb, Z.pow2_bits_true by lia. reflexivity. }
    rewrite Hz, Z.bits_0 in Hbit. discriminate.
  - apply negb_false_iff, Z.eqb_eq. apply Z.bits_inj'. intros n Hn.
    rewrite Z.land_spec, Z.bits_0, Z.pow2_bits_eqb by lia.
    destruct (Z.eqb_spec k n) as [->|]; [now rewrite Hb | apply andb_false_r].
Qed.

Lemma replicas_test_dev_bit e d :
  replicas_test_dev e d
  = Z.testbit (nth (Z.to_nat (Z.shiftr d 3)) (e_devs e) 0) (Z.land d 7).
Proof.
  unfold replicas_test_dev. apply land_bit. apply Z.land_nonneg. lia.
Qed.

Lemma dev_split d : 0 <= d -> d = 8 * Z.shiftr d 3 + Z.land d 7 /\ 0 <= Z.land d 7 < 8
                              /\ 0 <= Z.shiftr d 3.
Proof.
  intros Hd. rewrite Z.shiftr_div_pow2 by lia.
  change 7 with (Z.ones 3). rewrite Z.land_ones by lia.
  change (2 ^ 3) with 8. pose proof (Z.div_mod d 8 ltac:(lia)).
  pose proof (Z.mod_pos_bound d 8 ltac:(lia)).
  pose proof (Z.div_pos d 8 Hd ltac:(lia)). lia.
Qed.

Lemma replicas_set_dev_test e d d' :
  0 <= d -> 0 <= d' -> d < 8 * Z.of_nat (length (e_devs e)) ->
  replicas_test_dev (replicas_set_dev e d) d' = (d' =? d) || replicas_test_dev e d'.
Proof.
  intros Hd Hd' Hlt. rewrite !replicas_test_dev_bit. cbn [replicas_set_dev e_devs].
  destruct (dev_split d Hd) as (Ed & Hr & Hq).
  destruct (dev_split d' Hd') as (Ed' & Hr' & Hq').
  rewrite !nth_lookup.
  destruct (decide (Z.to_nat (Z.shiftr d 3) = Z.to_nat (Z.shiftr d' 3))) as [Heq|Hne].
  - rewrite <- Heq. rewrite list_lookup_alter_eq.
    destruct (e_devs e !! Z.to_nat (Z.shiftr d 3)) as [b|] eqn:Hb.
    + cbn [fmap option_fmap option_map default]. unfold id. rewrite Z.lor_spec, Z.shiftl_1_l.
      rewrite Z.pow2_bits_eqb by lia. rewrite orb_comm. f_equal.
      destruct (Z.eqb_spec (Z.land d 7) (Z.land d' 7)), (Z.eqb_spec d' d); try reflexivity; lia.
    + apply lookup_ge_None in Hb. lia.
  - rewrite list_lookup_alter_ne by exact Hne.
    destruct (Z.eqb_spec d' d) as [->|]; [congruence | reflexivity].
Qed.

Lemma replicas_set_dev_length e d :
  length (e_devs (replicas_set_dev e d)) = length (e_devs e).
Proof. cbn [replicas_set_dev e_devs]. apply length_alter. Qed.

Lemma replicas_set_dev_type e d : e_data_type (replicas_set_dev e d) = e_data_type e.
Proof. reflexivity. Qed.

Lemma fold_set_dev_props devs : forall e,
  (forall d, In d devs -> 0 <= d < 8 * Z.of_nat (length (e_devs e))) ->
  let e' := fold_left replicas_set_dev devs e in
  e_data_type e' = e_data_type e /\
  length (e_devs e') = length (e_devs e) /\
  forall d', 0 <= d' ->
    replicas_test_dev e' d' = existsb (fun d => d' =? d) devs || replicas_test_dev e d'.
Proof.
  induction devs as [|d devs IH]; intros e Hin; cbn [fold_left].
  - repeat split. 
  - destruct (IH (replicas_set_dev e d)) as (Ht & Hl & Htest).
    { intros d0 Hd0. rewrite replicas_set_dev_length. apply Hin. now right. }
    rewrite Ht, Hl, replicas_set_dev_length. repeat split.
    intros d' Hd'. rewrite (Htest d' Hd'). cbn [existsb].
    rewrite replicas_set_dev_test; try lia.
    + rewrite orb_assoc. f_equal. apply orb_comm.
    + apply Hin. now left.
    + apply Hin. now left.
Qed.

Lemma test_dev_zero k t d :
  replicas_test_dev {| e_data_type := t; e_devs := repeat 0 k |} d = false.
Proof.
  rewrite replicas_test_dev_bit. cbn [e_devs].
  destruct (Nat.lt_ge_cases (Z.to_nat (Z.shiftr d 3)) k) as [Hlt|Hge].
  - rewrite nth_repeat_lt by exact Hlt. apply Z.bits_0.
  - rewrite nth_overflow by (rewrite repeat_length; lia). apply Z.bits_0.
Qed.

Lemma bitmap_devs_In e n : forall j d,
  In d (bitmap_devs e n j) <-> j <= d < j + Z.of_nat n /\ replicas_test_dev e d = true.
Proof.
  induction n as [|n IH]; intros j d; cbn [bitmap_devs].
  - split; [intros [] | lia].
  - destruct (replicas_test_dev e j) eqn:Hj; cbn [In]; rewrite IH; split.
    + intros [<-|[Hd Ht]]; [split; [lia | exact Hj] | split; [lia | exact Ht]].
    + intros [Hd Ht]. destruct (Z.eq_dec j d) as [->|]; [now left | right; split; [lia | exact Ht]].
    + intros [Hd Ht]. split; [lia | exact Ht].
    + intros [Hd Ht]. split; [|exact Ht].
      destruct (Z.eq_dec j d) as [->|]; [congruence | lia].
Qed.

End Bitmap.

Section Encode.
Context `{Format}.

Lemma u8_small x : 0 <= x < 256 -> u8 x = x.
Proof. intros. unfold u8. apply Z.mod_small. simpl. lia. Qed.

Lemma store_byte_middle (pre : list Z) x rest v :
  store_byte (pre ++ x :: rest) (Z.of_nat (length pre)) v = pre ++ u8 v :: rest.
Proof.
  unfold store_byte. rewrite Nat2Z.id.
  rewrite insert_app_r_alt by lia. now rewrite Nat.sub_diag.
Qed.

Lemma byte_at_middle (pre : list Z) x rest :
  byte_at (pre ++ x :: rest) (Z.of_nat (length pre)) = u8 x.
Proof. unfold byte_at. rewrite Nat2Z.id. now rewrite nth_middle. Qed.

Lemma bitmap_devs_range e n j d : In d (bitmap_devs e n j) -> j <= d < j + Z.of_nat n.
Proof. intros Hd. now apply bitmap_devs_In in Hd. Qed.

(** The device loop of the encoder appends the devices of the bitmap, in
    ascending order, to the entry under construction and counts them. *)
Lemma gc_end_devs_spec src_e (pre : list Z) t : forall n ds m j,
  0 <= j -> j + Z.of_nat n <= 256 ->
  (length ds + length (bitmap_devs src_e n j) <= 255)%nat ->
  (length (bitmap_devs src_e n j) <= m)%nat ->
  gc_end_devs n src_e (pre ++ t :: Z.of_nat (length ds) :: ds ++ repeat 0 m)
    (Z.of_nat (length pre)) j
  = pre ++ t :: Z.of_nat (length ds + length (bitmap_devs src_e n j))
        :: ds ++ bitmap_devs src_e n j ++ repeat 0 (m - length (bitmap_devs src_e n j)).
Proof.
  induction n as [|n IH]; intros ds m j Hj Hjn Hnr Hm; cbn [gc_end_devs bitmap_devs].
  - cbn [length app]. now rewrite Nat.add_0_r, Nat.sub_0_r.
  - cbn [bitmap_devs] in Hnr, Hm.
    destruct (replicas_test_dev src_e j) eqn:Ht.
    + cbn [length] in Hnr, Hm.
      destruct m as [|m]; [lia|].
      assert (Hnrb : entry_nr (pre ++ t :: Z.of_nat (length ds) :: ds ++ repeat 0 (S m))
                       (Z.of_nat (length pre)) = Z.of_nat (length ds)).
      { unfold entry_nr.
        replace (pre ++ t :: Z.of_nat (length ds) :: ds ++ repeat 0 (S m))
          with ((pre ++ [t]) ++ Z.of_nat (length ds) :: ds ++ repeat 0 (S m))
          by (now rewrite <- app_assoc).
        replace (Z.of_nat (length pre) + 1) with (Z.of_nat (length (pre ++ [t])))
          by (rewrite length_app; simpl; lia).
        rewrite byte_at_middle. apply u8_small. lia. }
      rewrite Hnrb.
      replace (pre ++ t :: Z.of_nat (length ds) :: ds ++ repeat 0 (S m))
        with ((pre ++ t :: Z.of_nat (length ds) :: ds) ++ 0 :: repeat 0 m)
        by (rewrite <- app_assoc; reflexivity).
      replace (Z.of_nat (length pre) + 2 + Z.of_nat (length ds))
        with (Z.of_nat (length (pre ++ t :: Z.of_nat (length ds) :: ds)))
        by (rewrite length_app; simpl; lia).
      rewrite store_byte_middle. rewrite (u8_small j) by lia.
      replace ((pre ++ t :: Z.of_nat (length ds) :: ds) ++ j :: repeat 0 m)
        with ((pre ++ [t]) ++ Z.of_nat (length ds) :: (ds ++ [j]) ++ repeat 0 m)
        by (rewrite <- !app_assoc; reflexivity).
      replace (Z.of_nat (length pre) + 1) with (Z.of_nat (length (pre ++ [t])))
        by (rewrite length_app; simpl; lia).
      rewrite store_byte_middle. rewrite u8_small by lia.
      replace (Z.of_nat (length ds) + 1) with (Z.of_nat (length (ds ++ [j])))
        by (rewrite length_app; simpl; lia).
      rewrite <- app_assoc. cbn [app].
      rewrite IH; try lia.
      * rewrite length_app. cbn [length]. rewrite <- !app_assoc. cbn [app].
        replace (length ds + 1 + length (bitmap_devs src_e n (j + 1)))%nat
          with (length ds + S (length (bitmap_devs src_e n (j + 1))))%nat by lia.
        reflexivity.
      * rewrite length_app. cbn [length]. lia.
    + apply IH; lia.
Qed.

(** The bytes of one re-encoded entry. *)
Definition enc_entry (slots : Z) (e : bch_replicas_cpu_entry) : list Z :=
  e_data_type e :: Z.of_nat (length (bitmap_devs e (Z.to_nat slots) 0))
    :: bitmap_devs e (Z.to_nat slots) 0.

Lemma gc_end_entries_spec slots :
  0 <= slots <= 256 ->
  forall es (pre : list Z) m,
  (forall e, In e es -> 0 <= e_data_type e < 256 /\
     (length (bitmap_devs e (Z.to_nat slots) 0) <= 255)%nat) ->
  (length (concat (map (enc_entry slots) es)) <= m)%nat ->
  gc_end_entries es slots (pre ++ repeat 0 m) (Z.of_nat (length pre))
  = pre ++ concat (map (enc_entry slots) es)
        ++ repeat 0 (m - length (concat (map (enc_entry slots) es))).
Proof.
  intros Hslots. induction es as [|e es IH]; intros pre m Hwf Hm.
  - cbn [gc_end_entries map concat app length]. now rewrite Nat.sub_0_r.
  - destruct (Hwf e (or_introl eq_refl)) as [Ht Hcnt].
    cbn [map concat] in Hm. rewrite length_app in Hm. cbn [enc_entry length] in Hm.
    set (new := bitmap_devs e (Z.to_nat slots) 0) in *.
    destruct m as [|[|m]]; try lia.
    cbn [gc_end_entries]. cbn [repeat].
    rewrite store_byte_middle, u8_small by lia.
    change (pre ++ e_data_type e :: 0 :: repeat 0 m)
      with (pre ++ e_data_type e :: Z.of_nat (length (@nil Z)) :: [] ++ repeat 0 m).
    rewrite gc_end_devs_spec; try lia.
    2:{ fold new. cbn [length]. lia. }
    2:{ fold new. lia. }
    fold new. cbn [length Nat.add app].
    assert (Hnext : replicas_entry_next
                      (pre ++ e_data_type e :: Z.of_nat (length new) :: new
                           ++ repeat 0 (m - length new)) (Z.of_nat (length pre))
                    = Z.of_nat (length (pre ++ enc_entry slots e))).
    { unfold replicas_entry_next, entry_nr.
      replace (pre ++ e_data_type e :: Z.of_nat (length new) :: new ++ repeat 0 (m - length new))
        with ((pre ++ [e_data_type e]) ++ Z.of_nat (length new) :: new ++ repeat 0 (m - length new))
        by (now rewrite <- app_assoc).
      replace (Z.of_nat (length pre) + 1) with (Z.of_nat (length (pre ++ [e_data_type e])))
        by (rewrite length_app; simpl; lia).
      rewrite byte_at_middle, u8_small by lia.
      rewrite !length_app. cbn [enc_entry length]. fold new. lia. }
    rewrite Hnext.
    replace (pre ++ e_data_type e :: Z.of_nat (length new) :: new ++ repeat 0 (m - length new))
      with ((pre ++ enc_entry slots e) ++ repeat 0 (m - length new))
      by (unfold enc_entry; fold new; rewrite <- app_assoc; reflexivity).
    rewrite IH.
    + cbn [map concat]. rewrite <- !app_assoc. f_equal. f_equal. f_equal.
      rewrite length_app. cbn [enc_entry length]. fold new. f_equal. lia.
    + intros e' He'. apply Hwf. now right.
    + lia.
Qed.

Lemma map_nth_seq (l : list Z) :
  map (fun j => nth j l 0) (List.seq 0 (length l)) = l.
Proof.
  induction l as [|x l IH]; [reflexivity|].
  cbn [length List.seq map nth]. f_equal.
  rewrite <- seq_shift, map_map. exact IH.
Qed.

Lemma entry_devs_encoded (pre : list Z) t ds rest :
  (length ds <= 255)%nat -> (forall d, In d ds -> 0 <= d < 256) ->
  entry_devs (pre ++ t :: Z.of_nat (length ds) :: ds ++ rest) (Z.of_nat (length pre)) = ds.
Proof.
  intros Hlen Hrange. unfold entry_devs, entry_nr.
  replace (pre ++ t :: Z.of_nat (length ds) :: ds ++ rest)
    with ((pre ++ [t]) ++ Z.of_nat (length ds) :: ds ++ rest) at 1
    by (now rewrite <- app_assoc).
  replace (Z.of_nat (length pre) + 1) with (Z.of_nat (length (pre ++ [t])))
    by (rewrite length_app; simpl; lia).
  rewrite byte_at_middle, u8_small, Nat2Z.id by lia.
  etransitivity; [|apply (map_nth_seq ds)]. apply map_ext_in. intros j Hj.
  apply in_seq in Hj. unfold entry_dev, byte_at.
  replace (Z.to_nat (Z.of_nat (length pre) + 2 + Z.of_nat j))
    with (length (pre ++ [t; Z.of_nat (length ds)]) + j)%nat
    by (rewrite length_app; simpl; lia).
  replace (pre ++ t :: Z.of_nat (length ds) :: ds ++ rest)
    with ((pre ++ [t; Z.of_nat (length ds)]) ++ ds ++ rest)
    by (now rewrite <- app_assoc).
  rewrite app_nth2_plus, app_nth1 by lia.
  apply u8_small, Hrange, nth_In. lia.
Qed.

(** Reading back what the encoder wrote: one pair per index entry. *)
Lemma parse_encoded slots es : forall (pre : list Z) fuel m,
  (length es < fuel)%nat -> (1 <= m)%nat ->
  (forall e, In e es -> 1 <= e_data_type e < 256 /\
     (length (bitmap_devs e (Z.to_nat slots) 0) <= 255)%nat /\
     forall d, In d (bitmap_devs e (Z.to_nat slots) 0) -> 0 <= d < 256) ->
  let buf := pre ++ concat (map (enc_entry slots) es) ++ repeat 0 m in
  map (sb_pair buf) (replicas_entries_from fuel buf (Z.of_nat (length pre)))
  = map (fun e => (e_data_type e,
                   list_to_set (bitmap_devs e (Z.to_nat slots) 0) : gset Z)) es.
Proof.
  induction es as [|e es IH]; intros pre fuel m Hfuel Hm Hwf buf; subst buf.
  - destruct fuel as [|fuel]; [lia|]. destruct m as [|m]; [lia|].
    cbn [map concat app repeat replicas_entries_from].
    unfold entry_data_type. rewrite byte_at_middle.
    change (u8 0 =? 0) with true. cbn [negb]. now rewrite andb_false_r.
  - destruct fuel as [|fuel]; [cbn [length] in Hfuel; lia|].
    destruct (Hwf e (or_introl eq_refl)) as (Ht & Hcnt & Hrange).
    cbn [map concat]. rewrite <- app_assoc.
    set (rest := concat (map (enc_entry slots) es) ++ repeat 0 m).
    cbn [enc_entry app]. set (ds := bitmap_devs e (Z.to_nat slots) 0) in *.
    cbn [replicas_entries_from].
    assert (Hin : (Z.of_nat (length pre)
                   <? Z.of_nat (length (pre ++ e_data_type e :: Z.of_nat (length ds) :: ds ++ rest)))
                  = true).
    { apply Z.ltb_lt. rewrite length_app. cbn [length]. lia. }
    rewrite Hin. unfold entry_data_type at 1. rewrite byte_at_middle, u8_small by lia.
    destruct (Z.eqb_spec (e_data_type e) 0) as [|_]; [lia|]. cbn [negb andb map].
    f_equal.
    + unfold sb_pair, entry_data_type. rewrite byte_at_middle, u8_small by lia.
      now rewrite entry_devs_encoded.
    + assert (Hnext : replicas_entry_next
                        (pre ++ e_data_type e :: Z.of_nat (length ds) :: ds ++ rest)
                        (Z.of_nat (length pre))
                      = Z.of_nat (length (pre ++ e_data_type e :: Z.of_nat (length ds) :: ds))).
      { unfold replicas_entry_next, entry_nr.
        replace (pre ++ e_data_type e :: Z.of_nat (length ds) :: ds ++ rest)
          with ((pre ++ [e_data_type e]) ++ Z.of_nat (length ds) :: ds ++ rest)
          by (now rewrite <- app_assoc).
        replace (Z.of_nat (length pre) + 1) with (Z.of_nat (length (pre ++ [e_data_type e])))
          by (rewrite length_app; simpl; lia).
        rewrite byte_at_middle, u8_small by lia.
        rewrite !length_app. cbn [length]. lia. }
      rewrite Hnext.
      replace (pre ++ e_data_type e :: Z.of_nat (length ds) :: ds ++ rest)
        with ((pre ++ e_data_type e :: Z.of_nat (length ds) :: ds) ++ rest)
        by (now rewrite <- app_assoc).
      subst rest. apply IH; try lia.
      * cbn [length] in Hfuel. lia.
      * intros e' He'. apply Hwf. now right.
Qed.

Lemma bitmap_devs_count e n : forall j,
  Z.of_nat (length (bitmap_devs e n j)) = count_range (replicas_test_dev e) n j.
Proof.
  induction n as [|n IH]; intros j; cbn [bitmap_devs count_range]; [reflexivity|].
  destruct (replicas_test_dev e j); cbn [length Z.b2z]; rewrite <- IH; lia.
Qed.

Lemma count_range_shift n : forall (f : Z -> bool) j,
  count_range f n j = count_range (fun i => f (j + i)) n 0.
Proof.
  induction n as [|n IH]; intros f j; cbn [count_range]; [reflexivity|].
  rewrite Z.add_0_r. f_equal.
  rewrite (IH f (j + 1)), (IH (fun i => f (j + i)) (0 + 1)).
  apply count_range_ext. intros d _. f_equal. lia.
Qed.

Lemma replicas_test_dev_at e k i :
  0 <= i < 8 ->
  replicas_test_dev e (8 * Z.of_nat k + i) = Z.testbit (nth k (e_devs e) 0) i.
Proof.
  intros Hi. rewrite replicas_test_dev_bit.
  destruct (dev_split (8 * Z.of_nat k + i) ltac:(lia)) as (Ed & Hr & Hq).
  assert (Z.shiftr (8 * Z.of_nat k + i) 3 = Z.of_nat k) as -> by lia.
  assert (Z.land (8 * Z.of_nat k + i) 7 = i) as -> by lia.
  now rewrite Nat2Z.id.
Qed.

Lemma hweight8_count b : hweight8 b = count_range (fun i => Z.testbit b i) 8 0.
Proof. reflexivity. Qed.

Lemma hweight8_sum e : forall K b0,
  fold_left (fun bytes j => bytes + hweight8 (nth j (e_devs e) 0)) (List.seq 0 K) b0
  = b0 + count_range (replicas_test_dev e) (8 * K) 0.
Proof.
  induction K as [|K IH]; intros b0.
  - cbn. lia.
  - rewrite seq_S, fold_left_app, IH. cbn [fold_left Nat.add].
    replace (8 * S K)%nat with (8 * K + 8)%nat by lia.
    rewrite count_range_app, Z.add_0_l, hweight8_count.
    rewrite (count_range_shift 8 _ (Z.of_nat (8 * K))).
    rewrite <- Z.add_assoc. f_equal. f_equal.
    apply count_range_ext. intros i Hi.
    replace (Z.of_nat (8 * K)) with (8 * Z.of_nat K) by lia.
    symmetry. apply replicas_test_dev_at. simpl in Hi. lia.
Qed.

Lemma bitmap_devs_NoDup e n : forall j, List.NoDup (bitmap_devs e n j).
Proof.
  induction n as [|n IH]; intros j; cbn [bitmap_devs]; [constructor|].
  destruct (replicas_test_dev e j); [|apply IH].
  constructor; [|apply IH]. intros Hin. apply bitmap_devs_range in Hin. lia.
Qed.

Lemma fold_max_ge l : forall a, a <= fold_left Z.max l a /\
  forall x, In x l -> x <= fold_left Z.max l a.
Proof.
  induction l as [|y l IH]; intros a; cbn [fold_left].
  - split; [lia | intros x []].
  - destruct (IH (Z.max a y)) as [Ha Hall]. split; [lia|].
    intros x [<-|Hx]; [lia | now apply Hall].
Qed.

Lemma fold_max_le l b : forall a, a <= b -> (forall x, In x l -> x <= b) ->
  fold_left Z.max l a <= b.
Proof.
  induction l as [|y l IH]; intros a Ha Hall; cbn [fold_left]; [exact Ha|].
  apply IH.
  - pose proof (Hall y (or_introl eq_refl)). lia.
  - intros x Hx. apply Hall. now right.
Qed.

Lemma cpu_of_props bs entry_size i :
  0 <= entry_size - 1 ->
  (forall d, In d (entry_devs bs i) -> d < 8 * (entry_size - 1)) ->
  let e := cpu_of bs entry_size i in
  e_data_type e = entry_data_type bs i /\
  forall d, In d (bitmap_devs e (Z.to_nat (8 * (entry_size - 1))) 0)
            <-> In d (entry_devs bs i).
Proof.
  intros Hsz Hlt e. subst e. unfold cpu_of.
  destruct (fold_set_dev_props (entry_devs bs i)
              {| e_data_type := entry_data_type bs i;
                 e_devs := repeat 0 (Z.to_nat (entry_size - 1)) |})
    as (Ht & _ & Htest).
  { intros d Hd. cbn [e_devs]. rewrite repeat_length.
    pose proof (entry_devs_range bs i d Hd). specialize (Hlt d Hd). lia. }
  split; [exact Ht|]. intros d. rewrite bitmap_devs_In. split.
  - intros [Hd Hset]. rewrite Htest, test_dev_zero, orb_false_r in Hset by lia.
    apply existsb_exists in Hset. destruct Hset as (d0 & Hd0 & E).
    apply Z.eqb_eq in E. now subst d0.
  - intros Hd. pose proof (entry_devs_range bs i d Hd). specialize (Hlt d Hd).
    split; [lia|]. rewrite Htest, test_dev_zero, orb_false_r by lia.
    apply existsb_exists. exists d. split; [exact Hd | apply Z.eqb_refl].
Qed.

Lemma gc_end_bytes_fold K slots es : forall acc,
  Z.to_nat slots = (8 * K)%nat ->
  fold_left (fun bytes e =>
               fold_left (fun bytes j => bytes + hweight8 (nth j (e_devs e) 0))
                         (List.seq 0 K) (bytes + 2)) es acc
  = acc + Z.of_nat (length (concat (map (enc_entry slots) es))).
Proof.
  induction es as [|e es IH]; intros acc Hslots.
  - cbn. lia.
  - cbn [fold_left map concat]. rewrite IH by exact Hslots.
    rewrite hweight8_sum, <- bitmap_devs_count.
    rewrite length_app. cbn [enc_entry length]. rewrite Hslots. lia.
Qed.

Lemma gc_end_bytes_spec r :
  1 <= r_entry_size r < 2 ^ 28 ->
  gc_end_bytes r
  = 8 + Z.of_nat (length (concat (map (enc_entry (replicas_dev_slots r))
                                      (cpu_replicas_entries r)))).
Proof.
  intros Hsz. unfold gc_end_bytes. rewrite u32_small by lia.
  apply gc_end_bytes_fold. unfold replicas_dev_slots. lia.
Qed.

Lemma list_to_set_perm_pairs (l l' : list (Z * gset Z)) :
  Permutation l l' -> (list_to_set l : gset (Z * gset Z)) = list_to_set l'.
Proof. intros Hp. apply list_to_set_perm_L. exact Hp. Qed.

Lemma enc_entries_length slots es :
  (length es <= length (concat (map (enc_entry slots) es)))%nat.
Proof.
  induction es as [|e es IH]; cbn [map concat length]; [lia|].
  rewrite length_app. cbn [enc_entry length]. lia.
Qed.

Lemma div_round_up_8 n :
  0 <= n -> n <= 8 * DIV_ROUND_UP n 8 < n + 8.
Proof.
  intros Hn. unfold DIV_ROUND_UP.
  pose proof (Z.div_mod (n + 8 - 1) 8 ltac:(lia)).
  pose proof (Z.mod_pos_bound (n + 8 - 1) 8 ltac:(lia)). lia.
Qed.

(** Decoding a replicas field into the index and writing the index back
    keeps the set of pairs. *)
Lemma replicas_roundtrip_pairs mm bs :
  kmalloc mm = true -> Z.of_nat (length bs) + 1 < 2 ^ 32 ->
  exists r, __bch2_sb_replicas_to_cpu_replicas mm (Some bs) = Some r /\
            sb_pairs (gc_end_replicas r) = sb_pairs bs.
Proof.
  intros Hk Hlen. rewrite (to_cpu_replicas_spec mm bs Hk Hlen). cbv zeta.
  set (offs := for_each_replicas_entry bs).
  set (max_dev := fold_left Z.max (concat (map (entry_devs bs) offs)) 0).
  set (K := DIV_ROUND_UP (max_dev + 1) 8).
  set (L := map (cpu_of bs (1 + K)) offs).
  eexists. split; [reflexivity|].
  set (r := {| r_nr := _; r_entry_size := _; r_entries := _ |}).
  assert (Hdevs : forall i d, In i offs -> In d (entry_devs bs i) -> d <= max_dev).
  { intros i d Hi Hd. apply (proj2 (fold_max_ge _ 0)).
    apply in_concat. exists (entry_devs bs i). split; [|exact Hd].
    apply in_map_iff. now exists i. }
  assert (Hmd : 0 <= max_dev <= 255).
  { split; [apply (proj1 (fold_max_ge _ 0))|]. apply fold_max_le; [lia|].
    intros x Hx. apply in_concat in Hx. destruct Hx as (l & Hl & Hx).
    apply in_map_iff in Hl. destruct Hl as (i & <- & _).
    apply entry_devs_range in Hx. lia. }
  pose proof (div_round_up_8 (max_dev + 1) ltac:(lia)) as HK. fold K in HK.
  assert (Hslots : replicas_dev_slots r = 8 * K).
  { unfold replicas_dev_slots. cbn [r r_entry_size]. lia. }
  assert (Hes : cpu_replicas_entries r = eytzinger0_sort L).
  { unfold cpu_replicas_entries. cbn [r r_nr r_entries]. apply firstn_all2.
    rewrite (Permutation_length (eytzinger0_sort_perm L)).
    unfold L. rewrite length_map. lia. }
  assert (HL : forall e, In e (cpu_replicas_entries r) -> exists i, In i offs /\
             e = cpu_of bs (1 + K) i).
  { intros e He. rewrite Hes in He.
    apply (Permutation_in _ (eytzinger0_sort_perm L)) in He.
    apply in_map_iff in He. destruct He as (i & <- & Hi). now exists i. }
  assert (Hprops : forall i, In i offs ->
            e_data_type (cpu_of bs (1 + K) i) = entry_data_type bs i /\
            forall d, In d (bitmap_devs (cpu_of bs (1 + K) i) (Z.to_nat (8 * K)) 0)
                      <-> In d (entry_devs bs i)).
  { intros i Hi.
    destruct (cpu_of_props bs (1 + K) i) as [Ht Hd]; [lia| |].
    - intros d Hd. specialize (Hdevs i d Hi Hd). lia.
    - replace (1 + K - 1) with K in Hd by lia. split; assumption. }
  assert (Hwf : forall e, In e (cpu_replicas_entries r) ->
            1 <= e_data_type e < 256 /\
            (length (bitmap_devs e (Z.to_nat (8 * K)) 0) <= 255)%nat /\
            forall d, In d (bitmap_devs e (Z.to_nat (8 * K)) 0) -> 0 <= d < 256).
  { intros e He. destruct (HL e He) as (i & Hi & ->).
    destruct (Hprops i Hi) as [Ht Hd]. rewrite Ht. split; [|split].
    - pose proof (byte_at_range bs i).
      pose proof (replicas_entries_from_type bs _ _ _ Hi). unfold entry_data_type in *. lia.
    - transitivity (length (entry_devs bs i)).
      + apply List.NoDup_incl_length; [apply bitmap_devs_NoDup|].
        intros d Hin. now apply Hd.
      + rewrite entry_devs_length. pose proof (byte_at_range bs (i + 1)).
        unfold entry_nr. lia.
    - intros d Hin. apply Hd in Hin. now apply entry_devs_range in Hin. }
  set (total := length (concat (map (enc_entry (8 * K)) (cpu_replicas_entries r)))).
  assert (Hm : (total + 8 <= Z.to_nat ((gc_end_u64s r - 1) * 8))%nat).
  { unfold gc_end_u64s. rewrite gc_end_bytes_spec by (cbn [r r_entry_size]; lia).
    rewrite Hslots. fold total.
    pose proof (div_round_up_8 (8 + (8 + Z.of_nat total)) ltac:(lia)). lia. }
  unfold gc_end_replicas. rewrite Hslots.
  pose proof (gc_end_entries_spec (8 * K) ltac:(lia) (cpu_replicas_entries r) []
                (Z.to_nat ((gc_end_u64s r - 1) * 8))) as Henc.
  cbn [app length] in Henc. change (Z.of_nat 0) with 0 in Henc.
  rewrite Henc; [|intros e He; destruct (Hwf e He) as (? & ? & _); split; [lia | assumption]
                 |fold total; lia].
  clear Henc. fold total.
  unfold sb_pairs at 1, for_each_replicas_entry.
  pose proof (parse_encoded (8 * K) (cpu_replicas_entries r) []
                (S (length (concat (map (enc_entry (8 * K)) (cpu_replicas_entries r))
                            ++ repeat 0 (Z.to_nat ((gc_end_u64s r - 1) * 8) - total))))
                (Z.to_nat ((gc_end_u64s r - 1) * 8) - total)) as Hparse.
  cbn [app length] in Hparse. change (Z.of_nat 0) with 0 in Hparse.
  rewrite Hparse; [|rewrite length_app; pose proof (enc_entries_length (8 * K) (cpu_replicas_entries r));
                    lia | lia | exact Hwf].
  clear Hparse. unfold sb_pairs. fold offs.
  rewrite Hes.
  rewrite (list_to_set_perm_pairs _ _
             (Permutation_map _ (eytzinger0_sort_perm L))).
  unfold L. rewrite map_map. f_equal. apply map_ext_in. intros i Hi.
  destruct (Hprops i Hi) as [Ht Hd]. unfold sb_pair. rewrite Ht. f_equal.
  apply set_eq. intros d. rewrite !elem_of_list_to_set, !list_elem_of_In. apply Hd.
Qed.

End Encode.

(** A replicas field of three entries: user data on devices {0,1}, btree
    nodes on {2,0}, user data on {1,2,1}; then padding. *)
Definition replicas_three : list Z :=
  [4; 2; 0; 1; 3; 2; 2; 0; 4; 3; 1; 2; 1; 0; 0; 0].

Example replicas_three_roundtrip :
  __bch2_sb_replicas_to_cpu_replicas mm_ok (Some replicas_three)
  = Some {| r_nr := 3; r_entry_size := 2;
            r_entries := [ {| e_data_type := 4; e_devs := [3] |};
                           {| e_data_type := 3; e_devs := [5] |};
                           {| e_data_type := 4; e_devs := [6] |} ] |} /\
  gc_end_replicas {| r_nr := 3; r_entry_size := 2;
                     r_entries := [ {| e_data_type := 4; e_devs := [3] |};
                                    {| e_data_type := 3; e_devs := [5] |};
                                    {| e_data_type := 4; e_devs := [6] |} ] |}
  = [4; 2; 0; 1; 3; 2; 0; 2; 4; 2; 1; 2] ++ repeat 0 12.
Proof. split; vm_compute; reflexivity. Qed.

(** C6: for a replicas field (of fewer than [2^32] bytes, the scratch
    allocation succeeding), converting it to the in-memory index with
    [__bch2_sb_replicas_to_cpu_replicas] and writing that index back as
    [bch2_replicas_gc_end] does yields a field with the same set of
    [(data_type, device_set)] pairs. *)
Theorem replicas_to_cpu_gc_end_roundtrip `{Format} (mm : allocator) (bs : list Z) :
  kmalloc mm = true -> Z.of_nat (length bs) + 1 < 2 ^ 32 ->
  exists r, __bch2_sb_replicas_to_cpu_replicas mm (Some bs) = Some r /\
            sb_pairs (gc_end_replicas r) = sb_pairs bs.
Proof. apply replicas_roundtrip_pairs. Qed.

Lemma replicas_to_cpu_gc_end_roundtrip_witness :
  exists r, __bch2_sb_replicas_to_cpu_replicas mm_ok (Some replicas_three) = Some r /\
            sb_pairs (gc_end_replicas r) = sb_pairs replicas_three.
Proof.
  apply (replicas_to_cpu_gc_end_roundtrip mm_ok replicas_three).
  - reflexivity.
  - vm_compute. reflexivity.
Defined.

(** ** Field directory: the image as a sequence of fields *)

(** A field as a record: its type and the words after its header.  [dir sb
    fs] says that the field area of [sb] is exactly the fields [fs], packed
    one after the other, each header declaring the field's length and
    type. *)
Record fld := { f_type : Z; f_words : list Z }.

Definition fld_u64s (f : fld) : Z := 1 + Z.of_nat (length (f_words f)).

Fixpoint dir_size (fs : list fld) : Z :=
  match fs with
  | [] => 0
  | f :: fs' => fld_u64s f + dir_size fs'
  end.

Fixpoint dir_at (d : Z -> Z) (p : Z) (fs : list fld) : Prop :=
  match fs with
  | [] => True
  | f :: fs' =>
      field_u64s (d p) = fld_u64s f /\
      field_type (d p) = f_type f /\
      (forall k, (k < length (f_words f))%nat ->
         d (p + 1 + Z.of_nat k) = nth k (f_words f) 0) /\
      dir_at d (p + fld_u64s f) fs'
  end.

Definition dir (sb : bch_sb) (fs : list fld) : Prop :=
  dir_at (_data sb) 0 fs /\ vstruct_last sb = dir_size fs.

(** The first field of type [t], with the word it starts at. *)
Fixpoint dir_find (fs : list fld) (t p : Z) : option (Z * fld) :=
  match fs with
  | [] => None
  | f :: fs' => if f_type f =? t then Some (p, f)
                else dir_find fs' t (p + fld_u64s f)
  end.

(** Replacing the first field of the type of [g] by [g], or appending [g]
    when there is none: what one step of [__copy_super] does. *)
Fixpoint dir_set (fs : list fld) (g : fld) : list fld :=
  match fs with
  | [] => [g]
  | f :: fs' => if f_type f =? f_type g then g :: fs' else f :: dir_set fs' g
  end.

Section DirFacts.

Lemma fld_u64s_pos f : 1 <= fld_u64s f.
Proof. unfold fld_u64s. lia. Qed.

Lemma dir_size_nonneg fs : 0 <= dir_size fs.
Proof. induction fs as [|f fs IH]; simpl; [lia | pose proof (fld_u64s_pos f); lia]. Qed.

Lemma dir_size_length fs : Z.of_nat (length fs) <= dir_size fs.
Proof.
  induction fs as [|f fs IH]; simpl dir_size; cbn [length]; [lia|].
  pose proof (fld_u64s_pos f). lia.
Qed.

Lemma dir_size_app fs1 fs2 : dir_size (fs1 ++ fs2) = dir_size fs1 + dir_size fs2.
Proof. induction fs1 as [|f fs1 IH]; simpl; [reflexivity | rewrite IH; lia]. Qed.

(** A directory depends only on the words it covers, and may be moved. *)
Lemma dir_at_transport d d' fs : forall q q',
  (forall j, 0 <= j < dir_size fs -> d' (q' + j) = d (q + j)) ->
  dir_at d q fs -> dir_at d' q' fs.
Proof.
  induction fs as [|f fs IH]; intros q q' Hsame Hdir; [exact I|].
  cbn [dir_at dir_size] in *. destruct Hdir as (Hu & Ht & Hw & Hrest).
  pose proof (fld_u64s_pos f). pose proof (dir_size_nonneg fs).
  assert (Hhead : d' q' = d q).
  { specialize (Hsame 0 ltac:(lia)). now rewrite !Z.add_0_r in Hsame. }
  rewrite Hhead. repeat split; try assumption.
  - intros k Hk. rewrite <- (Hw k Hk).
    replace (q' + 1 + Z.of_nat k) with (q' + (1 + Z.of_nat k)) by lia.
    replace (q + 1 + Z.of_nat k) with (q + (1 + Z.of_nat k)) by lia.
    apply Hsame. unfold fld_u64s in *. lia.
  - apply (IH (q + fld_u64s f)); [|exact Hrest].
    intros j Hj. rewrite <- !Z.add_assoc. apply Hsame. lia.
Qed.

Lemma dir_at_app d fs1 fs2 p :
  dir_at d p (fs1 ++ fs2) <-> dir_at d p fs1 /\ dir_at d (p + dir_size fs1) fs2.
Proof.
  revert p; induction fs1 as [|f fs1 IH]; intros p; cbn [app dir_at dir_size].
  - rewrite Z.add_0_r. tauto.
  - rewrite IH. replace (p + fld_u64s f + dir_size fs1)
      with (p + (fld_u64s f + dir_size fs1)) by lia. tauto.
Qed.

(** Splitting a directory at the first field of type [t]. *)
Lemma dir_find_Some fs t : forall p q f,
  dir_find fs t p = Some (q, f) ->
  exists fs1 fs2, fs = fs1 ++ f :: fs2 /\ q = p + dir_size fs1 /\ f_type f = t /\
                  Forall (fun g => f_type g <> t) fs1.
Proof.
  induction fs as [|g fs IH]; intros p q f Hfind; [discriminate|].
  cbn [dir_find] in Hfind. destruct (Z.eqb_spec (f_type g) t) as [Heq|Hne].
  - injection Hfind as <- <-. exists [], fs. cbn. repeat split; [lia | exact Heq | constructor].
  - destruct (IH _ _ _ Hfind) as (fs1 & fs2 & -> & -> & Ht & Hall).
    exists (g :: fs1), fs2. cbn [app dir_size]. repeat split; [lia | exact Ht |].
    now constructor.
Qed.

Lemma dir_find_None fs t : forall p,
  dir_find fs t p = None -> Forall (fun g => f_type g <> t) fs.
Proof.
  induction fs as [|g fs IH]; intros p Hfind; [constructor|].
  cbn [dir_find] in Hfind. destruct (Z.eqb_spec (f_type g) t) as [Heq|Hne]; [discriminate|].
  constructor; [exact Hne | now apply (IH _ Hfind)].
Qed.

Lemma dir_find_skip fs1 t : forall p fs2,
  Forall (fun g => f_type g <> t) fs1 ->
  dir_find (fs1 ++ fs2) t p = dir_find fs2 t (p + dir_size fs1).
Proof.
  induction fs1 as [|g fs1 IH]; intros p fs2 Hall; cbn [app dir_find dir_size].
  - now rewrite Z.add_0_r.
  - inversion Hall as [|? ? Hg Hrest]; subst.
    destruct (Z.eqb_spec (f_type g) t); [contradiction|].
    rewrite IH by assumption. f_equal. lia.
Qed.

Lemma dir_set_skip fs1 g : forall fs2,
  Forall (fun f => f_type f <> f_type g) fs1 ->
  dir_set (fs1 ++ fs2) g = fs1 ++ dir_set fs2 g.
Proof.
  induction fs1 as [|f fs1 IH]; intros fs2 Hall; cbn [app dir_set]; [reflexivity|].
  inversion Hall as [|? ? Hf Hrest]; subst.
  destruct (Z.eqb_spec (f_type f) (f_type g)); [contradiction|].
  now rewrite IH.
Qed.

(** The lookup of the code finds what [dir_find] finds. *)
Lemma bch2_sb_field_get_from_dir sb t fs : forall fuel p,
  dir_at (_data sb) p fs -> vstruct_last sb = p + dir_size fs ->
  (length fs < fuel)%nat ->
  bch2_sb_field_get_from fuel sb t p = Some (fst <$> dir_find fs t p).
Proof.
  induction fs as [|f fs IH]; intros fuel p Hdir Hlast Hfuel;
    (destruct fuel as [|fuel]; [cbn [length] in Hfuel; lia|]);
    cbn [bch2_sb_field_get_from dir_find dir_size] in *.
  - rewrite Z.add_0_r in Hlast. rewrite Hlast, Z.ltb_irrefl. reflexivity.
  - destruct Hdir as (Hu & Ht & _ & Hrest).
    pose proof (fld_u64s_pos f). pose proof (dir_size_nonneg fs).
    destruct (Z.ltb_spec p (vstruct_last sb)); [|lia].
    rewrite Ht. destruct (f_type f =? t); [reflexivity|].
    unfold vstruct_next. rewrite Hu. apply IH; [exact Hrest | lia | cbn [length] in Hfuel; lia].
Qed.

Lemma bch2_sb_field_get_dir sb t fs :
  dir sb fs -> bch2_sb_field_get sb t = Some (fst <$> dir_find fs t 0).
Proof.
  intros [Hdir Hlast]. unfold bch2_sb_field_get.
  apply bch2_sb_field_get_from_dir; [exact Hdir | lia |].
  pose proof (dir_size_length fs). lia.
Qed.

End DirFacts.

(** ** Field directory: what a resize does to the words *)

Section ResizeFacts.

Lemma u32_idem x : u32 (u32 x) = u32 x.
Proof. unfold u32. apply Z.mod_mod. lia. Qed.

Lemma u32_add_u32 a b : u32 (a + u32 b) = u32 (a + b).
Proof. unfold u32. apply Zplus_mod_idemp_r. Qed.

Lemma field_u64s_set_u64s w v : field_u64s (set_field_u64s w v) = u32 v.
Proof.
  unfold field_u64s, set_field_u64s, le32_to_cpu.
  rewrite Z.shiftl_mul_pow2 by lia. unfold u32 at 1.
  rewrite Z.add_comm, Z.mod_add by lia. apply u32_idem.
Qed.

Lemma field_type_set_u64s w v : field_type (set_field_u64s w v) = field_type w.
Proof.
  unfold field_type at 1, set_field_u64s, le32_to_cpu.
  rewrite Z.shiftr_div_pow2, Z.shiftl_mul_pow2 by lia.
  pose proof (u32_range v).
  rewrite Z.add_comm, Z.div_add, Z.div_small, Z.add_0_l by lia.
  unfold field_type, le32_to_cpu. apply u32_idem.
Qed.

Lemma field_type_set_type w v : field_type (set_field_type w v) = u32 v.
Proof.
  unfold field_type, set_field_type, le32_to_cpu.
  rewrite Z.shiftr_div_pow2, Z.shiftl_mul_pow2 by lia.
  pose proof (field_u64s_range w).
  rewrite Z.add_comm, Z.div_add, Z.div_small, Z.add_0_l by lia.
  apply u32_idem.
Qed.

Lemma field_u64s_set_type w v : field_u64s (set_field_type w v) = field_u64s w.
Proof.
  unfold field_u64s at 1, set_field_type, le32_to_cpu.
  rewrite Z.shiftl_mul_pow2 by lia. unfold u32 at 1.
  rewrite Z.add_comm, Z.mod_add by lia.
  pose proof (field_u64s_range w). apply Z.mod_small. lia.
Qed.

(** The image after [__bch2_sb_field_resize] of a field that is there: the
    words before it stay, its header declares [n] words, its payload is kept
    up to the shorter of the two lengths and zeroed beyond, and the fields
    that followed it follow it again. *)
Lemma resize_present sb p n :
  0 <= p -> 1 <= field_u64s (_data sb p) -> 1 <= n < 2 ^ 32 ->
  p + field_u64s (_data sb p) <= vstruct_last sb ->
  vstruct_last sb + n - field_u64s (_data sb p) < 2 ^ 32 ->
  __bch2_sb_field_resize sb (Some p) n
    = (set_u64s (set_data sb (_data (fst (__bch2_sb_field_resize sb (Some p) n))))
         (vstruct_last sb + n - field_u64s (_data sb p)), p) /\
  (forall i, i < p ->
     _data (fst (__bch2_sb_field_resize sb (Some p) n)) i = _data sb i) /\
  field_u64s (_data (fst (__bch2_sb_field_resize sb (Some p) n)) p) = n /\
  field_type (_data (fst (__bch2_sb_field_resize sb (Some p) n)) p)
    = field_type (_data sb p) /\
  (forall k, 1 <= k < field_u64s (_data sb p) -> k < n ->
     _data (fst (__bch2_sb_field_resize sb (Some p) n)) (p + k) = _data sb (p + k)) /\
  (forall k, field_u64s (_data sb p) <= k < n ->
     _data (fst (__bch2_sb_field_resize sb (Some p) n)) (p + k) = 0) /\
  (forall j, 0 <= j < vstruct_last sb - (p + field_u64s (_data sb p)) ->
     _data (fst (__bch2_sb_field_resize sb (Some p) n)) (p + n + j)
       = _data sb (p + field_u64s (_data sb p) + j)).
Proof.
  intros Hp Hold Hn Hend Hfit.
  set (old := field_u64s (_data sb p)) in *.
  assert (Hu : u32 n = n) by (apply u32_small; lia).
  assert (Hlast : 0 <= vstruct_last sb < 2 ^ 32) by apply u32_range.
  assert (Ho : u32 old = old).
  { unfold old, field_u64s, le32_to_cpu. apply u32_idem. }
  unfold __bch2_sb_field_resize, vstruct_end. cbn zeta.
  unfold cpu_to_le32. fold old. unfold le32_to_cpu at 1 2 3.
  rewrite !Hu, !Ho.
  set (w := set_field_u64s (_data sb p) n).
  assert (Hw : field_u64s (store (_data sb) p w p) = n).
  { unfold store. rewrite Z.eqb_refl. unfold w.
    rewrite field_u64s_set_u64s. exact Hu. }
  rewrite !Hw. cbn [fst _data set_data set_u64s].
  assert (Hd : forall i,
    (if p + n >? p + old
     then memset (memmove (store (_data sb) p w) (p + n) (p + old)
                    (vstruct_last sb - (p + old))) (p + old) 0 (p + n - (p + old))
     else memmove (store (_data sb) p w) (p + n) (p + old)
            (vstruct_last sb - (p + old))) i
    = if (p + old <=? i) && (i <? p + n) then 0
      else if (p + n <=? i) && (i <? p + n + (vstruct_last sb - (p + old)))
           then _data sb (p + old + (i - (p + n)))
           else if i =? p then w else _data sb i).
  { intros i. unfold memset, memmove, store.
    destruct (Z.gtb_spec (p + n) (p + old));
      [replace (p + old + (p + n - (p + old))) with (p + n) by lia|];
      destruct (Z.leb_spec (p + old) i), (Z.ltb_spec i (p + n)),
               (Z.leb_spec (p + n) i),
               (Z.ltb_spec i (p + n + (vstruct_last sb - (p + old))));
      cbn [andb]; try lia; try reflexivity;
      destruct (Z.eqb_spec (p + old + (i - (p + n))) p); try lia; reflexivity. }
  split.
  { rewrite u32_add_u32.
    replace (u32 (u64s sb) + (n - old)) with (vstruct_last sb + n - old)
      by (unfold vstruct_last, le32_to_cpu; lia).
    rewrite (u32_small (vstruct_last sb + n - old)) by lia. reflexivity. }
  repeat split.
  - intros i Hi. rewrite Hd.
    destruct (Z.leb_spec (p + old) i); [lia|]. cbn [andb].
    destruct (Z.leb_spec (p + n) i); [lia|]. cbn [andb].
    destruct (Z.eqb_spec i p); [lia | reflexivity].
  - rewrite Hd. destruct (Z.leb_spec (p + old) p); [lia|]. cbn [andb].
    destruct (Z.leb_spec (p + n) p); [lia|]. cbn [andb].
    rewrite Z.eqb_refl. unfold w. rewrite field_u64s_set_u64s. exact Hu.
  - rewrite Hd. destruct (Z.leb_spec (p + old) p); [lia|]. cbn [andb].
    destruct (Z.leb_spec (p + n) p); [lia|]. cbn [andb].
    rewrite Z.eqb_refl. unfold w. apply field_type_set_u64s.
  - intros k Hk Hkn. rewrite Hd.
    destruct (Z.leb_spec (p + old) (p + k)); [lia|]. cbn [andb].
    destruct (Z.leb_spec (p + n) (p + k)); [lia|]. cbn [andb].
    destruct (Z.eqb_spec (p + k) p); [lia | reflexivity].
  - intros k Hk. rewrite Hd.
    destruct (Z.leb_spec (p + old) (p + k)); [|lia].
    destruct (Z.ltb_spec (p + k) (p + n)); [reflexivity | lia].
  - intros j Hj. rewrite Hd.
    destruct (Z.ltb_spec (p + n + j) (p + n)); [lia|]. rewrite andb_false_r.
    destruct (Z.leb_spec (p + n) (p + n + j)); [|lia].
    destruct (Z.ltb_spec (p + n + j) (p + n + (vstruct_last sb - (p + old)))); [|lia].
    cbn [andb]. f_equal. lia.
Qed.

(** The image after [__bch2_sb_field_resize] with no field: [n] zeroed
    words are appended, the first a header of type 0 declaring [n] words. *)
Lemma resize_absent sb n :
  1 <= n < 2 ^ 32 -> vstruct_last sb + n < 2 ^ 32 ->
  __bch2_sb_field_resize sb None n
    = (set_u64s (set_data sb (_data (fst (__bch2_sb_field_resize sb None n))))
         (vstruct_last sb + n), vstruct_last sb) /\
  (forall i, i < vstruct_last sb ->
     _data (fst (__bch2_sb_field_resize sb None n)) i = _data sb i) /\
  field_u64s (_data (fst (__bch2_sb_field_resize sb None n)) (vstruct_last sb)) = n /\
  field_type (_data (fst (__bch2_sb_field_resize sb None n)) (vstruct_last sb)) = 0 /\
  (forall k, 1 <= k < n ->
     _data (fst (__bch2_sb_field_resize sb None n)) (vstruct_last sb + k) = 0).
Proof.
  intros Hn Hfit.
  assert (Hu : u32 n = n) by (apply u32_small; lia).
  assert (Hlast : 0 <= vstruct_last sb < 2 ^ 32) by apply u32_range.
  unfold __bch2_sb_field_resize. cbn zeta. unfold cpu_to_le32.
  rewrite !Hu. cbn [fst _data set_data set_u64s].
  set (p := vstruct_last sb) in *.
  split.
  { rewrite Z.sub_0_r, u32_add_u32.
    replace (le32_to_cpu (u64s sb)) with p by reflexivity.
    rewrite (u32_small (p + n)) by lia. reflexivity. }
  repeat split.
  - intros i Hi. unfold store, memset.
    destruct (Z.eqb_spec i p); [lia|].
    destruct (Z.leb_spec p i); [lia | reflexivity].
  - unfold store at 1. rewrite Z.eqb_refl, field_u64s_set_type.
    unfold store at 1. rewrite Z.eqb_refl, field_u64s_set_u64s. exact Hu.
  - unfold store at 1. rewrite Z.eqb_refl, field_type_set_type. reflexivity.
  - intros k Hk. unfold store, memset.
    destruct (Z.eqb_spec (p + k) p); [lia|].
    destruct (Z.leb_spec p (p + k)); [|lia].
    destruct (Z.ltb_spec (p + k) (p + n)); [reflexivity | lia].
Qed.

End ResizeFacts.

(** ** Field directory: a resize seen on the sequence of fields *)

Section ResizeDir.

(** The lookup walks over fields of other types and stops at the first
    header of the type wanted. *)
Lemma bch2_sb_field_get_from_prefix sb t fs1 : forall fuel p,
  dir_at (_data sb) p fs1 -> Forall (fun g => f_type g <> t) fs1 ->
  p + dir_size fs1 < vstruct_last sb ->
  field_type (_data sb (p + dir_size fs1)) = t ->
  (length fs1 < fuel)%nat ->
  bch2_sb_field_get_from fuel sb t p = Some (Some (p + dir_size fs1)).
Proof.
  induction fs1 as [|f fs1 IH]; intros fuel p Hdir Hall Hlt Hty Hfuel;
    (destruct fuel as [|fuel]; [cbn [length] in Hfuel; lia|]);
    cbn [bch2_sb_field_get_from dir_size] in *.
  - rewrite Z.add_0_r in *. destruct (Z.ltb_spec p (vstruct_last sb)); [|lia].
    rewrite Hty, Z.eqb_refl. reflexivity.
  - destruct Hdir as (Hu & Ht & _ & Hrest).
    inversion Hall as [|? ? Hf Hall']; subst.
    pose proof (fld_u64s_pos f). pose proof (dir_size_nonneg fs1).
    destruct (Z.ltb_spec p (vstruct_last sb)); [|lia].
    rewrite Ht. destruct (Z.eqb_spec (f_type f) (field_type
      (_data sb (p + (fld_u64s f + dir_size fs1))))); [contradiction|].
    unfold vstruct_next. rewrite Hu.
    replace (p + (fld_u64s f + dir_size fs1)) with (p + fld_u64s f + dir_size fs1)
      in * by lia.
    apply IH; [exact Hrest | exact Hall' | lia | reflexivity |
               cbn [length] in Hfuel; lia].
Qed.

(** The frame of a resize.  The directory splits into the fields before
    the one resized, that field if there is one, and the fields after it;
    the first part stays where it is, the header at its end declares [n]
    words, and the last part follows the [n] words. *)
Lemma field_resize_dir s fs t n :
  dir s fs -> 1 <= n < 2 ^ 32 -> vstruct_last s + n < 2 ^ 32 ->
  exists fs1 mid fs2,
    fs = fs1 ++ mid ++ fs2 /\
    Forall (fun g => f_type g <> t) fs1 /\
    (mid = [] /\ fs2 = [] /\ dir_find fs t 0 = None \/
     exists f, mid = [f] /\ f_type f = t /\
               dir_find fs t 0 = Some (dir_size fs1, f)) /\
    __bch2_sb_field_resize s (fst <$> dir_find fs t 0) n
      = (set_u64s
           (set_data s
              (_data (fst (__bch2_sb_field_resize s (fst <$> dir_find fs t 0) n))))
           (dir_size fs1 + n + dir_size fs2), dir_size fs1) /\
    (forall i, i < dir_size fs1 ->
       _data (fst (__bch2_sb_field_resize s (fst <$> dir_find fs t 0) n)) i
         = _data s i) /\
    field_u64s (_data (fst (__bch2_sb_field_resize s (fst <$> dir_find fs t 0) n))
                  (dir_size fs1)) = n /\
    field_type (_data (fst (__bch2_sb_field_resize s (fst <$> dir_find fs t 0) n))
                  (dir_size fs1)) = match mid with [] => 0 | _ => t end /\
    (forall k, 1 <= k < dir_size mid -> k < n ->
       _data (fst (__bch2_sb_field_resize s (fst <$> dir_find fs t 0) n))
             (dir_size fs1 + k) = _data s (dir_size fs1 + k)) /\
    (forall k, 1 <= k < n -> dir_size mid <= k ->
       _data (fst (__bch2_sb_field_resize s (fst <$> dir_find fs t 0) n))
             (dir_size fs1 + k) = 0) /\
    (forall j, 0 <= j < dir_size fs2 ->
       _data (fst (__bch2_sb_field_resize s (fst <$> dir_find fs t 0) n))
             (dir_size fs1 + n + j)
         = _data s (dir_size fs1 + dir_size mid + j)).
Proof.
  intros [Hdir Hlast] Hn Hfit.
  destruct (dir_find fs t 0) as [[q f]|] eqn:Hfind.
  - destruct (dir_find_Some _ _ _ _ _ Hfind) as (fs1 & fs2 & -> & Hq & Ht & Hall).
    rewrite Z.add_0_l in Hq. subst q.
    exists fs1, [f], fs2. split; [reflexivity|]. split; [exact Hall|].
    split; [right; exists f; auto|].
    apply dir_at_app in Hdir as [Hd1 Hd2]. rewrite Z.add_0_l in Hd2.
    cbn [dir_at] in Hd2. destruct Hd2 as (Hu & Hty & Hw & Hd3).
    rewrite dir_size_app in Hlast. cbn [dir_size] in *.
    pose proof (fld_u64s_pos f). pose proof (dir_size_nonneg fs1).
    pose proof (dir_size_nonneg fs2).
    cbn [fmap option_fmap option_map fst].
    destruct (resize_present s (dir_size fs1) n) as (Hr & Ha & Hb & Hc & Hd & He & Hf);
      try rewrite Hu; try lia.
    rewrite Hu in *. repeat split.
    + etransitivity; [exact Hr|]. do 2 f_equal. lia.
    + exact Ha.
    + exact Hb.
    + rewrite Hc. exact (eq_trans Hty Ht).
    + intros k Hk Hkn. apply Hd; lia.
    + intros k Hk Hkm. apply He. lia.
    + intros j Hj. rewrite Z.add_0_r. apply Hf. lia.
  - exists fs, [], []. rewrite app_nil_r.
    split; [reflexivity|]. split; [exact (dir_find_None _ _ _ Hfind)|].
    split; [left; auto|].
    cbn [fmap option_fmap option_map dir_size]. rewrite <- Hlast.
    destruct (resize_absent s n) as (Hr & Ha & Hb & Hc & Hd); try lia.
    repeat split.
    + etransitivity; [exact Hr|]. do 2 f_equal. lia.
    + exact Ha.
    + exact Hb.
    + exact Hc.
    + intros k Hk Hkn. lia.
    + intros k Hk _. apply Hd. lia.
    + intros j Hj. lia.
Qed.

End ResizeDir.

(** ** Field directory: resize then lookup *)

Section ResizeHandle.
Context `{Format}.

(** A successful [bch2_sb_realloc] leaves the handle alone or installs
    pages of another order holding a copy of the old ones. *)
Lemma bch2_sb_realloc_ok mm h s n h1 :
  sb h = Some s -> bch2_sb_realloc mm h n = Some (0, h1) ->
  h1 = h \/
  buffer_replaced (page_order h) (page_order h1) = true /\
  exists fresh, sb h1 = Some (copy_pages fresh s (page_order h)).
Proof.
  intros Hs Hre. unfold bch2_sb_realloc in Hre. rewrite Hs in Hre.
  cbn [mbind option_bind] in Hre.
  destruct (_ >? _) in Hre; [discriminate|].
  unfold __bch2_super_realloc in Hre. rewrite Hs in Hre.
  rewrite (bool_decide_true (is_Some (Some s))), andb_true_r in Hre by eauto.
  destruct (Z.geb_spec (page_order h) (get_order (u64 (__vstruct_bytes (u32 n)))))
    as [Hge|Hlt].
  - injection Hre as <-. now left.
  - destruct (fault_super_realloc mm); [injection Hre as Hre _; vm_compute in Hre; discriminate|].
    destruct (bio_kmalloc mm _); cbn [negb] in Hre;
      [|injection Hre as Hre _; vm_compute in Hre; discriminate].
    destruct (get_free_pages mm _) as [fresh|];
      [|injection Hre as Hre _; vm_compute in Hre; discriminate].
    injection Hre as <-. right. cbn [set_sb set_sb_bio page_order sb]. rewrite Hs.
    split; [|eauto].
    unfold buffer_replaced. destruct (Z.eqb_spec
      (get_order (u64 (__vstruct_bytes (u32 n)))) (page_order h)); [lia | reflexivity].
Qed.

Lemma copy_pages_words fresh s order i :
  i < buffer_u64s order -> _data (copy_pages fresh s order) i = _data s i.
Proof.
  intros Hi. unfold copy_pages. cbn [_data set_data].
  destruct (Z.ltb_spec i (buffer_u64s order)); [reflexivity | lia].
Qed.

End ResizeHandle.

(** Two fields, of types 1 and 3, with one payload word each. *)
Definition sb_two_fields : bch_sb :=
  sb_with [field_word 2 1; 7; field_word 2 3; 9].

Definition two_fields : list fld :=
  [ {| f_type := 1; f_words := [7] |}; {| f_type := 3; f_words := [9] |} ].

Lemma sb_two_fields_dir : dir sb_two_fields two_fields.
Proof.
  split; [|reflexivity]. cbn [dir_at two_fields f_type f_words].
  repeat split; try reflexivity;
    intros [|k] Hk; cbn [length] in Hk; try lia; reflexivity.
Qed.

(** The handle after growing the field of type 1 to 3 words. *)
Definition two_fields_resized : bcache_superblock :=
  from_option snd (handle_of sb_two_fields 0)
    (bch2_sb_field_resize mm_ok (handle_of sb_two_fields 0) 1 3).

(** C7 (counterexample): growing the field of type 1 from 2 to 3 words
    gives a field of 3 words at word 0, whose old span is words 0-1 and new
    span words 0-2; word 3, outside both, held the payload 9 of the field of
    type 3 and now holds that field's header, the payload having moved to
    word 4; and the word count in the header of the image went from 4
    to 5. *)
Lemma bch2_sb_field_resize_shifts :
  (r ← bch2_sb_field_resize mm_ok (handle_of sb_two_fields 0) 1 3;
   s' ← sb (snd r);
   Some (fst r, field_u64s (_data s' 0), _data s' 3, _data s' 4, u64s s'))
    = Some (Some 0, 3, field_word 2 3, 9, 5) /\
  _data sb_two_fields 3 = 9 /\ u64s sb_two_fields = 4.
Proof. repeat split; vm_compute; reflexivity. Qed.

(** Resizing to no word at all: the header of the field of type 1 is
    overwritten by the field that followed, [f->type = type] then relabels
    that field, and the lookup returns it, with its 2 words. *)
Example bch2_sb_field_resize_to_zero :
  (r ← bch2_sb_field_resize mm_ok (handle_of sb_two_fields 0) 1 0;
   s' ← sb (snd r);
   f ← bch2_sb_field_get s' 1;
   Some (fst r, f, _data s' 0, _data s' 1, u64s s'))
    = Some (Some 0, Some 0, field_word 2 1, 9, 2).
Proof. vm_compute. reflexivity. Qed.

(** C7 (amended): on an image whose field area is a well-formed directory
    and fits its buffer, for a word count [n >= 1] that keeps the total
    below [2^32], a successful [bch2_sb_field_resize] to [n] words of type
    [T] returns the position [p] at which [bch2_sb_field_get] then finds a
    field of type [T] and of exactly [n] words; [p] is where the field was,
    or the end of the directory when there was none; the words before [p]
    are unchanged, the payload is kept up to the shorter length and zero
    beyond, the words that followed the field's old span follow its new
    span, the word count of the image changes by the difference, and the
    fixed header is otherwise as it was. *)
Theorem bch2_sb_field_resize_get `{Format} (mm : allocator)
    (h h' : bcache_superblock) (s : bch_sb) (fs : list fld) (T n p : Z) :
  sb h = Some s -> dir s fs ->
  vstruct_last s <= buffer_u64s (page_order h) ->
  0 <= T < 2 ^ 32 -> 1 <= n < 2 ^ 32 -> vstruct_last s + n < 2 ^ 32 ->
  bch2_sb_field_resize mm h T n = Some (Some p, h') ->
  exists s' q,
    sb h' = Some s' /\
    bch2_sb_field_get s' T = Some (Some p) /\
    field_u64s (_data s' p) = n /\ field_type (_data s' p) = T /\
    bch2_sb_field_get s T = Some q /\
    p = default (vstruct_last s) q /\
    vstruct_last s' = vstruct_last s + n
                      - from_option (fun q => field_u64s (_data s q)) 0 q /\
    (forall i, 0 <= i < p -> _data s' i = _data s i) /\
    (forall k, 1 <= k < from_option (fun q => field_u64s (_data s q)) 0 q ->
       k < n -> _data s' (p + k) = _data s (p + k)) /\
    (forall k, 1 <= k < n ->
       from_option (fun q => field_u64s (_data s q)) 0 q <= k ->
       _data s' (p + k) = 0) /\
    (forall j, 0 <= j ->
       p + from_option (fun q => field_u64s (_data s q)) 0 q + j < vstruct_last s ->
       _data s' (p + n + j)
         = _data s (p + from_option (fun q => field_u64s (_data s q)) 0 q + j)) /\
    set_u64s (set_data s' (_data s)) (u64s s) = s.
Proof.
  intros Hsb Hdir Hfits HT Hn Hfit Hres.
  unfold bch2_sb_field_resize in Hres. rewrite Hsb in Hres.
  cbn [mbind option_bind] in Hres.
  rewrite (bch2_sb_field_get_dir s T fs Hdir) in Hres.
  cbn [mbind option_bind] in Hres.
  destruct (bch2_sb_realloc mm h _) as [[ret h1]|] eqn:Hre; [|discriminate].
  cbn [mbind option_bind] in Hres.
  destruct (Z.eqb_spec ret 0) as [->|Hne]; cbn [negb] in Hres; [|discriminate].
  (* the image the resize works on *)
  assert (Hs1 : exists s1, sb h1 = Some s1 /\ s1 = set_data s (_data s1) /\
            (forall i, i < vstruct_last s -> _data s1 i = _data s i) /\
            (let '(s2, f') := __bch2_sb_field_resize s1 (fst <$> dir_find fs T 0) n in
             Some (Some f', set_sb h1 (Some (set_type s2 f' T)) (page_order h1)))
            = Some (Some p, h')).
  { destruct (bch2_sb_realloc_ok mm h s _ h1 Hsb Hre) as [->|[Hrep (fresh & Hfresh)]].
    - unfold buffer_replaced in Hres. rewrite Z.eqb_refl, andb_false_r in Hres.
      rewrite Hsb in Hres. cbn [mbind option_bind] in Hres.
      exists s. repeat split; [exact Hsb | now destruct s | exact Hres].
    - rewrite Hrep, andb_true_r in Hres.
      destruct (dir_find fs T 0) as [[q f]|] eqn:Hfind.
      + rewrite bool_decide_true in Hres by (cbn; eauto). discriminate.
      + rewrite bool_decide_false in Hres by (cbn; intros [? [=]]).
        rewrite Hfresh in Hres. cbn [mbind option_bind] in Hres.
        exists (copy_pages fresh s (page_order h)).
        repeat split; [exact Hfresh | | exact Hres].
        intros i Hi. apply copy_pages_words. lia. }
  destruct Hs1 as (s1 & Hsb1 & Hhdr & Hwords & Hres1). clear Hres Hre.
  assert (Hlast1 : vstruct_last s1 = vstruct_last s) by (rewrite Hhdr; reflexivity).
  assert (Hdir1 : dir s1 fs).
  { destruct Hdir as [Hd Hl]. split; [|congruence].
    apply (dir_at_transport (_data s) _ fs 0 0); [|exact Hd].
    intros j Hj. rewrite !Z.add_0_l. apply Hwords. lia. }
  destruct (field_resize_dir s1 fs T n Hdir1 Hn ltac:(lia))
    as (fs1 & mid & fs2 & Hfs & Hall & Hmid & Hr & Ha & Hb & Hc & Hd & He & Hf).
  set (r := __bch2_sb_field_resize s1 (fst <$> dir_find fs T 0) n) in *.
  rewrite Hr in Hres1. injection Hres1 as <- <-.
  set (D := _data (fst r)) in *. clearbody D. clear Hr r.
  pose proof (dir_size_nonneg fs1) as Hp1. pose proof (dir_size_nonneg fs2) as Hp2.
  pose proof (dir_size_nonneg mid) as Hpm.
  assert (Hsize : vstruct_last s = dir_size fs1 + dir_size mid + dir_size fs2).
  { destruct Hdir as [_ ->]. rewrite Hfs, !dir_size_app. lia. }
  assert (Hmidn : dir_size mid <= n + dir_size mid) by lia.
  assert (Hold : from_option (fun q => field_u64s (_data s q)) 0
                   (fst <$> dir_find fs T 0) = dir_size mid /\
                 default (vstruct_last s) (fst <$> dir_find fs T 0) = dir_size fs1).
  { destruct Hmid as [(-> & -> & ->)|(f & -> & Hty & ->)];
      cbn [fmap option_fmap option_map fst from_option default dir_size] in *.
    - split; lia.
    - destruct Hdir as [Hd0 _]. rewrite Hfs in Hd0.
      apply dir_at_app in Hd0 as [_ Hd0]. cbn [app dir_at] in Hd0.
      destruct Hd0 as (Hu & _). rewrite Z.add_0_l in Hu. unfold id. split; lia. }
  destruct Hold as [Hold Hpos].
  assert (HuT : u32 T = T) by (apply u32_small; lia).
  eexists. exists (fst <$> dir_find fs T 0).
  cbn [set_sb sb]. split; [reflexivity|].
  rewrite Hold, Hpos.
  unfold set_type. cbn [_data set_data set_u64s vstruct_last u64s].
  assert (Hst : forall i, i <> dir_size fs1 ->
            store D (dir_size fs1) (set_field_type (D (dir_size fs1)) T) i = D i).
  { intros i Hi. unfold store. destruct (Z.eqb_spec i (dir_size fs1)); [lia | reflexivity]. }
  assert (Hsq : store D (dir_size fs1) (set_field_type (D (dir_size fs1)) T) (dir_size fs1)
                = set_field_type (D (dir_size fs1)) T).
  { unfold store. now rewrite Z.eqb_refl. }
  assert (Hfty : field_type (store D (dir_size fs1)
                   (set_field_type (D (dir_size fs1)) T) (dir_size fs1)) = T).
  { rewrite Hsq, field_type_set_type. exact HuT. }
  assert (Hnew : le32_to_cpu (dir_size fs1 + n + dir_size fs2)
                 = dir_size fs1 + n + dir_size fs2).
  { unfold le32_to_cpu. apply u32_small.
    pose proof (u32_range (u64s s)). unfold vstruct_last, le32_to_cpu in *. lia. }
  repeat split.
  - unfold bch2_sb_field_get, vstruct_last. cbn [u64s set_data set_u64s]. rewrite Hnew.
    rewrite <- (Z.add_0_l (dir_size fs1)) at 5.
    apply bch2_sb_field_get_from_prefix.
    + cbn [_data set_data set_u64s].
      destruct Hdir1 as [Hd1 _]. rewrite Hfs in Hd1. apply dir_at_app in Hd1 as [Hd1 _].
      apply (dir_at_transport (_data s1) _ fs1 0 0); [|exact Hd1].
      intros j Hj. rewrite !Z.add_0_l, Hst by lia. apply Ha. lia.
    + exact Hall.
    + unfold vstruct_last. cbn [u64s set_data set_u64s]. rewrite Hnew. lia.
    + cbn [_data set_data set_u64s]. rewrite Z.add_0_l. exact Hfty.
    + pose proof (dir_size_length fs1). lia.
  - rewrite Hsq, field_u64s_set_type. exact Hb.
  - exact Hfty.
  - apply (bch2_sb_field_get_dir s T fs Hdir).
  - unfold vstruct_last at 1. cbn [u64s set_data set_u64s]. rewrite Hnew. lia.
  - intros i Hi. rewrite Hst by lia. rewrite Ha by lia. apply Hwords. lia.
  - intros k Hk Hkn. rewrite Hst by lia. rewrite Hd by lia. apply Hwords. lia.
  - intros k Hk Hkm. rewrite Hst by lia. apply He; lia.
  - intros j Hj Hlt. rewrite Hst by lia. rewrite Hf by lia. apply Hwords. lia.
  - rewrite Hhdr. now destruct s.
Qed.

Lemma bch2_sb_field_resize_get_witness :
  exists s' q,
    sb two_fields_resized = Some s' /\
    bch2_sb_field_get s' 1 = Some (Some 0) /\
    field_u64s (_data s' 0) = 3 /\ field_type (_data s' 0) = 1 /\
    bch2_sb_field_get sb_two_fields 1 = Some q /\
    0 = default (vstruct_last sb_two_fields) q /\
    vstruct_last s' = vstruct_last sb_two_fields + 3
                      - from_option (fun q => field_u64s (_data sb_two_fields q)) 0 q /\
    (forall i, 0 <= i < 0 -> _data s' i = _data sb_two_fields i) /\
    (forall k, 1 <= k < from_option (fun q => field_u64s (_data sb_two_fields q)) 0 q ->
       k < 3 -> _data s' (0 + k) = _data sb_two_fields (0 + k)) /\
    (forall k, 1 <= k < 3 ->
       from_option (fun q => field_u64s (_data sb_two_fields q)) 0 q <= k ->
       _data s' (0 + k) = 0) /\
    (forall j, 0 <= j ->
       0 + from_option (fun q => field_u64s (_data sb_two_fields q)) 0 q + j
         < vstruct_last sb_two_fields ->
       _data s' (0 + 3 + j)
         = _data sb_two_fields
             (0 + from_option (fun q => field_u64s (_data sb_two_fields q)) 0 q + j)) /\
    set_u64s (set_data s' (_data sb_two_fields)) (u64s sb_two_fields) = sb_two_fields.
Proof.
  apply (bch2_sb_field_resize_get mm_ok (handle_of sb_two_fields 0)
           two_fields_resized sb_two_fields two_fields 1 3 0).
  - reflexivity.
  - exact sb_two_fields_dir.
  - vm_compute. congruence.
  - lia.
  - lia.
  - vm_compute. reflexivity.
  - vm_compute. reflexivity.
Defined.

(** Appending a field: no field of type 2 is there, so the new one goes to
    the end of the directory and nothing before it moves. *)
Example bch2_sb_field_resize_appends :
  (r ← bch2_sb_field_resize mm_ok (handle_of sb_two_fields 0) 2 2;
   s' ← sb (snd r);
   Some (fst r, map (_data s') [0; 1; 2; 3; 4; 5], u64s s'))
    = Some (Some 4, [field_word 2 1; 7; field_word 2 3; 9; field_word 2 2; 0], 6).
Proof. vm_compute. reflexivity. Qed.

(** Growing a field that is there beyond the pages of the buffer: the
    pointer [f] was taken before [bch2_sb_realloc] replaced them, and the
    resize has no defined result. *)
Example bch2_sb_field_resize_stale :
  fst <$> bch2_sb_realloc mm_ok (handle_of sb_two_fields 0) (4 + 498) = Some 0 /\
  bch2_sb_field_resize mm_ok (handle_of sb_two_fields 0) 1 500 = None.
Proof. split; vm_compute; reflexivity. Qed.

(** ** [__copy_super] on the sequence of fields *)

(** The fixed header of an image: the image with its field area and the
    count of its words blanked. *)
Definition sb_header (sb : bch_sb) : bch_sb :=
  set_u64s (set_data sb (fun _ => 0)) 0.

(** The first field of type [t]. *)
Fixpoint dir_lookup (fs : list fld) (t : Z) : option fld :=
  match fs with
  | [] => None
  | f :: fs' => if f_type f =? t then Some f else dir_lookup fs' t
  end.

(** The payload words of the first field of type [t], if there is one. *)
Definition field_payload (sb : bch_sb) (t : Z) : option (list Z) :=
  match bch2_sb_field_get sb t with
  | Some (Some p) =>
      Some (map (fun k => _data sb (p + 1 + Z.of_nat k))
                (List.seq 0 (Z.to_nat (field_u64s (_data sb p) - 1))))
  | _ => None
  end.

Section CopySuper.
Context `{Format}.

Lemma map_seq_nth (ws : list Z) (g : nat -> Z) :
  (forall k, (k < length ws)%nat -> g k = nth k ws 0) ->
  map g (List.seq 0 (length ws)) = ws.
Proof.
  revert g; induction ws as [|w ws IH]; intros g Hg; [reflexivity|].
  cbn [length List.seq map]. f_equal.
  - apply (Hg O). cbn [length]. lia.
  - rewrite <- seq_shift, map_map. apply IH.
    intros k Hk. apply (Hg (S k)). cbn [length]. lia.
Qed.

Lemma field_payload_dir sb fs t :
  dir sb fs -> field_payload sb t = f_words <$> (snd <$> dir_find fs t 0).
Proof.
  intros Hdir. unfold field_payload. rewrite (bch2_sb_field_get_dir sb t fs Hdir).
  destruct (dir_find fs t 0) as [[q f]|] eqn:Hfind; [|reflexivity].
  cbn [fmap option_fmap option_map fst snd].
  destruct (dir_find_Some _ _ _ _ _ Hfind) as (fs1 & fs2 & -> & -> & _ & _).
  destruct Hdir as [Hd _]. apply dir_at_app in Hd as [_ Hd].
  cbn [dir_at] in Hd. destruct Hd as (Hu & _ & Hw & _).
  rewrite Hu. unfold fld_u64s.
  replace (Z.to_nat (1 + Z.of_nat (length (f_words f)) - 1))
    with (length (f_words f)) by lia.
  f_equal. apply map_seq_nth. exact Hw.
Qed.

(** One turn of the loop of [__copy_super]: the field [g] of the source,
    at word [src_f], replaces the first field of its type in the
    destination, or is appended. *)
Lemma copy_super_step dst src fs g src_f :
  dir dst fs -> dir_at (_data src) src_f [g] ->
  vstruct_last dst + fld_u64s g < 2 ^ 32 ->
  exists dst1 p,
    __bch2_sb_field_resize dst (fst <$> dir_find fs (f_type g) 0)
      (le32_to_cpu (field_u64s (_data src src_f))) = (dst1, p) /\
    dir (set_data dst1 (memcpy (_data dst1) p (_data src) src_f
                          (field_u64s (_data src src_f))))
        (dir_set fs g) /\
    sb_header dst1 = sb_header dst /\
    vstruct_last dst1 <= vstruct_last dst + fld_u64s g.
Proof.
  intros Hdir Hg Hfit. cbn [dir_at] in Hg. destruct Hg as (Hu & Hty & Hw & _).
  pose proof (fld_u64s_pos g) as Hpos.
  assert (Hlast : 0 <= vstruct_last dst < 2 ^ 32) by apply u32_range.
  assert (Hn : le32_to_cpu (field_u64s (_data src src_f)) = fld_u64s g).
  { rewrite Hu. unfold le32_to_cpu. apply u32_small. lia. }
  rewrite Hn, Hu.
  destruct (field_resize_dir dst fs (f_type g) (fld_u64s g) Hdir ltac:(lia) Hfit)
    as (fs1 & mid & fs2 & Hfs & Hall & Hmid & Hr & Ha & Hb & Hc & Hd & He & Hf).
  set (r := __bch2_sb_field_resize dst (fst <$> dir_find fs (f_type g) 0) (fld_u64s g))
    in *.
  set (D := _data (fst r)) in *. clearbody D.
  pose proof (dir_size_nonneg fs1) as Hp1. pose proof (dir_size_nonneg fs2) as Hp2.
  pose proof (dir_size_nonneg mid) as Hpm.
  destruct Hdir as [Hdd Hdl].
  assert (Hsize : vstruct_last dst = dir_size fs1 + dir_size mid + dir_size fs2).
  { rewrite Hdl, Hfs, !dir_size_app. lia. }
  assert (Hset : dir_set fs g = fs1 ++ g :: fs2).
  { rewrite Hfs, dir_set_skip by exact Hall.
    destruct Hmid as [(-> & -> & _)|(f & -> & Hft & _)]; cbn [app dir_set]; [reflexivity|].
    rewrite Hft, Z.eqb_refl. reflexivity. }
  eexists _, _. split; [exact Hr|].
  cbn [_data set_data set_u64s]. clear Hr r.
  assert (Hnew : le32_to_cpu (dir_size fs1 + fld_u64s g + dir_size fs2)
                 = dir_size fs1 + fld_u64s g + dir_size fs2).
  { unfold le32_to_cpu. apply u32_small. lia. }
  split; [|split].
  - rewrite Hset. split.
    + cbn [_data set_data set_u64s]. rewrite Hfs in Hdd.
      apply dir_at_app in Hdd as [Hd1 Hd2]. apply dir_at_app in Hd2 as [_ Hd2].
      rewrite Z.add_0_l in Hd2.
      apply dir_at_app. split; [|cbn [dir_at]; rewrite Z.add_0_l; repeat split].
      * apply (dir_at_transport (_data dst) _ fs1 0 0); [|exact Hd1].
        intros j Hj. rewrite !Z.add_0_l. unfold memcpy.
        destruct (Z.leb_spec (dir_size fs1) j); [lia|]. cbn [andb]. apply Ha. lia.
      * unfold memcpy. rewrite Z.leb_refl.
        destruct (Z.ltb_spec (dir_size fs1) (dir_size fs1 + fld_u64s g)); [|lia].
        cbn [andb]. rewrite Z.sub_diag, Z.add_0_r. exact Hu.
      * unfold memcpy. rewrite Z.leb_refl.
        destruct (Z.ltb_spec (dir_size fs1) (dir_size fs1 + fld_u64s g)); [|lia].
        cbn [andb]. rewrite Z.sub_diag, Z.add_0_r. exact Hty.
      * intros k Hk. unfold memcpy. unfold fld_u64s in *.
        destruct (Z.leb_spec (dir_size fs1) (dir_size fs1 + 1 + Z.of_nat k)); [|lia].
        destruct (Z.ltb_spec (dir_size fs1 + 1 + Z.of_nat k)
                    (dir_size fs1 + (1 + Z.of_nat (length (f_words g))))); [|lia].
        cbn [andb]. rewrite <- (Hw k Hk). f_equal. lia.
      * apply (dir_at_transport (_data dst) _ fs2 (dir_size fs1 + dir_size mid));
          [|exact Hd2].
        intros j Hj. unfold memcpy.
        destruct (Z.ltb_spec (dir_size fs1 + fld_u64s g + j)
                    (dir_size fs1 + fld_u64s g)); [lia|].
        rewrite andb_false_r. apply Hf. lia.
    + unfold vstruct_last. cbn [u64s set_data set_u64s]. rewrite Hnew.
      rewrite dir_size_app. cbn [dir_size]. lia.
  - reflexivity.
  - unfold vstruct_last at 1. cbn [u64s set_data set_u64s]. rewrite Hnew. lia.
Qed.

Definition not_journal (g : fld) : bool := negb (f_type g =? BCH_SB_FIELD_journal).

(** The length the header of the first field of type [t] declares. *)
Lemma old_u64s_dir dst fs t :
  dir dst fs ->
  match fst <$> dir_find fs t 0 with
  | Some p => le32_to_cpu (field_u64s (_data dst p))
  | None => 0
  end
  = match dir_find fs t 0 with
    | Some (_, f) => fld_u64s f
    | None => 0
    end.
Proof.
  intros [Hd Hl].
  destruct (dir_find fs t 0) as [[p f]|] eqn:Hfind; [|reflexivity].
  cbn [fmap option_fmap option_map fst].
  destruct (dir_find_Some _ _ _ _ _ Hfind) as (fs1 & fs2 & -> & -> & _ & _).
  apply dir_at_app in Hd as [_ Hd]. cbn [dir_at] in Hd. destruct Hd as (Hu & _).
  rewrite Hu. unfold le32_to_cpu. apply u32_small.
  pose proof (u32_range (u64s dst)) as Hr. unfold vstruct_last, le32_to_cpu in Hl.
  rewrite Hl, dir_size_app in Hr. cbn [dir_size] in Hr.
  pose proof (dir_size_nonneg fs1). pose proof (dir_size_nonneg fs2).
  pose proof (fld_u64s_pos f). lia.
Qed.

(** Setting a field changes the size by the difference of the lengths. *)
Lemma dir_size_dir_set fs g :
  dir_size (dir_set fs g)
  = dir_size fs + fld_u64s g
    - match dir_find fs (f_type g) 0 with
      | Some (_, f) => fld_u64s f
      | None => 0
      end.
Proof.
  generalize 0 at 1. induction fs as [|f fs IH]; intros p;
    cbn [dir_set dir_find dir_size]; [lia|].
  destruct (f_type f =? f_type g); cbn [dir_size]; [lia|].
  rewrite (IH (p + fld_u64s f)). lia.
Qed.




(** The loop of [__copy_super] runs to its end, and sets in the
    destination every field of the source other than the journal's, in
    the order of the source, as long as the destination fits its buffer
    after every turn. *)
Lemma copy_super_fields_dir cap src : forall gs fuel dst fs src_f,
  dir_at (_data src) src_f gs -> vstruct_last src = src_f + dir_size gs ->
  dir dst fs -> vstruct_last dst + dir_size gs < 2 ^ 32 ->
  (forall k, dir_size (fold_left dir_set (firstn k (List.filter not_journal gs)) fs)
             <= cap) ->
  (length gs < fuel)%nat ->
  exists dst',
    __copy_super_fields fuel cap dst src src_f = Some dst' /\
    dir dst' (fold_left dir_set (List.filter not_journal gs) fs) /\
    sb_header dst' = sb_header dst.
Proof.
  induction gs as [|g gs IH]; intros fuel dst fs src_f Hsrc Hlast Hdst Hfit Hroom Hfuel;
    (destruct fuel as [|fuel]; [cbn [length] in Hfuel; lia|]);
    cbn [__copy_super_fields dir_size fold_left] in *.
  - rewrite Z.add_0_r in Hlast. rewrite Hlast, Z.ltb_irrefl. eauto.
  - pose proof (fld_u64s_pos g) as Hpos. pose proof (dir_size_nonneg gs) as Hgs.
    destruct (Z.ltb_spec src_f (vstruct_last src)); [|lia].
    assert (Hg : dir_at (_data src) src_f [g]).
    { cbn [dir_at] in *. tauto. }
    destruct Hsrc as (Hu & Hty & _ & Hrest).
    unfold vstruct_next. rewrite Hu, Hty.
    assert (Hfuel' : (length gs < fuel)%nat) by (cbn [length] in Hfuel; lia).
    cbn [List.filter]. unfold not_journal at 1.
    assert (Hroom' : forall k,
              dir_size (fold_left dir_set
                          (firstn k (if negb (f_type g =? BCH_SB_FIELD_journal)
                                     then g :: List.filter not_journal gs
                                     else List.filter not_journal gs)) fs) <= cap)
      by exact Hroom.
    clear Hroom.
    destruct (f_type g =? BCH_SB_FIELD_journal); cbn [negb] in *.
    + apply IH; [exact Hrest | lia | exact Hdst | lia | exact Hroom' | exact Hfuel'].
    + rewrite (bch2_sb_field_get_dir dst (f_type g) fs Hdst).
      cbn [mbind option_bind fold_left].
      assert (Hn : le32_to_cpu (fld_u64s g) = fld_u64s g).
      { unfold le32_to_cpu. apply u32_small.
        pose proof (u32_range (u64s dst)). unfold vstruct_last, le32_to_cpu in Hfit. lia. }
      rewrite (old_u64s_dir dst fs (f_type g) Hdst), Hn.
      assert (Hone : dir_size (dir_set fs g) <= cap) by exact (Hroom' 1%nat).
      rewrite dir_size_dir_set in Hone. destruct Hdst as [Hdd Hdl].
      destruct (Z.gtb_spec (vstruct_last dst
                            + (fld_u64s g
                               - match dir_find fs (f_type g) 0 with
                                 | Some (_, f) => fld_u64s f
                                 | None => 0
                                 end)) cap) as [Hover|_]; [lia|].
      destruct (copy_super_step dst src fs g src_f (conj Hdd Hdl) Hg ltac:(lia))
        as (dst1 & p & Hr & Hdir2 & Hhdr & Hle).
      rewrite Hu, Hn in Hr. rewrite Hr. rewrite Hu in Hdir2.
      destruct (IH fuel _ _ (src_f + fld_u64s g) Hrest ltac:(lia) Hdir2)
        as (dst' & Hrun & Hdir' & Hhdr'); [| |exact Hfuel'|].
      * unfold vstruct_last in *. cbn [u64s set_data]. lia.
      * intros k. exact (Hroom' (S k)).
      * exists dst'. split; [exact Hrun|]. split; [exact Hdir'|].
        rewrite Hhdr'. exact Hhdr.
Qed.

End CopySuper.

Section DirLookup.

Lemma dir_find_lookup fs t : forall p, snd <$> dir_find fs t p = dir_lookup fs t.
Proof.
  induction fs as [|f fs IH]; intros p; cbn [dir_find dir_lookup]; [reflexivity|].
  destruct (f_type f =? t); [reflexivity | apply IH].
Qed.

Lemma dir_lookup_set_same fs g : dir_lookup (dir_set fs g) (f_type g) = Some g.
Proof.
  induction fs as [|f fs IH]; cbn [dir_set dir_lookup].
  - now rewrite Z.eqb_refl.
  - destruct (Z.eqb_spec (f_type f) (f_type g)) as [Heq|Hne]; cbn [dir_lookup].
    + now rewrite Z.eqb_refl.
    + destruct (Z.eqb_spec (f_type f) (f_type g)); [contradiction | exact IH].
Qed.

Lemma dir_lookup_set_other fs g t :
  f_type g <> t -> dir_lookup (dir_set fs g) t = dir_lookup fs t.
Proof.
  intros Hne. induction fs as [|f fs IH]; cbn [dir_set dir_lookup].
  - destruct (Z.eqb_spec (f_type g) t); [contradiction | reflexivity].
  - destruct (Z.eqb_spec (f_type f) (f_type g)) as [Heq|Hfg]; cbn [dir_lookup].
    + destruct (Z.eqb_spec (f_type g) t); [contradiction|].
      destruct (Z.eqb_spec (f_type f) t); [congruence | reflexivity].
    + now rewrite IH.
Qed.

Lemma dir_lookup_fold_other gs t : forall fs,
  Forall (fun g => f_type g <> t) gs ->
  dir_lookup (fold_left dir_set gs fs) t = dir_lookup fs t.
Proof.
  induction gs as [|g gs IH]; intros fs Hall; cbn [fold_left]; [reflexivity|].
  inversion Hall as [|? ? Hg Hrest]; subst.
  rewrite IH by exact Hrest. now apply dir_lookup_set_other.
Qed.

Lemma dir_lookup_fold_same gs g : forall fs,
  NoDup (map f_type gs) -> In g gs ->
  dir_lookup (fold_left dir_set gs fs) (f_type g) = Some g.
Proof.
  induction gs as [|g0 gs IH]; intros fs Hnd Hin; [destruct Hin|].
  cbn [fold_left map] in *. apply NoDup_cons in Hnd as [Hnotin Hnd].
  destruct Hin as [->|Hin].
  - rewrite dir_lookup_fold_other; [apply dir_lookup_set_same|].
    apply List.Forall_forall. intros g' Hg' Heq. apply Hnotin.
    rewrite <- Heq. apply list_elem_of_In, in_map, Hg'.
  - now apply IH.
Qed.

Lemma dir_lookup_Some fs t f :
  dir_lookup fs t = Some f -> In f fs /\ f_type f = t.
Proof.
  induction fs as [|g fs IH]; cbn [dir_lookup]; [discriminate|].
  destruct (Z.eqb_spec (f_type g) t) as [Heq|Hne].
  - intros [= ->]. split; [now left | exact Heq].
  - intros Hl. destruct (IH Hl). split; [now right | assumption].
Qed.

Lemma dir_lookup_None fs t :
  dir_lookup fs t = None -> Forall (fun g => f_type g <> t) fs.
Proof.
  induction fs as [|g fs IH]; cbn [dir_lookup]; [constructor|].
  destruct (Z.eqb_spec (f_type g) t) as [Heq|Hne]; [discriminate|].
  intros Hl. constructor; [exact Hne | exact (IH Hl)].
Qed.

Lemma NoDup_map_filter (P : fld -> bool) gs :
  NoDup (map f_type gs) -> NoDup (map f_type (List.filter P gs)).
Proof.
  induction gs as [|g gs IH]; intros Hnd; [constructor|].
  cbn [map List.filter] in *. apply NoDup_cons in Hnd as [Hnotin Hnd].
  destruct (P g); [|now apply IH]. cbn [map]. apply NoDup_cons. split; [|now apply IH].
  intros Hin. apply Hnotin. apply list_elem_of_In in Hin. apply list_elem_of_In.
  apply in_map_iff in Hin as (g' & Heq & Hg'). apply List.filter_In in Hg' as [Hg' _].
  rewrite <- Heq. now apply in_map.
Qed.

End DirLookup.

(** [__copy_super], on well-formed images whose source has one field per
    type, the destination lying in a buffer of [cap] words that it fits
    after every turn of the loop, that is with any number of the source's
    fields, other than the journal's, set in it: it runs to its end; the
    result fits the buffer; its fixed header is that of the destination
    with the fields the function assigns taken from the source; every
    field of the source other than the journal's is then found in the
    result with the same payload; and the field of every other type, the
    journal's among them, is as it was in the destination. *)
Theorem copy_super_copies_fields `{Format} (cap : Z) (dst src : bch_sb)
    (fs gs : list fld) :
  dir dst fs -> dir src gs -> NoDup (map f_type gs) ->
  vstruct_last dst + vstruct_last src < 2 ^ 32 ->
  (forall k, dir_size (fold_left dir_set (firstn k (List.filter not_journal gs)) fs)
             <= cap) ->
  exists dst',
    __copy_super cap dst src = Some dst' /\
    vstruct_last dst' <= cap /\
    sb_header dst' = sb_header (copy_super_header dst src) /\
    (forall t, t <> BCH_SB_FIELD_journal -> is_Some (field_payload src t) ->
       field_payload dst' t = field_payload src t) /\
    (forall t, t = BCH_SB_FIELD_journal \/ field_payload src t = None ->
       field_payload dst' t = field_payload dst t) /\
    exists fs', dir dst' fs'.
Proof.
  intros Hdst Hsrc Hnd Hfit Hroom. unfold __copy_super.
  assert (Hdst0 : dir (copy_super_header dst src) fs) by exact Hdst.
  destruct Hsrc as [Hsd Hsl].
  destruct (copy_super_fields_dir cap src gs (S (Z.to_nat (vstruct_last src)))
              (copy_super_header dst src) fs 0 Hsd ltac:(lia) Hdst0)
    as (dst' & Hrun & Hdir' & Hhdr).
  { change (vstruct_last (copy_super_header dst src)) with (vstruct_last dst). lia. }
  { exact Hroom. }
  { pose proof (dir_size_length gs). lia. }
  exists dst'. split; [exact Hrun|]. split.
  { destruct Hdir' as [_ ->].
    rewrite <- (firstn_all (List.filter not_journal gs)). apply Hroom. }
  split; [exact Hhdr|].
  assert (Hfilt : forall g, In g (List.filter not_journal gs) ->
            f_type g <> BCH_SB_FIELD_journal).
  { intros g Hg. apply List.filter_In in Hg as [_ Hg]. unfold not_journal in Hg.
    destruct (Z.eqb_spec (f_type g) BCH_SB_FIELD_journal); [discriminate | assumption]. }
  split; [|split; [|eauto]].
  - intros t Ht Hsome.
    rewrite (field_payload_dir dst' _ t Hdir'), (field_payload_dir src gs t (conj Hsd Hsl))
      in *.
    rewrite !dir_find_lookup in *.
    destruct (dir_lookup gs t) as [g|] eqn:Hl; [|destruct Hsome; discriminate].
    destruct (dir_lookup_Some _ _ _ Hl) as [Hin <-].
    rewrite dir_lookup_fold_same; [reflexivity | now apply NoDup_map_filter |].
    apply List.filter_In. split; [exact Hin|]. unfold not_journal.
    destruct (Z.eqb_spec (f_type g) BCH_SB_FIELD_journal); [contradiction | reflexivity].
  - intros t Ht.
    rewrite (field_payload_dir dst' _ t Hdir'), (field_payload_dir dst fs t Hdst).
    rewrite !dir_find_lookup. f_equal. apply dir_lookup_fold_other.
    apply List.Forall_forall. intros g Hg.
    destruct Ht as [->|Hnone]; [now apply Hfilt|].
    rewrite (field_payload_dir src gs t (conj Hsd Hsl)), dir_find_lookup in Hnone.
    destruct (dir_lookup gs t) eqn:Hl; [discriminate|].
    apply dir_lookup_None in Hl. apply List.filter_In in Hg as [Hg _].
    exact (proj1 (List.Forall_forall _ _) Hl g Hg).
Qed.

(** A device image with a journal field of two buckets and a field of
    type 1; a filesystem image with a journal field of its own and another
    field of type 1. *)
Definition sb_device : bch_sb :=
  sb_with [field_word 3 0; 10; 11; field_word 2 1; 5].

Definition sb_shared : bch_sb :=
  sb_with [field_word 2 0; 99; field_word 2 1; 7].

Definition device_fields : list fld :=
  [ {| f_type := 0; f_words := [10; 11] |}; {| f_type := 1; f_words := [5] |} ].

Definition shared_fields : list fld :=
  [ {| f_type := 0; f_words := [99] |}; {| f_type := 1; f_words := [7] |} ].

Lemma sb_device_dir : dir sb_device device_fields.
Proof.
  split; [|reflexivity]. cbn [dir_at device_fields f_type f_words].
  repeat split; try reflexivity;
    intros [|[|k]] Hk; cbn [length] in Hk; try lia; reflexivity.
Qed.

Lemma sb_shared_dir : dir sb_shared shared_fields.
Proof.
  split; [|reflexivity]. cbn [dir_at shared_fields f_type f_words].
  repeat split; try reflexivity;
    intros [|k] Hk; cbn [length] in Hk; try lia; reflexivity.
Qed.

Lemma copy_super_copies_fields_witness :
  exists dst',
    __copy_super 5 sb_device sb_shared = Some dst' /\
    vstruct_last dst' <= 5 /\
    sb_header dst' = sb_header (copy_super_header sb_device sb_shared) /\
    (forall t, t <> BCH_SB_FIELD_journal -> is_Some (field_payload sb_shared t) ->
       field_payload dst' t = field_payload sb_shared t) /\
    (forall t, t = BCH_SB_FIELD_journal \/ field_payload sb_shared t = None ->
       field_payload dst' t = field_payload sb_device t) /\
    exists fs', dir dst' fs'.
Proof.
  apply (copy_super_copies_fields 5 sb_device sb_shared device_fields shared_fields).
  - exact sb_device_dir.
  - exact sb_shared_dir.
  - apply (bool_decide_unpack _). vm_compute. reflexivity.
  - vm_compute. reflexivity.
  - intros [|[|k]]; vm_compute; discriminate.
Defined.

(** The same propagation, run in a buffer of five words: the device keeps
    its two journal buckets and takes the field of type 1 of the
    filesystem. *)
Example copy_super_runs :
  (dst' ← __copy_super 5 sb_device sb_shared;
   Some (field_payload dst' 0, field_payload dst' 1, u64s dst', seq dst'))
    = Some (Some [10; 11], Some [7], 5, seq sb_shared).
Proof. vm_compute. reflexivity. Qed.

(** A device image with a journal field of two buckets and a field of
    type 2 that the filesystem image lacks; the filesystem image has a
    field of type 1, of two words. *)
Definition sb_device_extra : bch_sb :=
  sb_with [field_word 3 0; 10; 11; field_word 2 2; 5].

Definition sb_shared_one : bch_sb := sb_with [field_word 2 1; 7].

(** In a buffer of five words -- the two words of the source and the three
    of the journal, what [bch2_sb_from_fs] asks [bch2_sb_realloc] for --
    the copy would put seven words: the field of type 1 is appended past
    the buffer, and there is no defined result.  Seven words are enough. *)
Example copy_super_past_buffer :
  vstruct_last sb_shared_one + 3 = 5 /\
  __copy_super 5 sb_device_extra sb_shared_one = None /\
  (dst' ← __copy_super 7 sb_device_extra sb_shared_one;
   Some (field_payload dst' 0, field_payload dst' 2, field_payload dst' 1, u64s dst'))
    = Some (Some [10; 11], Some [5], Some [7], 7).
Proof. repeat split; vm_compute; reflexivity. Qed.

(** A filesystem image of 420 words, one field of type 1, and an online
    device holding [sb_device] in a buffer of [PAGE_SIZE << order] bytes. *)
Definition sb_large : bch_sb :=
  sb_with (field_word 420 1 :: repeat 7 419).

Definition dev_buffer (order : Z) : bch_dev :=
  set_ca_disk_sb (dev_open 0 sb_device) (handle_of sb_device order).

(** C9: the device's buffer of one page holds 418 words of fields and
    the propagation of [sb_large] wants 420 + 3; [bch2_sb_realloc] returns 0
    having replaced the page by two, and [__copy_super] is handed [dst], read
    from the handle before the call: the propagation has no defined result.
    From a buffer of two pages the same call returns 0, the device has the
    field of type 1 of the filesystem and its own journal buckets. *)
Theorem bch2_sb_from_fs_stale_buffer :
  buffer_u64s 0 = 418 /\
  (r ← bch2_sb_realloc mm_ok (ca_disk_sb (dev_buffer 0)) (420 + 3);
   Some (fst r, page_order (snd r))) = Some (0, 1) /\
  bch2_sb_from_fs mm_ok (fs_of sb_large) (dev_buffer 0) = None /\
  (r ← bch2_sb_from_fs mm_ok (fs_of sb_large) (dev_buffer 1);
   dst' ← sb (ca_disk_sb (snd r));
   Some (fst r, field_payload dst' 0, field_payload dst' 1, u64s dst'))
    = Some (0, Some [10; 11], Some (repeat 7 419), 423).
Proof. repeat split; vm_compute; reflexivity. Qed.

(** A device image with a journal field of two buckets and a field of
    type 2, of five words, that the filesystem image lacks; a filesystem
    image of 415 words, one field of type 1. *)
Definition sb_device_wide : bch_sb :=
  sb_with [field_word 3 0; 10; 11; field_word 5 2; 1; 2; 3; 4].

Definition sb_wide : bch_sb :=
  sb_with (field_word 415 1 :: repeat 7 414).

Definition dev_wide (order : Z) : bch_dev :=
  set_ca_disk_sb (dev_open 0 sb_device_wide) (handle_of sb_device_wide order).

(** [bch2_sb_from_fs] asks for the 415 words of the filesystem image and
    the 3 of the journal: the 418 words the device's page holds, which
    [bch2_sb_realloc] leaves in place.  The copy keeps the field of type 2
    and appends the field of type 1 after it, 423 words in all, past the
    page: no defined result.  From a buffer of two pages the call returns
    0 and the device has the three fields. *)
Example bch2_sb_from_fs_past_buffer :
  buffer_u64s 0 = 418 /\
  (r ← bch2_sb_realloc mm_ok (ca_disk_sb (dev_wide 0)) (415 + 3);
   Some (fst r, page_order (snd r))) = Some (0, 0) /\
  bch2_sb_from_fs mm_ok (fs_of sb_wide) (dev_wide 0) = None /\
  (r ← bch2_sb_from_fs mm_ok (fs_of sb_wide) (dev_wide 1);
   dst' ← sb (ca_disk_sb (snd r));
   Some (fst r, field_payload dst' 0, field_payload dst' 2, u64s dst'))
    = Some (0, Some [10; 11], Some [1; 2; 3; 4], 423).
Proof. repeat split; vm_compute; reflexivity. Qed.

(** * More of the superblock code *)

(** ** What an accepted image looks like *)

(** The field that starts at word [f], read off the image. *)
Definition field_at (sb : bch_sb) (f : Z) : fld :=
  {| f_type := field_type (_data sb f);
     f_words := map (fun k => _data sb (f + 1 + Z.of_nat k))
                    (List.seq 0 (Z.to_nat (field_u64s (_data sb f) - 1))) |}.

Section DirValidated.
Context `{Format}.

Lemma nth_map_seq (g : nat -> Z) n k :
  (k < n)%nat -> nth k (map g (List.seq 0 n)) 0 = g k.
Proof.
  intros Hk. rewrite (nth_indep _ 0 (g O)) by (rewrite length_map, length_seq; lia).
  rewrite map_nth, seq_nth by lia. reflexivity.
Qed.

(** The field loop of [bch2_sb_validate] passes only over a sequence of
    fields of known type that ends where the image ends. *)
Lemma validate_fields_from_dir sb : forall fuel f,
  validate_fields_from fuel sb f = Some None -> f <= vstruct_last sb ->
  exists fs, dir_at (_data sb) f fs /\ f + dir_size fs = vstruct_last sb /\
             Forall (fun g => f_type g < BCH_SB_FIELD_NR) fs.
Proof.
  induction fuel as [|fuel IH]; intros f Hv Hf; [discriminate|].
  cbn [validate_fields_from] in Hv.
  destruct (Z.ltb_spec f (vstruct_last sb)) as [Hlt|Hge].
  - destruct (Z.eqb_spec (field_u64s (_data sb f)) 0) as [Hz|Hnz]; [discriminate|].
    destruct (Z.gtb_spec (vstruct_next sb f) (vstruct_last sb)) as [Hgt|Hle];
      [discriminate|].
    destruct (Z.geb_spec (field_type (_data sb f)) BCH_SB_FIELD_NR) as [Hty|Hty];
      [discriminate|].
    destruct (IH _ Hv Hle) as (fs & Hd & Hsz & Hall).
    pose proof (field_u64s_range (_data sb f)) as Hr.
    assert (Hlen : fld_u64s (field_at sb f) = field_u64s (_data sb f)).
    { unfold fld_u64s, field_at. cbn [f_words]. rewrite length_map, length_seq. lia. }
    exists (field_at sb f :: fs). cbn [dir_at dir_size]. rewrite Hlen.
    unfold vstruct_next in *. repeat split; try assumption.
    + intros k Hk. unfold field_at in *. cbn [f_words] in *.
      rewrite length_map, length_seq in Hk. now rewrite nth_map_seq.
    + lia.
    + constructor; [exact Hty | exact Hall].
  - exists []. cbn [dir_at dir_size]. repeat split; [lia | constructor].
Qed.

Lemma dir_validate_fields sb fs : forall fuel f,
  dir_at (_data sb) f fs -> f + dir_size fs = vstruct_last sb ->
  Forall (fun g => f_type g < BCH_SB_FIELD_NR) fs -> (length fs < fuel)%nat ->
  validate_fields_from fuel sb f = Some None.
Proof.
  induction fs as [|g fs IH]; intros fuel f Hd Hsz Hall Hfuel;
    (destruct fuel as [|fuel]; [cbn [length] in Hfuel; lia|]);
    cbn [validate_fields_from dir_at dir_size] in *.
  - rewrite Z.add_0_r in Hsz. rewrite Hsz, Z.ltb_irrefl. reflexivity.
  - destruct Hd as (Hu & Hty & _ & Hrest). inversion Hall as [|? ? Hg Hall']; subst.
    pose proof (fld_u64s_pos g). pose proof (dir_size_nonneg fs).
    destruct (Z.ltb_spec f (vstruct_last sb)); [|lia].
    unfold vstruct_next. rewrite Hu, Hty.
    destruct (Z.eqb_spec (fld_u64s g) 0); [lia|].
    destruct (Z.gtb_spec (f + fld_u64s g) (vstruct_last sb)); [lia|].
    destruct (Z.geb_spec (f_type g) BCH_SB_FIELD_NR); [lia|].
    apply IH; [exact Hrest | lia | exact Hall' | cbn [length] in Hfuel; lia].
Qed.

(** Everything [bch2_sb_validate] has tested when it returns [NULL]. *)
Lemma bch2_sb_validate_inv mm h :
  bch2_sb_validate mm h = Some None ->
  exists s bd p,
    sb h = Some s /\ bdev h = Some bd /\
    le64_to_cpu (version s) = BCACHE_SB_VERSION_CDEV_V4 /\
    (negb (is_power_of_2 (le16_to_cpu (block_size s)))
     || (le16_to_cpu (block_size s) >? PAGE_SECTORS)) = false /\
    bch2_is_zero (user_uuid s) = false /\ bch2_is_zero (uuid s) = false /\
    ((nr_devices s =? 0) || (nr_devices s <=? dev_idx s)
     || (nr_devices s >? BCH_SB_MEMBERS_MAX)) = false /\
    ((BCH_SB_META_REPLICAS_WANT s =? 0)
     || (BCH_SB_META_REPLICAS_WANT s >=? BCH_REPLICAS_MAX)) = false /\
    ((BCH_SB_META_REPLICAS_REQ s =? 0)
     || (BCH_SB_META_REPLICAS_REQ s >=? BCH_REPLICAS_MAX)) = false /\
    ((BCH_SB_DATA_REPLICAS_WANT s =? 0)
     || (BCH_SB_DATA_REPLICAS_WANT s >=? BCH_REPLICAS_MAX)) = false /\
    ((BCH_SB_DATA_REPLICAS_REQ s =? 0)
     || (BCH_SB_DATA_REPLICAS_REQ s >=? BCH_REPLICAS_MAX)) = false /\
    (BCH_SB_BTREE_NODE_SIZE s =? 0) = false /\
    is_power_of_2 (BCH_SB_BTREE_NODE_SIZE s) = true /\
    (BCH_SB_BTREE_NODE_SIZE s >? BTREE_NODE_SIZE_MAX) = false /\
    (BCH_SB_GC_RESERVE s <? 5) = false /\
    ((time_precision s =? 0)
     || (le32_to_cpu (time_precision s) >? NSEC_PER_SEC)) = false /\
    validate_sb_layout (layout s) = None /\
    validate_fields_from (S (Z.to_nat (vstruct_last s))) s 0 = Some None /\
    bch2_sb_validate_members s = Some None /\
    bch2_sb_get_members s = Some (Some p) /\
    validate_local_member mm s (bd_capacity bd)
      (bch2_mi_to_cpu (member_at s p (dev_idx s))) = Some None.
Proof.
  unfold bch2_sb_validate. intros Hv.
  destruct (sb h) as [s|]; [|discriminate].
  destruct (bdev h) as [bd|]; [|discriminate].
  cbn [mbind option_bind] in Hv.
  destruct (Z.eqb_spec (le64_to_cpu (version s)) BCACHE_SB_VERSION_CDEV_V4) as [Hver|];
    cbn [negb] in Hv; [|discriminate].
  rewrite andb_false_r in Hv. cbv zeta in Hv.
  repeat match type of Hv with
         | (if ?b then Some (Some _) else _) = Some None =>
             let E := fresh "E" in destruct b eqn:E; [discriminate|]
         end.
  destruct (validate_sb_layout (layout s)) eqn:El; [discriminate|].
  destruct (validate_fields_from _ s 0) as [[?|]|] eqn:Ef; try discriminate.
  cbn [mbind option_bind] in Hv.
  destruct (bch2_sb_validate_members s) as [[?|]|] eqn:Em; try discriminate.
  cbn [mbind option_bind] in Hv.
  destruct (bch2_sb_get_members s) as [[p|]|] eqn:Eg; try discriminate.
  cbn [mbind option_bind] in Hv.
  exists s, bd, p.
  apply negb_false_iff in E8.
  repeat split; assumption.
Qed.

End DirValidated.

(** On a well-formed field area [bch2_sb_field_get] returns [NULL] when no
    field has the type asked for, and otherwise the first field of that
    type: the word it starts at is the total length of the fields before
    it, none of which has the type. *)
Theorem bch2_sb_field_get_first (sb : bch_sb) (fs : list fld) (t : Z) :
  dir sb fs ->
  (Forall (fun g => f_type g <> t) fs /\ bch2_sb_field_get sb t = Some None) \/
  (exists fs1 f fs2,
     fs = fs1 ++ f :: fs2 /\ Forall (fun g => f_type g <> t) fs1 /\ f_type f = t /\
     bch2_sb_field_get sb t = Some (Some (dir_size fs1)) /\
     field_payload sb t = Some (f_words f)).
Proof.
  intros Hdir. pose proof (field_payload_dir sb fs t Hdir) as Hpay.
  rewrite (bch2_sb_field_get_dir sb t fs Hdir).
  destruct (dir_find fs t 0) as [[q f]|] eqn:Hfind.
  - right. destruct (dir_find_Some _ _ _ _ _ Hfind) as (fs1 & fs2 & -> & -> & Ht & Hall).
    exists fs1, f, fs2. repeat split; try assumption.
  - left. split; [exact (dir_find_None _ _ _ Hfind) | reflexivity].
Qed.

Lemma bch2_sb_field_get_first_witness :
  (Forall (fun g => f_type g <> 3) two_fields /\
   bch2_sb_field_get sb_two_fields 3 = Some None) \/
  (exists fs1 f fs2,
     two_fields = fs1 ++ f :: fs2 /\ Forall (fun g => f_type g <> 3) fs1 /\
     f_type f = 3 /\
     bch2_sb_field_get sb_two_fields 3 = Some (Some (dir_size fs1)) /\
     field_payload sb_two_fields 3 = Some (f_words f)).
Proof.
  apply (bch2_sb_field_get_first sb_two_fields two_fields 3).
  exact sb_two_fields_dir.
Defined.

(** An image that [bch2_sb_validate] accepts has a well-formed field
    area: a sequence of fields of known types, each at least its header
    long, that ends exactly at the end of the image, with a member table
    among them. *)
Theorem bch2_sb_validate_directory `{Format} (mm : allocator)
    (h : bcache_superblock) :
  bch2_sb_validate mm h = Some None ->
  exists s fs m,
    sb h = Some s /\ dir s fs /\
    Forall (fun g => f_type g < BCH_SB_FIELD_NR) fs /\
    dir_lookup fs BCH_SB_FIELD_members = Some m.
Proof.
  intros Hv. destruct (bch2_sb_validate_inv mm h Hv)
    as (s & bd & p & Hs & _ & _ & _ & _ & _ & _ & _ & _ & _ & _ & _ & _ & _ & _ & _
        & _ & Hf & _ & Hg & _).
  destruct (validate_fields_from_dir s _ 0 Hf) as (fs & Hd & Hsz & Hall).
  { pose proof (u32_range (u64s s)). unfold vstruct_last, le32_to_cpu. lia. }
  assert (Hdir : dir s fs) by (split; [exact Hd | lia]).
  unfold bch2_sb_get_members in Hg.
  rewrite (bch2_sb_field_get_dir s _ fs Hdir) in Hg.
  destruct (dir_find fs BCH_SB_FIELD_members 0) as [[q m]|] eqn:Hfind; [|discriminate].
  exists s, fs, m. split; [exact Hs|]. split; [exact Hdir|]. split; [exact Hall|].
  rewrite <- dir_find_lookup with (p := 0). now rewrite Hfind.
Qed.

Lemma bch2_sb_validate_directory_witness :
  exists s fs m,
    sb (ca_disk_sb (dev_open 0 (sb_valid members_one))) = Some s /\ dir s fs /\
    Forall (fun g => f_type g < BCH_SB_FIELD_NR) fs /\
    dir_lookup fs BCH_SB_FIELD_members = Some m.
Proof.
  apply (bch2_sb_validate_directory mm_ok).
  vm_compute. reflexivity.
Defined.

(** ** The member table validator *)

Section MembersFacts.
Context `{Format}.

Lemma validate_members_loop_spec sb p : forall n i,
  validate_members_loop sb p n i = Some None <->
  (forall k, (k < n)%nat ->
     i + Z.of_nat k < nr_devices sb ->
     bch2_is_zero (member_uuid (member_at sb p (i + Z.of_nat k))) = false ->
     BCH_SB_BTREE_NODE_SIZE sb
       <= le16_to_cpu (member_bucket_size (member_at sb p (i + Z.of_nat k)))).
Proof.
  induction n as [|n IH]; intros i; cbn [validate_members_loop].
  - split; [intros _ k Hk; lia | reflexivity].
  - unfold bch2_dev_exists. cbn [mbind option_bind].
    assert (Hshift : forall k, i + 1 + Z.of_nat k = i + Z.of_nat (S k)) by (intros; lia).
    destruct (Z.ltb_spec i (nr_devices sb)) as [Hlt|Hge]; cbn [mbind option_bind negb].
    + destruct (bch2_is_zero (member_uuid (member_at sb p i))) eqn:Hz; cbn [negb].
      * rewrite IH. split.
        -- intros Hall [|k] Hk Hdev Hnz.
           ++ rewrite Z.add_0_r in Hnz. congruence.
           ++ rewrite <- Hshift in *. apply Hall; [lia | assumption | assumption].
        -- intros Hall k Hk Hdev Hnz. rewrite Hshift in *. apply Hall; [lia | assumption..].
      * destruct (Z.ltb_spec (le16_to_cpu (member_bucket_size (member_at sb p i)))
                    (BCH_SB_BTREE_NODE_SIZE sb)) as [Hsmall|Hbig].
        -- split; [discriminate|]. intros Hall.
           specialize (Hall O ltac:(lia)). rewrite Z.add_0_r in Hall.
           specialize (Hall Hlt Hz). lia.
        -- rewrite IH. split.
           ++ intros Hall [|k] Hk Hdev Hnz.
              ** rewrite Z.add_0_r. exact Hbig.
              ** rewrite <- Hshift in *. apply Hall; [lia | assumption..].
           ++ intros Hall k Hk Hdev Hnz. rewrite Hshift in *.
              apply Hall; [lia | assumption..].
    + rewrite IH. split.
      * intros _ k Hk Hdev. lia.
      * intros _ k Hk Hdev. lia.
Qed.

End MembersFacts.

(** [bch2_sb_validate_members] returns [NULL] exactly when the image has a
    member table, the table's [nr_devices] entries end within the field,
    and every member that exists (its UUID is not zero) has buckets at
    least as large as a btree node. *)
Theorem bch2_sb_validate_members_iff `{Format} (s : bch_sb) :
  bch2_sb_validate_members s = Some None <->
  exists p,
    bch2_sb_get_members s = Some (Some p) /\
    p + 1 + MEMBER_U64S * nr_devices s <= vstruct_end s p /\
    (forall i, 0 <= i < nr_devices s ->
       bch2_is_zero (member_uuid (member_at s p i)) = false ->
       BCH_SB_BTREE_NODE_SIZE s
         <= le16_to_cpu (member_bucket_size (member_at s p i))).
Proof.
  unfold bch2_sb_validate_members.
  destruct (bch2_sb_get_members s) as [[p|]|]; cbn [mbind option_bind].
  - destruct (Z.gtb_spec (p + 1 + MEMBER_U64S * nr_devices s) (vstruct_end s p))
      as [Hgt|Hle].
    + split; [discriminate|]. intros (p' & [= <-] & Hle & _). lia.
    + rewrite validate_members_loop_spec. split.
      * intros Hall. exists p. repeat split; [exact Hle|].
        intros i Hi Hnz. specialize (Hall (Z.to_nat i) ltac:(lia)).
        rewrite Z.add_0_l, Z2Nat.id in Hall by lia. apply Hall; [lia | exact Hnz].
      * intros (p' & [= <-] & _ & Hall) k Hk Hdev Hnz.
        rewrite Z.add_0_l in *. apply Hall; [lia | exact Hnz].
  - split; [discriminate|]. intros (p' & [=] & _).
  - split; [discriminate|]. intros (p' & [=] & _).
Qed.

(** ** The buffer after a reallocation *)

Section ReallocFacts.
Context `{Format}.

(** A buffer of [get_order bytes] or more holds [bytes]. *)
Lemma get_order_room bytes order :
  0 < PAGE_SIZE -> get_order bytes <= order -> bytes <= Z.shiftl PAGE_SIZE order.
Proof.
  intros HP Hord. unfold get_order, DIV_ROUND_UP in Hord.
  set (a := (bytes + PAGE_SIZE - 1) / PAGE_SIZE) in *.
  assert (Ha : bytes <= PAGE_SIZE * a).
  { unfold a. pose proof (Z.mul_div_le (bytes + PAGE_SIZE - 1) PAGE_SIZE HP).
    pose proof (Z.mod_pos_bound (bytes + PAGE_SIZE - 1) PAGE_SIZE HP).
    assert (Hnz : PAGE_SIZE <> 0) by lia.
    pose proof (Z.div_mod (bytes + PAGE_SIZE - 1) PAGE_SIZE Hnz). lia. }
  pose proof (Z.log2_up_nonneg a) as Hnn.
  assert (Hpow : a <= 2 ^ Z.log2_up a).
  { destruct (Z_lt_le_dec 1 a) as [Hgt|Hle].
    - apply Z.log2_up_spec. exact Hgt.
    - pose proof (Z.pow_pos_nonneg 2 (Z.log2_up a) ltac:(lia) Hnn). lia. }
  assert (Hmono : 2 ^ Z.log2_up a <= 2 ^ order) by (apply Z.pow_le_mono_r; lia).
  rewrite Z.shiftl_mul_pow2 by lia. nia.
Qed.

Lemma buffer_u64s_room n order :
  0 < PAGE_SIZE -> 0 <= n -> get_order (__vstruct_bytes n) <= order ->
  n <= buffer_u64s order.
Proof.
  intros HP Hn Hord. pose proof (get_order_room _ _ HP Hord) as Hroom.
  unfold buffer_u64s, __vstruct_bytes in *.
  apply Z.div_le_lower_bound; lia.
Qed.

End ReallocFacts.

(** An allocator that has a bio to give but no pages. *)
Definition mm_no_pages : allocator :=
  {| fault_super_realloc := false; bio_kmalloc := fun _ => true;
     get_free_pages := fun _ => None; kmalloc := true |}.

(** [bch2_sb_realloc] either returns 0, and then the buffer has room for
    the words asked for, is no smaller than it was, and holds the image it
    held (the fixed header and every word the old buffer had room for), the
    device and the mode being those of before and the handle being the very
    same unless pages of the wanted order were installed, together with a
    bio of [1 << order] vectors; or it returns [-ENOSPC] and leaves the
    handle as it was; or it returns [-ENOMEM]: the handle is as it was when
    the fault point fired or no bio could be had, but when it is the pages
    that could not be had the handle has lost its old bio for the new
    one, all else as it was. *)
Theorem bch2_sb_realloc_room `{Format} (mm : allocator)
    (h h' : bcache_superblock) (s : bch_sb) (n ret : Z) :
  0 < PAGE_SIZE -> sb h = Some s ->
  bch2_sb_realloc mm h n = Some (ret, h') ->
  (ret = 0 /\ u32 n <= buffer_u64s (page_order h') /\
   page_order h <= page_order h' /\
   bdev h' = bdev h /\ mode h' = mode h /\
   (h' = h \/
    page_order h' = get_order (__vstruct_bytes (u32 n)) /\
    sb_bio h' = Some (shl_int 1 (get_order (__vstruct_bytes (u32 n))))) /\
   exists s', sb h' = Some s' /\ sb_header s' = sb_header s /\ u64s s' = u64s s /\
              forall i, i < buffer_u64s (page_order h) -> _data s' i = _data s i) \/
  (ret = - ENOSPC /\ h' = h) \/
  (ret = - ENOMEM /\
   ((fault_super_realloc mm = true \/
     bio_kmalloc mm (shl_int 1 (get_order (__vstruct_bytes (u32 n)))) = false) /\
    h' = h \/
    get_free_pages mm (get_order (__vstruct_bytes (u32 n))) = None /\
    h' = set_sb_bio h (Some (shl_int 1 (get_order (__vstruct_bytes (u32 n))))))).
Proof.
  intros HP Hs Hre. unfold bch2_sb_realloc in Hre. rewrite Hs in Hre.
  cbn [mbind option_bind] in Hre. rewrite vstruct_bytes_u64 in Hre.
  destruct (_ >? _) in Hre; [injection Hre as <- <-; right; left; auto|].
  unfold __bch2_super_realloc in Hre. rewrite Hs in Hre.
  rewrite (bool_decide_true (is_Some (Some s))), andb_true_r in Hre by eauto.
  pose proof (u32_range n) as Hn.
  destruct (Z.geb_spec (page_order h) (get_order (__vstruct_bytes (u32 n))))
    as [Hge|Hlt].
  - injection Hre as <- <-. left. split; [reflexivity|].
    split; [apply buffer_u64s_room; lia|]. split; [lia|].
    split; [reflexivity|]. split; [reflexivity|]. split; [now left|].
    exists s. split; [exact Hs|]. repeat split.
  - destruct (fault_super_realloc mm) eqn:Hfault;
      [injection Hre as <- <-; right; right; auto|].
    destruct (bio_kmalloc mm _) eqn:Hbio; cbn [negb] in Hre;
      [|injection Hre as <- <-; right; right; auto].
    destruct (get_free_pages mm _) as [fresh|] eqn:Hpages; injection Hre as <- <-;
      [left | right; right; auto].
    cbn [set_sb set_sb_bio page_order sb sb_bio bdev mode]. rewrite Hs.
    split; [reflexivity|].
    split; [apply buffer_u64s_room; lia|]. split; [lia|].
    split; [reflexivity|]. split; [reflexivity|]. split; [right; auto|].
    eexists. split; [reflexivity|]. repeat split.
    intros i Hi. now apply copy_pages_words.
Qed.

Lemma bch2_sb_realloc_room_witness :
  (- ENOMEM = 0 /\
   u32 (4 + 498) <= buffer_u64s (page_order (set_sb_bio (handle_of sb_two_fields 0) (Some 2))) /\
   page_order (handle_of sb_two_fields 0) <= page_order (set_sb_bio (handle_of sb_two_fields 0) (Some 2)) /\
   bdev (set_sb_bio (handle_of sb_two_fields 0) (Some 2)) = bdev (handle_of sb_two_fields 0) /\
   mode (set_sb_bio (handle_of sb_two_fields 0) (Some 2)) = mode (handle_of sb_two_fields 0) /\
   (set_sb_bio (handle_of sb_two_fields 0) (Some 2) = handle_of sb_two_fields 0 \/
    page_order (set_sb_bio (handle_of sb_two_fields 0) (Some 2)) = get_order (__vstruct_bytes (u32 (4 + 498))) /\
    sb_bio (set_sb_bio (handle_of sb_two_fields 0) (Some 2)) = Some (shl_int 1 (get_order (__vstruct_bytes (u32 (4 + 498)))))) /\
   exists s', sb (set_sb_bio (handle_of sb_two_fields 0) (Some 2)) = Some s' /\
              sb_header s' = sb_header sb_two_fields /\
              u64s s' = u64s sb_two_fields /\
              forall i, i < buffer_u64s (page_order (handle_of sb_two_fields 0)) ->
                        _data s' i = _data sb_two_fields i) \/
  (- ENOMEM = - ENOSPC /\ set_sb_bio (handle_of sb_two_fields 0) (Some 2) = handle_of sb_two_fields 0) \/
  (- ENOMEM = - ENOMEM /\
   ((fault_super_realloc mm_no_pages = true \/
     bio_kmalloc mm_no_pages (shl_int 1 (get_order (__vstruct_bytes (u32 (4 + 498))))) = false) /\
    set_sb_bio (handle_of sb_two_fields 0) (Some 2) = handle_of sb_two_fields 0 \/
    get_free_pages mm_no_pages (get_order (__vstruct_bytes (u32 (4 + 498)))) = None /\
    set_sb_bio (handle_of sb_two_fields 0) (Some 2)
    = set_sb_bio (handle_of sb_two_fields 0) (Some (shl_int 1 (get_order (__vstruct_bytes (u32 (4 + 498)))))))).
Proof.
  apply (bch2_sb_realloc_room mm_no_pages (handle_of sb_two_fields 0)
           (set_sb_bio (handle_of sb_two_fields 0) (Some 2)) sb_two_fields (4 + 498) (- ENOMEM)).
  - vm_compute. reflexivity.
  - reflexivity.
  - vm_compute. reflexivity.
Defined.

(** The run behind the witness: the pages cannot be had, and the handle
    comes back with the bio of two vectors in place of its own. *)
Example bch2_sb_realloc_no_pages :
  sb_bio (handle_of sb_two_fields 0) = Some 1 /\
  (fun r => (fst r, sb_bio (snd r), page_order (snd r)))
    <$> bch2_sb_realloc mm_no_pages (handle_of sb_two_fields 0) (4 + 498)
  = Some (- ENOMEM, Some 2, 0).
Proof. split; vm_compute; reflexivity. Qed.

(** [bch2_fs_sb_realloc] either returns 0, and then the filesystem's
    buffer has room for the words asked for and holds the image it held,
    with zeroes in the part the old buffer had no room for, the rest of the
    filesystem being untouched; or it returns [-ENOMEM] and changes
    nothing.  With no buffer yet, the new one is all zeroes. *)
Theorem bch2_fs_sb_realloc_room `{Format} (mm : allocator)
    (c c' : bch_fs) (n ret : Z) :
  0 < PAGE_SIZE ->
  bch2_fs_sb_realloc mm c n = (ret, c') ->
  (ret = 0 /\ u32 n <= buffer_u64s (c_disk_sb_order c') /\
   c' = set_c_disk_sb c (c_disk_sb c') (c_disk_sb_order c') /\
   exists s', c_disk_sb c' = Some s' /\
     match c_disk_sb c with
     | Some s =>
         sb_header s' = sb_header s /\ u64s s' = u64s s /\
         (forall i, i < buffer_u64s (c_disk_sb_order c) -> _data s' i = _data s i) /\
         (c_disk_sb_order c' = c_disk_sb_order c \/
          forall i, buffer_u64s (c_disk_sb_order c) <= i -> _data s' i = 0)
     | None => s' = zero_sb
     end) \/
  (ret = - ENOMEM /\ c' = c).
Proof.
  intros HP Hre. unfold bch2_fs_sb_realloc in Hre. rewrite vstruct_bytes_u64 in Hre.
  pose proof (u32_range n) as Hn.
  destruct (c_disk_sb c) as [s|] eqn:Hs.
  - rewrite (bool_decide_true (is_Some (Some s))) in Hre by eauto. cbn [andb] in Hre.
    destruct (Z.leb_spec (get_order (__vstruct_bytes (u32 n))) (c_disk_sb_order c))
      as [Hle|Hgt].
    + injection Hre as <- <-. left. split; [reflexivity|].
      split; [apply buffer_u64s_room; lia|]. split; [now destruct c|].
      exists s. rewrite Hs. split; [reflexivity|]. repeat split. now left.
    + destruct (get_free_pages mm _) as [fresh|]; injection Hre as <- <-;
        [left | right; auto].
      cbn [set_c_disk_sb c_disk_sb c_disk_sb_order]. split; [reflexivity|].
      split; [apply buffer_u64s_room; lia|]. split; [reflexivity|].
      eexists. split; [reflexivity|]. repeat split.
      * intros i Hi. now apply copy_pages_words.
      * right. intros i Hi. unfold copy_pages. cbn [_data set_data zero_sb].
        destruct (Z.ltb_spec i (buffer_u64s (c_disk_sb_order c))); [lia | reflexivity].
  - rewrite (bool_decide_false (is_Some None)) in Hre by (intros [? [=]]).
    cbn [andb] in Hre.
    destruct (get_free_pages mm _) as [fresh|]; injection Hre as <- <-;
      [left | right; auto].
    cbn [set_c_disk_sb c_disk_sb c_disk_sb_order]. split; [reflexivity|].
    split; [apply buffer_u64s_room; lia|]. split; [reflexivity|].
    eexists. split; reflexivity.
Qed.

Lemma bch2_fs_sb_realloc_room_witness :
  (0 = 0 /\
   u32 200000 <= buffer_u64s (c_disk_sb_order
                    (snd (bch2_fs_sb_realloc mm_ok (fs_of sb_empty) 200000))) /\
   snd (bch2_fs_sb_realloc mm_ok (fs_of sb_empty) 200000)
     = set_c_disk_sb (fs_of sb_empty)
         (c_disk_sb (snd (bch2_fs_sb_realloc mm_ok (fs_of sb_empty) 200000)))
         (c_disk_sb_order (snd (bch2_fs_sb_realloc mm_ok (fs_of sb_empty) 200000))) /\
   exists s',
     c_disk_sb (snd (bch2_fs_sb_realloc mm_ok (fs_of sb_empty) 200000)) = Some s' /\
     match c_disk_sb (fs_of sb_empty) with
     | Some s =>
         sb_header s' = sb_header s /\ u64s s' = u64s s /\
         (forall i, i < buffer_u64s (c_disk_sb_order (fs_of sb_empty)) ->
                    _data s' i = _data s i) /\
         (c_disk_sb_order (snd (bch2_fs_sb_realloc mm_ok (fs_of sb_empty) 200000))
            = c_disk_sb_order (fs_of sb_empty) \/
          forall i, buffer_u64s (c_disk_sb_order (fs_of sb_empty)) <= i ->
                    _data s' i = 0)
     | None => s' = zero_sb
     end) \/
  (0 = - ENOMEM /\
   snd (bch2_fs_sb_realloc mm_ok (fs_of sb_empty) 200000) = fs_of sb_empty).
Proof.
  apply (bch2_fs_sb_realloc_room mm_ok (fs_of sb_empty) _ 200000 0).
  - vm_compute. reflexivity.
  - vm_compute. reflexivity.
Defined.

(** ** A resize and the other fields *)

(** The payload a field has after a resize to [n] words: the old payload,
    cut or padded with zeroes to [n - 1] words. *)
Definition resized_words (ws : list Z) (n : Z) : list Z :=
  firstn (Z.to_nat (n - 1)) (ws ++ repeat 0 (Z.to_nat (n - 1))).

Definition old_words (mid : list fld) : list Z :=
  match mid with
  | f :: _ => f_words f
  | [] => []
  end.

Section ResizeOthers.

Lemma resized_words_length ws n : 1 <= n -> Z.of_nat (length (resized_words ws n)) = n - 1.
Proof.
  intros Hn. unfold resized_words.
  rewrite length_firstn, length_app, repeat_length. lia.
Qed.

Lemma resized_words_nth ws n k :
  (k < Z.to_nat (n - 1))%nat ->
  nth k (resized_words ws n) 0 = if (k <? length ws)%nat then nth k ws 0 else 0.
Proof.
  intros Hk. unfold resized_words. rewrite nth_firstn.
  destruct (Nat.ltb_spec k (Z.to_nat (n - 1))); [|lia].
  destruct (Nat.ltb_spec k (length ws)).
  - now rewrite app_nth1.
  - rewrite app_nth2 by lia. apply nth_repeat.
Qed.

Lemma dir_lookup_app fs1 fs2 t :
  dir_lookup (fs1 ++ fs2) t
  = match dir_lookup fs1 t with Some f => Some f | None => dir_lookup fs2 t end.
Proof.
  induction fs1 as [|f fs1 IH]; cbn [app dir_lookup]; [reflexivity|].
  destruct (f_type f =? t); [reflexivity | exact IH].
Qed.

Lemma dir_lookup_skip fs1 t :
  Forall (fun g => f_type g <> t) fs1 -> dir_lookup fs1 t = None.
Proof.
  induction 1 as [|f fs1 Hf _ IH]; cbn [dir_lookup]; [reflexivity|].
  destruct (Z.eqb_spec (f_type f) t); [contradiction | exact IH].
Qed.

(** The image after [__bch2_sb_field_resize] and [f->type = type], as a
    sequence of fields: the field resized is replaced, or appended, and
    the others are as they were. *)
Lemma field_resize_new_dir s fs T n :
  dir s fs -> 0 <= T < 2 ^ 32 -> 1 <= n < 2 ^ 32 -> vstruct_last s + n < 2 ^ 32 ->
  exists fs1 mid fs2,
    fs = fs1 ++ mid ++ fs2 /\
    Forall (fun g => f_type g <> T) fs1 /\
    (mid = [] /\ fs2 = [] \/ exists f, mid = [f] /\ f_type f = T) /\
    snd (__bch2_sb_field_resize s (fst <$> dir_find fs T 0) n) = dir_size fs1 /\
    dir (set_type (fst (__bch2_sb_field_resize s (fst <$> dir_find fs T 0) n))
                  (dir_size fs1) T)
        (fs1 ++ {| f_type := T; f_words := resized_words (old_words mid) n |} :: fs2) /\
    sb_header (set_type (fst (__bch2_sb_field_resize s (fst <$> dir_find fs T 0) n))
                        (dir_size fs1) T) = sb_header s.
Proof.
  intros Hdir HT Hn Hfit.
  destruct (field_resize_dir s fs T n Hdir Hn Hfit)
    as (fs1 & mid & fs2 & Hfs & Hall & Hmid & Hr & Ha & Hb & Hc & Hd & He & Hf).
  exists fs1, mid, fs2. split; [exact Hfs|]. split; [exact Hall|].
  split; [destruct Hmid as [(? & ? & _)|(f & ? & ? & _)]; eauto|].
  set (r := __bch2_sb_field_resize s (fst <$> dir_find fs T 0) n) in *.
  rewrite Hr. cbn [fst snd]. split; [reflexivity|].
  set (D := _data (fst r)) in *. clearbody D. clear Hr r.
  pose proof (dir_size_nonneg fs1) as Hp1. pose proof (dir_size_nonneg fs2) as Hp2.
  pose proof (dir_size_nonneg mid) as Hpm.
  destruct Hdir as [Hdd Hdl].
  assert (Hlast : 0 <= vstruct_last s < 2 ^ 32) by apply u32_range.
  assert (Hsize : vstruct_last s = dir_size fs1 + dir_size mid + dir_size fs2).
  { rewrite Hdl, Hfs, !dir_size_app. lia. }
  rewrite Hfs in Hdd. apply dir_at_app in Hdd as [Hd1 Hd2].
  apply dir_at_app in Hd2 as [Hdm Hd2]. rewrite Z.add_0_l in Hdm, Hd2.
  assert (Hst : forall i, i <> dir_size fs1 ->
            store D (dir_size fs1) (set_field_type (D (dir_size fs1)) T) i = D i).
  { intros i Hi. unfold store. destruct (Z.eqb_spec i (dir_size fs1)); [lia | reflexivity]. }
  assert (Hsq : store D (dir_size fs1) (set_field_type (D (dir_size fs1)) T) (dir_size fs1)
                = set_field_type (D (dir_size fs1)) T).
  { unfold store. now rewrite Z.eqb_refl. }
  assert (Hlenmid : dir_size mid = match mid with
                                   | [] => 0
                                   | _ => 1 + Z.of_nat (length (old_words mid))
                                   end).
  { destruct Hmid as [(-> & _ & _)|(f & -> & _ & _)]; cbn [dir_size old_words];
      unfold fld_u64s; lia. }
  split; [|reflexivity]. unfold set_type. split.
  - cbn [_data set_data set_u64s]. apply dir_at_app.
    split; [|cbn [dir_at f_type f_words]; rewrite Z.add_0_l; repeat split].
    + apply (dir_at_transport (_data s) _ fs1 0 0); [|exact Hd1].
      intros j Hj. rewrite !Z.add_0_l, Hst by lia. apply Ha. lia.
    + rewrite Hsq, field_u64s_set_type, Hb. unfold fld_u64s. cbn [f_words].
      rewrite resized_words_length; lia.
    + rewrite Hsq, field_type_set_type. apply u32_small. lia.
    + intros k Hk. pose proof (resized_words_length (old_words mid) n ltac:(lia)) as Hl.
      rewrite resized_words_nth by lia. rewrite Hst by lia.
      replace (dir_size fs1 + 1 + Z.of_nat k) with (dir_size fs1 + (1 + Z.of_nat k)) by lia.
      destruct (Nat.ltb_spec k (length (old_words mid))) as [Hin|Hout].
      * destruct Hmid as [(-> & _ & _)|(f & -> & _ & _)]; cbn [old_words length] in *;
          [lia|].
        rewrite Hd by lia. cbn [dir_at] in Hdm. destruct Hdm as (_ & _ & Hw & _).
        rewrite <- (Hw k Hin). f_equal. lia.
      * apply He; [lia|]. destruct mid; lia.
    + unfold fld_u64s. cbn [f_words]. rewrite resized_words_length by lia.
      replace (dir_size fs1 + (1 + (n - 1))) with (dir_size fs1 + n) by lia.
      apply (dir_at_transport (_data s) _ fs2 (dir_size fs1 + dir_size mid));
        [|exact Hd2].
      intros j Hj. rewrite Hst by lia. apply Hf. lia.
  - unfold vstruct_last. cbn [u64s set_data set_u64s]. unfold le32_to_cpu.
    rewrite u32_small by lia. rewrite dir_size_app. cbn [dir_size].
    unfold fld_u64s. cbn [f_words]. rewrite resized_words_length by lia. lia.
Qed.

End ResizeOthers.

Section ResizeImage.
Context `{Format}.

(** What [bch2_sb_field_resize] does beside the page allocation: the
    image it works on holds the fields it held, and the result is the
    resize of that image. *)
Lemma bch2_sb_field_resize_image mm h s fs T n p h' :
  sb h = Some s -> dir s fs ->
  vstruct_last s <= buffer_u64s (page_order h) ->
  bch2_sb_field_resize mm h T n = Some (Some p, h') ->
  exists s1 h1,
    dir s1 fs /\ sb_header s1 = sb_header s /\
    bch2_sb_realloc mm h
      (le32_to_cpu (u64s s)
       + (- match fst <$> dir_find fs T 0 with
            | Some q => le32_to_cpu (field_u64s (_data s q))
            | None => 0
            end + u32 n)) = Some (0, h1) /\
    p = snd (__bch2_sb_field_resize s1 (fst <$> dir_find fs T 0) n) /\
    h' = set_sb h1
           (Some (set_type (fst (__bch2_sb_field_resize s1 (fst <$> dir_find fs T 0) n))
                           p T))
           (page_order h1).
Proof.
  intros Hsb Hdir Hfits Hres.
  unfold bch2_sb_field_resize in Hres. rewrite Hsb in Hres.
  cbn [mbind option_bind] in Hres.
  rewrite (bch2_sb_field_get_dir s T fs Hdir) in Hres.
  cbn [mbind option_bind] in Hres.
  destruct (bch2_sb_realloc mm h _) as [[ret h1]|] eqn:Hre; [|discriminate].
  cbn [mbind option_bind] in Hres.
  destruct (Z.eqb_spec ret 0) as [->|Hne]; cbn [negb] in Hres; [|discriminate].
  assert (Hs1 : exists s1, sb h1 = Some s1 /\ sb_header s1 = sb_header s /\
            vstruct_last s1 = vstruct_last s /\
            (forall i, i < vstruct_last s -> _data s1 i = _data s i) /\
            (let '(s2, f') := __bch2_sb_field_resize s1 (fst <$> dir_find fs T 0) n in
             Some (Some f', set_sb h1 (Some (set_type s2 f' T)) (page_order h1)))
            = Some (Some p, h')).
  { destruct (bch2_sb_realloc_ok mm h s _ h1 Hsb Hre) as [->|[Hrep (fresh & Hfresh)]].
    - unfold buffer_replaced in Hres. rewrite Z.eqb_refl, andb_false_r in Hres.
      rewrite Hsb in Hres. cbn [mbind option_bind] in Hres.
      exists s. repeat split; [exact Hsb | exact Hres].
    - rewrite Hrep, andb_true_r in Hres.
      destruct (dir_find fs T 0) as [[q f]|] eqn:Hfind.
      + rewrite bool_decide_true in Hres by (cbn; eauto). discriminate.
      + rewrite bool_decide_false in Hres by (cbn; intros [? [=]]).
        rewrite Hfresh in Hres. cbn [mbind option_bind] in Hres.
        exists (copy_pages fresh s (page_order h)).
        split; [exact Hfresh|]. split; [reflexivity|]. split; [reflexivity|].
        split; [|exact Hres].
        intros i Hi. apply copy_pages_words. lia. }
  destruct Hs1 as (s1 & Hsb1 & Hhdr & Hlast1 & Hwords & Hres1).
  exists s1, h1. split.
  { destruct Hdir as [Hd Hl]. split; [|congruence].
    apply (dir_at_transport (_data s) _ fs 0 0); [|exact Hd].
    intros j Hj. rewrite !Z.add_0_l. apply Hwords. lia. }
  split; [exact Hhdr|]. split; [reflexivity|].
  destruct (__bch2_sb_field_resize s1 (fst <$> dir_find fs T 0) n) as [s2 f'].
  injection Hres1 as <- <-. split; reflexivity.
Qed.

End ResizeImage.

(** A successful [bch2_sb_field_resize] of the field of type [T] keeps
    the field area well-formed and the fixed header as it was, leaves the
    payload of the field of every other type unchanged, and gives the field
    of type [T] its old payload cut or zero-padded to [n - 1] words. *)
Theorem bch2_sb_field_resize_payloads `{Format} (mm : allocator)
    (h h' : bcache_superblock) (s : bch_sb) (fs : list fld) (T n p : Z) :
  sb h = Some s -> dir s fs ->
  vstruct_last s <= buffer_u64s (page_order h) ->
  0 <= T < 2 ^ 32 -> 1 <= n < 2 ^ 32 -> vstruct_last s + n < 2 ^ 32 ->
  bch2_sb_field_resize mm h T n = Some (Some p, h') ->
  exists s' fs',
    sb h' = Some s' /\ dir s' fs' /\ sb_header s' = sb_header s /\
    field_payload s' T
      = Some (resized_words (default [] (field_payload s T)) n) /\
    (forall t, t <> T -> field_payload s' t = field_payload s t).
Proof.
  intros Hsb Hdir Hfits HT Hn Hfit Hres.
  destruct (bch2_sb_field_resize_image mm h s fs T n p h' Hsb Hdir Hfits Hres)
    as (s1 & h1 & Hdir1 & Hhdr & _ & Hp & ->).
  assert (Hlast1 : vstruct_last s1 = vstruct_last s).
  { destruct Hdir as [_ ->]. destruct Hdir1 as [_ ->]. reflexivity. }
  destruct (field_resize_new_dir s1 fs T n Hdir1 HT Hn ltac:(lia))
    as (fs1 & mid & fs2 & Hfs & Hall & Hmid & Hsnd & Hnew & Hhdr').
  rewrite Hsnd in Hp. subst p.
  set (s' := set_type _ _ T) in *.
  set (f' := {| f_type := T; f_words := resized_words (old_words mid) n |}) in *.
  assert (Hold : default [] (field_payload s T) = old_words mid).
  { rewrite (field_payload_dir s fs T Hdir), dir_find_lookup, Hfs, dir_lookup_app.
    rewrite (dir_lookup_skip fs1 T Hall).
    destruct Hmid as [(-> & ->)|(f & -> & Hft)]; cbn [app dir_lookup old_words];
      [reflexivity|].
    rewrite Hft, Z.eqb_refl. reflexivity. }
  assert (Hlook : forall t, t <> T ->
            dir_lookup (fs1 ++ f' :: fs2) t = dir_lookup fs t).
  { intros t Ht. rewrite Hfs, !dir_lookup_app. destruct (dir_lookup fs1 t); [reflexivity|].
    cbn [dir_lookup f_type f']. destruct (Z.eqb_spec T t); [congruence|].
    destruct Hmid as [(-> & ->)|(f & -> & Hft)]; cbn [dir_lookup]; [reflexivity|].
    destruct (Z.eqb_spec (f_type f) t); [congruence | reflexivity]. }
  exists s', (fs1 ++ f' :: fs2). cbn [set_sb sb].
  split; [reflexivity|]. split; [exact Hnew|]. split; [congruence|]. split.
  - rewrite (field_payload_dir s' _ T Hnew), dir_find_lookup, dir_lookup_app.
    rewrite (dir_lookup_skip fs1 T Hall). cbn [dir_lookup f_type f'].
    rewrite Z.eqb_refl, Hold. reflexivity.
  - intros t Ht.
    rewrite (field_payload_dir s' _ t Hnew), (field_payload_dir s fs t Hdir).
    rewrite !dir_find_lookup. now rewrite Hlook.
Qed.

Lemma bch2_sb_field_resize_payloads_witness :
  exists s' fs',
    sb two_fields_resized = Some s' /\ dir s' fs' /\
    sb_header s' = sb_header sb_two_fields /\
    field_payload s' 1
      = Some (resized_words (default [] (field_payload sb_two_fields 1)) 3) /\
    (forall t, t <> 1 -> field_payload s' t = field_payload sb_two_fields t).
Proof.
  apply (bch2_sb_field_resize_payloads mm_ok (handle_of sb_two_fields 0)
           two_fields_resized sb_two_fields two_fields 1 3 0).
  - reflexivity.
  - exact sb_two_fields_dir.
  - vm_compute. congruence.
  - lia.
  - lia.
  - vm_compute. reflexivity.
  - vm_compute. reflexivity.
Defined.

(** ** Growing a field and shrinking it back *)

Section ResizeBack.
Context `{Format}.

Lemma bch2_sb_realloc_capacity mm h s n h1 :
  0 < PAGE_SIZE -> sb h = Some s ->
  bch2_sb_realloc mm h n = Some (0, h1) ->
  u32 n <= buffer_u64s (page_order h1).
Proof.
  intros HP Hs Hre. unfold bch2_sb_realloc in Hre. rewrite Hs in Hre.
  cbn [mbind option_bind] in Hre. rewrite vstruct_bytes_u64 in Hre.
  destruct (_ >? _) in Hre; [discriminate|].
  unfold __bch2_super_realloc in Hre. rewrite Hs in Hre.
  rewrite (bool_decide_true (is_Some (Some s))), andb_true_r in Hre by eauto.
  pose proof (u32_range n) as Hn.
  destruct (Z.geb_spec (page_order h) (get_order (__vstruct_bytes (u32 n))))
    as [Hge|Hlt].
  - injection Hre as <-. apply buffer_u64s_room; lia.
  - destruct (fault_super_realloc mm);
      [injection Hre as Hre _; vm_compute in Hre; discriminate|].
    destruct (bio_kmalloc mm _); cbn [negb] in Hre;
      [|injection Hre as Hre _; vm_compute in Hre; discriminate].
    destruct (get_free_pages mm _) as [fresh|];
      [|injection Hre as Hre _; vm_compute in Hre; discriminate].
    injection Hre as <-. cbn [set_sb page_order]. apply buffer_u64s_room; lia.
Qed.

Lemma resized_words_back ws n :
  1 + Z.of_nat (length ws) <= n ->
  resized_words (resized_words ws n) (1 + Z.of_nat (length ws)) = ws.
Proof.
  intros Hn. unfold resized_words.
  replace (Z.to_nat (1 + Z.of_nat (length ws) - 1)) with (length ws) by lia.
  rewrite firstn_app, firstn_firstn, length_firstn, length_app, repeat_length.
  replace (Init.Nat.min (length ws) (Z.to_nat (n - 1))) with (length ws) by lia.
  replace (length ws - Init.Nat.min (Z.to_nat (n - 1))
             (length ws + Z.to_nat (n - 1)))%nat with O by lia.
  rewrite firstn_O, app_nil_r, firstn_app, Nat.sub_diag, firstn_O, app_nil_r.
  apply firstn_all.
Qed.

Lemma dir_split_unique T : forall fs1 fs1' f f' fs2 fs2',
  fs1 ++ f :: fs2 = fs1' ++ f' :: fs2' ->
  Forall (fun g => f_type g <> T) fs1 -> Forall (fun g => f_type g <> T) fs1' ->
  f_type f = T -> f_type f' = T ->
  fs1 = fs1' /\ f = f' /\ fs2 = fs2'.
Proof.
  induction fs1 as [|g fs1 IH]; intros [|g' fs1'] f f' fs2 fs2' Heq H1 H1' Hf Hf';
    cbn [app] in Heq.
  - injection Heq as -> ->. auto.
  - injection Heq as E1 E2. subst g'. inversion H1'; subst. contradiction.
  - injection Heq as E1 E2. subst g. inversion H1; subst. contradiction.
  - injection Heq as E1 E2. subst g'. inversion H1; inversion H1'; subst.
    destruct (IH fs1' f f' fs2 fs2' E2) as (-> & -> & ->); auto.
Qed.

End ResizeBack.

(** Growing the field of type [T] with [bch2_sb_field_resize] and then
    resizing it back to its old length gives the sequence of fields the
    image had: every field has its type, length and payload again, at the
    same place, and the fixed header is as it was. *)
Theorem bch2_sb_field_resize_back `{Format} (mm : allocator)
    (h h1 h2 : bcache_superblock) (s : bch_sb) (fs : list fld)
    (ws : list Z) (T n p p2 : Z) :
  0 < PAGE_SIZE ->
  sb h = Some s -> dir s fs ->
  vstruct_last s <= buffer_u64s (page_order h) ->
  0 <= T < 2 ^ 32 ->
  field_payload s T = Some ws ->
  1 + Z.of_nat (length ws) <= n -> n < 2 ^ 32 -> vstruct_last s + n < 2 ^ 32 ->
  bch2_sb_field_resize mm h T n = Some (Some p, h1) ->
  bch2_sb_field_resize mm h1 T (1 + Z.of_nat (length ws)) = Some (Some p2, h2) ->
  exists s2,
    sb h2 = Some s2 /\ dir s2 fs /\ sb_header s2 = sb_header s /\ p2 = p.
Proof.
  intros HP Hsb Hdir Hfits HT Hws Hlen Hn Hfit Hres1 Hres2.
  assert (Hlast : 0 <= vstruct_last s < 2 ^ 32) by apply u32_range.
  destruct (bch2_sb_field_resize_image mm h s fs T n p h1 Hsb Hdir Hfits Hres1)
    as (s1 & ha & Hdir1 & Hhdr1 & Hre1 & Hp & ->).
  assert (Hlast1 : vstruct_last s1 = vstruct_last s).
  { destruct Hdir as [_ ->]. destruct Hdir1 as [_ ->]. reflexivity. }
  destruct (field_resize_new_dir s1 fs T n Hdir1 HT ltac:(lia) ltac:(lia))
    as (fs1 & mid & fs2 & Hfs & Hall & Hmid & Hsnd & Hnew & Hhdr1').
  rewrite Hsnd in Hp. subst p.
  (* the field is there *)
  assert (Hf : exists f, mid = [f] /\ f_type f = T /\ f_words f = ws).
  { rewrite (field_payload_dir s fs T Hdir), dir_find_lookup, Hfs, dir_lookup_app in Hws.
    rewrite (dir_lookup_skip fs1 T Hall) in Hws.
    destruct Hmid as [(-> & ->)|(f & -> & Hft)]; cbn [app dir_lookup] in Hws;
      [discriminate|].
    rewrite Hft, Z.eqb_refl in Hws. injection Hws as Hw. eauto. }
  destruct Hf as (f & -> & Hft & Hfw). cbn [old_words] in Hnew. rewrite Hfw in Hnew.
  set (s' := set_type _ _ T) in *.
  set (f' := {| f_type := T; f_words := resized_words ws n |}) in *.
  (* room for the image after the first call *)
  assert (Hsize : vstruct_last s = dir_size fs1 + fld_u64s f + dir_size fs2).
  { destruct Hdir as [_ ->]. rewrite Hfs, !dir_size_app. cbn [dir_size]. lia. }
  assert (Hfl : fld_u64s f = 1 + Z.of_nat (length ws)).
  { unfold fld_u64s. now rewrite Hfw. }
  assert (Hsize' : vstruct_last s' = vstruct_last s + n - fld_u64s f).
  { destruct Hnew as [_ ->]. rewrite dir_size_app. cbn [dir_size].
    unfold fld_u64s at 1. cbn [f_words f']. rewrite resized_words_length by lia. lia. }
  pose proof (dir_size_nonneg fs1) as Hp1. pose proof (dir_size_nonneg fs2) as Hp2.
  assert (Hroom : vstruct_last s' <= buffer_u64s (page_order ha)).
  { pose proof (bch2_sb_realloc_capacity mm h s _ ha HP Hsb Hre1) as Hcap.
    rewrite Hfs in Hcap. rewrite (dir_find_skip fs1 T 0 _ Hall) in Hcap.
    cbn [app dir_find] in Hcap. rewrite Hft, Z.eqb_refl in Hcap.
    cbn [fmap option_fmap option_map fst] in Hcap.
    destruct Hdir as [Hdd _]. rewrite Hfs in Hdd.
    apply dir_at_app in Hdd as [_ Hdd]. cbn [app dir_at] in Hdd.
    destruct Hdd as (Hu & _). rewrite Hu in Hcap.
    unfold le32_to_cpu in Hcap. rewrite (u32_small (fld_u64s f)) in Hcap by lia.
    rewrite (u32_small n) in Hcap by lia.
    replace (u32 (u64s s)) with (vstruct_last s) in Hcap by reflexivity.
    rewrite u32_small in Hcap by lia. lia. }
  (* the second call *)
  destruct (bch2_sb_field_resize_image mm (set_sb ha (Some s') (page_order ha)) s'
              _ T _ p2 h2 eq_refl Hnew Hroom Hres2)
    as (s2 & hb & Hdir2 & Hhdr2 & _ & Hq2 & ->).
  assert (Hlast2 : vstruct_last s2 = vstruct_last s').
  { destruct Hnew as [_ ->]. destruct Hdir2 as [_ ->]. reflexivity. }
  destruct (field_resize_new_dir s2 _ T (1 + Z.of_nat (length ws)) Hdir2 HT
              ltac:(lia) ltac:(lia))
    as (gs1 & mid' & gs2 & Hgs & Hall' & Hmid' & Hsnd' & Hnew' & Hhdr2').
  rewrite Hsnd' in Hq2. subst p2.
  assert (Hsplit : gs1 = fs1 /\ mid' = [f'] /\ gs2 = fs2).
  { destruct Hmid' as [(-> & ->)|(g & -> & Hgt)].
    - rewrite app_nil_r in Hgs. subst gs1.
      apply List.Forall_forall with (x := f') in Hall'; [now cbn in Hall'|].
      apply in_or_app. right. now left.
    - cbn [app] in Hgs.
      destruct (dir_split_unique T fs1 gs1 f' g fs2 gs2 Hgs Hall Hall' eq_refl Hgt)
        as (-> & -> & ->). auto. }
  destruct Hsplit as (-> & -> & ->). cbn [old_words f_words f'] in Hnew'.
  rewrite resized_words_back in Hnew' by lia.
  replace {| f_type := T; f_words := ws |} with f in Hnew'
    by (destruct f; cbn in *; congruence).
  cbn [app] in Hfs. rewrite <- Hfs in Hnew'.
  eexists. cbn [set_sb sb]. split; [reflexivity|]. split; [exact Hnew'|].
  split; [congruence | reflexivity].
Qed.

(** The handle after growing the field of type 1 of [sb_two_fields] to 3
    words and resizing it to 2 words again. *)
Definition two_fields_back : bcache_superblock :=
  from_option snd two_fields_resized (bch2_sb_field_resize mm_ok two_fields_resized 1 2).

Lemma bch2_sb_field_resize_back_witness :
  exists s2,
    sb two_fields_back = Some s2 /\ dir s2 two_fields /\
    sb_header s2 = sb_header sb_two_fields /\ 0 = 0.
Proof.
  apply (bch2_sb_field_resize_back mm_ok (handle_of sb_two_fields 0)
           two_fields_resized two_fields_back sb_two_fields two_fields [7] 1 3 0 0).
  - vm_compute. reflexivity.
  - reflexivity.
  - exact sb_two_fields_dir.
  - vm_compute. congruence.
  - lia.
  - vm_compute. reflexivity.
  - vm_compute. congruence.
  - lia.
  - vm_compute. reflexivity.
  - vm_compute. reflexivity.
  - vm_compute. reflexivity.
Defined.

(** The same round trip, run: the five words of the grown image and the
    four words after shrinking, which are the original ones. *)
Example bch2_sb_field_resize_back_runs :
  (s1 ← sb two_fields_resized; Some (map (_data s1) [0; 1; 2; 3; 4], u64s s1))
    = Some ([field_word 3 1; 7; 0; field_word 2 3; 9], 5) /\
  (s2 ← sb two_fields_back; Some (map (_data s2) [0; 1; 2; 3], u64s s2))
    = Some ([field_word 2 1; 7; field_word 2 3; 9], 4).
Proof. split; vm_compute; reflexivity. Qed.

(** ** What [bch2_read_super] hands back *)

Section ReadSound.
Context `{Format}.

Lemma super_realloc_keeps mm h order :
  bdev (snd (__bch2_super_realloc mm h order)) = bdev h /\
  mode (snd (__bch2_super_realloc mm h order)) = mode h.
Proof.
  unfold __bch2_super_realloc. destruct (_ && _); [auto|].
  destruct (fault_super_realloc mm); [auto|].
  destruct (negb _); [auto|].
  destruct (get_free_pages mm order); auto.
Qed.

(** [read_one_super] never changes the device or the mode of the handle. *)
Lemma read_one_super_from_keeps mm offset : forall fuel h err h' log,
  read_one_super_from fuel mm h offset = Some (err, h', log) ->
  bdev h' = bdev h /\ mode h' = mode h.
Proof.
  induction fuel as [|fuel IH]; intros h err h' log Hr; [discriminate|].
  cbn [read_one_super_from] in Hr.
  destruct (sb_bio h) as [b0|]; [|discriminate].
  destruct (bdev h) as [bd|] eqn:Hbd; [|discriminate].
  destruct (sb h) as [s0|]; [|discriminate]. cbn [mbind option_bind] in Hr.
  destruct (bd_read_sb bd offset) as [s|]; [|injection Hr as <- <- <-; auto].
  destruct (uuid_le_cmp _ _); [injection Hr as <- <- <-; auto|].
  destruct (negb _); [injection Hr as <- <- <-; auto|].
  destruct (_ >? _); [injection Hr as <- <- <-; auto|].
  cbn [set_sb page_order] in Hr.
  destruct (_ >? _).
  - pose proof (super_realloc_keeps mm (set_sb h (Some s) (page_order h))
                  (get_order (vstruct_bytes s))) as [Kb Km].
    destruct (__bch2_super_realloc mm _ _) as [ret h2]. cbn [snd] in Kb, Km.
    destruct (negb _); [injection Hr as <- <- <-; cbn in *; split; congruence|].
    destruct (read_one_super_from fuel mm h2 offset) as [[[e3 h3] l3]|] eqn:Hrec;
      [|discriminate].
    cbn [mbind option_bind] in Hr. injection Hr as <- <- <-.
    destruct (IH _ _ _ _ Hrec). cbn in *. split; congruence.
  - destruct (_ >=? _); [injection Hr as <- <- <-; auto|].
    destruct (bch2_crc_cmp _ _); injection Hr as <- <- <-; auto.
Qed.

(** When [read_one_super] returns [NULL], the buffer holds what the sector
    holds, that image passes every check, and the buffer has room for it. *)
Lemma read_one_super_from_ok mm offset bd : forall fuel h h' log,
  read_one_super_from fuel mm h offset = Some (None, h', log) ->
  bdev h = Some bd ->
  exists s, bd_read_sb bd offset = Some s /\ sb h' = Some s /\
            super_ok bd offset = true /\
            get_order (vstruct_bytes s) <= page_order h' /\ In offset log.
Proof.
  induction fuel as [|fuel IH]; intros h h' log Hr Hbd; [discriminate|].
  cbn [read_one_super_from] in Hr. rewrite Hbd in Hr.
  destruct (sb_bio h) as [b0|]; [|discriminate].
  destruct (sb h) as [s0|]; [|discriminate]. cbn [mbind option_bind] in Hr.
  destruct (bd_read_sb bd offset) as [s|] eqn:Hread; [|discriminate].
  destruct (uuid_le_cmp (magic s) BCACHE_MAGIC) eqn:E1; [discriminate|].
  destruct (le64_to_cpu (version s) =? BCACHE_SB_VERSION_CDEV_V4) eqn:E2;
    cbn [negb] in Hr; [|discriminate].
  destruct (vstruct_bytes s >? u64 (shl_int 512 (sb_max_size_bits (layout s))))
    eqn:E3; [discriminate|].
  cbn [set_sb page_order] in Hr.
  destruct (Z.gtb_spec (get_order (vstruct_bytes s)) (page_order h)) as [Hgt|Hle].
  - pose proof (super_realloc_keeps mm (set_sb h (Some s) (page_order h))
                  (get_order (vstruct_bytes s))) as [Kb _].
    destruct (__bch2_super_realloc mm _ _) as [ret h2]. cbn [snd] in Kb.
    destruct (negb _); [discriminate|].
    destruct (read_one_super_from fuel mm h2 offset) as [[[e3 h3] l3]|] eqn:Hrec;
      [|discriminate].
    cbn [mbind option_bind] in Hr. injection Hr as -> <- <-.
    destruct (IH _ _ _ Hrec) as (s' & Hread' & Hs' & Hok & Hord & Hin).
    { rewrite Kb. exact Hbd. }
    injection Hread' as <-.
    exists s. repeat split; try assumption. now right.
  - destruct (BCH_SB_CSUM_TYPE s >=? BCH_CSUM_NR) eqn:E4; [discriminate|].
    destruct (bch2_crc_cmp (csum_vstruct (BCH_SB_CSUM_TYPE s) s) (csum s)) eqn:E5;
      [discriminate|].
    injection Hr as <- <-. exists s. cbn [set_sb sb page_order].
    split; [reflexivity|]. split; [reflexivity|]. split.
    { unfold super_ok. rewrite Hread, E1, E2, E3, E4, E5. reflexivity. }
    split; [lia | now left].
Qed.

Lemma read_super_backups_ok mm layout bd : forall n i err h got e h' log,
  read_super_backups mm layout n i err h = Some (got, e, h', log) ->
  bdev h = Some bd ->
  bdev h' = Some bd /\ mode h' = mode h /\
  (got = true ->
   e = None /\
   exists s o, bd_read_sb bd o = Some s /\ sb h' = Some s /\
               super_ok bd o = true /\
               get_order (vstruct_bytes s) <= page_order h' /\ In o log).
Proof.
  induction n as [|n IH]; intros i err h got e h' log Hr Hbd;
    cbn [read_super_backups] in Hr.
  - injection Hr as <- <- <- <-. repeat split; auto; discriminate.
  - destruct (_ =? BCH_SB_SECTOR); [exact (IH _ _ _ _ _ _ _ Hr Hbd)|].
    destruct (read_one_super mm h _) as [[[e1 h1] l1]|] eqn:Hone; [|discriminate].
    cbn [mbind option_bind] in Hr.
    destruct (read_one_super_from_keeps mm _ _ _ _ _ _ Hone) as [Kb Km].
    destruct e1 as [msg|].
    + destruct (read_super_backups mm layout n (i + 1) (Some msg) h1)
        as [[[[g2 e2] h2] l2]|] eqn:Hrec; [|discriminate].
      cbn [mbind option_bind] in Hr. injection Hr as <- <- <- <-.
      destruct (IH _ _ _ _ _ _ _ Hrec) as (Hb2 & Hm2 & Ht2); [congruence|].
      split; [exact Hb2|]. split; [congruence|].
      intros Hg. destruct (Ht2 Hg) as (-> & s & o & ? & ? & ? & ? & ?).
      split; [reflexivity|]. exists s, o. repeat split; try assumption.
      apply in_or_app. now right.
    + injection Hr as <- <- <- <-.
      destruct (read_one_super_from_ok mm _ bd _ _ _ _ Hone Hbd)
        as (s & Hread & Hs & Hok & Hord & Hin).
      split; [congruence|]. split; [exact Km|].
      intros _. split; [reflexivity|].
      exists s, (le64_to_cpu (sb_offset_at layout i)). auto 10.
Qed.

End ReadSound.

(** Whatever [bch2_read_super] returns, the handle is either empty (no
    buffer, no device) or holds a verified image: an error always leaves
    it empty; and when the handle is not empty, no error is returned, the
    device is the one the path opened with the handle's mode, the buffer
    has room for the image and holds what one of the sectors read holds,
    that sector's image has the magic, the supported version, a size within
    [512 << sb_max_size_bits], a known checksum type and a matching
    checksum, and its block size is at least the device's logical block
    size. *)
Theorem bch2_read_super_sound `{Format} (mm : allocator)
    (get_by_path : Z -> blkdev_result) (fault : bool) (opts : bch_opts)
    (err : option string) (h : bcache_superblock) (log : list Z) :
  bch2_read_super mm get_by_path fault opts = Some (err, h, log) ->
  (sb h = None /\ bdev h = None) \/
  (err = None /\
   exists s bd o,
     sb h = Some s /\ bdev h = Some bd /\ get_by_path (mode h) = BlkOpened bd /\
     In o log /\ bd_read_sb bd o = Some s /\ super_ok bd o = true /\
     get_order (vstruct_bytes s) <= page_order h /\
     bd_logical_block_size bd <= Z.shiftl (le16_to_cpu (block_size s)) 9).
Proof.
  unfold bch2_read_super. cbv zeta.
  set (md := if negb (bool_decide (opt_nochanges opts = Some true)) then _ else _).
  set (offset := match opt_sb opts with Some o => o | None => BCH_SB_SECTOR end).
  unfold bch2_blkdev_open. intros Hr.
  destruct (get_by_path md) as [| |bd] eqn:Hopen;
    try (injection Hr as <- <- <-; left; split; reflexivity).
  pose proof (super_realloc_keeps mm
                {| sb := None; sb_bio := None; bdev := Some bd; page_order := 0;
                   mode := md |} 0)
    as [Kb Km].
  destruct (__bch2_super_realloc mm _ 0) as [ret h0]. cbn [snd bdev mode] in Kb, Km.
  destruct (negb (ret =? 0)); [injection Hr as <- <- <-; left; split; reflexivity|].
  destruct fault; [injection Hr as <- <- <-; left; split; reflexivity|].
  assert (Hgot : forall h1 l1 s o,
            bdev h1 = Some bd -> mode h1 = md -> sb h1 = Some s ->
            bd_read_sb bd o = Some s -> super_ok bd o = true ->
            get_order (vstruct_bytes s) <= page_order h1 -> In o l1 ->
            read_super_got h1 l1 = Some (err, h, log) ->
            (sb h = None /\ bdev h = None) \/
            (err = None /\
             exists s bd o,
               sb h = Some s /\ bdev h = Some bd /\
               get_by_path (mode h) = BlkOpened bd /\
               In o log /\ bd_read_sb bd o = Some s /\ super_ok bd o = true /\
               get_order (vstruct_bytes s) <= page_order h /\
               bd_logical_block_size bd <= Z.shiftl (le16_to_cpu (block_size s)) 9)).
  { intros h1 l1 s o Hb1 Hm1 Hs1 Hread Hok Hord Hin Hg.
    unfold read_super_got in Hg. rewrite Hs1, Hb1 in Hg. cbn [mbind option_bind] in Hg.
    destruct (Z.ltb_spec (Z.shiftl (le16_to_cpu (block_size s)) 9)
                (bd_logical_block_size bd)) as [Hlt|Hge];
      injection Hg as <- <- <-; [left; split; reflexivity | right].
    split; [reflexivity|]. exists s, bd, o. rewrite Hm1. auto 10. }
  destruct (read_one_super mm h0 offset) as [[[e1 h1] l1]|] eqn:Hone; [|discriminate].
  cbn [mbind option_bind] in Hr.
  destruct (read_one_super_from_keeps mm _ _ _ _ _ _ Hone) as [Kb1 Km1].
  destruct e1 as [msg|].
  - destruct (negb (offset =? BCH_SB_SECTOR));
      [injection Hr as <- <- <-; left; split; reflexivity|].
    destruct (sb_bio h1) as [b1|]; [|discriminate].
    rewrite Kb1, Kb in Hr. cbn [mbind option_bind] in Hr.
    destruct (bd_read_layout bd BCH_SB_LAYOUT_SECTOR) as [layout|];
      [|injection Hr as <- <- <-; left; split; reflexivity].
    destruct (validate_sb_layout layout);
      [injection Hr as <- <- <-; left; split; reflexivity|].
    destruct (read_super_backups mm layout _ 0 None h1)
      as [[[[got e2] h2] l2]|] eqn:Hback; [|discriminate].
    cbn [mbind option_bind] in Hr.
    destruct (read_super_backups_ok mm layout bd _ _ _ _ _ _ _ _ Hback)
      as (Hb2 & Hm2 & Ht2); [congruence|].
    destruct got; [|injection Hr as <- <- <-; left; split; reflexivity].
    destruct (Ht2 eq_refl) as (_ & s & o & Hread & Hs2 & Hok & Hord & Hin).
    refine (Hgot h2 _ s o _ _ _ _ _ _ _ Hr); try assumption; [congruence|].
    apply in_or_app. now right.
  - destruct (read_one_super_from_ok mm _ bd _ _ _ _ Hone)
      as (s & Hread & Hs1 & Hok & Hord & Hin); [congruence|].
    refine (Hgot h1 l1 s offset _ _ _ _ _ _ _ Hr); try assumption; congruence.
Qed.

(** The handle [bch2_read_super] leaves for the device of
    [bd_corrupt_primary], whose copy at sector 2056 is good. *)
Definition read_backup_handle : bcache_superblock :=
  from_option (fun r => snd (fst r)) (handle_of sb_empty 0)
    (bch2_read_super mm_ok
       (fun _ => BlkOpened (bd_corrupt_primary (sb_valid members_one)))
       false opts_default).

Lemma bch2_read_super_sound_witness :
  (sb read_backup_handle = None /\ bdev read_backup_handle = None) \/
  (@None string = None /\
   exists s bd o,
     sb read_backup_handle = Some s /\ bdev read_backup_handle = Some bd /\
     BlkOpened (bd_corrupt_primary (sb_valid members_one)) = BlkOpened bd /\
     In o [8; 7; 2056] /\ bd_read_sb bd o = Some s /\ super_ok bd o = true /\
     get_order (vstruct_bytes s) <= page_order read_backup_handle /\
     bd_logical_block_size bd <= Z.shiftl (le16_to_cpu (block_size s)) 9).
Proof.
  apply (bch2_read_super_sound mm_ok
           (fun _ => BlkOpened (bd_corrupt_primary (sb_valid members_one)))
           false opts_default None read_backup_handle [8; 7; 2056]).
  vm_compute. reflexivity.
Defined.

(** A layout whose only copy is the default sector: when that copy is
    bad, every backup is skipped, the handle is freed, and the error
    returned is the [NULL] that [validate_sb_layout] left in [err]. *)
Definition bd_single_copy : block_device :=
  {| bd_capacity := 2 ^ 21; bd_logical_block_size := 512;
     bd_read_sb := fun sector =>
       if sector =? 8 then Some (set_csum_lo (sb_valid members_one) 1) else None;
     bd_read_layout := fun sector =>
       if sector =? 7
       then Some {| l_magic := BCACHE_MAGIC; layout_type := 0; sb_max_size_bits := 11;
                    nr_superblocks := 1;
                    sb_offset := 8 :: repeat 0 (Z.to_nat (SB_OFFSET_ARRAY_SIZE - 1)) |}
       else None |}.

Example bch2_read_super_null_without_image :
  super_ok bd_single_copy 8 = false /\
  (fun r => (fst (fst r), sb (snd (fst r)), bdev (snd (fst r)), snd r))
    <$> bch2_read_super mm_ok (fun _ => BlkOpened bd_single_copy) false opts_default
  = Some (None, None, None, [8; 7]).
Proof. split; vm_compute; reflexivity. Qed.

(** ** What [bch2_write_super] leaves of the filesystem *)

(** The filesystem without its devices and its in-memory mirror of the
    header: the part the write path reads but must not change. *)
Definition fs_core (c : bch_fs) : bch_fs :=
  set_c_sb (set_c_devs c []) (c_sb (fs_of zero_sb)).

Section WriteFrame.
Context `{Format}.

Lemma write_super_propagate_core mm : forall members c c1,
  write_super_propagate mm c members = Some c1 -> fs_core c1 = fs_core c.
Proof.
  induction members as [|i rest IH]; intros c c1 Hp; cbn [write_super_propagate] in Hp.
  - now injection Hp as <-.
  - destruct (dev_at c i) as [ca|]; [|discriminate]. cbn [mbind option_bind] in Hp.
    destruct (bch2_sb_from_fs mm c ca) as [[ret ca']|]; [|discriminate].
    cbn [mbind option_bind] in Hp. now rewrite (IH _ _ Hp).
Qed.

Lemma write_super_wave_core : forall members c idx wrote c' ws,
  write_super_wave c members idx = Some (wrote, c', ws) -> fs_core c' = fs_core c.
Proof.
  induction members as [|i rest IH]; intros c idx wrote c' ws Hw;
    cbn [write_super_wave] in Hw.
  - now injection Hw as _ <- _.
  - destruct (dev_at c i) as [ca|]; [|discriminate]. cbn [mbind option_bind] in Hw.
    destruct (write_one_super c i ca idx) as [[[w1 ca'] ws1]|]; [|discriminate].
    cbn [mbind option_bind] in Hw.
    destruct (write_super_wave (set_dev c i ca') rest idx) as [[[w2 c2] ws2]|] eqn:Hrec;
      [|discriminate].
    cbn [mbind option_bind] in Hw. injection Hw as _ <- _.
    now rewrite (IH _ _ _ _ _ Hrec).
Qed.

Lemma write_super_waves_core : forall fuel c idx c' ws,
  write_super_waves fuel c idx = Some (c', ws) -> fs_core c' = fs_core c.
Proof.
  induction fuel as [|fuel IH]; intros c idx c' ws Hw; [discriminate|].
  cbn [write_super_waves] in Hw.
  destruct (write_super_wave c (online_members c) idx) as [[[wrote c1] ws1]|] eqn:Hwave;
    [|discriminate].
  cbn [mbind option_bind] in Hw. pose proof (write_super_wave_core _ _ _ _ _ _ Hwave).
  destruct wrote.
  - destruct (write_super_waves fuel c1 _) as [[c2 ws2]|] eqn:Hrec; [|discriminate].
    cbn [mbind option_bind] in Hw. injection Hw as <- _.
    rewrite (IH _ _ _ _ Hrec). assumption.
  - injection Hw as <- _. assumption.
Qed.

Lemma bch2_sb_update_core c c' :
  bch2_sb_update c = Some c' -> fs_core c' = fs_core c /\ c_error c' = c_error c.
Proof.
  unfold bch2_sb_update. intros Hu.
  destruct (c_disk_sb c) as [src|]; [|discriminate]. cbn [mbind option_bind] in Hu.
  destruct (bch2_sb_get_members src) as [mi|]; [|discriminate].
  cbn [mbind option_bind] in Hu.
  destruct (sb_update_members src mi 0 (c_devs c)) as [ds|]; [|discriminate].
  cbn [mbind option_bind] in Hu. injection Hu as <-. split; reflexivity.
Qed.

(** The three ways out of [bch2_write_super]. *)
Lemma bch2_write_super_cases mm c src c' ws :
  c_disk_sb c = Some src ->
  bch2_write_super mm c = Some (c', ws) ->
  exists c1,
    fs_core c1 = fs_core (write_super_seq c src) /\
    ((ws = [] /\ fs_core c' = fs_core (set_c_error c1 true)) \/
     ((c_opts_nochanges c1 || c_error c1) = true /\ ws = [] /\
      fs_core c' = fs_core c1) \/
     ((c_opts_nochanges c1 || c_error c1) = false /\ fs_core c' = fs_core c1)).
Proof.
  intros Hsrc Hw. unfold bch2_write_super in Hw. rewrite Hsrc in Hw.
  cbn [mbind option_bind] in Hw. cbv zeta in Hw.
  destruct (write_super_propagate mm _ _) as [c1|] eqn:Hprop; [|discriminate].
  cbn [mbind option_bind] in Hw.
  pose proof (write_super_propagate_core _ _ _ _ Hprop) as Hcore.
  exists c1. split; [exact Hcore|].
  destruct (write_super_validate mm c1 _) as [[msg|]|]; [| |discriminate];
    cbn [mbind option_bind] in Hw.
  - destruct (bch2_sb_update (bch2_fs_inconsistent c1)) as [c2|] eqn:Hu; [|discriminate].
    cbn [mbind option_bind] in Hw. injection Hw as <- <-.
    destruct (bch2_sb_update_core _ _ Hu) as [Hc He]. left. auto.
  - destruct (c_opts_nochanges c1 || c_error c1) eqn:Hno.
    + destruct (bch2_sb_update c1) as [c2|] eqn:Hu; [|discriminate].
      cbn [mbind option_bind] in Hw. injection Hw as <- <-.
      destruct (bch2_sb_update_core _ _ Hu). right. left. auto.
    + destruct (write_super_waves _ c1 0) as [[c2 ws2]|] eqn:Hwv; [|discriminate].
      cbn [mbind option_bind] in Hw.
      destruct (bch2_sb_update c2) as [c3|] eqn:Hu; [|discriminate].
      cbn [mbind option_bind] in Hw. injection Hw as <- <-.
      destruct (bch2_sb_update_core _ _ Hu) as [Hc He].
      pose proof (write_super_waves_core _ _ _ _ _ Hwv) as Hc2.
      right. right. split; [reflexivity | congruence].
Qed.

End WriteFrame.

(** Every call of [bch2_write_super] that returns has incremented the
    sequence number of the authoritative image by one (modulo [2^64]),
    whether or not anything was written, and has changed nothing else of
    that image, nor the buffer's order, the replica index, the gc index or
    the options; and a filesystem in the error state stays in it. *)
Theorem bch2_write_super_seq `{Format} (mm : allocator) (c c' : bch_fs)
    (src : bch_sb) (ws : list sb_write) :
  c_disk_sb c = Some src ->
  bch2_write_super mm c = Some (c', ws) ->
  c_disk_sb c' = Some (set_seq src (u64 (le64_to_cpu (seq src) + 1))) /\
  c_disk_sb_order c' = c_disk_sb_order c /\
  c_replicas c' = c_replicas c /\ c_replicas_gc c' = c_replicas_gc c /\
  c_opts_nochanges c' = c_opts_nochanges c /\
  c_opts_metadata_checksum c' = c_opts_metadata_checksum c /\
  (negb (c_error c) || c_error c') = true.
Proof.
  intros Hsrc Hw.
  destruct (bch2_write_super_cases mm c src c' ws Hsrc Hw) as (c1 & Hc1 & Hcase).
  assert (Hcore : fs_core (set_c_error c' false)
                  = fs_core (set_c_error (write_super_seq c src) false)).
  { change (fs_core (set_c_error c' false)) with (set_c_error (fs_core c') false).
    change (fs_core (set_c_error (write_super_seq c src) false))
      with (set_c_error (fs_core (write_super_seq c src)) false).
    rewrite <- Hc1.
    destruct Hcase as [(_ & ->)|[(_ & _ & ->)|(_ & ->)]]; reflexivity. }
  repeat split.
  - exact (f_equal c_disk_sb Hcore).
  - exact (f_equal c_disk_sb_order Hcore).
  - exact (f_equal c_replicas Hcore).
  - exact (f_equal c_replicas_gc Hcore).
  - exact (f_equal c_opts_nochanges Hcore).
  - exact (f_equal c_opts_metadata_checksum Hcore).
  - pose proof (f_equal c_error Hc1) as He1. cbn in He1.
    destruct Hcase as [(_ & Hc)|[(_ & _ & Hc)|(_ & Hc)]];
      apply (f_equal c_error) in Hc; cbn in Hc; rewrite Hc; try rewrite He1;
      destruct (c_error c); reflexivity.
Qed.

(** The filesystem and the writes that [bch2_write_super] leaves for
    [fs_one_device]. *)
Definition fs_one_device_written : bch_fs * list sb_write :=
  default (fs_one_device, []) (bch2_write_super mm_ok fs_one_device).

Lemma bch2_write_super_seq_witness :
  c_disk_sb (fst fs_one_device_written)
    = Some (set_seq (sb_valid members_one)
              (u64 (le64_to_cpu (seq (sb_valid members_one)) + 1))) /\
  c_disk_sb_order (fst fs_one_device_written) = c_disk_sb_order fs_one_device /\
  c_replicas (fst fs_one_device_written) = c_replicas fs_one_device /\
  c_replicas_gc (fst fs_one_device_written) = c_replicas_gc fs_one_device /\
  c_opts_nochanges (fst fs_one_device_written) = c_opts_nochanges fs_one_device /\
  c_opts_metadata_checksum (fst fs_one_device_written)
    = c_opts_metadata_checksum fs_one_device /\
  (negb (c_error fs_one_device) || c_error (fst fs_one_device_written)) = true.
Proof.
  apply (bch2_write_super_seq mm_ok fs_one_device (fst fs_one_device_written)
           (sb_valid members_one) (snd fs_one_device_written)).
  - reflexivity.
  - vm_compute. reflexivity.
Defined.

(** With [c->opts.nochanges] set, or with the filesystem in the error
    state, [bch2_write_super] submits no write. *)
Theorem bch2_write_super_nochanges `{Format} (mm : allocator) (c c' : bch_fs)
    (ws : list sb_write) :
  (c_opts_nochanges c || c_error c) = true ->
  bch2_write_super mm c = Some (c', ws) ->
  ws = [].
Proof.
  intros Hno Hw.
  destruct (c_disk_sb c) as [src|] eqn:Hsrc.
  2:{ unfold bch2_write_super in Hw. rewrite Hsrc in Hw. discriminate. }
  destruct (bch2_write_super_cases mm c src c' ws Hsrc Hw) as (c1 & Hc1 & Hcase).
  destruct Hcase as [(-> & _)|[(_ & -> & _)|(Hfalse & _)]]; try reflexivity.
  pose proof (f_equal c_opts_nochanges Hc1) as E1.
  pose proof (f_equal c_error Hc1) as E2. cbn in E1, E2. congruence.
Qed.

Definition set_c_opts_nochanges (c : bch_fs) (b : bool) : bch_fs :=
  {| c_disk_sb := c_disk_sb c; c_disk_sb_order := c_disk_sb_order c;
     c_devs := c_devs c; c_sb := c_sb c; c_replicas := c_replicas c;
     c_replicas_gc := c_replicas_gc c;
     c_opts_nochanges := b;
     c_opts_metadata_checksum := c_opts_metadata_checksum c;
     c_error := c_error c |}.

Lemma bch2_write_super_nochanges_witness :
  snd (default (fs_one_device, [])
         (bch2_write_super mm_ok (set_c_opts_nochanges fs_one_device true))) = [].
Proof.
  apply (bch2_write_super_nochanges mm_ok (set_c_opts_nochanges fs_one_device true)
           (fst (default (fs_one_device, [])
                   (bch2_write_super mm_ok (set_c_opts_nochanges fs_one_device true))))).
  - reflexivity.
  - vm_compute. reflexivity.
Defined.

(** * The replica index in memory *)

Definition set_c_replicas (c : bch_fs) (r : bch_replicas_cpu)
    (gc : option bch_replicas_cpu) : bch_fs :=
  {| c_disk_sb := c_disk_sb c; c_disk_sb_order := c_disk_sb_order c;
     c_devs := c_devs c; c_sb := c_sb c; c_replicas := r;
     c_replicas_gc := gc;
     c_opts_nochanges := c_opts_nochanges c;
     c_opts_metadata_checksum := c_opts_metadata_checksum c;
     c_error := c_error c |}.

(** [struct bch_extent_ptr] (bcachefs_format.h), the two fields the
    replica code reads; an extent is seen as the list of its pointers, in
    the order [extent_for_each_ptr] visits them. *)
Record bch_extent_ptr := { ptr_dev : Z; ptr_cached : bool }.

Section ReplicasMemory.
Context `{Format}.

(** The loop of [bch2_dev_has_data]: it leaves at the first entry that
    has the device.  [1 << e->data_type] is an [int] shift, defined for a
    data type below 31; no result beyond. *)
Fixpoint dev_has_data_from (es : list bch_replicas_cpu_entry) (dev ret : Z)
    : option Z :=
  match es with
  | [] => Some ret
  | e :: es' =>
      if replicas_test_dev e dev
      then if (0 <=? e_data_type e) && (e_data_type e <? 31)
           then Some (u32 (Z.lor ret (Z.shiftl 1 (e_data_type e))))
           else None
      else dev_has_data_from es' dev ret
  end.

Definition bch2_dev_has_data (c : bch_fs) (ca : bch_dev) : option Z :=
  let r := c_replicas c in
  if ca_dev_idx ca >=? u32 (replicas_dev_slots r) then Some 0
  else dev_has_data_from (cpu_replicas_entries r) (ca_dev_idx ca) 0.

(** The copy loop of [bch2_replicas_gc_start]: the entries whose data
    type has no bit in common with [typemask]. *)
Fixpoint gc_start_entries (es : list bch_replicas_cpu_entry) (typemask : Z)
    : list bch_replicas_cpu_entry :=
  match es with
  | [] => []
  | src_e :: es' =>
      if Z.land (e_data_type src_e) typemask =? 0
      then src_e :: gc_start_entries es' typemask
      else gc_start_entries es' typemask
  end.

(** [bch2_replicas_gc_start(c, typemask)]: no result when a gc index is
    already there ([BUG_ON]). *)
Definition bch2_replicas_gc_start (mm : allocator) (c : bch_fs) (typemask : Z)
    : option (Z * bch_fs) :=
  match c_replicas_gc c with
  | Some _ => None
  | None =>
      let src := c_replicas c in
      if negb (kmalloc mm) then Some (- ENOMEM, c)
      else
        let kept := gc_start_entries (cpu_replicas_entries src) typemask in
        let r := {| r_nr := Z.of_nat (length kept);
                    r_entry_size := r_entry_size src;
                    r_entries := eytzinger0_sort kept |} in
        Some (0, set_c_replicas c src (Some r))
  end.

(** [max_dev] over the pointers that are not cached. *)
Definition extent_max_dev (e : list bch_extent_ptr) : Z :=
  fold_left (fun m ptr => if ptr_cached ptr then m else Z.max m (ptr_dev ptr)) e 0.

(** [memcpy] of an entry of [old_size] bytes into a zeroed slot of
    [entry_size] bytes; an entry of the index has [old_size - 1] bitmap
    bytes. *)
Definition gc_copy_entry (entry_size old_size : Z) (e : bch_replicas_cpu_entry)
    : bch_replicas_cpu_entry :=
  {| e_data_type := e_data_type e;
     e_devs := (e_devs e ++ repeat 0 (Z.to_nat (entry_size - old_size)))%list |}.

(** The second [extent_for_each_ptr] loop of [bch2_update_gc_replicas]. *)
Definition gc_new_entry (entry_size data_type : Z) (e : list bch_extent_ptr)
    : bch_replicas_cpu_entry :=
  fold_left (fun new_e ptr => if ptr_cached ptr then new_e
                              else replicas_set_dev new_e (ptr_dev ptr))
            e {| e_data_type := data_type;
                 e_devs := repeat 0 (Z.to_nat (entry_size - 1)) |}.

(** [bch2_update_gc_replicas(c, gc_r, e, data_type)] *)
Definition bch2_update_gc_replicas (mm : allocator) (c : bch_fs)
    (gc_r : bch_replicas_cpu) (e : list bch_extent_ptr) (data_type : Z)
    : Z * bch_fs :=
  let max_dev := extent_max_dev e in
  let entry_size := u32 (1 + DIV_ROUND_UP (max_dev + 1) 8) in
  let entry_size := Z.max entry_size (r_entry_size gc_r) in
  let nr := u32 (r_nr gc_r + 1) in
  if negb (kmalloc mm) then (- ENOMEM, c)
  else
    let old := map (gc_copy_entry entry_size (r_entry_size gc_r))
                   (cpu_replicas_entries gc_r) in
    let new_e := gc_new_entry entry_size data_type e in
    (0, set_c_replicas c (c_replicas c)
          (Some {| r_nr := nr; r_entry_size := entry_size;
                   r_entries := eytzinger0_sort (old ++ [new_e])%list |})).

(** [bch2_sb_replicas_to_cpu_replicas(c)]: the index is rebuilt from the
    replicas field of the authoritative image. *)
Definition bch2_sb_replicas_to_cpu_replicas (mm : allocator) (c : bch_fs)
    : option (Z * bch_fs) :=
  s ← c_disk_sb c;
  sb_r ← bch2_sb_get_replicas s;
  match __bch2_sb_replicas_to_cpu_replicas mm (field_bytes s <$> sb_r) with
  | None => Some (- ENOMEM, c)
  | Some cpu_r => Some (0, set_c_replicas c cpu_r (c_replicas_gc c))
  end.

(** [bch2_sb_to_fs(c, src)] *)
Definition bch2_sb_to_fs (mm : allocator) (c : bch_fs) (src : bch_sb)
    : option (Z * bch_fs) :=
  journal_buckets ← bch2_sb_get_journal src;
  let journal_u64s := match journal_buckets with
                      | Some p => le32_to_cpu (field_u64s (_data src p))
                      | None => 0
                      end in
  let '(ret, c1) := bch2_fs_sb_realloc mm c (le32_to_cpu (u64s src) - journal_u64s) in
  if negb (ret =? 0) then Some (- ENOMEM, c1)
  else
    dst ← c_disk_sb c1;
    dst' ← __copy_super (buffer_u64s (c_disk_sb_order c1)) dst src;
    let c2 := set_c_disk_sb c1 (Some dst') (c_disk_sb_order c1) in
    '(ret, c3) ← bch2_sb_replicas_to_cpu_replicas mm c2;
    if negb (ret =? 0) then Some (ret, c3)
    else c4 ← bch2_sb_update c3; Some (0, c4).

End ReplicasMemory.

(** ** [bch2_dev_has_data] *)

Section DevHasData.
Context `{Format}.

Lemma dev_has_data_from_spec dev : forall es ret,
  dev_has_data_from es dev 0 = Some ret ->
  (ret = 0 /\ Forall (fun e => replicas_test_dev e dev = false) es) \/
  (exists es1 e es2,
     es = (es1 ++ e :: es2)%list /\
     Forall (fun e => replicas_test_dev e dev = false) es1 /\
     replicas_test_dev e dev = true /\
     0 <= e_data_type e < 31 /\ ret = 2 ^ e_data_type e).
Proof.
  induction es as [|e es IH]; intros ret Hr; cbn [dev_has_data_from] in Hr.
  - injection Hr as <-. left. split; [reflexivity | constructor].
  - destruct (replicas_test_dev e dev) eqn:Ht.
    + destruct (Z.leb_spec 0 (e_data_type e)); [|discriminate].
      destruct (Z.ltb_spec (e_data_type e) 31); [|discriminate].
      cbn [andb] in Hr. injection Hr as <-. right. exists [], e, es.
      repeat split; try assumption; [constructor|].
      rewrite Z.lor_0_l, Z.shiftl_1_l. apply u32_small.
      split; [apply Z.pow_nonneg; lia|].
      apply Z.pow_lt_mono_r; lia.
    + destruct (IH ret Hr) as [(-> & Hall)|(es1 & e1 & es2 & -> & Hall & He & Hty & ->)].
      * left. split; [reflexivity | now constructor].
      * right. exists (e :: es1), e1, es2. repeat split; try assumption; try lia.
        now constructor.
Qed.

End DevHasData.

(** [bch2_dev_has_data] answers 0 when the device lies beyond the bitmaps
    or no entry of the index has it; otherwise it answers the single bit
    of the data type of the first entry, in index order, that has the
    device, and never more than that one bit. *)
Theorem bch2_dev_has_data_first `{Format} (c : bch_fs) (ca : bch_dev) (ret : Z) :
  bch2_dev_has_data c ca = Some ret ->
  (ret = 0 /\
   (u32 (replicas_dev_slots (c_replicas c)) <= ca_dev_idx ca \/
    Forall (fun e => replicas_test_dev e (ca_dev_idx ca) = false)
           (cpu_replicas_entries (c_replicas c)))) \/
  (exists es1 e es2,
     cpu_replicas_entries (c_replicas c) = (es1 ++ e :: es2)%list /\
     Forall (fun e => replicas_test_dev e (ca_dev_idx ca) = false) es1 /\
     replicas_test_dev e (ca_dev_idx ca) = true /\
     0 <= e_data_type e < 31 /\ ret = 2 ^ e_data_type e).
Proof.
  unfold bch2_dev_has_data. cbv zeta.
  destruct (Z.geb_spec (ca_dev_idx ca) (u32 (replicas_dev_slots (c_replicas c)))).
  - intros [= <-]. left. auto.
  - intros Hr. destruct (dev_has_data_from_spec _ _ _ Hr) as [(-> & Hall)|Hex].
    + left. auto.
    + right. exact Hex.
Qed.

(** Device 1 is in the btree entry and in the user entry that follows it:
    only the btree bit is answered.  Device 5 is in no entry. *)
Definition fs_two_types : bch_fs :=
  fs_three [ {| e_data_type := 3; e_devs := [2] |};
             {| e_data_type := 4; e_devs := [3] |} ].

Lemma bch2_dev_has_data_first_witness :
  (2 ^ 3 = 0 /\
   (u32 (replicas_dev_slots (c_replicas fs_two_types))
      <= ca_dev_idx (dev_of 1 true sb_empty) \/
    Forall (fun e => replicas_test_dev e (ca_dev_idx (dev_of 1 true sb_empty)) = false)
           (cpu_replicas_entries (c_replicas fs_two_types)))) \/
  (exists es1 e es2,
     cpu_replicas_entries (c_replicas fs_two_types) = (es1 ++ e :: es2)%list /\
     Forall (fun e => replicas_test_dev e (ca_dev_idx (dev_of 1 true sb_empty)) = false)
            es1 /\
     replicas_test_dev e (ca_dev_idx (dev_of 1 true sb_empty)) = true /\
     0 <= e_data_type e < 31 /\ 2 ^ 3 = 2 ^ e_data_type e).
Proof.
  apply (bch2_dev_has_data_first fs_two_types (dev_of 1 true sb_empty) (2 ^ 3)).
  vm_compute. reflexivity.
Defined.

Example bch2_dev_has_data_runs :
  bch2_dev_has_data fs_two_types (dev_of 0 true sb_empty) = Some (2 ^ 4) /\
  bch2_dev_has_data fs_two_types (dev_of 1 true sb_empty) = Some (2 ^ 3) /\
  bch2_dev_has_data fs_two_types (dev_of 5 true sb_empty) = Some 0 /\
  bch2_dev_has_data fs_two_types (dev_of 200 true sb_empty) = Some 0.
Proof. repeat split; vm_compute; reflexivity. Qed.

(** ** [bch2_replicas_gc_start] *)

Section GcStart.
Context `{Format}.

Lemma gc_start_entries_filter es typemask :
  gc_start_entries es typemask
  = List.filter (fun e => Z.land (e_data_type e) typemask =? 0) es.
Proof.
  induction es as [|e es IH]; cbn [gc_start_entries List.filter]; [reflexivity|].
  now rewrite IH.
Qed.

Lemma cpu_replicas_entries_sorted nr size l :
  nr = Z.of_nat (length l) ->
  cpu_replicas_entries {| r_nr := nr; r_entry_size := size;
                          r_entries := eytzinger0_sort l |}
  = eytzinger0_sort l.
Proof.
  intros ->. unfold cpu_replicas_entries. cbn [r_nr r_entries].
  rewrite Nat2Z.id, <- (Permutation_length (eytzinger0_sort_perm l)).
  apply firstn_all.
Qed.

End GcStart.

(** [bch2_replicas_gc_start] returns [-ENOMEM] and changes nothing, or
    returns 0 having installed a gc index with the entry size of
    [c->replicas] whose entries are, up to order, the entries of
    [c->replicas] whose data type has no bit in common with [typemask]
    (the type's number is and-ed with the mask, not its bit);
    [c->replicas] itself and the rest of the filesystem are untouched.
    It returns at all only when no gc index was there. *)
Theorem bch2_replicas_gc_start_keeps `{Format} (mm : allocator) (c c' : bch_fs)
    (typemask ret : Z) :
  bch2_replicas_gc_start mm c typemask = Some (ret, c') ->
  c_replicas_gc c = None /\
  ((ret = - ENOMEM /\ c' = c) \/
   (ret = 0 /\
    exists gc,
      c' = set_c_replicas c (c_replicas c) (Some gc) /\
      r_entry_size gc = r_entry_size (c_replicas c) /\
      Permutation (cpu_replicas_entries gc)
        (List.filter (fun e => Z.land (e_data_type e) typemask =? 0)
                     (cpu_replicas_entries (c_replicas c))))).
Proof.
  unfold bch2_replicas_gc_start. intros Hr.
  destruct (c_replicas_gc c); [discriminate|]. split; [reflexivity|].
  destruct (kmalloc mm); cbn [negb] in Hr; injection Hr as <- <-; [right | left; auto].
  split; [reflexivity|]. eexists. split; [reflexivity|]. split; [reflexivity|].
  rewrite cpu_replicas_entries_sorted by reflexivity.
  rewrite <- gc_start_entries_filter. apply eytzinger0_sort_perm.
Qed.

Lemma bch2_replicas_gc_start_keeps_witness :
  c_replicas_gc fs_three_user = None /\
  ((0 = - ENOMEM /\
    snd (default (0, fs_three_user) (bch2_replicas_gc_start mm_ok fs_three_user 4))
      = fs_three_user) \/
   (0 = 0 /\
    exists gc,
      snd (default (0, fs_three_user) (bch2_replicas_gc_start mm_ok fs_three_user 4))
        = set_c_replicas fs_three_user (c_replicas fs_three_user) (Some gc) /\
      r_entry_size gc = r_entry_size (c_replicas fs_three_user) /\
      Permutation (cpu_replicas_entries gc)
        (List.filter (fun e => Z.land (e_data_type e) 4 =? 0)
                     (cpu_replicas_entries (c_replicas fs_three_user))))).
Proof.
  apply (bch2_replicas_gc_start_keeps mm_ok fs_three_user _ 4 0).
  vm_compute. reflexivity.
Defined.

(** With the mask [1 << BCH_DATA_USER] the user entries (type 4) stay in
    the gc index, 4 and 16 having no bit in common; with the mask 4 they
    are left out. *)
Example bch2_replicas_gc_start_runs :
  (r ← bch2_replicas_gc_start mm_ok fs_three_user (Z.shiftl 1 BCH_DATA_USER);
   gc ← c_replicas_gc (snd r);
   Some (map e_data_type (cpu_replicas_entries gc))) = Some [4; 3; 4] /\
  (r ← bch2_replicas_gc_start mm_ok fs_three_user 4;
   gc ← c_replicas_gc (snd r);
   Some (map e_data_type (cpu_replicas_entries gc))) = Some [3].
Proof. split; vm_compute; reflexivity. Qed.

(** ** [bch2_update_gc_replicas] *)

(** The devices of the pointers of an extent that are not cached. *)
Definition dirty_devs (e : list bch_extent_ptr) : list Z :=
  map ptr_dev (List.filter (fun ptr => negb (ptr_cached ptr)) e).

Section UpdateGc.
Context `{Format}.

Lemma extent_max_dev_fold e : forall m,
  fold_left (fun m ptr => if ptr_cached ptr then m else Z.max m (ptr_dev ptr)) e m
  = fold_left Z.max (dirty_devs e) m.
Proof.
  unfold dirty_devs.
  induction e as [|p e IH]; intros m; cbn [fold_left List.filter]; [reflexivity|].
  destruct (ptr_cached p); cbn [negb map fold_left]; apply IH.
Qed.

Lemma fold_max_bounds l : forall m,
  m <= fold_left Z.max l m /\
  (forall d, In d l -> d <= fold_left Z.max l m) /\
  (forall b, m <= b -> (forall d, In d l -> d <= b) -> fold_left Z.max l m <= b).
Proof.
  induction l as [|x l IH]; intros m; cbn [fold_left].
  - repeat split; [lia | intros d [] | intros; assumption].
  - destruct (IH (Z.max m x)) as (H1 & H2 & H3). repeat split.
    + lia.
    + intros d [<-|Hd]; [lia | now apply H2].
    + intros b Hb Hall. apply H3; [|intros d Hd; apply Hall; now right].
      specialize (Hall x (or_introl eq_refl)). lia.
Qed.

Lemma gc_new_entry_fold entry_size data_type e :
  gc_new_entry entry_size data_type e
  = fold_left replicas_set_dev (dirty_devs e)
      {| e_data_type := data_type; e_devs := repeat 0 (Z.to_nat (entry_size - 1)) |}.
Proof.
  unfold gc_new_entry, dirty_devs. generalize ({| e_data_type := data_type;
    e_devs := repeat 0 (Z.to_nat (entry_size - 1)) |}).
  induction e as [|p e IH]; intros z; cbn [fold_left List.filter]; [reflexivity|].
  destruct (ptr_cached p); cbn [negb map fold_left]; apply IH.
Qed.

Lemma gc_copy_entry_test entry_size old_size e0 d :
  replicas_test_dev (gc_copy_entry entry_size old_size e0) d = replicas_test_dev e0 d.
Proof.
  rewrite !replicas_test_dev_bit. unfold gc_copy_entry. cbn [e_devs]. f_equal.
  destruct (Nat.lt_ge_cases (Z.to_nat (Z.shiftr d 3)) (length (e_devs e0))) as [Hlt|Hge].
  - now rewrite app_nth1.
  - rewrite app_nth2 by lia. rewrite (nth_overflow (e_devs e0)) by lia.
    apply nth_repeat.
Qed.

Lemma div_round_up_8_room m d : 0 <= d <= m -> d < 8 * DIV_ROUND_UP (m + 1) 8.
Proof.
  intros Hd. unfold DIV_ROUND_UP.
  pose proof (Z.div_mod (m + 1 + 8 - 1) 8 ltac:(lia)).
  pose proof (Z.mod_pos_bound (m + 1 + 8 - 1) 8 ltac:(lia)). lia.
Qed.

End UpdateGc.

(** [bch2_update_gc_replicas] returns [-ENOMEM] and changes nothing, or
    returns 0 having replaced the gc index by one with one entry more: up
    to order, the old entries, each with its data type and the same
    devices in its bitmap, and a new entry of the data type given whose
    bitmap has exactly the devices of the extent's pointers that are not
    cached.  No entry is lost and the entry size never shrinks. *)
Theorem bch2_update_gc_replicas_adds `{Format} (mm : allocator) (c c' : bch_fs)
    (gc_r : bch_replicas_cpu) (e : list bch_extent_ptr) (data_type ret : Z) :
  0 <= r_nr gc_r <= Z.of_nat (length (r_entries gc_r)) ->
  r_nr gc_r + 1 < 2 ^ 32 ->
  Forall (fun ptr => 0 <= ptr_dev ptr < 256) e ->
  bch2_update_gc_replicas mm c gc_r e data_type = (ret, c') ->
  (ret = - ENOMEM /\ c' = c) \/
  (ret = 0 /\
   exists gc old new_e,
     c' = set_c_replicas c (c_replicas c) (Some gc) /\
     r_nr gc = r_nr gc_r + 1 /\ r_entry_size gc_r <= r_entry_size gc /\
     Permutation (cpu_replicas_entries gc) (old ++ [new_e])%list /\
     Forall2 (fun e0 e1 =>
                e_data_type e1 = e_data_type e0 /\
                forall d, replicas_test_dev e1 d = replicas_test_dev e0 d)
             (cpu_replicas_entries gc_r) old /\
     e_data_type new_e = data_type /\
     forall d, 0 <= d ->
       replicas_test_dev new_e d = existsb (fun x => d =? x) (dirty_devs e)).
Proof.
  intros Hnr Hwrap Hdevs. unfold bch2_update_gc_replicas. cbv zeta.
  destruct (kmalloc mm); cbn [negb]; intros [= <- <-]; [right | left; auto].
  split; [reflexivity|].
  set (size := Z.max _ (r_entry_size gc_r)).
  assert (Hu : u32 (r_nr gc_r + 1) = r_nr gc_r + 1) by (apply u32_small; lia).
  assert (Hlen : length (cpu_replicas_entries gc_r) = Z.to_nat (r_nr gc_r)).
  { unfold cpu_replicas_entries. rewrite length_firstn. lia. }
  (* the bitmap is wide enough for every device of the extent *)
  assert (Hdirty : forall d, In d (dirty_devs e) -> 0 <= d < 256).
  { intros d Hd. unfold dirty_devs in Hd. apply in_map_iff in Hd as (p & <- & Hp).
    apply List.filter_In in Hp as [Hp _].
    exact (proj1 (List.Forall_forall _ _) Hdevs p Hp). }
  assert (Hmax : 0 <= extent_max_dev e <= 255 /\
                 forall d, In d (dirty_devs e) -> d <= extent_max_dev e).
  { unfold extent_max_dev. rewrite extent_max_dev_fold.
    destruct (fold_max_bounds (dirty_devs e) 0) as (H1 & H2 & H3).
    split; [split; [exact H1|] | exact H2].
    apply H3; [lia|]. intros d Hd. specialize (Hdirty d Hd). lia. }
  destruct Hmax as [Hmr Hmd].
  assert (Hsize : forall d, In d (dirty_devs e) ->
            0 <= d < 8 * Z.of_nat (length (repeat 0 (Z.to_nat (size - 1))))).
  { intros d Hd. rewrite repeat_length. specialize (Hdirty d Hd).
    specialize (Hmd d Hd).
    pose proof (div_round_up_8_room (extent_max_dev e) d ltac:(lia)) as Hroom.
    assert (Hdiv : DIV_ROUND_UP (extent_max_dev e + 1) 8 <= 32).
    { unfold DIV_ROUND_UP. apply Z.lt_succ_r, Z.div_lt_upper_bound; lia. }
    assert (Hsz : 1 + DIV_ROUND_UP (extent_max_dev e + 1) 8 <= size).
    { unfold size. rewrite u32_small by lia. lia. }
    lia. }
  eexists _, _, _. split; [reflexivity|]. cbn [r_nr r_entry_size].
  split; [exact Hu|]. split; [unfold size; lia|]. split.
  - rewrite cpu_replicas_entries_sorted; [apply eytzinger0_sort_perm|].
    rewrite Hu, length_app, length_map, Hlen. cbn [length]. lia.
  - split; [|split].
    + clear Hlen.
      induction (cpu_replicas_entries gc_r) as [|e0 es IH]; cbn [map]; constructor.
      * split; [reflexivity|]. intros d. apply gc_copy_entry_test.
      * exact IH.
    + rewrite gc_new_entry_fold.
      now destruct (fold_set_dev_props (dirty_devs e)
                      {| e_data_type := data_type;
                         e_devs := repeat 0 (Z.to_nat (size - 1)) |} Hsize)
        as (Ht & _ & _).
    + intros d Hd. rewrite gc_new_entry_fold.
      destruct (fold_set_dev_props (dirty_devs e)
                  {| e_data_type := data_type;
                     e_devs := repeat 0 (Z.to_nat (size - 1)) |} Hsize)
        as (_ & _ & Htest).
      rewrite (Htest d Hd), test_dev_zero. apply orb_false_r.
Qed.

(** An extent with dirty pointers to devices 9 and 0 and a cached one to
    device 1, marked in the index of [fs_three_user]. *)
Definition extent_9_0 : list bch_extent_ptr :=
  [ {| ptr_dev := 9; ptr_cached := false |};
    {| ptr_dev := 1; ptr_cached := true |};
    {| ptr_dev := 0; ptr_cached := false |} ].

Definition fs_three_marked : bch_fs :=
  snd (bch2_update_gc_replicas mm_ok fs_three_user (c_replicas fs_three_user)
         extent_9_0 4).

Lemma bch2_update_gc_replicas_adds_witness :
  (0 = - ENOMEM /\ fs_three_marked = fs_three_user) \/
  (0 = 0 /\
   exists gc old new_e,
     fs_three_marked = set_c_replicas fs_three_user (c_replicas fs_three_user) (Some gc) /\
     r_nr gc = r_nr (c_replicas fs_three_user) + 1 /\
     r_entry_size (c_replicas fs_three_user) <= r_entry_size gc /\
     Permutation (cpu_replicas_entries gc) (old ++ [new_e])%list /\
     Forall2 (fun e0 e1 =>
                e_data_type e1 = e_data_type e0 /\
                forall d, replicas_test_dev e1 d = replicas_test_dev e0 d)
             (cpu_replicas_entries (c_replicas fs_three_user)) old /\
     e_data_type new_e = 4 /\
     forall d, 0 <= d ->
       replicas_test_dev new_e d = existsb (fun x => d =? x) (dirty_devs extent_9_0)).
Proof.
  apply (bch2_update_gc_replicas_adds mm_ok fs_three_user fs_three_marked
           (c_replicas fs_three_user) extent_9_0 4 0).
  - vm_compute. split; congruence.
  - vm_compute. reflexivity.
  - repeat constructor; cbn; lia.
  - vm_compute. reflexivity.
Defined.

Example bch2_update_gc_replicas_runs :
  (gc ← c_replicas_gc fs_three_marked;
   Some (r_nr gc, r_entry_size gc,
         map (fun e => (e_data_type e, e_devs e)) (cpu_replicas_entries gc)))
  = Some (4, 3, [(4, [3; 0]); (4, [1; 2]); (4, [6; 0]); (3, [5; 0])]).
Proof. vm_compute. reflexivity. Qed.

(** ** [bch2_sb_to_fs] on a filesystem that has no image yet *)

Section ToFs.
Context `{Format}.






Lemma dir_lookup_filter_journal gs :
  dir_lookup (List.filter not_journal gs) BCH_SB_FIELD_journal = None.
Proof.
  induction gs as [|g gs IH]; [reflexivity|].
  cbn [List.filter]. unfold not_journal at 1.
  destruct (Z.eqb_spec (f_type g) BCH_SB_FIELD_journal) as [Hj|Hj];
    cbn [negb dir_lookup]; [exact IH|].
  destruct (Z.eqb_spec (f_type g) BCH_SB_FIELD_journal); [contradiction | exact IH].
Qed.



End ToFs.


(** A filesystem with no image yet, and an image with a journal field, a
    field of type 1 and a replicas field holding [replicas_three]. *)
Definition fs_fresh : bch_fs := set_c_disk_sb (fs_of sb_empty) None 0.

Definition sb_mounted : bch_sb :=
  sb_with [field_word 2 0; 99; field_word 2 1; 7;
           field_word 3 3; 0x0002020301000204; 0x0000000102010304].



Definition fs_mounted : bch_fs :=
  from_option snd fs_fresh (bch2_sb_to_fs mm_ok fs_fresh sb_mounted).


(** The same call, run: the journal field is left out, the other two are
    there, and the index holds the three entries of the replicas field. *)
Example bch2_sb_to_fs_runs :
  (dst' ← c_disk_sb fs_mounted;
   Some (field_payload dst' 0, field_payload dst' 1, u64s dst',
         map (fun e => (e_data_type e, e_devs e))
             (cpu_replicas_entries (c_replicas fs_mounted))))
  = Some (None, Some [7], 5, [(4, [3]); (3, [5]); (4, [6])]).
Proof. vm_compute. reflexivity. Qed.

(** ** [bch2_fs_sb_field_resize] and the buffers of the devices *)

Section FsResize.
Context `{Format}.

Lemma dev_at_Some c i ca : dev_at c i = Some ca <-> c_devs c !! i = Some (Some ca).
Proof.
  unfold dev_at. destruct (c_devs c !! i) as [[ca0|]|]; cbn; split; congruence.
Qed.

(** [for_each_online_member] visits every online slot once. *)
Lemma online_from_In ds : forall k i,
  In i (online_from k ds) <->
  (k <= i)%nat /\ exists ca, ds !! (i - k)%nat = Some (Some ca) /\ ca_online ca = true.
Proof.
  induction ds as [|d ds IH]; intros k i; cbn [online_from].
  - split; [intros [] | intros (_ & ca & Hl & _); discriminate].
  - assert (Hrest : In i (online_from (S k) ds) <->
              (k < i)%nat /\ exists ca, (d :: ds) !! (i - k)%nat = Some (Some ca) /\
                                        ca_online ca = true).
    { rewrite IH. split; intros (Hk & ca & Hl & Hon); (split; [lia|]); exists ca;
        (split; [|exact Hon]).
      - replace (i - k)%nat with (S (i - S k)) by lia. exact Hl.
      - replace (i - k)%nat with (S (i - S k)) in Hl by lia. exact Hl. }
    destruct (is_online d) eqn:Hd; cbn [In]; rewrite Hrest.
    + split.
      * intros [<-|(Hk & Hex)]; [|split; [lia | exact Hex]].
        split; [lia|]. rewrite Nat.sub_diag. destruct d as [ca|]; [|discriminate].
        exists ca. split; [reflexivity | exact Hd].
      * intros (Hk & Hex). destruct (Nat.eq_dec k i) as [->|Hne]; [now left | right].
        split; [lia | exact Hex].
    + split; [intros (Hk & Hex); split; [lia | exact Hex]|].
      intros (Hk & ca & Hl & Hon). destruct (Nat.eq_dec k i) as [->|Hne].
      * rewrite Nat.sub_diag in Hl. cbn in Hl. injection Hl as ->.
        cbn [is_online] in Hd. congruence.
      * split; [lia|]. exists ca. split; assumption.
Qed.

Lemma online_from_NoDup ds : forall k, List.NoDup (online_from k ds).
Proof.
  induction ds as [|d ds IH]; intros k; cbn [online_from]; [constructor|].
  destruct (is_online d); [|apply IH]. constructor; [|apply IH].
  intros Hin. apply online_from_In in Hin as [Hk _]. lia.
Qed.

(** The loop over the online members, when it runs to its end: every
    member visited had its buffer grown by [bch2_sb_realloc], which
    returned 0; the other slots are as they were. *)
Lemma fs_resize_members_spec mm d : forall members c c',
  List.NoDup members ->
  fs_resize_members mm c d members = Some (true, c') ->
  c' = set_c_devs c (c_devs c') /\
  length (c_devs c') = length (c_devs c) /\
  (forall i, ~ In i members -> c_devs c' !! i = c_devs c !! i) /\
  (forall i, In i members ->
     exists ca si h',
       dev_at c i = Some ca /\ sb (ca_disk_sb ca) = Some si /\
       bch2_sb_realloc mm (ca_disk_sb ca) (le32_to_cpu (u64s si) + d) = Some (0, h') /\
       dev_at c' i = Some (set_ca_disk_sb ca h')).
Proof.
  induction members as [|i rest IH]; intros c c' Hnd Hrun; cbn [fs_resize_members] in Hrun.
  - injection Hrun as <-. split; [now destruct c|]. split; [reflexivity|].
    split; [reflexivity | intros i []].
  - destruct (dev_at c i) as [ca|] eqn:Hca; [|discriminate].
    cbn [mbind option_bind] in Hrun.
    destruct (sb (ca_disk_sb ca)) as [si|] eqn:Hsi; [|discriminate].
    cbn [mbind option_bind] in Hrun.
    destruct (bch2_sb_realloc mm (ca_disk_sb ca) _) as [[ret h1]|] eqn:Hre; [|discriminate].
    cbn [mbind option_bind] in Hrun.
    destruct (Z.eqb_spec ret 0) as [->|Hne]; cbn [negb] in Hrun; [|discriminate].
    inversion Hnd as [|? ? Hnotin Hnd']; subst.
    destruct (IH _ _ Hnd' Hrun) as (Hc' & Hlen & Hout & Hin).
    unfold set_dev in Hc', Hlen, Hout. cbn [c_devs set_c_devs] in Hlen, Hout.
    rewrite length_insert in Hlen.
    apply dev_at_Some in Hca.
    assert (Hi : (i < length (c_devs c))%nat) by (apply lookup_lt_is_Some; eauto).
    split; [rewrite Hc'; reflexivity|]. split; [exact Hlen|]. split.
    + intros j Hj. cbn [In] in Hj.
      rewrite Hout by tauto. apply list_lookup_insert_ne. intros ->. tauto.
    + intros j [<-|Hj].
      * exists ca, si, h1. split; [now apply dev_at_Some|]. split; [exact Hsi|].
        split; [exact Hre|]. apply dev_at_Some. rewrite (Hout i Hnotin).
        now apply list_lookup_insert_eq.
      * destruct (Hin j Hj) as (caj & sj & hj & Hd & Hs & Hr & Hd').
        exists caj, sj, hj. split; [|auto].
        apply dev_at_Some in Hd. apply dev_at_Some.
        unfold set_dev in Hd. cbn [c_devs set_c_devs] in Hd.
        rewrite list_lookup_insert_ne in Hd; [exact Hd|]. intros ->. contradiction.
Qed.

End FsResize.

(** [bch2_fs_sb_field_resize], when it returns a field: the buffer of the
    filesystem has room for the image grown by the change [d] of the
    field's length, the buffer of every online device has room for that
    device's image grown by [d], and the offline devices are exactly as
    they were, with no room made. *)
Theorem bch2_fs_sb_field_resize_rooms `{Format} (mm : allocator) (c c' : bch_fs)
    (type n p : Z) :
  0 < PAGE_SIZE ->
  bch2_fs_sb_field_resize mm c type n = Some (Some p, c') ->
  exists s f,
    c_disk_sb c = Some s /\ bch2_sb_field_get s type = Some f /\
    let d := - match f with
               | Some q => le32_to_cpu (field_u64s (_data s q))
               | None => 0
               end + u32 n in
    u32 (le32_to_cpu (u64s s) + d) <= buffer_u64s (c_disk_sb_order c') /\
    length (c_devs c') = length (c_devs c) /\
    forall i ca, dev_at c i = Some ca ->
      if ca_online ca
      then exists si h',
             sb (ca_disk_sb ca) = Some si /\
             dev_at c' i = Some (set_ca_disk_sb ca h') /\
             u32 (le32_to_cpu (u64s si) + d) <= buffer_u64s (page_order h')
      else dev_at c' i = Some ca.
Proof.
  intros HP Hrun. unfold bch2_fs_sb_field_resize in Hrun.
  destruct (c_disk_sb c) as [s|] eqn:Hs; [|discriminate].
  cbn [mbind option_bind] in Hrun.
  destruct (bch2_sb_field_get s type) as [f|] eqn:Hf; [|discriminate].
  cbn [mbind option_bind] in Hrun.
  exists s, f. split; [reflexivity|]. split; [exact Hf|]. cbv zeta.
  set (d := - match f with
              | Some q => le32_to_cpu (field_u64s (_data s q))
              | None => 0
              end + u32 n) in *.
  destruct (bch2_fs_sb_realloc mm c (le32_to_cpu (u64s s) + d)) as [ret c1] eqn:Hre.
  destruct (Z.eqb_spec ret 0) as [->|Hne]; cbn [negb] in Hrun; [|discriminate].
  assert (Hc1 : c_devs c1 = c_devs c /\
                u32 (le32_to_cpu (u64s s) + d) <= buffer_u64s (c_disk_sb_order c1)).
  { unfold bch2_fs_sb_realloc in Hre. rewrite vstruct_bytes_u64, Hs in Hre.
    rewrite (bool_decide_true (is_Some (Some s))) in Hre by eauto. cbn [andb] in Hre.
    pose proof (u32_range (le32_to_cpu (u64s s) + d)) as Hn.
    destruct (Z.leb_spec (get_order (__vstruct_bytes (u32 (le32_to_cpu (u64s s) + d))))
                (c_disk_sb_order c)) as [Hle|Hgt].
    - injection Hre as <-. split; [reflexivity | apply buffer_u64s_room; lia].
    - destruct (get_free_pages mm _) as [fresh|]; [|discriminate].
      injection Hre as <-. cbn [c_devs c_disk_sb_order set_c_disk_sb].
      split; [reflexivity | apply buffer_u64s_room; lia]. }
  destruct Hc1 as [Hdevs Hroom].
  destruct (fs_resize_members mm c1 d (online_members c1)) as [[ok c2]|] eqn:Hloop;
    [|discriminate].
  cbn [mbind option_bind] in Hrun.
  destruct ok; cbn [negb] in Hrun; [|discriminate].
  destruct (fs_resize_members_spec mm d _ _ _ (online_from_NoDup _ _) Hloop)
    as (Hc2 & Hlen & Hout & Hin).
  destruct (_ && _) in Hrun; [discriminate|].
  destruct (c_disk_sb c2) as [s1|] eqn:Hs1; [|discriminate].
  cbn [mbind option_bind] in Hrun.
  destruct (__bch2_sb_field_resize s1 f n) as [s2 f'] eqn:Hres.
  injection Hrun as <- <-. cbn [c_disk_sb_order c_devs set_c_disk_sb].
  assert (Hord : c_disk_sb_order c2 = c_disk_sb_order c1) by (rewrite Hc2; reflexivity).
  rewrite Hord. split; [exact Hroom|]. split; [congruence|].
  intros i ca Hca.
  assert (Hca1 : c_devs c1 !! i = Some (Some ca)).
  { rewrite Hdevs. now apply dev_at_Some. }
  assert (Hmem : In i (online_members c1) <-> ca_online ca = true).
  { unfold online_members. rewrite online_from_In, Nat.sub_0_r, Hca1. split.
    - intros (_ & ca0 & [= <-] & Hon). exact Hon.
    - intros Hon. split; [lia|]. eauto. }
  destruct (ca_online ca) eqn:Hon.
  - destruct (Hin i (proj2 Hmem eq_refl)) as (ca0 & si & h' & Hd & Hsi & Hr & Hd').
    apply dev_at_Some in Hd. rewrite Hca1 in Hd. injection Hd as <-.
    exists si, h'. split; [exact Hsi|]. split.
    + apply dev_at_Some. cbn [c_devs set_c_disk_sb]. now apply dev_at_Some.
    + exact (bch2_sb_realloc_capacity mm _ si _ h' HP Hsi Hr).
  - apply dev_at_Some. cbn [c_devs set_c_disk_sb]. rewrite Hout; [exact Hca1|].
    intros Hi. apply Hmem in Hi. discriminate.
Qed.

(** A filesystem around [sb_shared] with device 0 online, an empty slot
    and device 2 offline, both devices holding [sb_device]; its field of
    type 1 is grown from 2 words to 4. *)
Definition fs_two_devices : bch_fs :=
  set_c_devs (fs_of sb_shared)
    [Some (dev_open 0 sb_device); None; Some (dev_of 2 false sb_device)].

Definition fs_two_devices_grown : bch_fs :=
  from_option snd fs_two_devices (bch2_fs_sb_field_resize mm_ok fs_two_devices 1 4).

Lemma bch2_fs_sb_field_resize_rooms_witness :
  exists s f,
    c_disk_sb fs_two_devices = Some s /\ bch2_sb_field_get s 1 = Some f /\
    let d := - match f with
               | Some q => le32_to_cpu (field_u64s (_data s q))
               | None => 0
               end + u32 4 in
    u32 (le32_to_cpu (u64s s) + d) <= buffer_u64s (c_disk_sb_order fs_two_devices_grown) /\
    length (c_devs fs_two_devices_grown) = length (c_devs fs_two_devices) /\
    forall i ca, dev_at fs_two_devices i = Some ca ->
      if ca_online ca
      then exists si h',
             sb (ca_disk_sb ca) = Some si /\
             dev_at fs_two_devices_grown i = Some (set_ca_disk_sb ca h') /\
             u32 (le32_to_cpu (u64s si) + d) <= buffer_u64s (page_order h')
      else dev_at fs_two_devices_grown i = Some ca.
Proof.
  apply (bch2_fs_sb_field_resize_rooms mm_ok fs_two_devices fs_two_devices_grown 1 4 2).
  - vm_compute. reflexivity.
  - vm_compute. reflexivity.
Defined.

(** The same call, run: the field of type 1 has three payload words, the
    old one and two zeroes, and the image has grown by two words. *)
Example bch2_fs_sb_field_resize_runs :
  (s ← c_disk_sb fs_two_devices_grown;
   Some (field_payload s 0, field_payload s 1, u64s s))
  = Some (Some [99], Some [7; 0; 0], 6).
Proof. vm_compute. reflexivity. Qed.

(** ** What [bch2_sb_validate_replicas] accepts *)

Section ReplicasValidated.
Context `{Format}.

Lemma memcmp_refl l : memcmp l l = 0.
Proof.
  induction l as [|x l IH]; cbn [memcmp]; [reflexivity|].
  destruct (Z.ltb_spec x x); [lia|]. destruct (Z.gtb_spec x x); [lia | exact IH].
Qed.

Lemma memcmp_lt_trans a : forall b c,
  memcmp a b < 0 -> memcmp b c < 0 -> memcmp a c < 0.
Proof.
  induction a as [|x a IH]; intros [|y b] [|z c]; cbn [memcmp]; try lia.
  destruct (Z.ltb_spec x y), (Z.gtb_spec x y), (Z.ltb_spec y z), (Z.gtb_spec y z),
    (Z.ltb_spec x z), (Z.gtb_spec x z); try lia.
  apply IH.
Qed.

(** The duplicate scan passes only on a strictly ascending array. *)
Lemma validate_replicas_dups_sorted l :
  validate_replicas_dups l = Some None ->
  StronglySorted (fun a b => memcmp_entry a b < 0) l.
Proof.
  induction l as [|x [|y l] IH]; intros Hv; [constructor | repeat constructor |].
  cbn [validate_replicas_dups] in Hv.
  destruct (Z.gtb_spec (memcmp_entry x y) 0) as [Hgt|Hle]; [discriminate|].
  destruct (Z.eqb_spec (memcmp_entry x y) 0) as [Heq|Hne]; [discriminate|].
  specialize (IH Hv). constructor; [exact IH|].
  assert (Hxy : memcmp_entry x y < 0) by lia.
  constructor; [exact Hxy|].
  apply StronglySorted_inv in IH as [_ Hall].
  eapply List.Forall_impl; [|exact Hall]. cbv beta. intros z Hyz.
  exact (memcmp_lt_trans _ _ _ Hxy Hyz).
Qed.

Lemma strictly_sorted_NoDup l :
  StronglySorted (fun a b => memcmp_entry a b < 0) l -> List.NoDup l.
Proof.
  induction 1 as [|x l Hs IH Hall]; constructor; [|exact IH].
  intros Hin. rewrite List.Forall_forall in Hall. specialize (Hall x Hin).
  unfold memcmp_entry in Hall. rewrite memcmp_refl in Hall. lia.
Qed.

Lemma validate_replicas_devs_ok sb mi devs :
  validate_replicas_devs sb mi devs = Some true ->
  Forall (fun d => bch2_dev_exists sb mi d = Some true) devs.
Proof.
  induction devs as [|d devs IH]; intros Hv; [constructor|].
  cbn [validate_replicas_devs] in Hv.
  destruct (bch2_dev_exists sb mi d) as [[|]|] eqn:Hd; cbn in Hv; try discriminate.
  constructor; [exact Hd | exact (IH Hv)].
Qed.

Lemma validate_replicas_entries_ok sb mi bs es :
  validate_replicas_entries sb mi bs es = Some None ->
  Forall (fun e => entry_data_type bs e < BCH_DATA_NR /\
                   entry_nr bs e < BCH_REPLICAS_MAX /\
                   Forall (fun d => bch2_dev_exists sb mi d = Some true)
                          (entry_devs bs e)) es.
Proof.
  induction es as [|e es IH]; intros Hv; [constructor|].
  cbn [validate_replicas_entries] in Hv.
  destruct (Z.geb_spec (entry_data_type bs e) BCH_DATA_NR); [discriminate|].
  destruct (Z.geb_spec (entry_nr bs e) BCH_REPLICAS_MAX); [discriminate|].
  destruct (validate_replicas_devs sb mi (entry_devs bs e)) as [[|]|] eqn:Hd;
    cbn in Hv; try discriminate.
  constructor; [|exact (IH Hv)].
  split; [lia|]. split; [lia|]. now apply validate_replicas_devs_ok.
Qed.

End ReplicasValidated.

(** A replicas field that [bch2_sb_validate_replicas] accepts: every entry
    the walk visits has a data type below [BCH_DATA_NR], fewer than
    [BCH_REPLICAS_MAX] devices, and names only devices of the member table
    that exist; the index could be built from it, and no two entries of
    that index are the same. *)
Theorem bch2_sb_validate_replicas_sound `{Format} (mm : allocator)
    (sb : bch_sb) (p : Z) :
  bch2_sb_get_replicas sb = Some (Some p) ->
  bch2_sb_validate_replicas mm sb = Some None ->
  exists mi cpu_r,
    bch2_sb_get_members sb = Some mi /\
    Forall (fun e => entry_data_type (field_bytes sb p) e < BCH_DATA_NR /\
                     entry_nr (field_bytes sb p) e < BCH_REPLICAS_MAX /\
                     Forall (fun d => bch2_dev_exists sb mi d = Some true)
                            (entry_devs (field_bytes sb p) e))
           (for_each_replicas_entry (field_bytes sb p)) /\
    __bch2_sb_replicas_to_cpu_replicas mm (Some (field_bytes sb p)) = Some cpu_r /\
    List.NoDup (cpu_replicas_entries cpu_r).
Proof.
  intros Hp Hv. unfold bch2_sb_validate_replicas in Hv. rewrite Hp in Hv.
  destruct (bch2_sb_get_members sb) as [mi|]; [|discriminate].
  cbn [mbind option_bind] in Hv.
  destruct (validate_replicas_entries sb mi _ _) as [[msg|]|] eqn:He;
    cbn [mbind option_bind] in Hv; try discriminate.
  destruct (__bch2_sb_replicas_to_cpu_replicas mm _) as [cpu_r|]; [|discriminate].
  exists mi, cpu_r. split; [reflexivity|].
  split; [now apply validate_replicas_entries_ok|]. split; [reflexivity|].
  apply (Permutation_NoDup (sort_perm memcmp_entry _)).
  apply strictly_sorted_NoDup, validate_replicas_dups_sorted, Hv.
Qed.

(** One member, and a replicas field saying that device 0 holds user data
    and btree nodes. *)
Definition sb_replicas_one : bch_sb :=
  sb_with (members_one ++ [field_word 2 3; 0x0000000103000104]).

Lemma bch2_sb_validate_replicas_sound_witness :
  exists mi cpu_r,
    bch2_sb_get_members sb_replicas_one = Some mi /\
    Forall (fun e => entry_data_type (field_bytes sb_replicas_one 8) e < BCH_DATA_NR /\
                     entry_nr (field_bytes sb_replicas_one 8) e < BCH_REPLICAS_MAX /\
                     Forall (fun d => bch2_dev_exists sb_replicas_one mi d = Some true)
                            (entry_devs (field_bytes sb_replicas_one 8) e))
           (for_each_replicas_entry (field_bytes sb_replicas_one 8)) /\
    __bch2_sb_replicas_to_cpu_replicas mm_ok (Some (field_bytes sb_replicas_one 8))
      = Some cpu_r /\
    List.NoDup (cpu_replicas_entries cpu_r).
Proof.
  apply (bch2_sb_validate_replicas_sound mm_ok sb_replicas_one 8).
  - vm_compute. reflexivity.
  - vm_compute. reflexivity.
Defined.

(** The same field with its second entry naming device 1, which the
    member table does not have, and with the first entry twice. *)
Example bch2_sb_validate_replicas_runs :
  for_each_replicas_entry (field_bytes sb_replicas_one 8) = [0; 3] /\
  bch2_sb_validate_replicas mm_ok
    (sb_with (members_one ++ [field_word 2 3; 0x0000000103010104]))
    = Some (Some "invalid replicas entry: invalid device") /\
  bch2_sb_validate_replicas mm_ok
    (sb_with (members_one ++ [field_word 2 3; 0x0000000104000104]))
    = Some (Some "duplicate replicas entry").
Proof. repeat split; vm_compute; reflexivity. Qed.

(** * Ending a replica gc *)

Section GcEnd.
Context `{Format}.

(** The little-endian word made of bytes; [store_bytes d q bs] is the
    memory [d] with the bytes [bs] laid from word [q] on. *)
Fixpoint le_word (bs : list Z) : Z :=
  match bs with
  | [] => 0
  | b :: bs' => b + 256 * le_word bs'
  end.

Definition bytes_word (bs : list Z) (i : Z) : Z :=
  le_word (map (fun k => byte_at bs (8 * i + Z.of_nat k)) (List.seq 0 8)).

Definition store_bytes (d : Z -> Z) (q : Z) (bs : list Z) : Z -> Z :=
  fun j => if (q <=? j) && (j <? q + Z.of_nat (length bs) / 8)
           then bytes_word bs (j - q) else d j.

(** [bch2_replicas_gc_end(c, err)]: the return value, the filesystem and
    the writes submitted.  [ret] starts at 0 and the [err] branch leaves
    through the label without setting it.  [bch2_fs_sb_resize_replicas]
    (super-io.h) is [bch2_fs_sb_field_resize] on the replicas field. *)
Definition bch2_replicas_gc_end (mm : allocator) (c : bch_fs) (err : Z)
    : option (Z * bch_fs * list sb_write) :=
  if negb (err =? 0)
  then Some (0, set_c_replicas c (c_replicas c) None, [])
  else
    r ← c_replicas_gc c;
    '(f, c1) ← bch2_fs_sb_field_resize mm c BCH_SB_FIELD_replicas (gc_end_u64s r);
    match f with
    | None => Some (- ENOSPC, c1, [])
    | Some p =>
        s ← c_disk_sb c1;
        let area := repeat 0 (Z.to_nat ((field_u64s (_data s p) - 1) * 8)) in
        let bs := gc_end_entries (cpu_replicas_entries r) (replicas_dev_slots r)
                                 area 0 in
        let s' := set_data s (store_bytes (_data s) (p + 1) bs) in
        let c2 := set_c_replicas (set_c_disk_sb c1 (Some s') (c_disk_sb_order c1))
                                 r None in
        '(c3, ws) ← bch2_write_super mm c2;
        Some (0, c3, ws)
    end.

Lemma fs_resize_members_frame mm d : forall members c ok c',
  fs_resize_members mm c d members = Some (ok, c') ->
  c' = set_c_devs c (c_devs c').
Proof.
  induction members as [|i rest IH]; intros c ok c' Hrun; cbn [fs_resize_members] in Hrun.
  - injection Hrun as _ <-. now destruct c.
  - destruct (dev_at c i) as [ca|]; [|discriminate]. cbn [mbind option_bind] in Hrun.
    destruct (sb (ca_disk_sb ca)) as [si|]; [|discriminate].
    cbn [mbind option_bind] in Hrun.
    destruct (bch2_sb_realloc mm (ca_disk_sb ca) _) as [[ret h1]|]; [|discriminate].
    cbn [mbind option_bind] in Hrun.
    destruct (negb (ret =? 0)).
    + injection Hrun as _ <-. reflexivity.
    + rewrite (IH _ _ _ Hrun). reflexivity.
Qed.

(** [bch2_fs_sb_field_resize] touches the image, its buffer and the
    buffers of the devices, nothing else; when it returns [NULL] the image
    still has its header and the words its buffer held. *)
Lemma bch2_fs_sb_field_resize_frame mm c t n f c' :
  bch2_fs_sb_field_resize mm c t n = Some (f, c') ->
  c_replicas c' = c_replicas c /\ c_replicas_gc c' = c_replicas_gc c /\
  c_error c' = c_error c /\ c_opts_nochanges c' = c_opts_nochanges c /\
  (f = None ->
   exists s s', c_disk_sb c = Some s /\ c_disk_sb c' = Some s' /\
     sb_header s' = sb_header s /\ u64s s' = u64s s /\
     forall i, i < buffer_u64s (c_disk_sb_order c) -> _data s' i = _data s i).
Proof.
  intros Hrun. unfold bch2_fs_sb_field_resize in Hrun.
  destruct (c_disk_sb c) as [s|] eqn:Hs; [|discriminate].
  cbn [mbind option_bind] in Hrun.
  destruct (bch2_sb_field_get s t) as [f0|]; [|discriminate].
  cbn [mbind option_bind] in Hrun.
  destruct (bch2_fs_sb_realloc mm c _) as [ret c1] eqn:Hre.
  assert (Hc1 : c1 = set_c_disk_sb c (c_disk_sb c1) (c_disk_sb_order c1) /\
                exists s1, c_disk_sb c1 = Some s1 /\ sb_header s1 = sb_header s /\
                  u64s s1 = u64s s /\
                  forall i, i < buffer_u64s (c_disk_sb_order c) -> _data s1 i = _data s i).
  { unfold bch2_fs_sb_realloc in Hre. rewrite Hs in Hre.
    destruct (_ && _) in Hre.
    - injection Hre as _ <-. split; [now destruct c|]. exists s. rewrite Hs. auto.
    - destruct (get_free_pages mm _) as [fresh|]; injection Hre as _ <-.
      + split; [reflexivity|]. eexists. split; [reflexivity|].
        split; [reflexivity|]. split; [reflexivity|].
        intros i Hi. now apply copy_pages_words.
      + split; [now destruct c|]. exists s. rewrite Hs. auto. }
  destruct Hc1 as (Hc1 & s1 & Hs1 & Hh1 & Hu1 & Hw1).
  destruct (negb (ret =? 0)).
  { injection Hrun as <- <-. rewrite Hc1. cbn [c_replicas c_replicas_gc c_error
      c_opts_nochanges c_disk_sb set_c_disk_sb]. repeat split.
    intros _. exists s, s1. rewrite <- Hs1. auto. }
  destruct (fs_resize_members mm c1 _ _) as [[ok c2]|] eqn:Hloop; [|discriminate].
  cbn [mbind option_bind] in Hrun.
  pose proof (fs_resize_members_frame _ _ _ _ _ _ Hloop) as Hc2.
  destruct (negb ok).
  { injection Hrun as <- <-. rewrite Hc2, Hc1. cbn [c_replicas c_replicas_gc c_error
      c_opts_nochanges c_disk_sb set_c_disk_sb set_c_devs]. repeat split.
    intros _. exists s, s1. rewrite <- Hs1. auto. }
  destruct (_ && _) in Hrun; [discriminate|].
  destruct (c_disk_sb c2) as [s2|]; [|discriminate]. cbn [mbind option_bind] in Hrun.
  destruct (__bch2_sb_field_resize s2 f0 n) as [s3 f'].
  injection Hrun as <- <-. rewrite Hc2, Hc1. cbn [c_replicas c_replicas_gc c_error
    c_opts_nochanges c_disk_sb set_c_disk_sb set_c_devs]. repeat split. discriminate.
Qed.

End GcEnd.

(** The three ways out of [bch2_replicas_gc_end].  Called with an error
    it drops the gc index, changes nothing else, writes nothing, and
    returns 0, not the error.  When the replicas field cannot be resized
    it returns [-ENOSPC] having written nothing, with the index and the
    words of the image as they were, and with the gc index still in place,
    so that the next [bch2_replicas_gc_start] has no defined result.
    Otherwise it returns 0, the gc index has become the index, and no gc
    index is left. *)
Theorem bch2_replicas_gc_end_cases `{Format} (mm : allocator) (c c' : bch_fs)
    (err ret : Z) (ws : list sb_write) :
  bch2_replicas_gc_end mm c err = Some (ret, c', ws) ->
  (err <> 0 /\ ret = 0 /\ ws = [] /\ c' = set_c_replicas c (c_replicas c) None) \/
  (err = 0 /\ ret = - ENOSPC /\ ws = [] /\
   c_replicas c' = c_replicas c /\ c_replicas_gc c' = c_replicas_gc c /\
   is_Some (c_replicas_gc c') /\
   (exists s s', c_disk_sb c = Some s /\ c_disk_sb c' = Some s' /\
      sb_header s' = sb_header s /\ u64s s' = u64s s /\
      forall i, i < buffer_u64s (c_disk_sb_order c) -> _data s' i = _data s i) /\
   forall mm' typemask, bch2_replicas_gc_start mm' c' typemask = None) \/
  (err = 0 /\ ret = 0 /\
   c_replicas_gc c = Some (c_replicas c') /\ c_replicas_gc c' = None).
Proof.
  unfold bch2_replicas_gc_end. intros Hrun.
  destruct (Z.eqb_spec err 0) as [->|Herr]; cbn [negb] in Hrun.
  2:{ injection Hrun as <- <- <-. left. auto. }
  right. destruct (c_replicas_gc c) as [r|] eqn:Hgc; [|discriminate].
  cbn [mbind option_bind] in Hrun.
  destruct (bch2_fs_sb_field_resize mm c _ _) as [[f c1]|] eqn:Hres; [|discriminate].
  cbn [mbind option_bind] in Hrun.
  destruct (bch2_fs_sb_field_resize_frame _ _ _ _ _ _ Hres)
    as (Hr1 & Hgc1 & _ & _ & Himg).
  destruct f as [p|].
  - right. destruct (c_disk_sb c1) as [s|]; [|discriminate].
    cbn [mbind option_bind] in Hrun. cbv zeta in Hrun.
    destruct (bch2_write_super mm _) as [[c3 ws3]|] eqn:Hw; [|discriminate].
    cbn [mbind option_bind] in Hrun. injection Hrun as <- <- <-.
    match type of Hw with bch2_write_super _ ?c2 = _ =>
      assert (Hsrc : exists src, c_disk_sb c2 = Some src) by (eexists; reflexivity)
    end.
    destruct Hsrc as [src Hsrc].
    destruct (bch2_write_super_cases _ _ _ _ _ Hsrc Hw) as (c4 & Hc4 & Hout).
    assert (Hcore : c_replicas c3 = r /\ c_replicas_gc c3 = None).
    { assert (Hfc : exists b, fs_core c3 = fs_core (set_c_error c4 b)).
      { destruct Hout as [(_ & ->)|[(_ & _ & ->)|(_ & ->)]];
          [exists true; reflexivity | exists (c_error c4); now destruct c4
           | exists (c_error c4); now destruct c4]. }
      destruct Hfc as [b Hfc].
      pose proof (f_equal c_replicas Hfc) as E1.
      pose proof (f_equal c_replicas_gc Hfc) as E2.
      pose proof (f_equal c_replicas Hc4) as E3.
      pose proof (f_equal c_replicas_gc Hc4) as E4.
      cbn in E1, E2, E3, E4. split; congruence. }
    destruct Hcore as [-> ->]. auto.
  - left. injection Hrun as <- <- <-. split; [reflexivity|]. split; [reflexivity|].
    split; [reflexivity|]. split; [exact Hr1|]. split; [congruence|].
    split; [rewrite Hgc1; eauto|]. split; [exact (Himg eq_refl)|].
    intros mm' typemask. unfold bch2_replicas_gc_start. now rewrite Hgc1, Hgc.
Qed.

(** A filesystem with a gc index of three entries pending, whose only
    device holds an image whose layout allows 512 bytes per copy: the
    device has no room for a replicas field. *)
Definition fs_gc_pending : bch_fs :=
  set_c_devs
    (set_c_replicas (fs_of sb_empty) (c_replicas (fs_of sb_empty))
                    (Some (c_replicas fs_three_user)))
    [Some (dev_of 0 true zero_sb)].

Definition fs_gc_ended : bch_fs :=
  from_option (fun x => snd (fst x)) fs_gc_pending
              (bch2_replicas_gc_end mm_ok fs_gc_pending 0).

Lemma bch2_replicas_gc_end_cases_witness :
  (0 <> 0 /\ - ENOSPC = 0 /\ @nil sb_write = [] /\
   fs_gc_ended = set_c_replicas fs_gc_pending (c_replicas fs_gc_pending) None) \/
  (0 = 0 /\ - ENOSPC = - ENOSPC /\ @nil sb_write = [] /\
   c_replicas fs_gc_ended = c_replicas fs_gc_pending /\
   c_replicas_gc fs_gc_ended = c_replicas_gc fs_gc_pending /\
   is_Some (c_replicas_gc fs_gc_ended) /\
   (exists s s', c_disk_sb fs_gc_pending = Some s /\ c_disk_sb fs_gc_ended = Some s' /\
      sb_header s' = sb_header s /\ u64s s' = u64s s /\
      forall i, i < buffer_u64s (c_disk_sb_order fs_gc_pending) ->
                _data s' i = _data s i) /\
   forall mm' typemask, bch2_replicas_gc_start mm' fs_gc_ended typemask = None) \/
  (0 = 0 /\ - ENOSPC = 0 /\
   c_replicas_gc fs_gc_pending = Some (c_replicas fs_gc_ended) /\
   c_replicas_gc fs_gc_ended = None).
Proof.
  apply (bch2_replicas_gc_end_cases mm_ok fs_gc_pending fs_gc_ended 0 (- ENOSPC) []).
  vm_compute. reflexivity.
Defined.

(** The same filesystem around an image with a member table, and with a
    device that has room: the call returns 0 and the replicas field
    written decodes to the index it came from. *)
Definition fs_gc_roomy : bch_fs :=
  set_c_disk_sb
    (set_c_devs fs_gc_pending [Some (dev_open 0 (sb_valid members_one))])
    (Some (sb_valid members_one)) 0.

Example bch2_replicas_gc_end_runs :
  (r ← bch2_replicas_gc_end mm_ok fs_gc_roomy 0;
   s ← c_disk_sb (snd (fst r));
   p ← bch2_sb_get_replicas s;
   Some (fst (fst r), p, field_payload s BCH_SB_FIELD_members,
         field_payload s BCH_SB_FIELD_replicas, u64s s,
         (fun cpu => map (fun e => (e_data_type e, e_devs e)) (cpu_replicas_entries cpu))
           <$> __bch2_sb_replicas_to_cpu_replicas mm_ok (field_bytes s <$> p)))
  = Some (0, Some 8, Some (tl members_one),
          Some [0x0100020402000203; 0x02010204; 0], 12,
          Some [(4, [3]); (3, [5]); (4, [6])]).
Proof. vm_compute. reflexivity. Qed.

(** ** The replicas field that [bch2_replicas_gc_end] writes *)

(** The [(data_type, device_set)] pairs of an index. *)
Definition cpu_pair (slots : Z) (e : bch_replicas_cpu_entry) : Z * gset Z :=
  (e_data_type e, list_to_set (bitmap_devs e (Z.to_nat slots) 0)).

Definition cpu_pairs (r : bch_replicas_cpu) : gset (Z * gset Z) :=
  list_to_set (map (cpu_pair (replicas_dev_slots r)) (cpu_replicas_entries r)).

Section GcEndBytes.
Context `{Format}.

Lemma le_word_byte bs : Forall (fun b => 0 <= b < 256) bs ->
  forall k, word_byte (le_word bs) (Z.of_nat k) = nth k bs 0.
Proof.
  induction 1 as [|b bs Hb _ IH]; intros k; unfold word_byte in *.
  - cbn [le_word]. rewrite Z.shiftr_0_l, Z.land_0_l. now destruct k.
  - cbn [le_word]. change 255 with (Z.ones 8). rewrite Z.land_ones by lia.
    assert (Hdiv : (b + 256 * le_word bs) / 2 ^ 8 = le_word bs).
    { change (2 ^ 8) with 256. rewrite (Z.mul_comm 256), Z.div_add by lia.
      rewrite Z.div_small by lia. lia. }
    destruct k as [|k]; cbn [nth].
    + change (8 * Z.of_nat 0) with 0. rewrite Z.shiftr_0_r.
      change (2 ^ 8) with 256. rewrite (Z.mul_comm 256), Z.mod_add by lia.
      apply Z.mod_small. lia.
    + replace (8 * Z.of_nat (S k)) with (8 + 8 * Z.of_nat k) by lia.
      rewrite <- Z.shiftr_shiftr by lia.
      rewrite (Z.shiftr_div_pow2 _ 8), Hdiv by lia.
      rewrite <- (IH k). change 255 with (Z.ones 8). now rewrite Z.land_ones by lia.
Qed.

Lemma bytes_word_byte bs i k :
  (k < 8)%nat -> word_byte (bytes_word bs i) (Z.of_nat k) = byte_at bs (8 * i + Z.of_nat k).
Proof.
  intros Hk. unfold bytes_word. rewrite le_word_byte.
  - do 8 (destruct k as [|k]; [reflexivity|]). lia.
  - apply List.Forall_forall. intros b Hb. apply in_map_iff in Hb as (j & <- & _).
    apply byte_at_range.
Qed.

(** Bytes cut in words of eight and read back. *)
Lemma chunks_nth k : forall bs : list Z,
  length bs = (8 * k)%nat ->
  flat_map (fun i => map (fun j => nth (8 * i + j) bs 0) (List.seq 0 8)) (List.seq 0 k)
  = bs.
Proof.
  induction k as [|k IH]; intros bs Hlen.
  - destruct bs; [reflexivity | discriminate].
  - destruct bs as [|b0 [|b1 [|b2 [|b3 [|b4 [|b5 [|b6 [|b7 bs]]]]]]]];
      cbn [length] in Hlen; try lia.
    change (List.seq 0 (S k)) with (0%nat :: List.seq 1 k). cbn [flat_map].
    rewrite <- seq_shift, flat_map_concat_map, map_map, <- flat_map_concat_map.
    transitivity ([b0; b1; b2; b3; b4; b5; b6; b7] ++ bs); [|reflexivity].
    apply (f_equal (app [b0; b1; b2; b3; b4; b5; b6; b7])).
    etransitivity; [|apply (IH bs); lia].
    apply flat_map_ext. intros i. apply map_ext. intros j.
    replace (8 * S i + j)%nat with (8 + (8 * i + j))%nat by lia. reflexivity.
Qed.

(** Bytes laid in the payload of the field at [p] are the bytes of that
    field. *)
Lemma field_bytes_store s p bs k :
  length bs = (8 * k)%nat -> field_u64s (_data s p) = 1 + Z.of_nat k ->
  Forall (fun b => 0 <= b < 256) bs ->
  field_bytes (set_data s (store_bytes (_data s) (p + 1) bs)) p = bs.
Proof.
  intros Hlen Hu Hrange. unfold field_bytes. cbn [_data set_data].
  assert (Hk8 : Z.of_nat (length bs) / 8 = Z.of_nat k).
  { rewrite Hlen. replace (Z.of_nat (8 * k)) with (Z.of_nat k * 8) by lia.
    apply Z.div_mul. lia. }
  assert (Hhead : store_bytes (_data s) (p + 1) bs p = _data s p).
  { unfold store_bytes. destruct (Z.leb_spec (p + 1) p); [lia | reflexivity]. }
  rewrite Hhead, Hu. replace (Z.to_nat (1 + Z.of_nat k - 1)) with k by lia.
  etransitivity; [|exact (chunks_nth k bs Hlen)].
  rewrite !flat_map_concat_map. f_equal.
  apply map_ext_in. intros i Hi. apply in_seq in Hi.
  apply map_ext_in. intros j Hj. apply in_seq in Hj.
  unfold store_bytes. rewrite Hk8.
  destruct (Z.leb_spec (p + 1) (p + 1 + Z.of_nat i)); [|lia].
  destruct (Z.ltb_spec (p + 1 + Z.of_nat i) (p + 1 + Z.of_nat k)); [|lia].
  cbn [andb]. replace (p + 1 + Z.of_nat i - (p + 1)) with (Z.of_nat i) by lia.
  rewrite bytes_word_byte by lia. unfold byte_at.
  replace (Z.to_nat (8 * Z.of_nat i + Z.of_nat j)) with (8 * i + j)%nat by lia.
  apply u8_small. rewrite List.Forall_forall in Hrange. apply Hrange.
  apply nth_In. lia.
Qed.

Lemma store_byte_keeps buf i v :
  Forall (fun b => 0 <= b < 256) buf ->
  Forall (fun b => 0 <= b < 256) (store_byte buf i v) /\
  length (store_byte buf i v) = length buf.
Proof.
  intros Hb. unfold store_byte. split; [|apply length_insert].
  apply Forall_insert; [exact Hb|]. unfold u8. apply Z.mod_pos_bound. lia.
Qed.

Lemma gc_end_devs_keeps src_e dst_e : forall n buf j,
  Forall (fun b => 0 <= b < 256) buf ->
  Forall (fun b => 0 <= b < 256) (gc_end_devs n src_e buf dst_e j) /\
  length (gc_end_devs n src_e buf dst_e j) = length buf.
Proof.
  induction n as [|n IH]; intros buf j Hb; cbn [gc_end_devs]; [auto|].
  destruct (replicas_test_dev src_e j); [|now apply IH].
  destruct (store_byte_keeps buf (dst_e + 2 + entry_nr buf dst_e) j Hb) as [H1 L1].
  destruct (store_byte_keeps _ (dst_e + 1) (entry_nr buf dst_e + 1) H1) as [H2 L2].
  destruct (IH _ (j + 1) H2) as [H3 L3]. split; [exact H3 | congruence].
Qed.

Lemma gc_end_entries_keeps slots : forall es buf dst_e,
  Forall (fun b => 0 <= b < 256) buf ->
  Forall (fun b => 0 <= b < 256) (gc_end_entries es slots buf dst_e) /\
  length (gc_end_entries es slots buf dst_e) = length buf.
Proof.
  induction es as [|e es IH]; intros buf dst_e Hb; cbn [gc_end_entries]; [auto|].
  destruct (store_byte_keeps buf dst_e (e_data_type e) Hb) as [H1 L1].
  destruct (gc_end_devs_keeps e dst_e (Z.to_nat slots) _ 0 H1) as [H2 L2].
  destruct (IH _ (replicas_entry_next
                    (gc_end_devs (Z.to_nat slots) e
                       (store_byte buf dst_e (e_data_type e)) dst_e 0) dst_e) H2)
    as [H3 L3].
  split; [exact H3 | congruence].
Qed.

(** The entries written over a zeroed area that has room for them read
    back as the pairs of the index. *)
Lemma gc_end_entries_pairs r m :
  1 <= r_entry_size r <= 33 ->
  (forall e, In e (cpu_replicas_entries r) ->
     1 <= e_data_type e < 256 /\
     (length (bitmap_devs e (Z.to_nat (replicas_dev_slots r)) 0) <= 255)%nat) ->
  gc_end_bytes r - 8 < Z.of_nat m ->
  sb_pairs (gc_end_entries (cpu_replicas_entries r) (replicas_dev_slots r)
                           (repeat 0 m) 0)
  = cpu_pairs r.
Proof.
  intros Hsz Hwf Hm.
  rewrite gc_end_bytes_spec in Hm by lia.
  set (slots := replicas_dev_slots r) in *.
  assert (Hslots : 0 <= slots <= 256) by (unfold slots, replicas_dev_slots; lia).
  set (es := cpu_replicas_entries r) in *.
  set (total := length (concat (map (enc_entry slots) es))) in *.
  pose proof (gc_end_entries_spec slots Hslots es [] m) as Henc.
  cbn [app length] in Henc. change (Z.of_nat 0) with 0 in Henc.
  rewrite Henc; [|intros e He; destruct (Hwf e He); split; [lia | assumption]
                 |fold total; lia].
  fold total. unfold sb_pairs, for_each_replicas_entry, cpu_pairs. fold es slots.
  pose proof (parse_encoded slots es []
                (S (length (concat (map (enc_entry slots) es)
                            ++ repeat 0 (m - total))))
                (m - total)) as Hparse.
  cbn [app length] in Hparse. change (Z.of_nat 0) with 0 in Hparse.
  rewrite Hparse; [reflexivity | | lia |].
  - rewrite length_app. pose proof (enc_entries_length slots es). lia.
  - intros e He. destruct (Hwf e He) as [Ht Hc]. split; [exact Ht|]. split; [exact Hc|].
    intros d Hd. apply bitmap_devs_range in Hd. lia.
Qed.

End GcEndBytes.

Section GcEndImage.
Context `{Format}.

(** What [bch2_fs_sb_field_resize] does beside the allocations: the image
    it works on holds the fields it held, and the result is the resize of
    that image. *)
Lemma bch2_fs_sb_field_resize_image mm c s fs T n p c' :
  c_disk_sb c = Some s -> dir s fs ->
  vstruct_last s <= buffer_u64s (c_disk_sb_order c) ->
  bch2_fs_sb_field_resize mm c T n = Some (Some p, c') ->
  exists s1,
    dir s1 fs /\ sb_header s1 = sb_header s /\
    p = snd (__bch2_sb_field_resize s1 (fst <$> dir_find fs T 0) n) /\
    c_disk_sb c'
      = Some (set_type (fst (__bch2_sb_field_resize s1 (fst <$> dir_find fs T 0) n))
                       p T).
Proof.
  intros Hs Hdir Hfits Hrun. unfold bch2_fs_sb_field_resize in Hrun.
  rewrite Hs in Hrun. cbn [mbind option_bind] in Hrun.
  rewrite (bch2_sb_field_get_dir s T fs Hdir) in Hrun.
  cbn [mbind option_bind] in Hrun.
  destruct (bch2_fs_sb_realloc mm c _) as [ret c1] eqn:Hre.
  destruct (negb (ret =? 0)); [discriminate|].
  assert (Hc1 : exists s1, c_disk_sb c1 = Some s1 /\ sb_header s1 = sb_header s /\
                  u64s s1 = u64s s /\
                  forall i, i < buffer_u64s (c_disk_sb_order c) -> _data s1 i = _data s i).
  { unfold bch2_fs_sb_realloc in Hre. rewrite Hs in Hre.
    destruct (_ && _) in Hre.
    - injection Hre as _ <-. exists s. rewrite Hs. auto.
    - destruct (get_free_pages mm _) as [fresh|]; injection Hre as _ <-.
      + eexists. split; [reflexivity|]. split; [reflexivity|]. split; [reflexivity|].
        intros i Hi. now apply copy_pages_words.
      + exists s. rewrite Hs. auto. }
  destruct Hc1 as (s1 & Hs1 & Hh1 & Hu1 & Hw1).
  destruct (fs_resize_members mm c1 _ _) as [[ok c2]|] eqn:Hloop; [|discriminate].
  cbn [mbind option_bind] in Hrun.
  pose proof (fs_resize_members_frame _ _ _ _ _ _ Hloop) as Hc2.
  destruct (negb ok); [discriminate|].
  destruct (_ && _) in Hrun; [discriminate|].
  assert (Hs2 : c_disk_sb c2 = Some s1) by (rewrite Hc2; exact Hs1).
  rewrite Hs2 in Hrun. cbn [mbind option_bind] in Hrun.
  exists s1. split.
  { destruct Hdir as [Hd Hl]. split.
    - apply (dir_at_transport (_data s) _ fs 0 0); [|exact Hd].
      intros j Hj. rewrite !Z.add_0_l. apply Hw1. lia.
    - unfold vstruct_last in *. now rewrite Hu1. }
  split; [exact Hh1|].
  destruct (__bch2_sb_field_resize s1 (fst <$> dir_find fs T 0) n) as [s3 f'].
  injection Hrun as <- <-. split; reflexivity.
Qed.

(** Bytes laid over the payload of one field leave the others. *)
Lemma store_bytes_dir s fs1 f fs2 bs k :
  dir s (fs1 ++ f :: fs2) -> length bs = (8 * k)%nat -> length (f_words f) = k ->
  dir (set_data s (store_bytes (_data s) (dir_size fs1 + 1) bs))
      (fs1 ++ {| f_type := f_type f;
                 f_words := map (fun i => bytes_word bs (Z.of_nat i)) (List.seq 0 k) |}
           :: fs2).
Proof.
  intros [Hd Hl] Hlen Hk.
  assert (Hk8 : Z.of_nat (length bs) / 8 = Z.of_nat k).
  { rewrite Hlen. replace (Z.of_nat (8 * k)) with (Z.of_nat k * 8) by lia.
    apply Z.div_mul. lia. }
  pose proof (dir_size_nonneg fs1) as Hp1.
  apply dir_at_app in Hd as [Hd1 Hd2]. rewrite Z.add_0_l in Hd2.
  cbn [dir_at] in Hd2. destruct Hd2 as (Hu & Hty & Hw & Hd3).
  split.
  - cbn [_data set_data]. apply dir_at_app. split.
    + apply (dir_at_transport (_data s) _ fs1 0 0); [|exact Hd1].
      intros j Hj. rewrite !Z.add_0_l. unfold store_bytes.
      destruct (Z.leb_spec (dir_size fs1 + 1) j); [lia | reflexivity].
    + rewrite Z.add_0_l. cbn [dir_at f_type f_words].
      assert (Hhead : store_bytes (_data s) (dir_size fs1 + 1) bs (dir_size fs1)
                      = _data s (dir_size fs1)).
      { unfold store_bytes.
        destruct (Z.leb_spec (dir_size fs1 + 1) (dir_size fs1)); [lia | reflexivity]. }
      rewrite Hhead. unfold fld_u64s in *. cbn [f_words].
      rewrite length_map, length_seq. rewrite Hk in Hu.
      split; [exact Hu|]. split; [exact Hty|]. split.
      * intros i Hi. unfold store_bytes. rewrite Hk8.
        destruct (Z.leb_spec (dir_size fs1 + 1) (dir_size fs1 + 1 + Z.of_nat i)); [|lia].
        destruct (Z.ltb_spec (dir_size fs1 + 1 + Z.of_nat i)
                    (dir_size fs1 + 1 + Z.of_nat k)); [|lia].
        cbn [andb]. replace (dir_size fs1 + 1 + Z.of_nat i - (dir_size fs1 + 1))
          with (Z.of_nat i) by lia.
        rewrite (nth_indep _ 0 (bytes_word bs (Z.of_nat 0)))
          by (rewrite length_map, length_seq; lia).
        rewrite (map_nth (fun i => bytes_word bs (Z.of_nat i))), seq_nth by lia.
        reflexivity.
      * apply (dir_at_transport (_data s) _ fs2 (dir_size fs1 + (1 + Z.of_nat k)));
          [|rewrite <- Hk; exact Hd3].
        intros j Hj. unfold store_bytes. rewrite Hk8.
        destruct (Z.ltb_spec (dir_size fs1 + (1 + Z.of_nat k) + j)
                    (dir_size fs1 + 1 + Z.of_nat k)); [lia|].
        now rewrite andb_false_r.
  - unfold vstruct_last in *. cbn [u64s set_data]. rewrite Hl, !dir_size_app.
    cbn [dir_size]. unfold fld_u64s. cbn [f_words].
    rewrite length_map, length_seq, Hk. reflexivity.
Qed.

End GcEndImage.

(** [bch2_replicas_gc_end] called without an error and returning 0, on a
    well-formed image that fits its buffer and a gc index whose entries
    have a data type in 1..255 and at most 255 devices: the image of the
    filesystem then has a replicas field, the first of its type, whose
    entries read back as exactly the [(data_type, device_set)] pairs of
    the gc index; every field of another type has the payload it had; and
    the gc index has become the index. *)
Theorem bch2_replicas_gc_end_field `{Format} (mm : allocator) (c c' : bch_fs)
    (s : bch_sb) (fs : list fld) (r : bch_replicas_cpu) (ws : list sb_write) :
  c_disk_sb c = Some s -> dir s fs ->
  vstruct_last s <= buffer_u64s (c_disk_sb_order c) ->
  c_replicas_gc c = Some r ->
  1 <= r_entry_size r <= 33 ->
  Forall (fun e => 1 <= e_data_type e < 256 /\
                   (length (bitmap_devs e (Z.to_nat (replicas_dev_slots r)) 0)
                    <= 255)%nat)
         (cpu_replicas_entries r) ->
  0 <= BCH_SB_FIELD_replicas < 2 ^ 32 ->
  vstruct_last s + gc_end_u64s r < 2 ^ 32 ->
  bch2_replicas_gc_end mm c 0 = Some (0, c', ws) ->
  exists s' p,
    c_disk_sb c' = Some s' /\
    bch2_sb_get_replicas s' = Some (Some p) /\
    sb_pairs (field_bytes s' p) = cpu_pairs r /\
    (forall t, t <> BCH_SB_FIELD_replicas -> field_payload s' t = field_payload s t) /\
    c_replicas c' = r /\ c_replicas_gc c' = None.
Proof.
  intros Hs Hdir Hfits Hgc Hsz Hwf HT Hfit Hrun.
  rewrite List.Forall_forall in Hwf.
  unfold bch2_replicas_gc_end in Hrun. rewrite Z.eqb_refl, Hgc in Hrun.
  cbn [negb mbind option_bind] in Hrun.
  destruct (bch2_fs_sb_field_resize mm c _ _) as [[[p|] c1]|] eqn:Hres;
    cbn [mbind option_bind] in Hrun; [|discriminate|discriminate].
  destruct (bch2_fs_sb_field_resize_image mm c s fs _ _ p c1 Hs Hdir Hfits Hres)
    as (s1 & Hdir1 & Hh1 & Hp & Hc1).
  destruct (bch2_fs_sb_field_resize_frame _ _ _ _ _ _ Hres) as (_ & _ & _ & _ & _).
  set (T := BCH_SB_FIELD_replicas) in *. set (n := gc_end_u64s r) in *.
  set (total := Z.of_nat (length (concat (map (enc_entry (replicas_dev_slots r))
                                              (cpu_replicas_entries r))))).
  assert (Hbytes : gc_end_bytes r = 8 + total) by (apply gc_end_bytes_spec; lia).
  assert (Hn : 8 + total < (n - 1) * 8 + 1 /\ 2 <= n).
  { unfold n, gc_end_u64s. rewrite Hbytes.
    pose proof (div_round_up_8 (8 + (8 + total)) ltac:(unfold total; lia)).
    unfold total in *. lia. }
  assert (Hlast1 : vstruct_last s1 = vstruct_last s).
  { destruct Hdir as [_ ->]. destruct Hdir1 as [_ ->]. reflexivity. }
  pose proof (u32_range (u64s s)) as Hu. fold (le32_to_cpu (u64s s)) in Hu.
  fold (vstruct_last s) in Hu.
  destruct (field_resize_new_dir s1 fs T n Hdir1 HT ltac:(lia) ltac:(lia))
    as (fs1 & mid & fs2 & Hfs & Hall & Hmid & Hsnd & Hnew & Hhdr').
  rewrite Hsnd in Hp. subst p. rewrite Hc1 in Hrun.
  cbn [mbind option_bind] in Hrun. cbv zeta in Hrun.
  set (s2 := set_type _ _ T) in *.
  set (newf := {| f_type := T; f_words := resized_words (old_words mid) n |}) in *.
  assert (Hwords : length (f_words newf) = Z.to_nat (n - 1)).
  { cbn [newf f_words]. pose proof (resized_words_length (old_words mid) n ltac:(lia)).
    lia. }
  assert (Hhead : field_u64s (_data s2 (dir_size fs1)) = 1 + Z.of_nat (Z.to_nat (n - 1))).
  { destruct Hnew as [Hd _]. apply dir_at_app in Hd as [_ Hd].
    rewrite Z.add_0_l in Hd. cbn [dir_at] in Hd. destruct Hd as (Hd & _).
    rewrite Hd. unfold fld_u64s. now rewrite Hwords. }
  rewrite Hhead in Hrun.
  replace (1 + Z.of_nat (Z.to_nat (n - 1)) - 1) with (n - 1) in Hrun by lia.
  set (bs := gc_end_entries _ _ _ 0) in *.
  destruct (gc_end_entries_keeps (replicas_dev_slots r) (cpu_replicas_entries r)
              (repeat 0 (Z.to_nat ((n - 1) * 8))) 0) as [Hrange Hlen].
  { apply List.Forall_forall. intros b Hb. apply repeat_spec in Hb. lia. }
  fold bs in Hrange, Hlen. rewrite repeat_length in Hlen.
  assert (Hlen8 : length bs = (8 * Z.to_nat (n - 1))%nat) by lia.
  pose proof (store_bytes_dir s2 fs1 newf fs2 bs _ Hnew Hlen8 Hwords) as Hdir'.
  set (s' := set_data s2 _) in *.
  set (newf' := {| f_type := f_type newf; f_words := _ |}) in *.
  destruct (bch2_write_super mm _) as [[c3 ws3]|] eqn:Hw; [|discriminate].
  cbn [mbind option_bind] in Hrun. injection Hrun as <- <-.
  match type of Hw with bch2_write_super _ ?c2 = _ =>
    assert (Hsrc : c_disk_sb c2 = Some s') by reflexivity
  end.
  destruct (bch2_write_super_cases _ _ _ _ _ Hsrc Hw) as (c4 & Hc4 & Hout).
  assert (Hfc : exists b, fs_core c3 = fs_core (set_c_error c4 b)).
  { destruct Hout as [(_ & ->)|[(_ & _ & ->)|(_ & ->)]];
      [exists true; reflexivity | exists (c_error c4); now destruct c4
       | exists (c_error c4); now destruct c4]. }
  destruct Hfc as [b Hfc].
  pose proof (f_equal c_disk_sb Hfc) as E0. pose proof (f_equal c_disk_sb Hc4) as E0'.
  pose proof (f_equal c_replicas Hfc) as E1. pose proof (f_equal c_replicas Hc4) as E3.
  pose proof (f_equal c_replicas_gc Hfc) as E2.
  pose proof (f_equal c_replicas_gc Hc4) as E4.
  cbn in E0, E0', E1, E2, E3, E4.
  set (s'' := set_seq s' (u64 (le64_to_cpu (seq s') + 1))) in *.
  assert (Hdir'' : dir s'' (fs1 ++ newf' :: fs2)) by exact Hdir'.
  exists s'', (dir_size fs1). split; [rewrite E0, E0'; reflexivity|]. split.
  { unfold bch2_sb_get_replicas. rewrite (bch2_sb_field_get_dir s'' _ _ Hdir'').
    rewrite dir_find_skip by exact Hall. cbn [dir_find f_type newf' newf].
    fold T. rewrite Z.eqb_refl. cbn [fmap option_fmap option_map fst].
    now rewrite Z.add_0_l. }
  split.
  { change (field_bytes s'' (dir_size fs1)) with (field_bytes s' (dir_size fs1)).
    unfold s'. rewrite (field_bytes_store s2 (dir_size fs1) bs _ Hlen8 Hhead Hrange).
    unfold bs. apply gc_end_entries_pairs; [exact Hsz | exact Hwf | lia]. }
  split; [|split; congruence].
  assert (Hlook : forall t, t <> T ->
            dir_lookup (fs1 ++ newf' :: fs2) t = dir_lookup fs t).
  { intros t Ht. rewrite Hfs, !dir_lookup_app. destruct (dir_lookup fs1 t); [reflexivity|].
    cbn [dir_lookup f_type newf' newf]. destruct (Z.eqb_spec T t); [congruence|].
    destruct Hmid as [(-> & ->)|(f & -> & Hft)]; cbn [dir_lookup]; [reflexivity|].
    destruct (Z.eqb_spec (f_type f) t); [congruence | reflexivity]. }
  intros t Ht.
  rewrite (field_payload_dir s'' _ t Hdir''), (field_payload_dir s fs t Hdir).
  rewrite !dir_find_lookup. now rewrite Hlook.
Qed.

Lemma sb_members_dir :
  dir (sb_valid members_one) [ {| f_type := 1; f_words := tl members_one |} ].
Proof.
  split; [|reflexivity]. cbn [dir_at f_type f_words].
  repeat split; try reflexivity.
  intros k Hk. do 7 (destruct k as [|k]; [reflexivity|]). cbn [length tl members_one] in Hk. lia.
Qed.

Definition fs_gc_written : bch_fs :=
  from_option (fun x => snd (fst x)) fs_gc_roomy
              (bch2_replicas_gc_end mm_ok fs_gc_roomy 0).

Lemma fs_gc_written_eq :
  bch2_replicas_gc_end mm_ok fs_gc_roomy 0 = Some (0, fs_gc_written, []).
Proof.
  assert (Hrun : (fun x => (fst (fst x), snd x)) <$> bch2_replicas_gc_end mm_ok fs_gc_roomy 0
                 = Some (0, [])) by (vm_compute; reflexivity).
  unfold fs_gc_written.
  destruct (bch2_replicas_gc_end mm_ok fs_gc_roomy 0) as [[[ret c'] ws]|];
    [|discriminate].
  cbn in Hrun. injection Hrun as -> ->. reflexivity.
Qed.

Lemma bch2_replicas_gc_end_field_witness :
  exists s' p,
    c_disk_sb fs_gc_written = Some s' /\
    bch2_sb_get_replicas s' = Some (Some p) /\
    sb_pairs (field_bytes s' p) = cpu_pairs (c_replicas fs_three_user) /\
    (forall t, t <> BCH_SB_FIELD_replicas ->
               field_payload s' t = field_payload (sb_valid members_one) t) /\
    c_replicas fs_gc_written = c_replicas fs_three_user /\
    c_replicas_gc fs_gc_written = None.
Proof.
  apply (bch2_replicas_gc_end_field mm_ok fs_gc_roomy fs_gc_written
           (sb_valid members_one) [ {| f_type := 1; f_words := tl members_one |} ]
           (c_replicas fs_three_user) []).
  - reflexivity.
  - exact sb_members_dir.
  - vm_compute. congruence.
  - reflexivity.
  - vm_compute. split; congruence.
  - repeat (constructor; [split; [vm_compute; split; congruence | vm_compute; lia]|]).
    constructor.
  - vm_compute. split; congruence.
  - vm_compute. reflexivity.
  - exact fs_gc_written_eq.
Defined.

(** * Block I/O completion (linux/bio.c) *)

(** errno values named by [blk_errors] (asm-generic/errno-base.h and
    errno.h, not among the sources). *)
Definition EIO : Z := 5.
Definition EAGAIN : Z := 11.
Definition EBADE : Z := 52.
Definition ENODATA : Z := 61.
Definition ENOLINK : Z := 67.
Definition EREMCHG : Z := 78.
Definition EILSEQ : Z := 84.
Definition EOPNOTSUPP : Z := 95.
Definition ETIMEDOUT : Z := 110.
Definition EREMOTEIO : Z := 121.

(** linux/blk_types.h *)
Definition BLK_STS_OK : Z := 0.
Definition BLK_STS_NOTSUPP : Z := 1.
Definition BLK_STS_TIMEOUT : Z := 2.
Definition BLK_STS_NOSPC : Z := 3.
Definition BLK_STS_TRANSPORT : Z := 4.
Definition BLK_STS_TARGET : Z := 5.
Definition BLK_STS_NEXUS : Z := 6.
Definition BLK_STS_MEDIUM : Z := 7.
Definition BLK_STS_PROTECTION : Z := 8.
Definition BLK_STS_RESOURCE : Z := 9.
Definition BLK_STS_IOERR : Z := 10.
Definition BLK_STS_DM_REQUEUE : Z := 11.
Definition BLK_STS_AGAIN : Z := 12.

Definition BIO_CHAIN : Z := 7.
Definition BIO_REFFED : Z := 8.

(** [blk_errors]: an array given by designated initialisers, in the order
    of the source; it has one slot per index up to the largest named. *)
Definition blk_errors : list (Z * string) :=
  fold_left (fun t '(i, v) => <[Z.to_nat i := v]> t)
    [ (BLK_STS_OK, (0, ""));
      (BLK_STS_NOTSUPP, (- EOPNOTSUPP, "operation not supported"));
      (BLK_STS_TIMEOUT, (- ETIMEDOUT, "timeout"));
      (BLK_STS_NOSPC, (- ENOSPC, "critical space allocation"));
      (BLK_STS_TRANSPORT, (- ENOLINK, "recoverable transport"));
      (BLK_STS_TARGET, (- EREMOTEIO, "critical target"));
      (BLK_STS_NEXUS, (- EBADE, "critical nexus"));
      (BLK_STS_MEDIUM, (- ENODATA, "critical medium"));
      (BLK_STS_PROTECTION, (- EILSEQ, "protection"));
      (BLK_STS_RESOURCE, (- ENOMEM, "kernel resource"));
      (BLK_STS_AGAIN, (- EAGAIN, "nonblocking retry"));
      (BLK_STS_DM_REQUEUE, (- EREMCHG, "dm internal retry"));
      (BLK_STS_IOERR, (- EIO, "I/O")) ]
    (repeat (0, "") (Z.to_nat (BLK_STS_AGAIN + 1))).

(** [blk_status_t] is a [u8]. *)
Definition blk_status_to_errno (status : Z) : Z :=
  let idx := u8 status in
  if idx >=? Z.of_nat (length blk_errors) then - EIO
  else fst (nth (Z.to_nat idx) blk_errors (0, "")).

Definition blk_status_to_str (status : Z) : string :=
  let idx := u8 status in
  if idx >=? Z.of_nat (length blk_errors) then "(invalid error)"
  else snd (nth (Z.to_nat idx) blk_errors (0, "")).

(** [bio->bi_end_io]: [NULL], [bio_chain_endio], or another function,
    known by a name. *)
Inductive bio_end_io_t :=
  | EndNone
  | EndChain
  | EndCall (id : nat).

(** [struct bio] (blk_types.h), the fields completion reads; [bi_private]
    is the parent of a chained bio, [None] for [NULL]. *)
Record bio := {
  bi_status : Z;
  bi_flags : Z;
  __bi_remaining : Z;
  bi_end_io : bio_end_io_t;
  bi_private : option nat;
  __bi_cnt : Z
}.

(** linux/bio.h (not among the sources): the flag is bit [bit] of
    [bi_flags]. *)
Definition bio_flagged (b : bio) (bit : Z) : bool :=
  negb (Z.land (bi_flags b) (Z.shiftl 1 bit) =? 0).

Definition bio_clear_flag (b : bio) (bit : Z) : bio :=
  {| bi_status := bi_status b; bi_flags := Z.ldiff (bi_flags b) (Z.shiftl 1 bit);
     __bi_remaining := __bi_remaining b; bi_end_io := bi_end_io b;
     bi_private := bi_private b; __bi_cnt := __bi_cnt b |}.

Definition set_bi_remaining (b : bio) (v : Z) : bio :=
  {| bi_status := bi_status b; bi_flags := bi_flags b;
     __bi_remaining := v; bi_end_io := bi_end_io b;
     bi_private := bi_private b; __bi_cnt := __bi_cnt b |}.

Definition set_bi_status (b : bio) (v : Z) : bio :=
  {| bi_status := v; bi_flags := bi_flags b;
     __bi_remaining := __bi_remaining b; bi_end_io := bi_end_io b;
     bi_private := bi_private b; __bi_cnt := __bi_cnt b |}.

Definition set_bi_cnt (b : bio) (v : Z) : bio :=
  {| bi_status := bi_status b; bi_flags := bi_flags b;
     __bi_remaining := __bi_remaining b; bi_end_io := bi_end_io b;
     bi_private := bi_private b; __bi_cnt := v |}.

(** [bio_put]: [bio_free] takes the bio off the heap.  No result on a bio
    that is not allocated, or on the [BUG_ON]. *)
Definition bio_put (h : gmap nat bio) (a : nat) : option (gmap nat bio) :=
  b ← h !! a;
  if negb (bio_flagged b BIO_REFFED) then Some (delete a h)
  else if __bi_cnt b =? 0 then None
  else
    let cnt := s32 (__bi_cnt b - 1) in
    if cnt =? 0 then Some (delete a h)
    else Some (<[a := set_bi_cnt b cnt]> h).

(** [bio_remaining_done] *)
Definition bio_remaining_done (h : gmap nat bio) (a : nat)
    : option (bool * gmap nat bio) :=
  b ← h !! a;
  if negb (bio_flagged b BIO_CHAIN) then Some (true, h)
  else if __bi_remaining b <=? 0 then None
  else
    let b1 := set_bi_remaining b (s32 (__bi_remaining b - 1)) in
    if __bi_remaining b1 =? 0
    then Some (true, <[a := bio_clear_flag b1 BIO_CHAIN]> h)
    else Some (false, <[a := b1]> h).

(** [__bio_chain_endio]: the parent takes the status of the bio unless it
    has one, and the bio is put. *)
Definition __bio_chain_endio (h : gmap nat bio) (a : nat)
    : option (nat * gmap nat bio) :=
  b ← h !! a;
  parent ← bi_private b;
  pb ← h !! parent;
  let h1 := if bi_status pb =? 0
            then <[parent := set_bi_status pb (bi_status b)]> h else h in
  h2 ← bio_put h1 a;
  Some (parent, h2).

(** [bio_endio]: the heap afterwards and the [bi_end_io] called, as
    (function, bio).  [fuel] bounds the walk up a chain. *)
Fixpoint bio_endio (fuel : nat) (h : gmap nat bio) (a : nat)
    : option (gmap nat bio * list (nat * nat)) :=
  match fuel with
  | O => None
  | S fuel' =>
      '(done, h1) ← bio_remaining_done h a;
      if negb (done : bool) then Some (h1, [])
      else
        b ← h1 !! a;
        match bi_end_io b with
        | EndChain =>
            '(parent, h2) ← __bio_chain_endio h1 a;
            bio_endio fuel' h2 parent
        | EndNone => Some (h1, [])
        | EndCall id => Some (h1, [(id, a)])
        end
  end.

(** Completions one after the other. *)
Fixpoint bio_endio_all (fuel : nat) (h : gmap nat bio) (events : list nat)
    : option (gmap nat bio * list (nat * nat)) :=
  match events with
  | [] => Some (h, [])
  | a :: rest =>
      '(h1, l1) ← bio_endio fuel h a;
      '(h2, l2) ← bio_endio_all fuel h1 rest;
      Some (h2, l1 ++ l2)
  end.

(** A bio chained to the parent at [p], as [bio_chain] sets it up. *)
Definition chained_to (cb : bio) (p : nat) : Prop :=
  bio_flagged cb BIO_CHAIN = false /\ bio_flagged cb BIO_REFFED = false /\
  bi_end_io cb = EndChain /\ bi_private cb = Some p.

(** The first status that is not [BLK_STS_OK]. *)
Definition first_error (s : Z) (ss : list Z) : Z :=
  fold_left (fun acc x => if acc =? 0 then x else acc) ss s.

(** The statuses of the completions that are not the parent's own. *)
Definition child_statuses (h : gmap nat bio) (p : nat) (events : list nat)
    : list Z :=
  omap (fun c => if decide (c = p) then None else bi_status <$> h !! c) events.

(** [blk_status_to_errno] is 0 for [BLK_STS_OK] only; every other status
    gives a negative errno, and a status beyond the table gives [-EIO]. *)
Theorem blk_status_to_errno_zero (status : Z) :
  (blk_status_to_errno status = 0 <-> u8 status = BLK_STS_OK) /\
  blk_status_to_errno status <= 0 /\
  (BLK_STS_AGAIN < u8 status <-> blk_status_to_str status = "(invalid error)") /\
  (BLK_STS_AGAIN < u8 status \/ u8 status = BLK_STS_IOERR <->
   blk_status_to_errno status = - EIO).
Proof.
  unfold blk_status_to_errno, blk_status_to_str. cbv zeta.
  assert (Hr : 0 <= u8 status < 256) by (unfold u8; apply Z.mod_pos_bound; lia).
  set (i := u8 status) in *. clearbody i.
  destruct (Z.ltb_spec 12 i) as [Hbig|Hsmall].
  - assert (Hge : (i >=? Z.of_nat (length blk_errors)) = true).
    { change (Z.of_nat (length blk_errors)) with 13. apply Z.geb_le. lia. }
    rewrite Hge. unfold BLK_STS_OK, BLK_STS_AGAIN, BLK_STS_IOERR, EIO.
    repeat split; intros; try lia; try discriminate; auto.
  - assert (Hi : i = 0 \/ i = 1 \/ i = 2 \/ i = 3 \/ i = 4 \/ i = 5 \/ i = 6 \/
                 i = 7 \/ i = 8 \/ i = 9 \/ i = 10 \/ i = 11 \/ i = 12) by lia.
    unfold BLK_STS_OK, BLK_STS_AGAIN, BLK_STS_IOERR.
    repeat (destruct Hi as [->|Hi]); [..|subst i];
      vm_compute; repeat split; intros; try discriminate; try congruence;
      try (exfalso; intuition congruence); auto.
Qed.

Section BioChain.

Lemma s32_small x : 0 <= x < 2 ^ 31 -> s32 x = x.
Proof.
  intros Hx. unfold s32. rewrite Z.mod_small by lia.
  destruct (Z.ltb_spec x (2 ^ 31)); [reflexivity | lia].
Qed.

Lemma bio_clear_flag_flagged b bit : bio_flagged (bio_clear_flag b bit) bit = false.
Proof.
  unfold bio_flagged, bio_clear_flag. cbn [bi_flags].
  assert (Hz : Z.land (Z.ldiff (bi_flags b) (Z.shiftl 1 bit)) (Z.shiftl 1 bit) = 0).
  { apply Z.bits_inj'. intros n Hn.
    rewrite Z.land_spec, Z.ldiff_spec, Z.bits_0.
    destruct (Z.testbit (bi_flags b) n), (Z.testbit (Z.shiftl 1 bit) n); reflexivity. }
  now rewrite Hz.
Qed.

(** The parent after one more of its parts has completed, [child] being
    the status of a chained bio, or [None] for the parent's own
    completion. *)
Definition parent_after (pb : bio) (child : option Z) : bio :=
  let pb1 := match child with
             | Some st => if bi_status pb =? 0 then set_bi_status pb st else pb
             | None => pb
             end in
  let b1 := set_bi_remaining pb1 (__bi_remaining pb - 1) in
  if __bi_remaining pb - 1 =? 0 then bio_clear_flag b1 BIO_CHAIN else b1.

Lemma parent_after_facts pb child :
  bio_flagged pb BIO_CHAIN = true ->
  bi_end_io (parent_after pb child) = bi_end_io pb /\
  __bi_remaining (parent_after pb child) = __bi_remaining pb - 1 /\
  bi_status (parent_after pb child)
    = first_error (bi_status pb) (match child with Some st => [st] | None => [] end) /\
  bio_flagged (parent_after pb child) BIO_CHAIN = negb (__bi_remaining pb - 1 =? 0).
Proof.
  intros Hfl. unfold parent_after. cbv zeta.
  assert (Hst : bi_status match child with
                          | Some st => if bi_status pb =? 0 then set_bi_status pb st else pb
                          | None => pb
                          end
                = first_error (bi_status pb)
                    (match child with Some st => [st] | None => [] end)).
  { destruct child as [st|]; cbn [first_error fold_left]; [|reflexivity].
    destruct (bi_status pb =? 0); reflexivity. }
  assert (Hrest : forall b, b = match child with
                          | Some st => if bi_status pb =? 0 then set_bi_status pb st else pb
                          | None => pb
                          end ->
            bi_end_io b = bi_end_io pb /\ bio_flagged b BIO_CHAIN = true).
  { intros b ->. destruct child as [st|]; [destruct (bi_status pb =? 0)|]; auto. }
  destruct (Hrest _ eq_refl) as [He Hf].
  destruct (__bi_remaining pb - 1 =? 0); cbn [negb].
  - split; [exact He|]. split; [reflexivity|]. split; [exact Hst|].
    apply bio_clear_flag_flagged.
  - split; [exact He|]. split; [reflexivity|]. split; [exact Hst | exact Hf].
Qed.

(** The parent's own completion. *)
Lemma bio_endio_parent fuel h p pb id :
  h !! p = Some pb -> bio_flagged pb BIO_CHAIN = true -> bi_end_io pb = EndCall id ->
  0 < __bi_remaining pb < 2 ^ 31 ->
  bio_endio (S fuel) h p
  = Some (<[p := parent_after pb None]> h,
          if __bi_remaining pb - 1 =? 0 then [(id, p)] else []).
Proof.
  intros Hp Hfl Hend Hrem. cbn [bio_endio]. unfold bio_remaining_done.
  rewrite Hp. cbn [mbind option_bind]. rewrite Hfl. cbn [negb].
  destruct (Z.leb_spec (__bi_remaining pb) 0); [lia|].
  rewrite s32_small by lia. cbn [__bi_remaining set_bi_remaining].
  unfold parent_after. cbv zeta.
  destruct (__bi_remaining pb - 1 =? 0); cbn [negb mbind option_bind].
  - rewrite lookup_insert_eq. cbn [mbind option_bind bi_end_io bio_clear_flag
      set_bi_remaining]. now rewrite Hend.
  - reflexivity.
Qed.

(** The completion of a bio chained to the parent. *)
Lemma bio_endio_S fuel h a :
  bio_endio (S fuel) h a
  = ('(done, h1) ← bio_remaining_done h a;
     if negb (done : bool) then Some (h1, [])
     else
       b ← h1 !! a;
       match bi_end_io b with
       | EndChain => '(parent, h2) ← __bio_chain_endio h1 a; bio_endio fuel h2 parent
       | EndNone => Some (h1, [])
       | EndCall id => Some (h1, [(id, a)])
       end).
Proof. reflexivity. Qed.

Lemma bio_endio_child fuel h p pb c cb id :
  h !! p = Some pb -> bio_flagged pb BIO_CHAIN = true -> bi_end_io pb = EndCall id ->
  0 < __bi_remaining pb < 2 ^ 31 ->
  h !! c = Some cb -> c <> p -> chained_to cb p ->
  exists h',
    bio_endio (S (S fuel)) h c
    = Some (h', if __bi_remaining pb - 1 =? 0 then [(id, p)] else []) /\
    h' !! p = Some (parent_after pb (Some (bi_status cb))) /\
    h' !! c = None /\
    forall a, a <> p -> a <> c -> h' !! a = h !! a.
Proof.
  intros Hp Hfl Hend Hrem Hc Hne (Hcf & Hcr & Hce & Hcp).
  set (pb1 := if bi_status pb =? 0 then set_bi_status pb (bi_status cb) else pb).
  set (h1 := if bi_status pb =? 0
             then <[p := set_bi_status pb (bi_status cb)]> h else h).
  assert (Hh1p : h1 !! p = Some pb1).
  { unfold h1, pb1. destruct (bi_status pb =? 0); [apply lookup_insert_eq | exact Hp]. }
  assert (Hh1 : forall a, a <> p -> h1 !! a = h !! a).
  { intros a Ha. unfold h1. destruct (bi_status pb =? 0);
      [now apply lookup_insert_ne | reflexivity]. }
  assert (Hdone : bio_remaining_done h c = Some (true, h)).
  { unfold bio_remaining_done. rewrite Hc. cbn [mbind option_bind]. now rewrite Hcf. }
  assert (Hchain : __bio_chain_endio h c = Some (p, delete c h1)).
  { unfold __bio_chain_endio. rewrite Hc. cbn [mbind option_bind]. rewrite Hcp.
    cbn [mbind option_bind]. rewrite Hp. cbn [mbind option_bind]. fold h1.
    unfold bio_put. rewrite (Hh1 c Hne), Hc. cbn [mbind option_bind].
    now rewrite Hcr. }
  assert (Hpb1 : bio_flagged pb1 BIO_CHAIN = true /\ bi_end_io pb1 = EndCall id /\
                 __bi_remaining pb1 = __bi_remaining pb).
  { unfold pb1. destruct (bi_status pb =? 0); auto. }
  destruct Hpb1 as (Hfl1 & Hend1 & Hrem1).
  assert (Hdp : delete c h1 !! p = Some pb1).
  { rewrite lookup_delete_ne by congruence. exact Hh1p. }
  rewrite bio_endio_S, Hdone. cbn [mbind option_bind negb]. rewrite Hc.
  cbn [mbind option_bind]. rewrite Hce, Hchain. cbn [mbind option_bind].
  rewrite (bio_endio_parent fuel _ p pb1 id Hdp Hfl1 Hend1) by (rewrite Hrem1; exact Hrem).
  rewrite Hrem1.
  assert (Hafter : parent_after pb1 None = parent_after pb (Some (bi_status cb))).
  { unfold parent_after. cbv zeta. rewrite Hrem1. reflexivity. }
  rewrite Hafter.
  eexists. split; [reflexivity|]. split; [apply lookup_insert_eq|]. split.
  - rewrite lookup_insert_ne by congruence. apply lookup_delete_eq.
  - intros a Hap Hac. rewrite lookup_insert_ne by congruence.
    rewrite lookup_delete_ne by congruence. now apply Hh1.
Qed.

End BioChain.

Section BioFanIn.

Lemma child_statuses_ext h1 h p events :
  (forall c, In c events -> c <> p -> h1 !! c = h !! c) ->
  child_statuses h1 p events = child_statuses h p events.
Proof.
  induction events as [|a rest IH]; intros Hagree; [reflexivity|].
  unfold child_statuses in *. cbn [omap list_omap].
  rewrite IH by (intros c Hc; apply Hagree; now right).
  destruct (decide (a = p)) as [->|Hne]; [reflexivity|].
  rewrite (Hagree a (or_introl eq_refl) Hne). reflexivity.
Qed.

Lemma first_error_app s l1 l2 :
  first_error s (l1 ++ l2) = first_error (first_error s l1) l2.
Proof. unfold first_error. apply fold_left_app. Qed.

Lemma bio_fan_in_step fuel h p pb id a :
  h !! p = Some pb -> bio_flagged pb BIO_CHAIN = true -> bi_end_io pb = EndCall id ->
  0 < __bi_remaining pb < 2 ^ 31 ->
  (a = p \/ exists cb, h !! a = Some cb /\ chained_to cb p) ->
  exists h1 pb1,
    bio_endio (S (S fuel)) h a
    = Some (h1, if __bi_remaining pb - 1 =? 0 then [(id, p)] else []) /\
    h1 !! p = Some pb1 /\
    bi_end_io pb1 = EndCall id /\
    __bi_remaining pb1 = __bi_remaining pb - 1 /\
    bi_status pb1 = first_error (bi_status pb) (child_statuses h p [a]) /\
    bio_flagged pb1 BIO_CHAIN = negb (__bi_remaining pb - 1 =? 0) /\
    (a <> p -> h1 !! a = None) /\
    forall c, c <> p -> c <> a -> h1 !! c = h !! c.
Proof.
  intros Hp Hfl Hend Hrem Ha.
  destruct (decide (a = p)) as [->|Hne].
  - rewrite (bio_endio_parent (S fuel) h p pb id Hp Hfl Hend Hrem).
    destruct (parent_after_facts pb None Hfl) as (He & Hr & Hs & Hf).
    eexists _, _. split; [reflexivity|]. split; [apply lookup_insert_eq|].
    split; [congruence|]. split; [exact Hr|]. split.
    { rewrite Hs. unfold child_statuses. cbn [omap list_omap].
      now rewrite decide_True by reflexivity. }
    split; [exact Hf|]. split; [congruence|].
    intros c Hc _. now apply lookup_insert_ne.
  - destruct Ha as [->|(cb & Hc & Hch)]; [congruence|].
    destruct (bio_endio_child fuel h p pb a cb id Hp Hfl Hend Hrem Hc Hne Hch)
      as (h1 & Hrun & Hp1 & Hc1 & Hothers).
    destruct (parent_after_facts pb (Some (bi_status cb)) Hfl) as (He & Hr & Hs & Hf).
    exists h1, (parent_after pb (Some (bi_status cb))).
    split; [exact Hrun|]. split; [exact Hp1|]. split; [congruence|].
    split; [exact Hr|]. split.
    { rewrite Hs. unfold child_statuses. cbn [omap list_omap].
      rewrite decide_False by exact Hne. now rewrite Hc. }
    split; [exact Hf|]. split; [intros _; exact Hc1|].
    intros c Hcp Hca. now apply Hothers.
Qed.

End BioFanIn.

(** A parent bio that waits for [__bi_remaining] completions, its own and
    those of bios chained to it, in any order: as long as fewer than that
    have come in, no [bi_end_io] is called; the parent's [bi_end_io] is
    called, once, by the completion that brings the count to zero.  Every
    chained bio that has completed has been freed, the parent carries the
    first status that was not [BLK_STS_OK], its own before any other, and
    no other bio has been touched. *)
Theorem bio_endio_fan_in (fuel : nat) (h : gmap nat bio) (p id : nat) (pb : bio)
    (events : list nat) :
  h !! p = Some pb ->
  bio_flagged pb BIO_CHAIN = true -> bi_end_io pb = EndCall id ->
  0 < __bi_remaining pb < 2 ^ 31 ->
  Z.of_nat (length events) <= __bi_remaining pb ->
  List.NoDup (List.filter (fun c => negb (Nat.eqb c p)) events) ->
  Forall (fun c => c = p \/ exists cb, h !! c = Some cb /\ chained_to cb p) events ->
  exists h' pb',
    bio_endio_all (S (S fuel)) h events
    = Some (h', if Z.of_nat (length events) =? __bi_remaining pb
                then [(id, p)] else []) /\
    h' !! p = Some pb' /\
    bi_status pb' = first_error (bi_status pb) (child_statuses h p events) /\
    __bi_remaining pb' = __bi_remaining pb - Z.of_nat (length events) /\
    Forall (fun c => c <> p -> h' !! c = None) events /\
    forall a, a <> p -> ~ In a events -> h' !! a = h !! a.
Proof.
  revert h pb. induction events as [|a rest IH];
    intros h pb Hp Hfl Hend Hrem Hlen Hnd Hall.
  - exists h, pb. cbn [bio_endio_all length]. change (Z.of_nat 0) with 0.
    destruct (Z.eqb_spec 0 (__bi_remaining pb)); [lia|].
    split; [reflexivity|]. split; [exact Hp|]. split; [reflexivity|].
    split; [lia|]. split; [constructor | reflexivity].
  - inversion Hall as [|? ? Ha Hrest]; subst.
    destruct (bio_fan_in_step fuel h p pb id a Hp Hfl Hend Hrem Ha)
      as (h1 & pb1 & Hrun & Hp1 & Hend1 & Hrem1 & Hst1 & Hfl1 & Hfree & Hothers).
    cbn [length] in Hlen.
    assert (Hfresh : a <> p -> ~ In a rest).
    { intros Hne Hin. cbn [List.filter] in Hnd.
      destruct (Nat.eqb_spec a p) as [|_]; [contradiction|]. cbn [negb] in Hnd.
      apply List.NoDup_cons_iff in Hnd as [Hnotin _]. apply Hnotin.
      apply List.filter_In. split; [exact Hin|].
      destruct (Nat.eqb_spec a p); [contradiction | reflexivity]. }
    assert (Hnd' : List.NoDup (List.filter (fun c => negb (Nat.eqb c p)) rest)).
    { cbn [List.filter] in Hnd. destruct (negb (Nat.eqb a p)); [|exact Hnd].
      now apply List.NoDup_cons_iff in Hnd as [_ Hnd]. }
    assert (Hagree : forall c, In c rest -> c <> p -> h1 !! c = h !! c).
    { intros c Hc Hcp. apply Hothers; [exact Hcp|]. intros ->.
      destruct (decide (a = p)) as [->|Hne]; [contradiction|].
      exact (Hfresh Hne Hc). }
    cbn [bio_endio_all]. rewrite Hrun. cbn [mbind option_bind].
    destruct (Z.eqb_spec (__bi_remaining pb - 1) 0) as [Hlast|Hmore].
    + assert (rest = []) by (destruct rest; [reflexivity | cbn [length] in Hlen; lia]).
      subst rest. cbn [bio_endio_all mbind option_bind app length].
      destruct (Z.eqb_spec (Z.of_nat 1) (__bi_remaining pb)); [|lia].
      exists h1, pb1. split; [reflexivity|]. split; [exact Hp1|].
      split; [exact Hst1|]. split; [lia|]. split.
      * constructor; [exact Hfree | constructor].
      * intros c Hcp Hin. apply Hothers; [exact Hcp|]. intros ->. apply Hin. now left.
    + cbn [negb] in Hfl1.
      destruct (IH h1 pb1 Hp1 Hfl1 Hend1 ltac:(lia) ltac:(lia) Hnd')
        as (h' & pb' & Hrun' & Hp' & Hst' & Hrem' & Hfreed & Hothers').
      { apply List.Forall_forall. intros c Hc.
        rewrite List.Forall_forall in Hrest.
        destruct (Hrest c Hc) as [->|(cb & Hcb & Hch)]; [now left|].
        destruct (decide (c = p)) as [->|Hcp]; [now left|].
        right. exists cb. split; [|exact Hch]. rewrite (Hagree c Hc Hcp). exact Hcb. }
      rewrite Hrun'. cbn [mbind option_bind app].
      exists h', pb'. split.
      { f_equal. f_equal. rewrite Hrem1. cbn [length].
        destruct (Z.eqb_spec (Z.of_nat (length rest)) (__bi_remaining pb - 1)),
                 (Z.eqb_spec (Z.of_nat (S (length rest))) (__bi_remaining pb));
          try reflexivity; lia. }
      split; [exact Hp'|]. split.
      { rewrite Hst', Hst1, (child_statuses_ext h1 h p rest Hagree).
        rewrite <- first_error_app. f_equal. unfold child_statuses.
        cbn [omap list_omap].
        destruct (if decide (a = p) then None else bi_status <$> h !! a); reflexivity. }
      split; [cbn [length]; lia|]. split.
      * constructor; [|exact Hfreed].
        intros Hne. rewrite (Hothers' a Hne (Hfresh Hne)). now apply Hfree.
      * intros c Hcp Hin. rewrite Hothers'; [|exact Hcp | intros Hc; apply Hin; now right].
        apply Hothers; [exact Hcp|]. intros ->. apply Hin. now left.
Qed.

(** A parent at address 0 waiting for three completions, and two bios
    chained to it, the first failed with [BLK_STS_IOERR], the second with
    [BLK_STS_TRANSPORT]. *)
Definition bio_parent : bio :=
  {| bi_status := BLK_STS_OK; bi_flags := Z.shiftl 1 BIO_CHAIN; __bi_remaining := 3;
     bi_end_io := EndCall 7; bi_private := None; __bi_cnt := 0 |}.

Definition bio_child (status : Z) : bio :=
  {| bi_status := status; bi_flags := 0; __bi_remaining := 1;
     bi_end_io := EndChain; bi_private := Some 0%nat; __bi_cnt := 0 |}.

Definition bio_three : gmap nat bio :=
  <[0%nat := bio_parent]>
    (<[1%nat := bio_child BLK_STS_IOERR]>
       (<[2%nat := bio_child BLK_STS_TRANSPORT]> ∅)).

Lemma bio_endio_fan_in_witness :
  exists h' pb',
    bio_endio_all 2 bio_three [1; 0; 2]%nat
    = Some (h', if Z.of_nat (length [1; 0; 2]%nat) =? __bi_remaining bio_parent
                then [(7, 0)%nat] else []) /\
    h' !! 0%nat = Some pb' /\
    bi_status pb'
      = first_error (bi_status bio_parent) (child_statuses bio_three 0 [1; 0; 2]%nat) /\
    __bi_remaining pb' = __bi_remaining bio_parent - Z.of_nat (length [1; 0; 2]%nat) /\
    Forall (fun c => c <> 0%nat -> h' !! c = None) [1; 0; 2]%nat /\
    forall a, a <> 0%nat -> ~ In a [1; 0; 2]%nat -> h' !! a = bio_three !! a.
Proof.
  apply (bio_endio_fan_in 0 bio_three 0 7 bio_parent [1; 0; 2]%nat).
  - reflexivity.
  - reflexivity.
  - reflexivity.
  - vm_compute. split; reflexivity.
  - vm_compute. congruence.
  - cbn [List.filter Nat.eqb negb].
    constructor; [intros [E|[]]; discriminate|].
    constructor; [intros []|]. constructor.
  - constructor; [right; exists (bio_child BLK_STS_IOERR); repeat split|].
    constructor; [left; reflexivity|].
    constructor; [right; exists (bio_child BLK_STS_TRANSPORT); repeat split|].
    constructor.
Defined.

(** The same completions, run: nothing is called by the first two, the
    third calls the parent's [bi_end_io]; the parent has the status of the
    bio that failed first, and is alone on the heap. *)
Example bio_endio_runs :
  (snd <$> bio_endio_all 2 bio_three [1; 0]%nat) = Some [] /\
  (r ← bio_endio_all 2 bio_three [1; 0; 2]%nat;
   pb ← fst r !! 0%nat;
   Some (snd r, bi_status pb, __bi_remaining pb, bio_flagged pb BIO_CHAIN,
         map fst (map_to_list (fst r))))
  = Some ([(7, 0)%nat], BLK_STS_IOERR, 0, false, [0%nat]).
Proof. split; vm_compute; reflexivity. Qed.
